(* ===== verification/_CoqProject ===== *)
-Q . S2P
Prelude.v
Arch.v
AvrContext.v
MspContext.v
LinuxContext.v
LinkedList.v
Kernel.v
TaskQueue.v
Timer.v
Sched.v
Invariant.v
QueueLife.v
TimerLife.v
Decide.v
Sem.v
Tasks.v
Stack.v
Join.v
Mtx.v
Boost.v
WaitQueue.v
System.v
Timeouts.v
SysOk.v
Safety.v
Machine.v
Hazards.v
