(* ===== verification/Prelude.v ===== *)
(** * RadOs: a verification development

    RadOs is a small preemptive real-time kernel in C: fixed priorities, task
    queues, semaphores, mutexes with priority inheritance, wait queues, timers,
    and three ports (AVR, MSP430, and Linux, where signals play the interrupts).
    This library models the kernel and the ports as executable definitions and
    proves what they promise. Names of definitions are those of the C functions.

    ** The parts of the program and how they interact

    A task control block ([os_task_t]) embeds a list node and is, at any time, in
    at most one task queue ([os_taskqueue_t]): the ready queue, or the queue of
    the semaphore, mutex or wait queue it is blocked on. The scheduler
    (os_sched.c) takes the first task of the highest non-empty priority from the
    ready queue. The synchronisation objects block the running task with
    [os_task_block_switch], which ends in [arch_context_switch], and wake waiters
    by moving them to the ready queue and calling [os_schedule]. Waiting with a
    timeout arms a guard timer (os_timer.c) on the stack of the task; [os_tick],
    called by the timer interrupt, counts timers down and calls their callbacks,
    which wake the task with OS_TIMEOUT. Interrupts enter through
    [arch_contextstore_i] and leave through [arch_contextrestore_i], which
    resumes whatever task [task_current] then names.

    ** The files, in the order of _CoqProject

    - Prelude.v: lemmas and tactics shared by all files.
    - Arch.v (arch_port.h/.c of the three ports): widths, atomic operations,
      find-last-set; the class [ArchPort] that the kernel is parametric in, the
      class [ArchPortOk] of what the kernel relies on, an instance per port.
    - AvrContext.v, MspContext.v (arch/avr, arch/msp430): the assembly of context
      store, restore and switch as instruction lists run on a model of the core,
      and the initial stack of a task. LinuxContext.v (arch/linux): signal masks
      as critical sections, contexts as [ucontext_t], the switch by SIGUSR1.
    - LinkedList.v (list.h): the intrusive list on a memory of nodes.
    - Kernel.v (os_sched.h, os_private.h, os_mtx.h, os_timer.h): the TCB, mutex
      and timer records, all global variables as one record [kstate], the monad
      [K] of kernel code, assertions, critical sections.
    - TaskQueue.v (os_taskqueue_* of os_sched.c), Timer.v (os_timer.c and the
      guard timers of os_private.h), Sched.v (os_schedule, os_task_block_switch,
      scheduler lock, os_init, os_start, os_task_create, os_task_check, os_yield of
      os_sched.c, os_tick of os_timer.c).
    - Invariant.v: [kernel_ok], the invariant of queues and timers together, and
      the steps that several objects share (waking, arming, blocking).
      QueueLife.v: creation and destruction of the objects' queues. TimerLife.v:
      the two steps of os_timer_create. Decide.v: a boolean test of the
      invariant, for concrete states.
    - Sem.v (os_sem.c and the definitions of os_task_join, os_task_exit), Tasks.v
      (creating and ending tasks, os_init), Stack.v (the stack check of a task),
      Join.v (os_task_join), Mtx.v and
      Boost.v (os_mtx.c: ownership and priority reset; priority inheritance),
      WaitQueue.v (os_waitqueue.c), Timeouts.v (the callbacks of guard timers as
      clients of the timer component).
    - System.v: the machine. The running task may call any API function, and an
      interrupt may be taken in task code and inside the calls, wherever they work
      with interrupts enabled before a critical section ([point]); both step
      relation and executable runs. SysOk.v: the invariant of the whole system.
      Safety.v: applications that keep the rules of the API, and that no call of
      theirs goes wrong. Machine.v: the theorems about every reachable state.
    - Hazards.v: concrete runs that contradict comments of the code, and those of
      an interrupt in the middle of os_timer_create.

    ** State, errors, concurrency

    C memory is [kstate]: finite maps from the names of objects to their contents,
    with the pointers between list nodes in the map [links]. An outcome of kernel
    code ([res]) is a value with a state ([Done]), a halt ([Halted], a failed
    assertion), undefined behaviour ([Undef]: NULL or a wild pointer is
    dereferenced), an exhausted number of iterations ([NoFuel]), or a context
    switch in the middle of the function with the rest of the function as a
    continuation ([Switch]). Assertions are modelled as compiled in
    (OS_CONFIG_APICHECK and OS_CONFIG_SELFCHECKING). Counters have the width of
    their port and wrap around.

    Most kernel code runs with interrupts masked; the machine of System.v
    interleaves its critical sections, the continuations saved by context
    switches, and interrupts, which may nest. The calls that write shared data
    before their critical section or between two atomic accesses
    (os_timer_create, os_task_create, os_scheduler_unlock, os_start,
    os_waitqueue_prepare, os_waitqueue_break) are cut in two there, and an
    interrupt and the tasks it wakes may run in between ([api_uninterrupted]: the
    two halves are the call). A task resumed inside a critical section goes on
    with interrupts masked. AvrContext.v and LinuxContext.v prove this of their
    ports; the end of an interrupt on the MSP430 does not do it
    ([msp_isr_exit_unmasks]), so the field [arch_isr_exit_masked] of that port is
    false, and the theorems of Machine.v are for the ports where it is true.
    Local variables are uninitialised memory: what the guard timer of a blocking
    call holds is an argument ([junk]) of the call.

    ** What the theorems show

    - Data structures: lists represent sequences and the list operations are
      sequence operations (LinkedList.v); a task queue refines a stable priority
      queue (TaskQueue.v).
    - Operations: what each call of the API does to tasks, queues, timers and
      objects on its branches, under the invariant, which it keeps (Sched.v,
      Timer.v, Sem.v, Mtx.v, Boost.v, WaitQueue.v, Tasks.v, Join.v, Timeouts.v).
    - The whole system (Machine.v): from start-up on, in every interleaving of
      calls, context switches and interrupts, nothing goes wrong but failed
      assertions; the running task is the most urgent one; values fit their types.
      The applications are those of Safety.v: without mutexes, with timer
      callbacks that leave the kernel alone, and such that a timer or a task is
      used by nobody else while it is being created. Hazards.v shows that the last
      rule is needed.
    - Ports: contexts survive switches and interrupts, new tasks start with their
      arguments, critical sections nest.
    - Defects: an endless loop of priority inheritance in a deadlock and a lowered
      priority (Boost.v), a wrapping recursion counter (Mtx.v), a stale return
      code (WaitQueue.v), interrupts or signals enabled too early (MspContext.v,
      LinuxContext.v), and the runs of Hazards.v.

    ** Fuel

    Loops over lists take a number of iterations. Theorems ask for as many as the
    loop can need, and running out is an outcome of its own, so they also show
    that the loops end: one per waiter or armed timer and one to see the end; two
    per armed timer in a tick, which walks the expired timers and then those to be
    armed again; one per blocked owner on a chain of mutexes. In Machine.v
    2 * (tasks + timers) + 1 iterations are enough for every loop. The loop of
    priority inheritance is shown to exhaust any number in a deadlock.

    ** Not modelled

    - Task code, timer callbacks of the application, the idle loop and
      [arch_task_init] as seen by the kernel are parameters; the theorems of
      Timeouts.v and Machine.v take callbacks that leave the kernel alone.
    - Interrupts between single instructions of an API function outside its
      critical sections: its assertions and its first writes, to an object that
      nobody else uses yet, are one step of the machine, and so are
      os_sem_create, os_waitqueue_create and the start of os_timer_create.
    - Machine.v leaves out mutexes, which have theorems per call in Mtx.v and
      Boost.v, and the MSP430, where no task can be created and the end of an
      interrupt enables interrupts inside critical sections.
    - The floating-point state and the alternate signal stack of the Linux port.
    - Unit tests and their harness, Makefiles, documentation. *)

From stdpp Require Import base decidable list gmap.
From Stdlib Require Import ZArith Lia.

(** ** Tactics shared by the development *)

(** Split the hypotheses that are conjunctions or existentials. *)
Ltac decompose_hyps :=
  repeat match goal with
  | H : _ ∧ _ |- _ => destruct H
  | H : ∃ _, _ |- _ => destruct H
  end.

(** Case analysis on every [decide] of the goal, closing the absurd cases. *)
Ltac decide_all :=
  repeat case_decide; subst; simplify_eq/=; try done; try congruence.

(** ** Removing an element from a list *)

Lemma filter_ne_id {A} `{EqDecision A} (l : list A) (x : A) : x ∉ l → filter (.≠ x) l = l.
Proof.
  induction l as [| y l IH]; [done |]. rewrite not_elem_of_cons, filter_cons. intros [? ?].
  rewrite decide_True by done. by rewrite IH.
Qed.

Lemma filter_ne_split {A} `{EqDecision A} (l r : list A) (x : A) :
  NoDup (l ++ x :: r) → filter (.≠ x) (l ++ x :: r) = l ++ r.
Proof.
  intros (_ & Hd & [Hx _]%NoDup_cons)%NoDup_app.
  rewrite filter_app, filter_cons, decide_False by (intros ?; congruence).
  rewrite !filter_ne_id; [done | done |]. intros Hl. apply (Hd x Hl), list_elem_of_here.
Qed.

Lemma filter_none {A} (P : A → Prop) `{∀ x, Decision (P x)} (l : list A) :
  (∀ x, x ∈ l → ¬ P x) → filter P l = [].
Proof.
  induction l as [| y l IH]; intros Hl; [done |]. rewrite filter_cons.
  rewrite decide_False by (apply Hl, list_elem_of_here). apply IH.
  intros x Hx. by apply Hl, list_elem_of_further.
Qed.

Lemma filter_all_id {A} (P : A → Prop) `{∀ x, Decision (P x)} (l : list A) :
  (∀ x, x ∈ l → P x) → filter P l = l.
Proof.
  induction l as [| y l IH]; intros Hl; [done |]. rewrite filter_cons.
  rewrite decide_True by (apply Hl, list_elem_of_here). f_equal. apply IH.
  intros x Hx. by apply Hl, list_elem_of_further.
Qed.

(** ** Memories and register files as functions *)

Definition upd {A} (f : Z → A) (a : Z) (v : A) : Z → A := λ x, if (x =? a)%Z then v else f x.

Lemma upd_eq {A} (f : Z → A) a v : upd f a v a = v.
Proof. unfold upd. by rewrite Z.eqb_refl. Qed.
Lemma upd_ne {A} (f : Z → A) a v x : x ≠ a → upd f a v x = f x.
Proof. intros H. unfold upd. by rewrite (proj2 (Z.eqb_neq _ _) H). Qed.
