(* ===== verification/Arch.v ===== *)
(** * The architecture ports (arch/avr, arch/msp430, arch/linux)

    What the kernel takes from a port: the width of [arch_atomic_t] and
    [arch_ticks_t], the atomic operations on [arch_atomic_t] cells and the
    find-last-set operation on the 8-bit [arch_bitmask_t]. The class
    [ArchPort] collects them, [ArchPortOk] states what the kernel relies on,
    and one instance per port discharges it from that port's macros and
    tables. [None] as the result of an atomic operation is the port's
    [arch_halt()] branch for an unsupported operand size. *)

From stdpp Require Import base decidable list numbers.
From Stdlib Require Import ZArith Lia.
From S2P Require Import Prelude.

Local Open Scope Z_scope.

(** [arch_bitmask_set]/[arch_bitmask_clear]: the same macros in the three
    ports, on a [uint8_t] lvalue (the [int] result is truncated). *)
Definition arch_bitmask_set (bitfield bit : Z) : Z :=
  Z.land (Z.lor bitfield (Z.shiftl 1 bit)) 255.
Definition arch_bitmask_clear (bitfield bit : Z) : Z :=
  Z.land (Z.land bitfield (Z.lnot (Z.shiftl 1 bit))) 255.

(** The table of arch/avr/arch_port.c, 16 entries per line. *)
Definition avr_log2lkup : list Z :=
  [0; 1; 2; 2; 3; 3; 3; 3; 4; 4; 4; 4; 4; 4; 4; 4;
   5; 5; 5; 5; 5; 5; 5; 5; 5; 5; 5; 5; 5; 5; 5; 5;
   6; 6; 6; 6; 6; 6; 6; 6; 6; 6; 6; 6; 6; 6; 6; 6;
   6; 6; 6; 6; 6; 6; 6; 6; 6; 6; 6; 6; 6; 6; 6; 6;
   7; 7; 7; 7; 7; 7; 7; 7; 7; 7; 7; 7; 7; 7; 7; 7;
   7; 7; 7; 7; 7; 7; 7; 7; 7; 7; 7; 7; 7; 7; 7; 7;
   7; 7; 7; 7; 7; 7; 7; 7; 7; 7; 7; 7; 7; 7; 7; 7;
   7; 7; 7; 7; 7; 7; 7; 7; 7; 7; 7; 7; 7; 7; 7; 7;
   8; 8; 8; 8; 8; 8; 8; 8; 8; 8; 8; 8; 8; 8; 8; 8;
   8; 8; 8; 8; 8; 8; 8; 8; 8; 8; 8; 8; 8; 8; 8; 8;
   8; 8; 8; 8; 8; 8; 8; 8; 8; 8; 8; 8; 8; 8; 8; 8;
   8; 8; 8; 8; 8; 8; 8; 8; 8; 8; 8; 8; 8; 8; 8; 8;
   8; 8; 8; 8; 8; 8; 8; 8; 8; 8; 8; 8; 8; 8; 8; 8;
   8; 8; 8; 8; 8; 8; 8; 8; 8; 8; 8; 8; 8; 8; 8; 8;
   8; 8; 8; 8; 8; 8; 8; 8; 8; 8; 8; 8; 8; 8; 8; 8;
   8; 8; 8; 8; 8; 8; 8; 8; 8; 8; 8; 8; 8; 8; 8; 8].

(** [log2lkup[bitfield]]; the index is a [uint8_t], so it is in range. *)
Definition avr_arch_bitmask_fls (bitfield : Z) : Z :=
  default 0 (avr_log2lkup !! Z.to_nat (bitfield mod 256)).

(** The table of arch/msp430/arch_port.c. *)
Definition msp430_log2lkup : list Z :=
  [0; 1; 2; 2; 3; 3; 3; 3; 4; 4; 4; 4; 4; 4; 4; 4;
   5; 5; 5; 5; 5; 5; 5; 5; 5; 5; 5; 5; 5; 5; 5; 5;
   6; 6; 6; 6; 6; 6; 6; 6; 6; 6; 6; 6; 6; 6; 6; 6;
   6; 6; 6; 6; 6; 6; 6; 6; 6; 6; 6; 6; 6; 6; 6; 6;
   7; 7; 7; 7; 7; 7; 7; 7; 7; 7; 7; 7; 7; 7; 7; 7;
   7; 7; 7; 7; 7; 7; 7; 7; 7; 7; 7; 7; 7; 7; 7; 7;
   7; 7; 7; 7; 7; 7; 7; 7; 7; 7; 7; 7; 7; 7; 7; 7;
   7; 7; 7; 7; 7; 7; 7; 7; 7; 7; 7; 7; 7; 7; 7; 7;
   8; 8; 8; 8; 8; 8; 8; 8; 8; 8; 8; 8; 8; 8; 8; 8;
   8; 8; 8; 8; 8; 8; 8; 8; 8; 8; 8; 8; 8; 8; 8; 8;
   8; 8; 8; 8; 8; 8; 8; 8; 8; 8; 8; 8; 8; 8; 8; 8;
   8; 8; 8; 8; 8; 8; 8; 8; 8; 8; 8; 8; 8; 8; 8; 8;
   8; 8; 8; 8; 8; 8; 8; 8; 8; 8; 8; 8; 8; 8; 8; 8;
   8; 8; 8; 8; 8; 8; 8; 8; 8; 8; 8; 8; 8; 8; 8; 8;
   8; 8; 8; 8; 8; 8; 8; 8; 8; 8; 8; 8; 8; 8; 8; 8;
   8; 8; 8; 8; 8; 8; 8; 8; 8; 8; 8; 8; 8; 8; 8; 8].

Definition msp430_arch_bitmask_fls (bitfield : Z) : Z :=
  default 0 (msp430_log2lkup !! Z.to_nat (bitfield mod 256)).

(** [__builtin_clz] of a non-zero 32-bit [unsigned int]: the number of leading
    zero bits, counted from bit 31 downwards. *)
Fixpoint clz_from (n : nat) (x : Z) : Z :=
  match n with
  | O => 0
  | S n' => if Z.testbit x (Z.of_nat n') then 0 else 1 + clz_from n' x
  end.
Definition builtin_clz (x : Z) : Z := clz_from 32 x.

(** [arch_bitmask_fls] of arch/linux/arch_port.h *)
Definition linux_arch_bitmask_fls (bitfield : Z) : Z :=
  if bitfield =? 0 then 0 else 4 * 8 - builtin_clz bitfield.

(** *** AVR atomics: one critical section around a load, a change and a store,
    selected by [sizeof] of the operand. *)
Definition avr_os_atomic_inc_load (size v : Z) : option Z :=
  if size =? 1 then Some ((v + 1) mod 2 ^ 8)
  else if size =? 2 then Some ((v + 1) mod 2 ^ 16)
  else None.
Definition avr_os_atomic_dec_load (size v : Z) : option Z :=
  if size =? 1 then Some ((v - 1) mod 2 ^ 8)
  else if size =? 2 then Some ((v - 1) mod 2 ^ 16)
  else None.
Definition avr_os_atomic_inc (size v : Z) : option Z := avr_os_atomic_inc_load size v.
Definition avr_os_atomic_dec (size v : Z) : option Z := avr_os_atomic_dec_load size v.
(** [os_atomic_load] *)
Definition avr_os_atomic_load (size v : Z) : option Z := if size =? 2 then Some v else None.
(** [os_atomic_store]: nothing is written for an operand that is not 16 bits wide. *)
Definition avr_os_atomic_store (size old v : Z) : Z :=
  if size =? 2 then v mod 2 ^ 16 else old.
(** [os_atomic_exch]: the new content of the cell and the returned old one. *)
Definition avr_os_atomic_exch (size cell v : Z) : option (Z * Z) :=
  if size =? 2 then Some (v mod 2 ^ 16, cell) else None.
(** [os_atomic_cmp_exch]: cell, expected value and the [fail] flag afterwards;
    for another operand size [fail] is never assigned. *)
Definition avr_os_atomic_cmp_exch (size cell exp_val v : Z) : option (Z * Z * bool) :=
  if size =? 2 then
    if cell =? exp_val then Some (v mod 2 ^ 16, exp_val, false)
    else Some (cell, cell, true)
  else None.

(** *** MSP430 atomics: [inc]/[dec] directly on a 16-bit memory operand. *)
Definition msp430_os_atomic_inc_load (size v : Z) : option Z :=
  if size =? 1 then Some ((v + 1) mod 2 ^ 8)
  else if size =? 2 then Some ((v + 1) mod 2 ^ 16)
  else None.
Definition msp430_os_atomic_dec_load (size v : Z) : option Z :=
  if size =? 1 then Some ((v - 1) mod 2 ^ 8)
  else if size =? 2 then Some ((v - 1) mod 2 ^ 16)
  else None.
Definition msp430_os_atomic_inc (size v : Z) : Z :=
  if size =? 2 then (v + 1) mod 2 ^ 16 else v.
Definition msp430_os_atomic_dec (size v : Z) : Z :=
  if size =? 2 then (v - 1) mod 2 ^ 16 else v.
Definition msp430_os_atomic_load (size v : Z) : option Z := if size =? 2 then Some v else None.
Definition msp430_os_atomic_store (size old v : Z) : Z :=
  if size =? 2 then v mod 2 ^ 16 else old.
Definition msp430_os_atomic_exch (size cell v : Z) : option (Z * Z) :=
  if size =? 2 then Some (v mod 2 ^ 16, cell) else None.
Definition msp430_os_atomic_cmp_exch (size cell exp_val v : Z) : option (Z * Z * bool) :=
  if size =? 2 then
    if cell =? exp_val then Some (v mod 2 ^ 16, exp_val, false)
    else Some (cell, cell, true)
  else None.

(** *** Linux atomics: [__atomic_add_fetch]/[__atomic_sub_fetch] on a
    [sig_atomic_t] (32-bit [int], two's complement wrap-around). *)
Definition int32_wrap (v : Z) : Z := (v + 2 ^ 31) mod 2 ^ 32 - 2 ^ 31.
Definition linux_os_atomic_inc_load (v : Z) : Z := int32_wrap (v + 1).
Definition linux_os_atomic_dec_load (v : Z) : Z := int32_wrap (v - 1).
Definition linux_os_atomic_inc (v : Z) : Z := linux_os_atomic_inc_load v.
Definition linux_os_atomic_dec (v : Z) : Z := linux_os_atomic_dec_load v.
Definition linux_os_atomic_load (cell : Z) : Z := cell.
Definition linux_os_atomic_store (old v : Z) : Z := v.
Definition linux_os_atomic_exch (cell v : Z) : Z * Z := (v, cell).
Definition linux_os_atomic_cmp_exch (cell exp_val v : Z) : Z * Z * bool :=
  if cell =? exp_val then (v, exp_val, false) else (cell, cell, true).

(** ** The interface between the kernel and a port *)

Class ArchPort := {
  ARCH_ATOMIC_MAX : Z;
  ARCH_TICKS_MAX : Z;
  arch_ticks_bits : Z;                        (** width of [arch_ticks_t] *)
  arch_atomic_wrap : Z → Z;                   (** conversion to [arch_atomic_t] *)
  arch_bitmask_fls : Z → Z;
  os_atomic_inc : Z → option Z;               (** on an [arch_atomic_t] cell *)
  os_atomic_dec_load : Z → option Z;
  OS_STACK_MINSIZE : Z;
  OS_STACK_DESCENDING : bool;
  (** a task that gave the CPU away inside the kernel is resumed with interrupts
      masked, also when the end of an interrupt resumes it *)
  arch_isr_exit_masked : bool
}.

Class ArchPortOk (P : ArchPort) : Prop := {
  fls_zero : arch_bitmask_fls 0 = 0;
  fls_log2 : ∀ m, 0 < m < 256 → arch_bitmask_fls m = Z.log2 m + 1;
  atomic_wide : 255 ≤ ARCH_ATOMIC_MAX;
  atomic_wrap_id : ∀ v, 0 ≤ v ≤ ARCH_ATOMIC_MAX → arch_atomic_wrap v = v;
  atomic_inc_ok : ∀ v, 0 ≤ v < ARCH_ATOMIC_MAX → os_atomic_inc v = Some (v + 1);
  atomic_dec_ok : ∀ v, 0 < v ≤ ARCH_ATOMIC_MAX → os_atomic_dec_load v = Some (v - 1);
  ticks_max : ARCH_TICKS_MAX = 65535;
  ticks_wide : 16 ≤ arch_ticks_bits
}.

Definition avr_port : ArchPort := {|
  ARCH_ATOMIC_MAX := 255;
  ARCH_TICKS_MAX := 65535;
  arch_ticks_bits := 16;
  arch_atomic_wrap v := v mod 2 ^ 8;
  arch_bitmask_fls := avr_arch_bitmask_fls;
  os_atomic_inc := avr_os_atomic_inc 1;
  os_atomic_dec_load := avr_os_atomic_dec_load 1;
  OS_STACK_MINSIZE := 35 * 4;
  OS_STACK_DESCENDING := true;
  arch_isr_exit_masked := true
|}.

Definition msp430_port : ArchPort := {|
  ARCH_ATOMIC_MAX := 65535;
  ARCH_TICKS_MAX := 65535;
  arch_ticks_bits := 16;
  arch_atomic_wrap v := v mod 2 ^ 16;
  arch_bitmask_fls := msp430_arch_bitmask_fls;
  os_atomic_inc v := Some (msp430_os_atomic_inc 2 v);
  os_atomic_dec_load := msp430_os_atomic_dec_load 2;
  OS_STACK_MINSIZE := 28 * 4;
  OS_STACK_DESCENDING := true;
  arch_isr_exit_masked := false   (** [arch_contextrestore_i] sets [GIE], see MspContext.v *)
|}.

(** [SIGSTKSZ] is a constant of the C library. *)
Definition linux_port (SIGSTKSZ : Z) : ArchPort := {|
  ARCH_ATOMIC_MAX := 2 ^ 31 - 1;
  ARCH_TICKS_MAX := 65535;
  arch_ticks_bits := 64;
  arch_atomic_wrap := int32_wrap;
  arch_bitmask_fls := linux_arch_bitmask_fls;
  os_atomic_inc v := Some (linux_os_atomic_inc v);
  os_atomic_dec_load v := Some (linux_os_atomic_dec_load v);
  OS_STACK_MINSIZE := SIGSTKSZ;
  OS_STACK_DESCENDING := true;
  arch_isr_exit_masked := true
|}.

(** ** Bit masks *)

Lemma ones_255 : 255 = Z.ones 8.
Proof. reflexivity. Qed.

Lemma bitmask_set_testbit m b i : 0 ≤ b < 8 → 0 ≤ i < 8 →
  Z.testbit (arch_bitmask_set m b) i = (i =? b) || Z.testbit m i.
Proof.
  intros Hb Hi. unfold arch_bitmask_set.
  rewrite ones_255, Z.land_spec, Z.ones_spec_low, andb_true_r by lia.
  rewrite Z.lor_spec, Z.shiftl_spec by lia. rewrite orb_comm. f_equal.
  destruct (Z.eqb_spec i b) as [-> | Hne]; [by rewrite Z.sub_diag |].
  destruct (Z.ltb_spec (i - b) 0); [by apply Z.testbit_neg_r |].
  apply Z.bits_above_log2; cbn; lia.
Qed.

Lemma bitmask_clear_testbit m b i : 0 ≤ b < 8 → 0 ≤ i < 8 →
  Z.testbit (arch_bitmask_clear m b) i = negb (i =? b) && Z.testbit m i.
Proof.
  intros Hb Hi. unfold arch_bitmask_clear.
  rewrite ones_255, Z.land_spec, Z.ones_spec_low, andb_true_r by lia.
  rewrite Z.land_spec, Z.lnot_spec, Z.shiftl_spec by lia. rewrite andb_comm. f_equal.
  destruct (Z.eqb_spec i b) as [-> | Hne]; [by rewrite Z.sub_diag |].
  destruct (Z.ltb_spec (i - b) 0); [by rewrite Z.testbit_neg_r |].
  rewrite (Z.bits_above_log2 1); cbn; [done | lia | lia].
Qed.

Lemma land_255_range v : 0 ≤ Z.land v 255 < 256.
Proof.
  rewrite ones_255, Z.land_ones by lia. change (2 ^ 8) with 256. apply Z.mod_pos_bound. lia.
Qed.

Lemma bitmask_set_range m b : 0 ≤ arch_bitmask_set m b < 256.
Proof. apply land_255_range. Qed.
Lemma bitmask_clear_range m b : 0 ≤ arch_bitmask_clear m b < 256.
Proof. apply land_255_range. Qed.

(** An 8-bit mask is zero when its eight bits are. *)
Lemma mask_zero m : 0 ≤ m < 256 → (∀ i, 0 ≤ i < 8 → Z.testbit m i = false) → m = 0.
Proof.
  intros Hm Hi. apply Z.bits_inj_0. intros i.
  destruct (Z.ltb_spec i 0); [by apply Z.testbit_neg_r |].
  destruct (Z.ltb_spec i 8); [apply Hi; lia |].
  destruct (decide (m = 0)) as [-> | Hm0]; [apply Z.bits_0 |].
  apply Z.bits_above_log2; [lia |]. apply Z.lt_le_trans with 8; [| lia].
  apply Z.log2_lt_pow2; lia.
Qed.

Lemma forall_mask (P : Z → bool) : forallb P (seqZ 0 256) = true → ∀ m, 0 ≤ m < 256 → P m = true.
Proof.
  intros HP m Hm. rewrite forallb_forall in HP. apply HP, list_elem_of_In, elem_of_seqZ. lia.
Qed.

Lemma fls_table (fls : Z → Z) :
  forallb (λ m, fls m =? (if m =? 0 then 0 else Z.log2 m + 1)) (seqZ 0 256) = true →
  fls 0 = 0 ∧ ∀ m, 0 < m < 256 → fls m = Z.log2 m + 1.
Proof.
  intros H. pose proof (forall_mask _ H) as Hm. split.
  - specialize (Hm 0 ltac:(lia)). apply Z.eqb_eq in Hm. done.
  - intros m ?. specialize (Hm m ltac:(lia)). apply Z.eqb_eq in Hm. rewrite Hm.
    destruct (Z.eqb_spec m 0); lia.
Qed.

#[export] Instance avr_port_ok : ArchPortOk avr_port.
Proof.
  destruct (fls_table avr_arch_bitmask_fls) as [H0 H1]; [by vm_compute |].
  split; cbn; auto; try lia; intros v Hv; unfold avr_os_atomic_inc, avr_os_atomic_inc_load, avr_os_atomic_dec_load;
    cbn; try f_equal; apply Z.mod_small; lia.
Qed.

#[export] Instance msp430_port_ok : ArchPortOk msp430_port.
Proof.
  destruct (fls_table msp430_arch_bitmask_fls) as [H0 H1]; [by vm_compute |].
  split; cbn; auto; try lia; intros v Hv; unfold msp430_os_atomic_inc, msp430_os_atomic_dec_load;
    cbn; try f_equal; apply Z.mod_small; lia.
Qed.

Lemma int32_wrap_id v : - 2 ^ 31 ≤ v < 2 ^ 31 → int32_wrap v = v.
Proof. intros. unfold int32_wrap. rewrite Z.mod_small; lia. Qed.

#[export] Instance linux_port_ok n : ArchPortOk (linux_port n).
Proof.
  destruct (fls_table linux_arch_bitmask_fls) as [H0 H1]; [by vm_compute |].
  split; cbn; auto; try lia; intros v Hv; unfold linux_os_atomic_inc, linux_os_atomic_inc_load, linux_os_atomic_dec_load;
    rewrite int32_wrap_id; try done; lia.
Qed.

(** [fls] is a maximum: the highest set bit, counted from one. *)
Lemma fls_highest {P : ArchPort} {HP : ArchPortOk P} m : 0 < m < 256 →
  ∃ p, arch_bitmask_fls m = p + 1 ∧ 0 ≤ p < 8 ∧ Z.testbit m p = true ∧
    ∀ i, p < i → Z.testbit m i = false.
Proof.
  intros Hm. exists (Z.log2 m). rewrite fls_log2 by done. split_and!; [done | apply Z.log2_nonneg | | |].
  - apply Z.log2_lt_pow2; lia.
  - apply Z.bit_log2; lia.
  - intros i Hi. apply Z.bits_above_log2; lia.
Qed.

(** ** Properties of the ports *)

(** C40: The three ports compute the same find-last-set. On every 8-bit mask the
    256-entry tables of the AVR and MSP430 ports and the [__builtin_clz]
    expression of the Linux port give the same value: 0 for the empty mask,
    otherwise one more than the index of the highest bit set. *)
Theorem fls_ports_agree m : 0 ≤ m < 256 →
  avr_arch_bitmask_fls m = (if m =? 0 then 0 else Z.log2 m + 1) ∧
  msp430_arch_bitmask_fls m = avr_arch_bitmask_fls m ∧
  linux_arch_bitmask_fls m = avr_arch_bitmask_fls m.
Proof.
  intros Hm.
  destruct (fls_table avr_arch_bitmask_fls) as [A0 A1]; [by vm_compute |].
  destruct (fls_table msp430_arch_bitmask_fls) as [M0 M1]; [by vm_compute |].
  destruct (fls_table linux_arch_bitmask_fls) as [L0 L1]; [by vm_compute |].
  destruct (Z.eqb_spec m 0) as [-> |]; [by rewrite A0, M0, L0 |].
  by rewrite A1, M1, L1 by lia.
Qed.

Lemma fls_ports_agree_witness :
  avr_arch_bitmask_fls 20 = 5 ∧ msp430_arch_bitmask_fls 20 = avr_arch_bitmask_fls 20 ∧
  linux_arch_bitmask_fls 20 = avr_arch_bitmask_fls 20.
Proof. apply (fls_ports_agree 20). lia. Defined.

(** Atomic increment and decrement undo each other at the width of the
    cell. On AVR and MSP430, for 8- and 16-bit cells, [os_atomic_dec_load]
    after [os_atomic_inc_load] (and the other way round) restores the cell for
    every content, also across the wrap-around; on Linux for every 32-bit
    [sig_atomic_t]. A cell of another size is refused. *)
Theorem atomic_inc_dec size v : 0 ≤ v < 2 ^ (8 * size) →
  (size = 1 ∨ size = 2 →
    (avr_os_atomic_inc_load size v ≫= avr_os_atomic_dec_load size) = Some v ∧
    (avr_os_atomic_dec_load size v ≫= avr_os_atomic_inc_load size) = Some v ∧
    (msp430_os_atomic_inc_load size v ≫= msp430_os_atomic_dec_load size) = Some v ∧
    (msp430_os_atomic_dec_load size v ≫= msp430_os_atomic_inc_load size) = Some v) ∧
  (size = 4 → let w := v - 2 ^ 31 in
    linux_os_atomic_dec_load (linux_os_atomic_inc_load w) = w ∧
    linux_os_atomic_inc_load (linux_os_atomic_dec_load w) = w) ∧
  (size ≠ 1 → size ≠ 2 → avr_os_atomic_inc_load size v = None ∧ msp430_os_atomic_inc_load size v = None).
Proof.
  intros Hv. split_and!.
  - intros Hs. unfold avr_os_atomic_inc_load, avr_os_atomic_dec_load,
      msp430_os_atomic_inc_load, msp430_os_atomic_dec_load.
    destruct Hs as [-> | ->]; cbn -[Z.pow Z.modulo] in *; split_and!; f_equal;
      rewrite ?Zminus_mod_idemp_l, ?Zplus_mod_idemp_l, ?Z.add_simpl_r, ?Z.sub_add;
      by apply Z.mod_small.
  - intros -> w. unfold linux_os_atomic_inc_load, linux_os_atomic_dec_load, int32_wrap.
    split; subst w; cbn -[Z.modulo] in *; Z.div_mod_to_equations; lia.
  - intros H1 H2. unfold avr_os_atomic_inc_load, msp430_os_atomic_inc_load.
    by rewrite !(proj2 (Z.eqb_neq size _)) by done.
Qed.

Lemma atomic_inc_dec_witness :
  (avr_os_atomic_inc_load 1 255 ≫= avr_os_atomic_dec_load 1) = Some 255.
Proof. apply (atomic_inc_dec 1 255); [lia | by left]. Defined.

(** Exchange and compare-and-exchange of the three ports agree on 16-bit
    cells: an exchange is a load followed by a store; a compare-and-exchange stores
    when the cell has the expected value, and otherwise leaves the cell alone and
    puts its content into the expected value. *)
Theorem atomic_exchange_agrees cell exp_val v : 0 ≤ cell < 2 ^ 16 → 0 ≤ v < 2 ^ 16 →
  avr_os_atomic_exch 2 cell v = Some (linux_os_atomic_exch cell v) ∧
  msp430_os_atomic_exch 2 cell v = Some (linux_os_atomic_exch cell v) ∧
  linux_os_atomic_exch cell v = (linux_os_atomic_store cell v, linux_os_atomic_load cell) ∧
  avr_os_atomic_cmp_exch 2 cell exp_val v = Some (linux_os_atomic_cmp_exch cell exp_val v) ∧
  msp430_os_atomic_cmp_exch 2 cell exp_val v = Some (linux_os_atomic_cmp_exch cell exp_val v) ∧
  let '(cell', exp_val', fail) := linux_os_atomic_cmp_exch cell exp_val v in
  (cell = exp_val → cell' = v ∧ exp_val' = exp_val ∧ fail = false) ∧
  (cell ≠ exp_val → cell' = cell ∧ exp_val' = cell ∧ fail = true).
Proof.
  intros Hc Hv. unfold avr_os_atomic_exch, msp430_os_atomic_exch, avr_os_atomic_cmp_exch, msp430_os_atomic_cmp_exch,
    linux_os_atomic_exch, linux_os_atomic_cmp_exch. cbn -[Z.pow Z.modulo]. rewrite (Z.mod_small v) by done.
  by destruct (Z.eqb_spec cell exp_val); split_and!.
Qed.
