(* ===== verification/AvrContext.v ===== *)
(** * The AVR port: context store, restore and switch (arch/avr)

    The assembly of [arch_contextstore_i] and [arch_contextrestore_i]
    (arch_port.h) and of [arch_context_switch] (arch_port.c) as lists of
    instructions, executed on the part of an AVR core they use: the register
    file, the status register, the stack pointer, RAMPZ, and data memory; and
    [arch_task_init], which lays out the first context of a task. Interrupts are
    not taken while this code runs: that the interrupt flag stays clear up to the
    final return is part of what is proved.

    The arithmetic flags, including those nothing here depends on, are those of
    the AVR instruction set. The argument [new_task] of [arch_context_switch] is
    in the register pair r25:r24, as the calling convention has it. *)

From stdpp Require Import base decidable list.
From Stdlib Require Import ZArith Lia.
From S2P Require Import Prelude.

Local Open Scope Z_scope.

(** ** The core *)

Record cpu := Cpu {
  reg : Z → Z;                       (** r0 - r31 *)
  sreg : Z;
  sp : Z;
  pc : Z;                            (** where the last return went *)
  rampz : Z;
  mem : Z → Z                        (** data memory *)
}.

Definition set_reg r v c := Cpu (upd (reg c) r v) (sreg c) (sp c) (pc c) (rampz c) (mem c).
Definition set_sreg v c := Cpu (reg c) v (sp c) (pc c) (rampz c) (mem c).
Definition set_sp v c := Cpu (reg c) (sreg c) v (pc c) (rampz c) (mem c).
Definition set_pc v c := Cpu (reg c) (sreg c) (sp c) v (rampz c) (mem c).
Definition set_rampz v c := Cpu (reg c) (sreg c) (sp c) (pc c) v (mem c).
Definition set_mem a v c := Cpu (reg c) (sreg c) (sp c) (pc c) (rampz c) (upd (mem c) a v).

(** Register pairs and the stack: push stores and decrements, pop increments and loads. *)
Definition pair (c : cpu) (r : Z) : Z := reg c (r + 1) * 256 + reg c r.
Definition push (v : Z) (c : cpu) : cpu := set_sp ((sp c - 1) mod 65536) (set_mem (sp c) v c).
Definition pop_sp (c : cpu) : cpu := set_sp ((sp c + 1) mod 65536) c.

(** Bits of SREG: C Z N V S H T I. *)
Definition setf (i : Z) (b : bool) (s : Z) : Z := if b then Z.setbit s i else Z.clearbit s i.
Definition flag_C := 0.
Definition flag_Z := 1.
Definition flag_N := 2.
Definition flag_V := 3.
Definition flag_S := 4.
Definition flag_H := 5.
Definition SREG_I := 7.
Definition set_nvz (n v z : bool) (s : Z) : Z :=
  setf flag_S (xorb n v) (setf flag_V v (setf flag_N n (setf flag_Z z s))).

(** ** Instructions *)

Inductive instr :=
| Ipush (r : Z) | Ipop (r : Z)
| Ieor (d r : Z) | Isbr (r k : Z) | Icbr (r k : Z) | Iinc (r : Z) | Idec (r : Z) | Icpi (r k : Z)
| Isbiw (r k : Z) | Imovw (d r : Z)
| Iin_spl (r : Z) | Iin_sph (r : Z) | Iout_spl (r : Z) | Iout_sph (r : Z)
| Iin_sreg (r : Z) | Iout_sreg (r : Z) | Iin_rampz (r : Z) | Iout_rampz (r : Z)
| Ilds (r a : Z) | Ists (a r : Z) | Ild_Z (r q : Z) | Ist_Z (q r : Z)   (** [ld]/[ldd], [st]/[std] at Z+q *)
| Icli.

Definition op (i : instr) (c : cpu) : cpu :=
  match i with
  | Ipush r => push (reg c r) c
  | Ipop r => let c := pop_sp c in set_reg r (mem c (sp c)) c
  | Ieor d r => let v := Z.lxor (reg c d) (reg c r) in
      set_sreg (set_nvz (Z.testbit v 7) false (v =? 0) (sreg c)) (set_reg d v c)
  | Isbr r k => let v := Z.lor (reg c r) k in
      set_sreg (set_nvz (Z.testbit v 7) false (v =? 0) (sreg c)) (set_reg r v c)
  | Icbr r k => let v := Z.land (reg c r) (255 - k) in
      set_sreg (set_nvz (Z.testbit v 7) false (v =? 0) (sreg c)) (set_reg r v c)
  | Iinc r => let v := (reg c r + 1) mod 256 in
      set_sreg (set_nvz (Z.testbit v 7) (reg c r =? 127) (v =? 0) (sreg c)) (set_reg r v c)
  | Idec r => let v := (reg c r - 1) mod 256 in
      set_sreg (set_nvz (Z.testbit v 7) (reg c r =? 128) (v =? 0) (sreg c)) (set_reg r v c)
  | Icpi r k => let x := reg c r in let v := (x - k) mod 256 in
      set_sreg (set_nvz (Z.testbit v 7)
          (xorb (Z.testbit x 7) (Z.testbit k 7) && xorb (Z.testbit x 7) (Z.testbit v 7)) (v =? 0)
        (setf flag_C (x <? k) (setf flag_H (x mod 16 <? k mod 16) (sreg c)))) c
  | Isbiw r k => let x := pair c r in let v := (x - k) mod 65536 in
      set_sreg (set_nvz (Z.testbit v 15) (Z.testbit x 15 && negb (Z.testbit v 15)) (v =? 0)
        (setf flag_C (negb (Z.testbit x 15) && Z.testbit v 15) (sreg c)))
        (set_reg (r + 1) (v / 256) (set_reg r (v mod 256) c))
  | Imovw d r => set_reg (d + 1) (reg c (r + 1)) (set_reg d (reg c r) c)
  | Iin_spl r => set_reg r (sp c mod 256) c
  | Iin_sph r => set_reg r (sp c / 256) c
  | Iout_spl r => set_sp (sp c / 256 * 256 + reg c r) c
  | Iout_sph r => set_sp (reg c r * 256 + sp c mod 256) c
  | Iin_sreg r => set_reg r (sreg c) c
  | Iout_sreg r => set_sreg (reg c r) c
  | Iin_rampz r => set_reg r (rampz c) c
  | Iout_rampz r => set_rampz (reg c r) c
  | Ilds r a => set_reg r (mem c a) c
  | Ists a r => set_mem a (reg c r) c
  | Ild_Z r q => set_reg r (mem c (pair c 30 + q)) c
  | Ist_Z q r => set_mem (pair c 30 + q) (reg c r) c
  | Icli => set_sreg (Z.clearbit (sreg c) SREG_I) c
  end.

(** Lines of assembly: instructions, forward jumps, labels and returns. *)
Inductive label := Lenableint | Lnested.
#[export] Instance label_eq : EqDecision label.
Proof. solve_decision. Defined.
Inductive line :=
| I (i : instr) | L (l : label) | Isbrc (r b : Z) | Irjmp (l : label) | Ibrne (l : label) | Iret | Ireti.

Fixpoint goto (l : label) (code : list line) : list line :=
  match code with
  | [] => []
  | L l' :: code => if decide (l = l') then code else goto l code
  | _ :: code => goto l code
  end.
(** The code behind the next instruction. *)
Fixpoint skip (code : list line) : list line :=
  match code with [] => [] | L _ :: code => skip code | _ :: code => code end.

(** The return address: high byte popped first. *)
Definition pop_pc (c : cpu) : cpu :=
  let c1 := pop_sp c in let c2 := pop_sp c1 in
  set_pc (mem c (sp c1) * 256 + mem c (sp c2)) c2.

(** How a piece of code is left, with the values SREG had after each instruction. *)
Inductive outcome := Returned (c : cpu) | Through (c : cpu) | Nofuel.
Fixpoint exec (fuel : nat) (code : list line) (c : cpu) : list Z * outcome :=
  match fuel with
  | O => ([], Nofuel)
  | S fuel =>
      let after c r := (sreg c :: fst r, snd r) in
      match code with
      | [] => ([], Through c)
      | I i :: code => let c := op i c in after c (exec fuel code c)
      | L _ :: code => exec fuel code c
      | Isbrc r b :: code => after c (exec fuel (if Z.testbit (reg c r) b then code else skip code) c)
      | Irjmp l :: code => after c (exec fuel (goto l code) c)
      | Ibrne l :: code => after c (exec fuel (if Z.testbit (sreg c) flag_Z then code else goto l code) c)
      | Iret :: _ => let c := pop_pc c in ([sreg c], Returned c)
      | Ireti :: _ => let c := pop_pc c in let c := set_sreg (Z.setbit (sreg c) SREG_I) c in ([sreg c], Returned c)
      end
  end.
Definition execute (code : list line) (c : cpu) : list Z * outcome := exec (S (length code)) code c.

(** ** The code of the port *)

Section port.
(** [__AVR_HAVE_RAMPZ__] is defined; the addresses of [task_current] and
    [isr_nesting]. *)
Context (have_rampz : bool) (a_task_current a_isr_nesting : Z).

Definition arch_push_rampz : list instr := if have_rampz then [Iin_rampz 16; Ipush 16] else [].
Definition arch_pop_rampz : list instr := if have_rampz then [Ipop 16; Iout_rampz 16] else [].

(** The pops common to both ways of restoring a context, up to [arch_pop_rampz]. *)
Definition pop_registers : list instr :=
  [Ipop 31; Ipop 30; Ipop 27; Ipop 26; Ipop 25; Ipop 24; Ipop 23; Ipop 22; Ipop 21; Ipop 20; Ipop 19; Ipop 18;
   Ipop 17;
   Ipop 15; Ipop 14; Ipop 13; Ipop 12; Ipop 11; Ipop 10; Ipop 9; Ipop 8; Ipop 7; Ipop 6; Ipop 5; Ipop 4; Ipop 3;
   Ipop 2; Ipop 1; Ipop 0; Ipop 29; Ipop 28].
(** The end of both: return with or without enabling interrupts. *)
Definition return_code : list line :=
  [I (Ipop 16);
   Isbrc 16 7;
   Irjmp Lenableint;
   I (Iout_sreg 16);
   I (Ipop 16);
   Iret;
   L Lenableint;
   I (Icbr 16 128);
   I (Iout_sreg 16);
   I (Ipop 16);
   Ireti].

Definition arch_context_switch : list line :=
  (I <$> [Ipush 16; Ieor 16 16; Ipush 16] ++ arch_push_rampz ++
    [Ipush 28; Ipush 29;
     Ipush 0; Ipush 1; Ipush 2; Ipush 3; Ipush 4; Ipush 5; Ipush 6; Ipush 7; Ipush 8; Ipush 9; Ipush 10; Ipush 11;
     Ipush 12; Ipush 13; Ipush 14; Ipush 15;
     Ipush 17;
     Iin_spl 28; Iin_sph 29; Isbiw 28 12;
     Ilds 30 a_task_current; Ilds 31 (a_task_current + 1);
     Ist_Z 0 28; Ist_Z 1 29;
     Ists a_task_current 24; Ists (a_task_current + 1) 25;
     Imovw 30 24;
     Ild_Z 28 0; Ild_Z 29 1;
     Iout_spl 28; Iout_sph 29] ++
    pop_registers ++ arch_pop_rampz) ++ return_code.

Definition arch_contextstore_i : list line :=
  (I <$> [Ipush 16; Iin_sreg 16; Isbr 16 128; Ipush 16] ++ arch_push_rampz ++
    [Ipush 28; Ipush 29;
     Ipush 0; Ipush 1; Ipush 2; Ipush 3; Ipush 4; Ipush 5; Ipush 6; Ipush 7; Ipush 8; Ipush 9; Ipush 10; Ipush 11;
     Ipush 12; Ipush 13; Ipush 14; Ipush 15;
     Ipush 17; Ipush 18; Ipush 19; Ipush 20; Ipush 21; Ipush 22; Ipush 23; Ipush 24; Ipush 25; Ipush 26; Ipush 27;
     Ipush 30; Ipush 31;
     Ilds 16 a_isr_nesting; Iinc 16; Ists a_isr_nesting 16;
     Iin_spl 28; Iin_sph 29; Ieor 1 1;
     Icpi 16 1]) ++
  [Ibrne Lnested;
   I (Ilds 30 a_task_current); I (Ilds 31 (a_task_current + 1));
   I (Ist_Z 0 28); I (Ist_Z 1 29);
   L Lnested].

Definition arch_contextrestore_i : list line :=
  [I Icli;
   I (Ilds 16 a_isr_nesting); I (Idec 16); I (Ists a_isr_nesting 16);
   Ibrne Lnested;
   I (Ilds 30 a_task_current); I (Ilds 31 (a_task_current + 1));
   I (Ild_Z 16 0); I (Ild_Z 17 1);
   I (Iout_spl 16); I (Iout_sph 17);
   L Lnested] ++
  (I <$> pop_registers ++ arch_pop_rampz) ++ return_code.

(** [arch_task_init]: the bytes stored from the top of the stack downwards, and
    the stack pointer in [task->ctx]. [arch_task_start] is the (word) address of
    the trampoline; [stack_param] and the others are addresses. *)
Fixpoint store_down (bs : list Z) (stack : Z) (m : Z → Z) : Z * (Z → Z) :=
  match bs with [] => (stack, m) | b :: bs => store_down bs (stack - 1) (upd m stack b) end.

Definition arch_task_init (arch_task_start task stack_param stack_size proc param : Z) (m : Z → Z) : Z → Z :=
  let stack := stack_param + stack_size - 1 in
  let frame_ptr := (stack_param + stack_size - 3) mod 65536 in
  let '(stack, m) := store_down
    ([Z.land arch_task_start 255; Z.shiftr arch_task_start 8;
      0; Z.shiftl 1 SREG_I] ++
     (if have_rampz then [0] else []) ++
     [Z.land frame_ptr 255; Z.shiftr (Z.land frame_ptr 65280) 8;
      0; 0; 0; 0; 0; 0; 0; 0; 0; 0; 0; 0; 0; 0; 0; 0;       (* R0 - R15 *)
      0; 0; 0; 0; 0;                                        (* R17 - R21 *)
      Z.land param 255; Z.shiftr (Z.land param 65280) 8;    (* R22, R23 *)
      Z.land proc 255; Z.shiftr (Z.land proc 65280) 8;      (* R24, R25 *)
      0; 0; 0; 0]) stack m in                               (* R26, R27, R30, R31 *)
  upd (upd m task (stack mod 256)) (task + 1) (stack mod 65536 / 256).

(** ** Straight-line code *)

Definition ops (prog : list instr) (c : cpu) : cpu := foldl (λ c i, op i c) c prog.
Fixpoint trace (prog : list instr) (c : cpu) : list Z :=
  match prog with [] => [] | i :: prog => sreg (op i c) :: trace prog (op i c) end.
Definition masked (s : Z) : Prop := Z.testbit s SREG_I = false.

Lemma ops_app prog js c : ops (prog ++ js) c = ops js (ops prog c).
Proof. apply foldl_app. Qed.

Lemma exec_straight prog code n c :
  exec (length prog + n) ((I <$> prog) ++ code) c
  = (trace prog c ++ fst (exec n code (ops prog c)), snd (exec n code (ops prog c))).
Proof.
  revert c. induction prog as [|i prog IH]; intros c; simpl; [by destruct (exec n code c)|].
  by rewrite IH.
Qed.

(** Only [out SREG] and [cli] write the interrupt flag before the return. *)
Definition keeps_I (i : instr) : bool :=
  match i with Iout_sreg _ | Icli => false | _ => true end.

Lemma setf_I i b s : 0 ≤ i < 7 → Z.testbit (setf i b s) SREG_I = Z.testbit s SREG_I.
Proof.
  intros Hi. unfold setf, SREG_I. destruct b.
  - rewrite Z.setbit_neq by lia. done.
  - rewrite Z.clearbit_neq by lia. done.
Qed.
Lemma set_nvz_I n v z s : Z.testbit (set_nvz n v z s) SREG_I = Z.testbit s SREG_I.
Proof.
  unfold set_nvz, flag_S, flag_V, flag_N, flag_Z. rewrite !setf_I by lia. done.
Qed.

Lemma op_keeps_I i c : keeps_I i = true → Z.testbit (sreg (op i c)) SREG_I = Z.testbit (sreg c) SREG_I.
Proof.
  destruct i; intros Hk; try discriminate Hk; cbn -[set_nvz setf Z.testbit SREG_I]; try done;
    rewrite set_nvz_I; try done; unfold flag_C, flag_H; rewrite ?setf_I by lia; done.
Qed.

Lemma ops_masked prog c :
  forallb keeps_I prog = true → masked (sreg c) →
  Forall masked (trace prog c) ∧ masked (sreg (ops prog c)).
Proof.
  revert c. induction prog as [|i prog IH]; intros c Hk Hc; [done|].
  simpl in Hk. apply andb_true_iff in Hk as [Hi Hp].
  assert (masked (sreg (op i c))) as Hm by (unfold masked in *; by rewrite op_keeps_I).
  destruct (IH _ Hp Hm). split; [by constructor|done].
Qed.

(** ** Pushing and popping *)

(** What [store_down] writes, and that it writes nothing else. *)
Lemma store_down_sp bs s m : fst (store_down bs s m) = s - Z.of_nat (length bs).
Proof. revert s m. induction bs as [|b bs IH]; intros s m; simpl; [lia|]. rewrite IH. lia. Qed.
Lemma store_down_out bs s m a :
  a ≤ s - Z.of_nat (length bs) ∨ s < a → snd (store_down bs s m) a = m a.
Proof.
  revert s m. induction bs as [|b bs IH]; intros s m Ha; simpl in *; [done|].
  rewrite IH by lia. apply upd_ne. lia.
Qed.
Lemma store_down_in bs s m i b :
  bs !! i = Some b → snd (store_down bs s m) (s - Z.of_nat i) = b.
Proof.
  revert s m i. induction bs as [|b' bs IH]; intros s m [|i] Hi; simpl in *; try discriminate.
  - injection Hi as ->. rewrite store_down_out by lia. rewrite Z.sub_0_r. apply upd_eq.
  - rewrite <- (IH (s - 1) (upd m s b') i Hi). f_equal. lia.
Qed.
Lemma store_down_app bs bs' s m :
  store_down (bs ++ bs') s m
  = store_down bs' (fst (store_down bs s m)) (snd (store_down bs s m)).
Proof. revert s m. induction bs as [|b bs IH]; intros s m; simpl; [done|]. by rewrite IH. Qed.

(** Reads of a register a sequence has written. *)
Ltac reg_reads :=
  repeat match goal with
  | |- context [upd ?f (Zpos ?a) ?v (Zpos ?x)] =>
      change (upd f (Zpos a) v (Zpos x)) with (if Zpos x =? Zpos a then v else f (Zpos x));
      cbn [Z.eqb Pos.eqb]
  end.

(** A run of pushes stores the registers downwards and changes nothing else. *)
Lemma ops_push rs c :
  Z.of_nat (length rs) ≤ sp c < 65536 →
  ops (Ipush <$> rs) c
  = Cpu (reg c) (sreg c) (sp c - Z.of_nat (length rs)) (pc c) (rampz c)
      (snd (store_down (reg c <$> rs) (sp c) (mem c))).
Proof.
  revert c. induction rs as [|r rs IH]; intros c Hs; simpl in *.
  - destruct c; simpl. by rewrite Z.sub_0_r.
  - assert (op (Ipush r) c = Cpu (reg c) (sreg c) (sp c - 1) (pc c) (rampz c) (upd (mem c) (sp c) (reg c r)))
      as Hop by (cbn; unfold push, set_sp; simpl; by rewrite Z.mod_small by lia).
    cbn [op] in Hop. rewrite Hop, IH; simpl; [|lia]. f_equal. lia.
Qed.

(** A run of pops loads successive bytes. *)
Lemma ops_pop rs c :
  NoDup rs → 0 ≤ sp c → sp c + Z.of_nat (length rs) < 65536 →
  let c' := ops (Ipop <$> rs) c in
  sp c' = sp c + Z.of_nat (length rs) ∧ mem c' = mem c ∧ sreg c' = sreg c ∧
  pc c' = pc c ∧ rampz c' = rampz c ∧
  (∀ r, r ∉ rs → reg c' r = reg c r) ∧
  (∀ i r, rs !! i = Some r → reg c' r = mem c (sp c + 1 + Z.of_nat i)).
Proof.
  revert c. induction rs as [|r rs IH]; intros c Hd H0 Hs.
  - simpl. split_and!; try done. lia.
  - apply NoDup_cons in Hd as [Hr Hd]. cbn [length] in Hs.
    assert (op (Ipop r) c = Cpu (upd (reg c) r (mem c (sp c + 1))) (sreg c) (sp c + 1) (pc c) (rampz c) (mem c))
      as Hop by (cbn; unfold pop_sp, set_sp; simpl; by rewrite Z.mod_small by lia).
    change (ops (Ipop <$> r :: rs) c) with (ops (Ipop <$> rs) (op (Ipop r) c)). rewrite Hop.
    edestruct (IH (Cpu (upd (reg c) r (mem c (sp c + 1))) (sreg c) (sp c + 1) (pc c) (rampz c) (mem c)))
      as (E1 & E2 & E3 & E4 & E5 & E6 & E7); simpl in *; try done; try lia.
    split_and!; try done; [lia| |].
    + intros x Hx. apply not_elem_of_cons in Hx as [Hn Hx]. rewrite E6 by done. by apply upd_ne.
    + intros [|i] x Hi; simpl in Hi.
      * injection Hi as <-. rewrite E6 by done. rewrite upd_eq. f_equal. lia.
      * rewrite (E7 i x Hi). f_equal. lia.
Qed.

(** ** A stored context *)

Record context := Context {
  ctx_reg : Z → Z;
  ctx_sreg : Z;
  ctx_rampz : Z;
  ctx_pc : Z
}.

(** The bytes of a context from the stack pointer upwards, in the order of the
    pops, and a context stored above the stack pointer [p]. *)
Definition popped : list Z :=
  [31; 30; 27; 26; 25; 24; 23; 22; 21; 20; 19; 18; 17; 15; 14; 13; 12; 11; 10; 9; 8; 7; 6; 5; 4; 3; 2; 1; 0; 29; 28].
Definition rampz_bytes (v : Z) : list Z := if have_rampz then [v] else [].
Definition image (f : context) : list Z :=
  (ctx_reg f <$> popped) ++ rampz_bytes (ctx_rampz f) ++
  [ctx_sreg f; ctx_reg f 16; ctx_pc f / 256; ctx_pc f mod 256].
Definition frame_size : Z := if have_rampz then 36 else 35.
Definition stored (m : Z → Z) (a : Z) (bs : list Z) : Prop :=
  ∀ i b, bs !! i = Some b → m (a + Z.of_nat i) = b.
Definition holds (m : Z → Z) (p : Z) (f : context) : Prop := stored m (p + 1) (image f).

(** The core right after the context [f], stored at [p] in memory [m], was
    resumed. *)
Record resumed (f : context) (p : Z) (m : Z → Z) (c : cpu) : Prop := {
  resumed_reg r : 0 ≤ r < 32 → reg c r = ctx_reg f r;
  resumed_sreg : sreg c = ctx_sreg f;
  resumed_rampz : have_rampz = true → rampz c = ctx_rampz f;
  resumed_pc : pc c = ctx_pc f;
  resumed_sp : sp c = p + frame_size;
  resumed_mem : mem c = m
}.

(** A run that keeps interrupts masked until it resumes [f]. *)
Definition resumes (f : context) (p : Z) (m : Z → Z) (r : list Z * outcome) : Prop :=
  ∃ tr c, r = (tr ++ [ctx_sreg f], Returned c) ∧ Forall masked tr ∧ resumed f p m c.

Lemma set_clear_I s : 0 ≤ s < 256 → Z.testbit s SREG_I = true → Z.setbit (Z.land s 127) SREG_I = s.
Proof.
  intros Hs Hb. apply Z.bits_inj'. intros n Hn. unfold SREG_I in *.
  destruct (decide (n = 7)) as [->|Hne]; [by rewrite Z.setbit_eq by lia|].
  rewrite Z.setbit_neq, Z.land_spec by lia.
  change 127 with (Z.ones 7). destruct (decide (n < 7)).
  - rewrite Z.ones_spec_low by lia. by rewrite andb_true_r.
  - rewrite Z.ones_spec_high by lia. rewrite andb_false_r. symmetry.
    apply Z.testbit_false; [lia|]. rewrite Z.div_small; [done|].
    split; [lia|]. apply (Z.lt_le_trans _ (2 ^ 8)); [lia|]. apply Z.pow_le_mono_r; lia.
Qed.
Lemma land_masked s : masked (Z.land s 127).
Proof. unfold masked, SREG_I. rewrite Z.land_spec. apply andb_false_r. Qed.

(** One line at a time. *)
Lemma exec_I n i code c tr o :
  exec n code (op i c) = (tr, o) → exec (S n) (I i :: code) c = (sreg (op i c) :: tr, o).
Proof. intros H. cbn [exec]. cbv zeta. by rewrite H. Qed.
Lemma exec_L n l code c : exec (S n) (L l :: code) c = exec n code c.
Proof. done. Qed.
Lemma exec_sbrc n r b code c tr o :
  exec n (if Z.testbit (reg c r) b then code else skip code) c = (tr, o) →
  exec (S n) (Isbrc r b :: code) c = (sreg c :: tr, o).
Proof. intros H. cbn [exec]. cbv zeta. by rewrite H. Qed.
Lemma exec_rjmp n l code c tr o :
  exec n (goto l code) c = (tr, o) → exec (S n) (Irjmp l :: code) c = (sreg c :: tr, o).
Proof. intros H. cbn [exec]. cbv zeta. by rewrite H. Qed.
Lemma exec_brne n l code c tr o :
  exec n (if Z.testbit (sreg c) flag_Z then code else goto l code) c = (tr, o) →
  exec (S n) (Ibrne l :: code) c = (sreg c :: tr, o).
Proof. intros H. cbn [exec]. cbv zeta. by rewrite H. Qed.

(** Returning: SREG, r16 and the return address are on the stack. *)
Lemma return_spec n s r16 pch pcl c :
  masked (sreg c) → 0 ≤ sp c → sp c + 4 < 65536 → 0 ≤ s < 256 →
  mem c (sp c + 1) = s → mem c (sp c + 2) = r16 → mem c (sp c + 3) = pch → mem c (sp c + 4) = pcl →
  ∃ tr c', exec (12 + n) return_code c = (tr ++ [s], Returned c') ∧ Forall masked tr ∧
    (∀ r, reg c' r = if decide (r = 16) then r16 else reg c r) ∧
    sreg c' = s ∧ sp c' = sp c + 4 ∧ pc c' = pch * 256 + pcl ∧ rampz c' = rampz c ∧ mem c' = mem c.
Proof.
  destruct c as [rg sr p pc0 rz m]; cbn [reg sreg sp pc rampz mem].
  intros Hm H0 Hs Hr E1 E2 E3 E4.
  assert (∀ i rg sr p pc rz, 0 ≤ p + 1 < 65536 → op (Ipop i) (Cpu rg sr p pc rz m)
    = Cpu (upd rg i (m (p + 1))) sr (p + 1) pc rz m) as Hpop.
  { intros i rg' sr' p' pc' rz' Hp. cbn. unfold pop_sp, set_sp, set_reg. cbn. by rewrite Z.mod_small by lia. }
  assert (∀ rg sr p rz, 0 ≤ p → p + 2 < 65536 → pop_pc (Cpu rg sr p pc0 rz m)
    = Cpu rg sr (p + 2) (m (p + 1) * 256 + m (p + 2)) rz m) as Hpc.
  { intros rg' sr' p' rz' Hp Hp'. unfold pop_pc, pop_sp, set_sp, set_pc. cbn [sp mem reg sreg rampz].
    rewrite (Z.mod_small (p' + 1)), (Z.mod_small (p' + 1 + 1)) by lia.
    by replace (p' + 1 + 1) with (p' + 2) by lia. }
  replace (p + 4) with (p + 1 + 1 + 2) by lia.
  assert (∀ r, upd (upd rg 16 s) 16 r16 r = if decide (r = 16) then r16 else rg r) as Hrg.
  { intros r. destruct (decide (r = 16)) as [->|Hne]; [apply upd_eq|]. by rewrite !upd_ne. }
  replace (p + 2) with (p + 1 + 1) in E2 by lia.
  replace (p + 3) with (p + 1 + 1 + 1) in E3 by lia. replace (p + 4) with (p + 1 + 1 + 2) in E4 by lia.
  unfold return_code. destruct (Z.testbit s SREG_I) eqn:HI.
  - exists [sr; sr; sr; set_nvz (Z.testbit (Z.land s 127) 7) false (Z.land s 127 =? 0) sr; Z.land s 127; Z.land s 127],
      (Cpu (upd (upd (upd rg 16 s) 16 (Z.land s 127)) 16 r16) s (p + 1 + 1 + 2) (pch * 256 + pcl) rz m).
    split_and!; cbn [reg sreg sp pc rampz mem]; try done.
    + cbn [app Nat.add]. apply exec_I. rewrite Hpop, E1 by lia.
      apply exec_sbrc. cbn [reg]. rewrite upd_eq. unfold SREG_I in HI. rewrite HI.
      apply exec_rjmp. change (goto Lenableint _) with [I (Icbr 16 128); I (Iout_sreg 16); I (Ipop 16); Ireti].
      apply exec_I. cbn [op reg sreg]. rewrite upd_eq. apply exec_I. cbn [op reg sreg set_sreg set_reg].
      rewrite upd_eq. apply exec_I. unfold set_sreg, set_reg. cbn [reg sreg sp pc rampz mem]. rewrite Hpop, E2 by lia. cbn [exec].
      rewrite Hpc, E3, E4 by lia. unfold set_sreg. cbn [sreg reg sp pc rampz mem]. change (255 - 128) with 127.
      by rewrite set_clear_I.
    + repeat constructor; try done; try apply land_masked. unfold masked. by rewrite set_nvz_I.
    + intros r. destruct (decide (r = 16)) as [->|Hne]; [apply upd_eq|]. by rewrite !upd_ne.
  - exists [sr; sr; s; s],
      (Cpu (upd (upd rg 16 s) 16 r16) s (p + 1 + 1 + 2) (pch * 256 + pcl) rz m).
    split_and!; cbn [reg sreg sp pc rampz mem]; try done.
    + cbn [app Nat.add]. apply exec_I. rewrite Hpop, E1 by lia.
      apply exec_sbrc. cbn [reg]. rewrite upd_eq. unfold SREG_I in HI. rewrite HI. cbn [skip].
      apply exec_I. cbn [op reg sreg]. rewrite upd_eq. apply exec_I. unfold set_sreg. cbn [reg sreg sp pc rampz mem].
      rewrite Hpop, E2 by lia. cbn [exec]. by rewrite Hpc, E3, E4 by lia.
    + repeat constructor; done.
Qed.

(** ** Restoring a context *)

Lemma popped_spec r : 0 ≤ r < 32 → r ≠ 16 → ∃ i, popped !! i = Some r.
Proof.
  intros Hr Hne. apply list_elem_of_lookup.
  assert (Forall (λ n : nat, n ≠ 16%nat → Z.of_nat n ∈ popped) (seq 0 32)) as H
    by (apply (bool_decide_unpack _); vm_compute; done).
  rewrite Forall_forall in H. rewrite <- (Z2Nat.id r) by lia. apply H; [apply elem_of_seq|]; lia.
Qed.

Lemma pop_rampz_spec c :
  0 ≤ sp c → sp c + 1 < 65536 →
  let c' := ops arch_pop_rampz c in
  sp c' = sp c + Z.of_nat (length (rampz_bytes 0)) ∧ mem c' = mem c ∧ sreg c' = sreg c ∧
  (∀ r, r ≠ 16 → reg c' r = reg c r) ∧ (have_rampz = true → rampz c' = mem c (sp c + 1)).
Proof.
  intros H0 Hs. unfold arch_pop_rampz, rampz_bytes. destruct have_rampz; cbn.
  - unfold pop_sp, set_sp, set_reg, set_rampz; cbn. rewrite Z.mod_small by lia.
    split_and!; try done. intros r Hr. by apply upd_ne.
  - split_and!; try done. lia.
Qed.

Lemma restore_spec n f c :
  holds (mem c) (sp c) f → masked (sreg c) →
  0 ≤ sp c → sp c + frame_size < 65536 → 0 ≤ ctx_sreg f < 256 →
  resumes f (sp c) (mem c)
    (exec (length (pop_registers ++ arch_pop_rampz) + (12 + n))
       ((I <$> pop_registers ++ arch_pop_rampz) ++ return_code) c).
Proof.
  intros Hf Hm H0 Hs Hr.
  assert (forallb keeps_I (pop_registers ++ arch_pop_rampz) = true) as Hk
    by (unfold arch_pop_rampz; by destruct have_rampz).
  destruct (ops_masked _ c Hk Hm) as [Ht Hm'].
  rewrite exec_straight, ops_app in *.
  change pop_registers with (Ipop <$> popped) in *.
  assert (frame_size = 35 + Z.of_nat (length (rampz_bytes 0))) as Hfs
    by (unfold frame_size, rampz_bytes; by destruct have_rampz).
  destruct (ops_pop popped c) as (P1 & P2 & P3 & P4 & P5 & P6 & P7);
    [by apply (bool_decide_unpack _); vm_compute|lia|change (length popped) with 31%nat; lia|].
  change (length popped) with 31%nat in P1.
  set (c1 := ops (Ipop <$> popped) c) in *.
  destruct (pop_rampz_spec c1) as (R1 & R2 & R3 & R4 & R5); [lia..|].
  set (c2 := ops arch_pop_rampz c1) in *.
  assert (∀ k b, [ctx_sreg f; ctx_reg f 16; ctx_pc f / 256; ctx_pc f mod 256] !! k = Some b →
    mem c2 (sp c2 + 1 + Z.of_nat k) = b) as Htail.
  { intros k b Hb. rewrite R2, P2.
    rewrite <- (Hf (31 + (length (rampz_bytes 0) + k))%nat b); [f_equal; lia|].
    unfold image. rewrite lookup_app_r by (simpl; lia).
    rewrite lookup_app_r by (unfold rampz_bytes; destruct have_rampz; simpl; lia).
    rewrite <- Hb. f_equal. unfold rampz_bytes; destruct have_rampz; simpl; lia. }
  destruct (return_spec n (ctx_sreg f) (ctx_reg f 16) (ctx_pc f / 256) (ctx_pc f mod 256) c2)
    as (tr & c' & Hex & Htr & Q1 & Q2 & Q3 & Q4 & Q5 & Q6); try done; try lia.
  1: by rewrite <- (Htail 0%nat _ eq_refl), Z.add_0_r.
  1: rewrite <- (Htail 1%nat _ eq_refl); f_equal; lia.
  1: rewrite <- (Htail 2%nat _ eq_refl); f_equal; lia.
  1: rewrite <- (Htail 3%nat _ eq_refl); f_equal; lia.
  rewrite Hex. cbn [fst snd].
  eexists _, c'. split; [by rewrite app_assoc|]. split; [by apply Forall_app|].
  split; try done.
  - intros r Hr'. rewrite Q1. destruct (decide (r = 16)) as [->|Hne]; [done|].
    destruct (popped_spec r Hr' Hne) as [i Hi]. rewrite R4, (P7 i r Hi) by done.
    apply Hf. unfold image. apply lookup_app_l_Some. by rewrite list_lookup_fmap, Hi.
  - intros HR. rewrite Q5, (R5 HR), P1, P2.
    rewrite <- (Hf 31%nat (ctx_rampz f)); [f_equal; lia|]. unfold image, rampz_bytes. by rewrite HR.
  - rewrite Q4. pose proof (Z.div_mod (ctx_pc f) 256). lia.
  - lia.
  - by rewrite Q6, R2, P2.
Qed.

(** ** Leaving a task *)

Lemma stored_app m a l1 l2 :
  stored m a l1 → stored m (a + Z.of_nat (length l1)) l2 → stored m a (l1 ++ l2).
Proof.
  intros H1 H2 i b Hi. apply lookup_app_Some in Hi as [Hi|[Hl Hi]]; [by apply H1|].
  rewrite <- (H2 _ _ Hi). f_equal. lia.
Qed.
Lemma stored_same m m' a l :
  stored m a l → (∀ x, a ≤ x < a + Z.of_nat (length l) → m' x = m x) → stored m' a l.
Proof.
  intros H Hm i b Hi. rewrite Hm; [by apply H|]. apply lookup_lt_Some in Hi. lia.
Qed.
Lemma store_down_stored bs s m :
  stored (snd (store_down bs s m)) (s - Z.of_nat (length bs) + 1) (reverse bs).
Proof.
  intros i b Hi. apply reverse_lookup_Some in Hi as [Hi Hl].
  rewrite <- (store_down_in bs s m _ b Hi). f_equal. lia.
Qed.

Definition word (m : Z → Z) (a : Z) : Z := m (a + 1) * 256 + m a.
Definition byte (v : Z) : Prop := 0 ≤ v < 256.
Lemma word_bound m a : byte (m a) → byte (m (a + 1)) → 0 ≤ word m a < 65536.
Proof. unfold byte, word. lia. Qed.

Lemma upd2_out (m : Z → Z) a lo hi x : a + 2 ≤ x ∨ x + 1 ≤ a → upd (upd m a lo) (a + 1) hi x = m x.
Proof. intros H. by rewrite !upd_ne by lia. Qed.
Lemma word_upd m a lo hi : word (upd (upd m a lo) (a + 1) hi) a = hi * 256 + lo.
Proof. unfold word. rewrite upd_eq, upd_ne, upd_eq by lia. done. Qed.

(** The call-saved registers, in the order both stores push them, and the others
    from the stack pointer up. *)
Definition saved_regs : list Z := [28; 29; 0; 1; 2; 3; 4; 5; 6; 7; 8; 9; 10; 11; 12; 13; 14; 15; 17].
Definition clobbered_regs : list Z := [31; 30; 27; 26; 25; 24; 23; 22; 21; 20; 19; 18].
Definition call_saved (r : Z) : Prop := 0 ≤ r ≤ 17 ∨ 28 ≤ r ≤ 29.
#[export] Instance call_saved_dec r : Decision (call_saved r).
Proof. unfold call_saved. apply _. Defined.

(** What both stores push before the registers they share. *)
Definition pushed (c : cpu) (s : Z) : list Z :=
  [reg c 16; s] ++ rampz_bytes (rampz c) ++ (reg c <$> saved_regs).

Lemma push_rampz_spec c :
  1 ≤ sp c < 65536 →
  let c' := ops arch_push_rampz c in
  sp c' = sp c - Z.of_nat (length (rampz_bytes 0)) ∧
  mem c' = snd (store_down (rampz_bytes (rampz c)) (sp c) (mem c)) ∧
  (∀ r, r ≠ 16 → reg c' r = reg c r) ∧ rampz c' = rampz c.
Proof.
  intros Hs. unfold arch_push_rampz, rampz_bytes. destruct have_rampz; cbn.
  - unfold push, set_sp, set_mem, set_reg; cbn. rewrite Z.mod_small by lia.
    split_and!; try done. intros r Hr. by apply upd_ne.
  - split_and!; try done. lia.
Qed.

(** The pushes of a store: [first] computes the SREG image [s] in r16. *)
Lemma pushes_spec first s c :
  (∀ c, let c' := ops first c in sp c' = sp c ∧ mem c' = mem c ∧ rampz c' = rampz c ∧
     reg c' 16 = s c ∧ (∀ r, r ≠ 16 → reg c' r = reg c r)) →
  (∀ v c, s (push v c) = s c) →
  22 ≤ sp c < 65536 →
  let c' := ops ([Ipush 16] ++ first ++ [Ipush 16] ++ arch_push_rampz ++ (Ipush <$> saved_regs)) c in
  sp c' = sp c - Z.of_nat (length (pushed c (s c))) ∧
  mem c' = snd (store_down (pushed c (s c)) (sp c) (mem c)) ∧
  (∀ r, r ≠ 16 → reg c' r = reg c r) ∧ rampz c' = rampz c.
Proof.
  intros Hfirst Hsp Hs. rewrite !ops_app. cbv zeta.
  assert (∀ r c, 1 ≤ sp c < 65536 → ops [Ipush r] c
    = Cpu (reg c) (sreg c) (sp c - 1) (pc c) (rampz c) (upd (mem c) (sp c) (reg c r))) as Hpush.
  { intros r c0 Hc0. cbn. unfold push, set_sp; cbn. by rewrite Z.mod_small by lia. }
  pose proof (Hpush 16 c ltac:(lia)) as E1.
  set (c1 := ops [Ipush 16] c) in *.
  destruct (Hfirst c1) as (F1 & F2 & F3 & F4 & F5). set (c2 := ops first c1) in *.
  assert (s c1 = s c) as Hs1 by apply Hsp.
  rewrite E1 in F1, F2, F3. cbn in F1, F2, F3.
  pose proof (Hpush 16 c2 ltac:(lia)) as E3. set (c3 := ops [Ipush 16] c2) in *.
  assert (sp c3 = sp c - 2) as S3 by (rewrite E3; cbn; lia).
  destruct (push_rampz_spec c3) as (R1 & R2 & R3 & R4); [lia|].
  set (c4 := ops arch_push_rampz c3) in *.
  assert (∀ r, r ≠ 16 → reg c4 r = reg c r) as Hreg.
  { intros r Hr. rewrite R3, E3 by done. cbn. by rewrite F5, E1 by done. }
  assert (reg c4 <$> saved_regs = reg c <$> saved_regs) as Hsaved.
  { apply list_fmap_ext. intros i r Hi. apply Hreg. intros ->.
    apply list_elem_of_lookup_2 in Hi. revert Hi. apply (bool_decide_unpack _). by vm_compute. }
  assert (Z.of_nat (length (rampz_bytes 0)) ≤ 1) by (unfold rampz_bytes; destruct have_rampz; simpl; lia).
  rewrite ops_push by (change (length saved_regs) with 19%nat; lia). cbn [sp mem reg rampz].
  assert (length (rampz_bytes (rampz c)) = length (rampz_bytes 0)) as Hlen
    by (unfold rampz_bytes; by destruct have_rampz).
  assert (mem c3 = upd (upd (mem c) (sp c) (reg c 16)) (sp c - 1) (s c)) as M3
    by (rewrite E3; cbn; by rewrite F1, F2, F4, Hs1).
  assert (rampz c3 = rampz c) as Z3 by (rewrite E3; cbn; by rewrite F3).
  split_and!.
  - unfold pushed. rewrite !length_app, length_fmap, Hlen. cbn [length]. change (length saved_regs) with 19%nat. lia.
  - unfold pushed. cbn [app store_down]. rewrite store_down_app, store_down_sp, Hsaved, R2, Z3, M3, R1, S3, Hlen.
    by replace (sp c - 1 - 1) with (sp c - 2) by lia.
  - done.
  - by rewrite R4.
Qed.

(** ** Switching tasks *)

Definition apart (a n b k : Z) : Prop := a + n ≤ b ∨ b + k ≤ a.

(** Where the switch from the task with TCB [t] to the task with TCB [b], whose
    context was stored at [p], finds its data: the stack of the running task,
    from [base c] up to the return address, the two TCBs' [ctx.sp], the variable
    [task_current] and the context to resume do not overlap. *)
Definition base (c : cpu) : Z := sp c + 2 - frame_size.

Record switchable (c : cpu) (t b p : Z) : Prop := {
  sw_return : byte (mem c (sp c + 2));
  sw_ctx_lo : byte (mem c b);
  sw_ctx_hi : byte (mem c (b + 1));
  sw_masked : masked (sreg c);
  sw_current : word (mem c) a_task_current = t;
  sw_new : pair c 24 = b;
  sw_ctx : word (mem c) b = p;
  sw_base : 0 ≤ base c;
  sw_top : sp c + 2 < 65536;
  sw_room : p + frame_size < 65536;
  sw_stack_current : apart (base c + 1) frame_size a_task_current 2;
  sw_stack_old : apart (base c + 1) frame_size t 2;
  sw_stack_new : apart (base c + 1) frame_size b 2;
  sw_stack_frame : apart (base c + 1) frame_size (p + 1) frame_size;
  sw_old_current : apart t 2 a_task_current 2;
  sw_old_new : apart t 2 b 2;
  sw_new_current : apart b 2 a_task_current 2;
  sw_frame_old : apart (p + 1) frame_size t 2;
  sw_frame_current : apart (p + 1) frame_size a_task_current 2
}.

(** [f] is what the running task needs to go on after its call to the switch. *)
Definition return_address (c : cpu) : Z := mem c (sp c + 1) * 256 + mem c (sp c + 2).
Definition saves (f : context) (c : cpu) : Prop :=
  (∀ r, call_saved r → ctx_reg f r = reg c r) ∧ ctx_sreg f = 0 ∧
  ctx_rampz f = rampz c ∧ ctx_pc f = return_address c.

Definition swap_pointers : list instr :=
  [Ilds 30 a_task_current; Ilds 31 (a_task_current + 1);
   Ist_Z 0 28; Ist_Z 1 29;
   Ists a_task_current 24; Ists (a_task_current + 1) 25;
   Imovw 30 24;
   Ild_Z 28 0; Ild_Z 29 1;
   Iout_spl 28; Iout_sph 29].

(** The exchange of the stack pointers, in a core whose registers were pushed. *)
Lemma skip_spec c :
  12 ≤ sp c < 65536 →
  let c' := ops [Iin_spl 28; Iin_sph 29; Isbiw 28 12] c in
  sp c' = sp c ∧ mem c' = mem c ∧ pair c' 28 = sp c - 12 ∧ byte (reg c' 29) ∧
  (∀ r, r ≠ 28 → r ≠ 29 → reg c' r = reg c r).
Proof.
  intros Hs. cbv [ops foldl op set_reg set_sreg pair reg sreg sp mem pc rampz byte]. destruct c as [rg s p pc0 rz m].
  cbn [sp] in Hs. change (28 + 1) with 29.
  assert (∀ f a b, upd (upd f 28 a) 29 b 28 = a) as E by (intros; rewrite (@upd_ne Z); [apply upd_eq|lia]).
  rewrite !upd_eq, E. rewrite upd_ne, upd_eq by lia.
  replace (p / 256 * 256 + p mod 256) with p by (pose proof (Z.div_mod p 256); lia).
  rewrite (Z.mod_small (p - 12)) by lia.
  pose proof (Z.div_mod (p - 12) 256). pose proof (Z.mod_pos_bound (p - 12) 256).
  split_and!; try done; [lia..|]. intros r H1 H2. by rewrite !upd_ne.
Qed.

Lemma swap_spec c t b p :
  byte (mem c b) →
  word (mem c) a_task_current = t → pair c 24 = b → word (mem c) b = p →
  apart t 2 b 2 → apart b 2 a_task_current 2 →
  let c' := ops swap_pointers c in
  sp c' = p ∧
  mem c' = upd (upd (upd (upd (mem c) t (reg c 28)) (t + 1) (reg c 29))
    a_task_current (reg c 24)) (a_task_current + 1) (reg c 25).
Proof.
  intros Hb Ht Hn Hp Htb Hbc.
  unfold word, byte, apart in *. unfold pair in Hn. change (24 + 1) with 25 in Hn.
  cbv [swap_pointers ops foldl op set_reg set_sp set_mem pair reg sreg sp mem pc rampz].
  destruct c as [rg s p0 pc0 rz m]. cbn [reg mem] in *.
  change (30 + 1) with 31. change (24 + 1) with 25. change (28 + 1) with 29.
  reg_reads. rewrite !Ht, !Hn, !Z.add_0_r.
  repeat (rewrite upd_eq || rewrite upd_ne by lia).
  split; [|done]. rewrite <- Hp, (Z.add_comm (p0 / 256 * 256)), Z_mod_plus_full, Z.mod_small by lia. done.
Qed.

Lemma resumes_prefix f p m tr r :
  Forall masked tr → resumes f p m r → resumes f p m (tr ++ fst r, snd r).
Proof.
  intros Htr (tr' & c & -> & Htr' & Hc). exists (tr ++ tr'), c. cbn [fst snd].
  split; [by rewrite app_assoc|]. split; [by apply Forall_app|done].
Qed.

Definition switch_pushes : list instr :=
  [Ipush 16] ++ [Ieor 16 16] ++ [Ipush 16] ++ arch_push_rampz ++ (Ipush <$> saved_regs).
Definition switch_out : list instr := switch_pushes ++ [Iin_spl 28; Iin_sph 29; Isbiw 28 12] ++ swap_pointers.

Lemma switch_code c :
  execute arch_context_switch c
  = exec (length switch_out + (length (pop_registers ++ arch_pop_rampz) + (12 + 0)))
      ((I <$> switch_out) ++ ((I <$> pop_registers ++ arch_pop_rampz) ++ return_code)) c.
Proof.
  unfold execute. f_equal; unfold arch_context_switch, switch_out, switch_pushes, arch_push_rampz, arch_pop_rampz;
    by destruct have_rampz.
Qed.

(** The context of the running task as the switch leaves it: the registers the
    compiler does not keep over the call have whatever the stack holds. *)
Definition left_context (c : cpu) (m : Z → Z) : context :=
  Context (λ r, if decide (call_saved r) then reg c r else m (base c + 1 + (if 30 <=? r then 31 - r else 29 - r)))
    0 (rampz c) (return_address c).

Lemma pushed_length c s : Z.of_nat (length (pushed c s)) = frame_size - 14.
Proof.
  unfold pushed, frame_size, rampz_bytes. rewrite !length_app, length_fmap.
  change (length saved_regs) with 19%nat. by destruct have_rampz.
Qed.

Lemma return_bytes c : byte (mem c (sp c + 2)) →
  return_address c / 256 = mem c (sp c + 1) ∧ return_address c mod 256 = mem c (sp c + 2).
Proof.
  intros H. unfold return_address. unfold byte in H.
  rewrite Z.div_add_l, Z.div_small by lia. split; [lia|].
  rewrite Z.add_comm, Z_mod_plus_full. by apply Z.mod_small.
Qed.

(** The stored bytes, from the bottom up: those of [f] that no push wrote, the
    pushed ones and the return address. *)
Lemma image_split f c s :
  (∀ r, call_saved r → ctx_reg f r = reg c r) → ctx_sreg f = s → ctx_rampz f = rampz c →
  image f = (ctx_reg f <$> clobbered_regs) ++ reverse (pushed c s) ++ [ctx_pc f / 256; ctx_pc f mod 256].
Proof.
  intros Hr Hs Hz. unfold image, pushed, rampz_bytes. rewrite Hs, Hz, !reverse_app.
  rewrite <- (Hr 16), <- fmap_reverse by (left; lia).
  assert (ctx_reg f <$> reverse saved_regs = reg c <$> reverse saved_regs) as <-.
  { apply list_fmap_ext. intros i r Hi. apply Hr. apply list_elem_of_lookup_2 in Hi. revert Hi.
    assert (Forall call_saved (reverse saved_regs)) as H by (apply (bool_decide_unpack _); by vm_compute).
    rewrite Forall_forall in H. apply H. }
  change (reverse saved_regs) with ([17; 15; 14; 13; 12; 11; 10; 9; 8; 7; 6; 5; 4; 3; 2; 1; 0; 29; 28] : list Z).
  by destruct have_rampz.
Qed.

Lemma left_context_stored c m :
  byte (mem c (sp c + 2)) →
  stored m (base c + 13) (reverse (pushed c 0)) → m (sp c + 1) = mem c (sp c + 1) → m (sp c + 2) = mem c (sp c + 2) →
  saves (left_context c m) c ∧ holds m (base c) (left_context c m).
Proof.
  intros Hb Hst H1 H2.
  assert (saves (left_context c m) c) as Hs.
  { split; [|done]. intros r Hr. cbn. by destruct (decide (call_saved r)). }
  split; [done|]. destruct Hs as (Hr & HS & Hz & Hpc). unfold holds.
  rewrite (image_split _ c 0) by done. rewrite Hpc.
  pose proof (pushed_length c 0) as Hlen.
  apply stored_app; [|apply stored_app].
  - intros i b Hi. rewrite list_lookup_fmap in Hi.
    assert (∀ j : nat, Z.of_nat j = Z.of_nat i → base c + 1 + Z.of_nat i = base c + 1 + Z.of_nat j) as E by lia.
    do 12 (destruct i as [|i]; [injection Hi as <-; cbn -[Z.add]; f_equal; lia|]). discriminate Hi.
  - change (length (ctx_reg (left_context c m) <$> clobbered_regs)) with 12%nat.
    by replace (base c + 1 + Z.of_nat 12) with (base c + 13) by lia.
  - change (length (ctx_reg (left_context c m) <$> clobbered_regs)) with 12%nat.
    rewrite length_reverse. destruct (return_bytes c Hb) as [-> ->].
    unfold base. intros [|[|i]] b Hi; simplify_eq/=.
    + rewrite <- H1. f_equal. lia.
    + rewrite <- H2. f_equal. lia.
Qed.

Lemma upd4_out (f : Z → Z) a1 a2 v1 v2 v3 v4 x :
  apart x 1 a1 2 → apart x 1 a2 2 →
  upd (upd (upd (upd f a1 v1) (a1 + 1) v2) a2 v3) (a2 + 1) v4 x = f x.
Proof. unfold apart. intros H1 H2. by rewrite !upd_ne by lia. Qed.

(** The half of a switch that leaves the running task: its registers are pushed, and
    the stack pointers and [task_current] are exchanged. *)
Lemma switch_out_spec c t b p : switchable c t b p →
  let c3 := ops switch_out c in let m := mem c3 in
  sp c3 = p ∧ saves (left_context c m) c ∧ holds m (base c) (left_context c m) ∧
  word m t = base c ∧ word m a_task_current = b ∧
  ∀ x, apart x 1 (base c + 1) (frame_size - 2) → apart x 1 t 2 → apart x 1 a_task_current 2 → m x = mem c x.
Proof.
  intros [].
  pose proof (pushed_length c 0) as Hlen.
  assert (35 ≤ frame_size ≤ 36) as Hfs by (unfold frame_size; destruct have_rampz; lia).
  assert (sp c = base c + frame_size - 2) as Hbase by (unfold base; lia).
  destruct (pushes_spec [Ieor 16 16] (λ _, 0) c) as (P1 & P2 & P3 & P4); [|done|lia|].
  { intros c0. split_and!; try done; cbn.
    - by rewrite Z.lxor_nilpotent.
    - intros r Hr. by apply upd_ne. }
  fold switch_pushes in P1, P2, P3, P4. set (c1 := ops switch_pushes c) in *.
  destruct (skip_spec c1) as (K1 & K2 & K3 & K4 & K5); [lia|].
  set (c2 := ops [Iin_spl 28; Iin_sph 29; Isbiw 28 12] c1) in *.
  assert (∀ x, apart x 1 (base c + 1) (frame_size - 2) → mem c1 x = mem c x) as M1.
  { intros x Hx. rewrite P2. apply store_down_out. unfold apart in Hx. lia. }
  unfold apart in *.
  assert (word (mem c2) a_task_current = t ∧ word (mem c2) b = p) as [W1 W2].
  { rewrite K2. unfold word in *. rewrite !M1 by lia. by split. }
  destruct (swap_spec c2 t b p) as (S1 & S2); try done.
  { by rewrite K2, M1 by lia. }
  { unfold pair in *. by rewrite !K5, !P3 by lia. }
  set (c3 := ops swap_pointers c2) in *.
  assert (ops switch_out c = c3) as -> by (unfold switch_out; by rewrite !ops_app). set (m := mem c3) in *.
  assert (∀ x, apart x 1 t 2 → apart x 1 a_task_current 2 → m x = mem c1 x) as M3.
  { intros x Hx1 Hx2. rewrite S2, K2. by apply upd4_out. }
  unfold apart in *.
  destruct (left_context_stored c m) as [Hsaves Hholds]; [done| | | |].
  { apply (stored_same (mem c1)).
    - rewrite P2. replace (base c + 13) with (sp c - Z.of_nat (length (pushed c 0)) + 1) by lia.
      apply store_down_stored.
    - rewrite length_reverse. intros x Hx. apply M3; lia. }
  1,2: rewrite M3, M1 by lia; done.
  split_and!; try done.
  - unfold word. rewrite S2. repeat (rewrite upd_eq || rewrite upd_ne by lia).
    unfold pair in K3. change (28 + 1) with 29 in K3. lia.
  - unfold word. rewrite S2. repeat (rewrite upd_eq || rewrite upd_ne by lia).
    unfold pair in sw_new0. change (24 + 1) with 25 in sw_new0. by rewrite !K5, !P3 by lia.
  - intros x H1 H2 H3. rewrite M3, M1 by done. done.
Qed.

(** One switch: the running task is left in a context stored on its own stack,
    its TCB points to it, [task_current] is the new task, and the context the
    new task's TCB points to is resumed, interrupts being masked until the
    return. Only the stack of the running task below the return address, the
    [ctx] of its TCB and [task_current] are written. *)
Lemma context_switch_spec c t b p g :
  switchable c t b p → holds (mem c) p g → byte (ctx_sreg g) →
  ∃ f m, saves f c ∧ holds m (base c) f ∧ resumes g p m (execute arch_context_switch c) ∧
    word m t = base c ∧ word m a_task_current = b ∧
    (∀ x, apart x 1 (base c + 1) (frame_size - 2) → apart x 1 t 2 → apart x 1 a_task_current 2 → m x = mem c x).
Proof.
  intros Hsw Hg HS. pose proof Hsw as [].
  destruct (switch_out_spec c t b p Hsw) as (S1 & Hsaves & Hholds & Hwt & Hwc & Hm3). cbn zeta in *.
  set (c3 := ops switch_out c) in *. set (m := mem c3) in *.
  destruct (ops_masked switch_out c) as [Ht Hm];
    [unfold switch_out, switch_pushes, arch_push_rampz; by destruct have_rampz|done|]. fold c3 in Hm.
  assert (35 ≤ frame_size ≤ 36) as Hfs by (unfold frame_size; destruct have_rampz; lia).
  assert (Z.of_nat (length (image g)) = frame_size) as Hil
    by (unfold image, frame_size, rampz_bytes; by destruct have_rampz).
  exists (left_context c m), m. split_and!; try done.
  rewrite switch_code, exec_straight. fold c3. apply resumes_prefix; [done|]. unfold m. rewrite <- S1.
  unfold apart in *. apply restore_spec; try done; try lia.
  - rewrite S1. apply (stored_same (mem c)); [done|]. intros x Hx.
    fold m. rewrite Hm3 by lia. done.
  - rewrite S1. unfold word, byte in *. lia.
Qed.

(** ** Entering and leaving interrupts *)

Lemma set_nvz_Z n v z s : Z.testbit (set_nvz n v z s) flag_Z = z.
Proof.
  unfold set_nvz, setf, flag_S, flag_V, flag_N, flag_Z.
  destruct (xorb n v), v, n, z; rewrite ?Z.setbit_neq, ?Z.clearbit_neq by lia;
    rewrite ?Z.setbit_neq, ?Z.clearbit_neq by lia; rewrite ?Z.setbit_neq, ?Z.clearbit_neq by lia;
    first [by apply Z.setbit_eq | by apply Z.clearbit_eq].
Qed.

(** The context of the interrupted code, before the entry code ran: the CPU has
    cleared the interrupt flag and pushed the return address. *)
Definition interrupted (c : cpu) : context := Context (reg c) (Z.lor (sreg c) 128) (rampz c) (return_address c).

Definition isr_pushes : list instr :=
  ([Ipush 16] ++ [Iin_sreg 16; Isbr 16 128] ++ [Ipush 16] ++ arch_push_rampz ++ (Ipush <$> saved_regs)) ++
  (Ipush <$> reverse clobbered_regs).
Definition isr_count : list instr :=
  [Ilds 16 a_isr_nesting; Iinc 16; Ists a_isr_nesting 16; Iin_spl 28; Iin_sph 29; Ieor 1 1; Icpi 16 1].
Definition isr_store_ctx : list instr :=
  [Ilds 30 a_task_current; Ilds 31 (a_task_current + 1); Ist_Z 0 28; Ist_Z 1 29].

Lemma isr_pushes_spec c :
  0 ≤ base c → sp c + 2 < 65536 → byte (mem c (sp c + 2)) →
  let c' := ops isr_pushes c in
  sp c' = base c ∧ (∀ x, apart x 1 (base c + 1) (frame_size - 2) → mem c' x = mem c x) ∧
  holds (mem c') (base c) (interrupted c) ∧ (∀ r, r ≠ 16 → reg c' r = reg c r).
Proof.
  intros H0 Hs Hb. cbv zeta. set (s := Z.lor (sreg c) 128).
  pose proof (pushed_length c s) as Hlen.
  assert (35 ≤ frame_size ≤ 36) as Hfs by (unfold frame_size; destruct have_rampz; lia).
  assert (sp c = base c + frame_size - 2) as Hbase by (unfold base; lia).
  unfold isr_pushes. rewrite ops_app.
  destruct (pushes_spec [Iin_sreg 16; Isbr 16 128] (λ c, Z.lor (sreg c) 128) c) as (P1 & P2 & P3 & P4); [|done|lia|].
  { intros c0. split_and!; try done. intros r Hr. cbn. by rewrite !upd_ne. }
  set (c1 := ops _ c) in *. fold s in P1, P2.
  rewrite ops_push by (change (length (reverse clobbered_regs)) with 12%nat; lia).
  cbn [sp mem reg]. change (length (reverse clobbered_regs)) with 12%nat.
  assert (reg c1 <$> reverse clobbered_regs = reg c <$> reverse clobbered_regs) as ->.
  { apply list_fmap_ext. intros i r Hi. apply P3. intros ->. apply list_elem_of_lookup_2 in Hi.
    revert Hi. apply (bool_decide_unpack _). by vm_compute. }
  set (bs := reg c <$> reverse clobbered_regs).
  assert (Z.of_nat (length (pushed c s ++ bs)) = frame_size - 2) as Hall
    by (rewrite length_app; change (length bs) with 12%nat; lia).
  assert (snd (store_down bs (sp c1) (mem c1)) = snd (store_down (pushed c s ++ bs) (sp c) (mem c))) as ->
    by (by rewrite store_down_app, store_down_sp, <- P1, <- P2).
  split_and!; [lia| | |done].
  - intros x Hx. apply store_down_out. unfold apart in Hx. lia.
  - unfold holds. rewrite (image_split _ c s) by done. rewrite app_assoc. apply stored_app.
    + replace (base c + 1) with (sp c - Z.of_nat (length (pushed c s ++ bs)) + 1) by lia.
      replace ((ctx_reg (interrupted c) <$> clobbered_regs) ++ reverse (pushed c s)) with (reverse (pushed c s ++ bs))
        by (rewrite reverse_app; unfold bs; by rewrite fmap_reverse, reverse_involutive).
      apply store_down_stored.
    + rewrite length_app, length_reverse. cbn [ctx_reg ctx_pc interrupted].
      change (length (reg c <$> clobbered_regs)) with 12%nat.
      destruct (return_bytes c Hb) as [-> ->].
      intros [|[|i]] b Hi; [injection Hi as <-|injection Hi as <-|discriminate Hi];
        rewrite store_down_out by lia; f_equal; lia.
Qed.

Lemma isr_count_spec c n :
  mem c a_isr_nesting = n → byte n → 0 ≤ sp c →
  let c' := ops isr_count c in
  sp c' = sp c ∧ mem c' = upd (mem c) a_isr_nesting ((n + 1) mod 256) ∧ pair c' 28 = sp c ∧ reg c' 1 = 0 ∧
  Z.testbit (sreg c') flag_Z = (n =? 0).
Proof.
  intros Hn Hb Hs. unfold byte in Hb.
  cbv [isr_count ops foldl op set_reg set_sreg set_mem pair reg sreg sp mem pc rampz].
  destruct c as [rg s p pc0 rz m]. cbn [reg mem sp] in *. rewrite set_nvz_Z.
  change (28 + 1) with 29. reg_reads. rewrite Hn, Z.lxor_nilpotent.
  split_and!; try done; [pose proof (Z.div_mod p 256); lia|].
  destruct (decide (n = 255)) as [->|Hne]; [done|]. rewrite (Z.mod_small (n + 1)) by lia.
  rewrite Z.mod_small by lia. f_equal. lia.
Qed.

Lemma isr_store_ctx_spec c t :
  word (mem c) a_task_current = t →
  let c' := ops isr_store_ctx c in
  sp c' = sp c ∧ mem c' = upd (upd (mem c) t (reg c 28)) (t + 1) (reg c 29) ∧
  (∀ r, r ≠ 30 → r ≠ 31 → reg c' r = reg c r).
Proof.
  intros Ht. unfold word in Ht.
  cbv [isr_store_ctx ops foldl op set_reg set_sreg set_mem pair reg sreg sp mem pc rampz].
  destruct c as [rg s p pc0 rz m]. cbn [reg mem sp] in *.
  change (30 + 1) with 31. reg_reads. rewrite Ht, !Z.add_0_r.
  split_and!; try done. intros r H1 H2. by rewrite !upd_ne.
Qed.

(** An interrupt taken while the task with TCB [t] runs, or nested in another
    one ([n] is the value of [isr_nesting]). *)
Record interruptible (c : cpu) (t n : Z) : Prop := {
  in_return : byte (mem c (sp c + 2));
  in_count : byte n;
  in_masked : masked (sreg c);
  in_sreg : byte (sreg c);
  in_current : word (mem c) a_task_current = t;
  in_nesting : mem c a_isr_nesting = n;
  in_base : 0 ≤ base c;
  in_top : sp c + 2 < 65536;
  in_stack_current : apart (base c + 1) frame_size a_task_current 2;
  in_stack_nesting : apart (base c + 1) frame_size a_isr_nesting 1;
  in_stack_tcb : apart (base c + 1) frame_size t 2;
  in_nesting_current : apart a_isr_nesting 1 a_task_current 2;
  in_nesting_tcb : apart a_isr_nesting 1 t 2;
  in_tcb_current : apart t 2 a_task_current 2
}.

Lemma store_code c :
  execute arch_contextstore_i c
  = exec (length (isr_pushes ++ isr_count) + (length isr_store_ctx + 3))
      ((I <$> isr_pushes ++ isr_count) ++ Ibrne Lnested :: (I <$> isr_store_ctx) ++ [L Lnested]) c.
Proof.
  unfold execute. f_equal; unfold arch_contextstore_i, isr_pushes, arch_push_rampz; by destruct have_rampz.
Qed.

Lemma store_tail c :
  exec (length isr_store_ctx + 3) (Ibrne Lnested :: (I <$> isr_store_ctx) ++ [L Lnested]) c
  = if Z.testbit (sreg c) flag_Z then (sreg c :: trace isr_store_ctx c, Through (ops isr_store_ctx c))
    else ([sreg c], Through c).
Proof.
  change (length isr_store_ctx + 3)%nat with (S (length isr_store_ctx + 2)).
  destruct (Z.testbit (sreg c) flag_Z) eqn:E; apply exec_brne; rewrite E.
  - rewrite exec_straight. set (c' := ops isr_store_ctx c). cbn [exec fst snd]. by rewrite app_nil_r.
  - done.
Qed.

Lemma store_exec c :
  masked (sreg c) →
  let c2 := ops isr_count (ops isr_pushes c) in
  let c3 := if Z.testbit (sreg c2) flag_Z then ops isr_store_ctx c2 else c2 in
  ∃ tr, execute arch_contextstore_i c = (tr, Through c3) ∧ Forall masked tr.
Proof.
  intros Hm. cbv zeta. rewrite store_code, exec_straight, store_tail, <- (ops_app isr_pushes isr_count).
  destruct (ops_masked (isr_pushes ++ isr_count) c) as [Ht Hm'];
    [unfold isr_pushes, arch_push_rampz; by destruct have_rampz|done|].
  set (c2 := ops (isr_pushes ++ isr_count) c) in *. clearbody c2.
  destruct (ops_masked isr_store_ctx c2 eq_refl Hm') as [Ht' _].
  destruct (Z.testbit (sreg c2) flag_Z); (eexists; split; [reflexivity|]);
    cbn [fst]; (apply Forall_app; split; [done|]); by constructor.
Qed.

(** The entry code stores the context of the interrupted code on the current
    stack and counts the nesting; at the outermost level the TCB of the
    interrupted task gets the stack pointer. *)
Lemma contextstore_spec c t n :
  interruptible c t n →
  ∃ tr c1, execute arch_contextstore_i c = (tr, Through c1) ∧ Forall masked tr ∧
    sp c1 = base c ∧ holds (mem c1) (base c) (interrupted c) ∧
    mem c1 a_isr_nesting = (n + 1) mod 256 ∧ word (mem c1) a_task_current = t ∧
    (n = 0 → word (mem c1) t = base c) ∧ pair c1 28 = base c ∧ reg c1 1 = 0 ∧
    (∀ x, apart x 1 (base c + 1) (frame_size - 2) → apart x 1 a_isr_nesting 1 → n = 0 → apart x 1 t 2 →
      mem c1 x = mem c x) ∧
    (∀ x, apart x 1 (base c + 1) (frame_size - 2) → apart x 1 a_isr_nesting 1 → n ≠ 0 → mem c1 x = mem c x).
Proof.
  intros [].
  assert (35 ≤ frame_size ≤ 36) as Hfs by (unfold frame_size; destruct have_rampz; lia).
  assert (Z.of_nat (length (image (interrupted c))) = frame_size) as Hil
    by (unfold image, frame_size, rampz_bytes; by destruct have_rampz).
  destruct (isr_pushes_spec c) as (P1 & P2 & P3 & P4); [done..|].
  set (c1 := ops isr_pushes c) in *. unfold apart in *.
  destruct (isr_count_spec c1 n) as (C1 & C2 & C3 & C4 & C5);
    [by rewrite P2 by lia|done|lia|].
  set (c2 := ops isr_count c1) in *.
  assert (word (mem c2) a_task_current = t) as W.
  { rewrite C2. unfold word in *. by rewrite !upd_ne, !P2 by lia. }
  assert (holds (mem c2) (base c) (interrupted c)) as Hh.
  { apply (stored_same (mem c1)); [done|]. intros x Hx. rewrite C2. apply upd_ne. lia. }
  destruct (isr_store_ctx_spec c2 t W) as (S1 & S2 & S3).
  destruct (store_exec c in_masked0) as (tr & Hex & Htr). fold c1 in Hex. fold c2 in Hex.
  rewrite C5 in Hex. set (c3 := ops isr_store_ctx c2) in *.
  clearbody c3. clearbody c2. clearbody c1.
  destruct (decide (n = 0)) as [->|Hn].
  - exists tr, c3. split; [done|]. split; [done|].
    assert (pair c3 28 = base c) as Y3
      by (rewrite <- P1, <- C3; unfold pair; by rewrite !S3 by lia).
    assert (reg c2 29 * 256 + reg c2 28 = base c) as Y2 by (rewrite <- P1, <- C3; done).
    rewrite S2, S1, C1, S3 by lia. split_and!; try done.
    + apply (stored_same (mem c2)); [done|]. intros x Hx. apply upd2_out. lia.
    + rewrite upd2_out by lia. rewrite C2. apply upd_eq.
    + unfold word in *. by rewrite !upd2_out by lia.
    + intros _. by rewrite word_upd.
    + intros x H1 H2 _ H3. rewrite upd2_out by lia. rewrite C2, upd_ne by lia. by apply P2.
  - rewrite (proj2 (Z.eqb_neq _ _) Hn) in Hex. exists tr, c2. split; [done|]. split; [done|].
    split_and!; try done.
    + lia.
    + rewrite C2. apply upd_eq.
    + lia.
    + intros x H1 H2 _. rewrite C2, upd_ne by lia. by apply P2.
Qed.

(** Leaving an interrupt: [p] is where the context to resume is found. *)
Record leaving (c : cpu) (p : Z) : Prop := {
  lv_nesting : 0 < mem c a_isr_nesting < 256;
  lv_ctx : byte (mem c (word (mem c) a_task_current));
  lv_frame : p = (if mem c a_isr_nesting =? 1 then word (mem c) (word (mem c) a_task_current) else sp c);
  lv_base : 0 ≤ p;
  lv_room : p + frame_size < 65536;
  lv_nesting_frame : apart a_isr_nesting 1 (p + 1) frame_size;
  lv_nesting_current : apart a_isr_nesting 1 a_task_current 2;
  lv_nesting_tcb : apart a_isr_nesting 1 (word (mem c) a_task_current) 2
}.

Definition isr_uncount : list instr := [Icli; Ilds 16 a_isr_nesting; Idec 16; Ists a_isr_nesting 16].
Definition isr_load_ctx : list instr :=
  [Ilds 30 a_task_current; Ilds 31 (a_task_current + 1); Ild_Z 16 0; Ild_Z 17 1; Iout_spl 16; Iout_sph 17].

Lemma restore_code c :
  execute arch_contextrestore_i c
  = exec (length isr_uncount + (1 + (length isr_load_ctx + (1 + (length (pop_registers ++ arch_pop_rampz) + (12 + 0))))))
      ((I <$> isr_uncount) ++ Ibrne Lnested :: (I <$> isr_load_ctx) ++ L Lnested ::
         (I <$> pop_registers ++ arch_pop_rampz) ++ return_code) c.
Proof.
  unfold execute. apply (f_equal2 (λ n l, exec n l c));
    unfold arch_contextrestore_i, arch_pop_rampz; destruct have_rampz; reflexivity.
Qed.

Lemma isr_uncount_spec c n :
  mem c a_isr_nesting = n →
  let c' := ops isr_uncount c in
  sp c' = sp c ∧ mem c' = upd (mem c) a_isr_nesting ((n - 1) mod 256) ∧ masked (sreg c') ∧
  Forall masked (trace isr_uncount c) ∧ Z.testbit (sreg c') flag_Z = ((n - 1) mod 256 =? 0).
Proof.
  intros Hn. destruct (ops_masked [Ilds 16 a_isr_nesting; Idec 16; Ists a_isr_nesting 16] (op Icli c)) as [Ht Hm];
    [done|unfold masked, op, set_sreg; cbn [sreg]; by apply Z.clearbit_eq|].
  split_and!; [done| |done| |].
  - destruct c; cbv [isr_uncount ops foldl op set_reg set_sreg set_mem reg sreg sp mem pc rampz] in *.
    reg_reads. by rewrite Hn.
  - constructor; [|done]. unfold masked, op, set_sreg; cbn [sreg]. by apply Z.clearbit_eq.
  - destruct c; cbv [isr_uncount ops foldl op set_reg set_sreg set_mem reg sreg sp mem pc rampz] in *.
    rewrite set_nvz_Z. reg_reads. by rewrite Hn.
Qed.

Lemma isr_load_ctx_spec c :
  byte (mem c (word (mem c) a_task_current)) →
  let c' := ops isr_load_ctx c in
  sp c' = word (mem c) (word (mem c) a_task_current) ∧ mem c' = mem c.
Proof.
  intros Hb. cbv [isr_load_ctx ops foldl op set_reg set_sp pair reg sreg sp mem pc rampz].
  destruct c as [rg s p pc0 rz m]. cbn [reg mem sp] in *. change (30 + 1) with 31. reg_reads.
  rewrite !Z.add_0_r. fold (word m a_task_current). set (b := word m a_task_current) in *. unfold word, byte in *.
  split; [|done]. rewrite (Z.add_comm (p / 256 * 256)), Z_mod_plus_full, Z.mod_small by lia. done.
Qed.

Lemma load_tail n rest c :
  exec (S (length isr_load_ctx + S n)) (Ibrne Lnested :: (I <$> isr_load_ctx) ++ L Lnested :: rest) c
  = if Z.testbit (sreg c) flag_Z
    then let r := exec n rest (ops isr_load_ctx c) in (sreg c :: trace isr_load_ctx c ++ fst r, snd r)
    else let r := exec (7 + n) rest c in (sreg c :: fst r, snd r).
Proof.
  destruct (Z.testbit (sreg c) flag_Z) eqn:E; apply exec_brne; rewrite E.
  - rewrite exec_straight, exec_L. done.
  - change (goto Lnested _) with rest. change (length isr_load_ctx + S n)%nat with (7 + n)%nat.
    apply surjective_pairing.
Qed.

Lemma contextrestore_spec c p f :
  leaving c p → holds (mem c) p f → byte (ctx_sreg f) →
  resumes f p (upd (mem c) a_isr_nesting (mem c a_isr_nesting - 1)) (execute arch_contextrestore_i c).
Proof.
  intros [] Hf HS.
  assert (Z.of_nat (length (image f)) = frame_size) as Hil
    by (unfold image, frame_size, rampz_bytes; by destruct have_rampz).
  destruct (isr_uncount_spec c _ eq_refl) as (U1 & U2 & U3 & U4 & U5).
  rewrite (Z.mod_small (mem c a_isr_nesting - 1)) in U2, U5 by lia.
  rewrite restore_code, exec_straight. set (c1 := ops isr_uncount c) in *.
  apply resumes_prefix; [done|].
  assert (holds (mem c1) p f) as Hf1.
  { apply (stored_same (mem c)); [done|]. intros x Hx. rewrite U2. apply upd_ne. unfold apart in *. lia. }
  rewrite <- U2. change (1 + (length isr_load_ctx + ?x))%nat with (S (length isr_load_ctx + x)).
  change (1 + (?x + (12 + 0)))%nat with (S (x + (12 + 0))). rewrite load_tail, U5. cbv zeta.
  destruct (mem c a_isr_nesting =? 1) eqn:E1.
  - assert (word (mem c1) a_task_current = word (mem c) a_task_current) as W1.
    { rewrite U2. unfold word, apart in *. by rewrite !upd_ne by lia. }
    assert (word (mem c1) (word (mem c) a_task_current) = p) as W2.
    { rewrite U2, lv_frame0. unfold apart in *. set (t := word (mem c) a_task_current) in *.
      unfold word. by rewrite !upd_ne by lia. }
    destruct (isr_load_ctx_spec c1) as [L1 L2].
    { rewrite W1, U2. unfold apart in *. by rewrite upd_ne by lia. }
    destruct (ops_masked isr_load_ctx c1 eq_refl U3) as [Ht Hm].
    rewrite (proj2 (Z.eqb_eq _ _)) by lia. rewrite W1, W2 in L1.
    set (c2 := ops isr_load_ctx c1) in *. set (tr0 := trace isr_load_ctx c1) in *. clearbody tr0 c2.
    assert (resumes f p (mem c1) (exec (length (pop_registers ++ arch_pop_rampz) + (12 + 0))
      ((I <$> pop_registers ++ arch_pop_rampz) ++ return_code) c2)) as Hr.
    { rewrite <- L1, <- L2. apply restore_spec; try done; try lia. by rewrite L1, L2. }
    apply (resumes_prefix _ _ _ (sreg c1 :: tr0)) in Hr; [done|by constructor].
  - rewrite (proj2 (Z.eqb_neq _ _)) by lia.
    replace (7 + (length (pop_registers ++ arch_pop_rampz) + (12 + 0)))%nat
      with (length (pop_registers ++ arch_pop_rampz) + (12 + 7))%nat by lia.
    assert (resumes f p (mem c1) (exec (length (pop_registers ++ arch_pop_rampz) + (12 + 7))
      ((I <$> pop_registers ++ arch_pop_rampz) ++ return_code) c1)) as Hr.
    { rewrite lv_frame0, <- U1 in *. apply restore_spec; try done; lia. }
    apply (resumes_prefix _ _ _ [sreg c1]) in Hr; [done|by constructor].
Qed.

(** ** Creating a task *)

Definition task_init_bytes (arch_task_start frame_ptr proc param : Z) : list Z :=
  [Z.land arch_task_start 255; Z.shiftr arch_task_start 8; 0; Z.shiftl 1 SREG_I] ++ rampz_bytes 0 ++
  [Z.land frame_ptr 255; Z.shiftr (Z.land frame_ptr 65280) 8;
   0; 0; 0; 0; 0; 0; 0; 0; 0; 0; 0; 0; 0; 0; 0; 0; 0; 0; 0; 0; 0;
   Z.land param 255; Z.shiftr (Z.land param 65280) 8; Z.land proc 255; Z.shiftr (Z.land proc 65280) 8;
   0; 0; 0; 0].

Lemma lo_hi v : 0 ≤ v < 65536 → Z.land v 255 = v mod 256 ∧ Z.shiftr (Z.land v 65280) 8 = v / 256 ∧ Z.shiftr v 8 = v / 256.
Proof.
  intros Hv. change 255 with (Z.ones 8). rewrite Z.land_ones by lia.
  split; [done|]. split; [|by rewrite Z.shiftr_div_pow2 by lia].
  rewrite Z.shiftr_land.
  change (Z.shiftr 65280 8) with (Z.ones 8). rewrite Z.land_ones, Z.shiftr_div_pow2 by lia.
  apply Z.mod_small. split; [apply Z.div_pos; lia|apply Z.div_lt_upper_bound; lia].
Qed.

(** The context a new task starts with: the trampoline with [proc] and [param]
    as its arguments, interrupts enabled. *)
Definition start_context (arch_task_start frame_ptr proc param : Z) : context :=
  Context (λ r, if r =? 22 then param mod 256 else if r =? 23 then param / 256 else
                if r =? 24 then proc mod 256 else if r =? 25 then proc / 256 else
                if r =? 28 then frame_ptr mod 256 else if r =? 29 then frame_ptr / 256 else 0)
    128 0 arch_task_start.

Lemma arch_task_init_spec start task sparam ssize proc param m :
  let p := sparam + ssize - 1 - frame_size in
  let m' := arch_task_init start task sparam ssize proc param m in
  0 ≤ start < 65536 → 0 ≤ proc < 65536 → 0 ≤ param < 65536 →
  0 ≤ p → sparam + ssize ≤ 65536 → apart task 2 (p + 1) frame_size →
  holds m' p (start_context start (sparam + ssize - 3) proc param) ∧ word m' task = p ∧
  (∀ x, apart x 1 (p + 1) frame_size → apart x 1 task 2 → m' x = m x).
Proof.
  intros p m' Hs Hproc Hparam Hp Ht Hd. unfold apart in Hd.
  assert (35 ≤ frame_size ≤ 36) as Hfs by (unfold frame_size; destruct have_rampz; lia).
  set (bs := task_init_bytes start ((sparam + ssize - 3) mod 65536) proc param).
  assert (Z.of_nat (length bs) = frame_size) as Hlen
    by (unfold bs, task_init_bytes, frame_size, rampz_bytes; by destruct have_rampz).
  set (top := sparam + ssize - 1) in *.
  assert (m' = upd (upd (snd (store_down bs top m)) task (p mod 256)) (task + 1) (p mod 65536 / 256)) as ->.
  { unfold m', arch_task_init. change (store_down _ _ m) with (store_down bs top m).
    rewrite (surjective_pairing (store_down bs top m)), store_down_sp, Hlen. done. }
  rewrite (Z.mod_small p 65536) by (unfold p, top in *; lia).
  split_and!.
  - apply (stored_same (snd (store_down bs top m))).
    + replace (p + 1) with (top - Z.of_nat (length bs) + 1) by (unfold p; lia).
      replace (image _) with (reverse bs); [apply store_down_stored|].
      unfold bs, task_init_bytes. rewrite (Z.mod_small (sparam + ssize - 3)) by (unfold p, top in Hp; lia).
      destruct (lo_hi start Hs) as (-> & _ & ->), (lo_hi proc Hproc) as (-> & -> & _),
        (lo_hi param Hparam) as (-> & -> & _), (lo_hi (sparam + ssize - 3)) as (-> & -> & _);
        [unfold p, top in Hp; lia|].
      unfold image, rampz_bytes. by destruct have_rampz.
    + assert (∀ f, Z.of_nat (length (image f)) = frame_size) as Hil
        by (intros f; unfold image, frame_size, rampz_bytes; by destruct have_rampz).
      rewrite Hil. intros x Hx. apply upd2_out. lia.
  - rewrite word_upd. pose proof (Z.div_mod p 256). lia.
  - intros x H1 H2. unfold apart in *. rewrite upd2_out by lia. apply store_down_out. unfold p in *. lia.
Qed.

(** ** Coming back *)

(** The code that goes back to the context stored at [p]: another switch, to the
    task with TCB [t], or the end of an interrupt. *)
Definition comes_back (code : list line) (c : cpu) (t p : Z) : Prop :=
  (code = arch_context_switch ∧ ∃ t', switchable c t' t p) ∨ (code = arch_contextrestore_i ∧ leaving c p).
Definition kept (m m' : Z → Z) (p : Z) : Prop := ∀ x, p + 1 ≤ x ≤ p + frame_size → m' x = m x.

Lemma image_length f : Z.of_nat (length (image f)) = frame_size.
Proof. unfold image, frame_size, rampz_bytes. by destruct have_rampz. Qed.

Lemma comes_back_resumes code c t p m f :
  comes_back code c t p → holds m p f → kept m (mem c) p → byte (ctx_sreg f) →
  ∃ tr c', execute code c = (tr ++ [ctx_sreg f], Returned c') ∧ Forall masked tr ∧ resumed f p (mem c') c'.
Proof.
  intros Hc Hm Hk HS.
  assert (holds (mem c) p f) as Hf.
  { apply (stored_same m); [done|]. rewrite image_length. intros x Hx. apply Hk. lia. }
  assert (∃ m', resumes f p m' (execute code c)) as (m' & tr & c' & Hex & Htr & Hr).
  { destruct Hc as [(-> & t' & Hsw)|(-> & Hl)].
    - destruct (context_switch_spec c t' t p f Hsw Hf HS) as (f' & m' & _ & _ & Hr & _). by exists m'.
    - eexists. by apply contextrestore_spec. }
  exists tr, c'. split; [done|]. split; [done|]. by destruct Hr.
Qed.

(** ** What the port promises *)

(** C14: A task that calls [arch_context_switch] is left with its TCB pointing to
    a context on its own stack and [task_current] naming the new task; when
    another task later switches to it, or an interrupt ends with it as the
    current task, and its stored context was not touched meanwhile, it goes on
    behind its call with all registers the compiler keeps over a call, RAMPZ and
    its stack pointer as they were, and interrupts masked throughout. *)
Theorem context_switch_roundtrip c t b p g :
  switchable c t b p → holds (mem c) p g → byte (ctx_sreg g) →
  ∃ tr c1, execute arch_context_switch c = (tr, Returned c1) ∧
    word (mem c1) t = base c ∧ word (mem c1) a_task_current = b ∧
    ∀ code c2, comes_back code c2 t (base c) → kept (mem c1) (mem c2) (base c) →
      ∃ tr2 c3, execute code c2 = (tr2, Returned c3) ∧ Forall masked tr2 ∧
        (∀ r, call_saved r → reg c3 r = reg c r) ∧ (have_rampz = true → rampz c3 = rampz c) ∧
        pc c3 = return_address c ∧ sp c3 = sp c + 2.
Proof.
  intros Hsw Hg HS.
  destruct (context_switch_spec c t b p g Hsw Hg HS) as (f & m & (F1 & F2 & F3 & F4) & Hh & (tr & c1 & Hex & Htr & Hr) & W1 & W2 & _).
  eexists _, c1. split; [exact Hex|]. destruct Hr. rewrite resumed_mem0. split_and!; [done..|].
  intros code c2 Hc Hk. destruct (comes_back_resumes code c2 t (base c) m f) as (tr2 & c3 & Hex2 & Htr2 & []);
    [done..|by rewrite F2|].
  eexists _, c3. split; [exact Hex2|]. split_and!.
  - apply Forall_app. split; [done|]. constructor; [by rewrite F2|done].
  - intros r Hcs. rewrite resumed_reg1; [by apply F1|]. unfold call_saved in Hcs. lia.
  - intros Hz. by rewrite resumed_rampz1.
  - by rewrite resumed_pc1.
  - rewrite resumed_sp1. unfold base. lia.
Qed.

(** C16: The first switch to a task set up by [arch_task_init], its stack and TCB
    being untouched meanwhile, starts [arch_task_start] on an empty stack with
    [proc] and [param] in the argument registers r25:r24 and r23:r22, r1 zero as
    the compiler expects, and enables interrupts with the jump and not before. *)
Theorem first_switch_starts_task m0 start task sparam ssize proc param c t :
  let p := sparam + ssize - 1 - frame_size in
  0 ≤ start < 65536 → 0 ≤ proc < 65536 → 0 ≤ param < 65536 →
  0 ≤ p → apart task 2 (p + 1) frame_size →
  kept (arch_task_init start task sparam ssize proc param m0) (mem c) p → switchable c t task p →
  ∃ tr c1, execute arch_context_switch c = (tr ++ [128], Returned c1) ∧ Forall masked tr ∧
    pc c1 = start ∧ pair c1 24 = proc ∧ pair c1 22 = param ∧ reg c1 1 = 0 ∧
    pair c1 28 = sparam + ssize - 3 ∧ sp c1 = sparam + ssize - 1 ∧ sreg c1 = 128 ∧
    word (mem c1) a_task_current = task.
Proof.
  intros p Hs Hproc Hparam Hp Hd Hk Hsw.
  destruct (arch_task_init_spec start task sparam ssize proc param m0) as (Hh & _ & _); fold p; try done.
  { pose proof (sw_room _ _ _ _ Hsw). unfold p in *. lia. }
  fold p in Hh. set (g := start_context start (sparam + ssize - 3) proc param) in *.
  assert (holds (mem c) p g) as Hg.
  { apply (stored_same _ _ _ _ Hh). rewrite image_length. intros x Hx. apply Hk. lia. }
  destruct (context_switch_spec c t task p g Hsw Hg) as (f & m & _ & _ & (tr & c1 & Hex & Htr & []) & _ & W2 & _).
  { unfold byte. cbn. lia. }
  exists tr, c1. split; [done|]. split; [done|]. unfold pair. rewrite !resumed_reg0 by lia.
  change (24 + 1) with 25. change (22 + 1) with 23. change (28 + 1) with 29.
  unfold g, start_context in *. cbn [ctx_reg ctx_sreg ctx_pc Z.eqb Pos.eqb] in *.
  rewrite resumed_mem0. split_and!; try done.
  - pose proof (Z.div_mod proc 256). lia.
  - pose proof (Z.div_mod param 256). lia.
  - pose proof (Z.div_mod (sparam + ssize - 3) 256). lia.
  - rewrite resumed_sp0. unfold p. lia.
Qed.

Lemma byte_lor s : byte s → byte (Z.lor s 128).
Proof.
  unfold byte. intros Hs. assert (Forall (λ n : nat, 0 ≤ Z.lor (Z.of_nat n) 128 < 256) (seq 0 256)) as H
    by (apply (bool_decide_unpack _); by vm_compute).
  rewrite Forall_forall in H. rewrite <- (Z2Nat.id s) by lia. apply H, elem_of_seq. lia.
Qed.

(** C15: Interrupt entry and exit are transparent to the interrupted code. The
    entry stores its context on the current stack, counts the nesting and, at the
    outermost level, leaves the interrupted task's TCB pointing to the context;
    the handler starts with r1 zero and the frame pointer at the stack pointer.
    However the context is resumed, by the end of the same or another interrupt
    or by a task that switches to the preempted one, all 32 registers, SREG with
    interrupts enabled, RAMPZ, the stack pointer and the interrupted address are
    back, and interrupts are masked up to the return. *)
Theorem isr_roundtrip c t n :
  interruptible c t n →
  ∃ tr c1, execute arch_contextstore_i c = (tr, Through c1) ∧ Forall masked tr ∧
    sp c1 = base c ∧ pair c1 28 = base c ∧ reg c1 1 = 0 ∧
    mem c1 a_isr_nesting = (n + 1) mod 256 ∧ word (mem c1) a_task_current = t ∧ (n = 0 → word (mem c1) t = base c) ∧
    ∀ code c2, comes_back code c2 t (base c) → kept (mem c1) (mem c2) (base c) →
      ∃ tr2 c3, execute code c2 = (tr2 ++ [Z.lor (sreg c) 128], Returned c3) ∧ Forall masked tr2 ∧
        (∀ r, 0 ≤ r < 32 → reg c3 r = reg c r) ∧ sreg c3 = Z.lor (sreg c) 128 ∧
        (have_rampz = true → rampz c3 = rampz c) ∧ pc c3 = return_address c ∧ sp c3 = sp c + 2.
Proof.
  intros Hin. destruct (contextstore_spec c t n Hin) as (tr & c1 & Hex & Htr & H1 & Hh & H2 & H3 & H4 & H5 & H6 & _).
  exists tr, c1. split_and!; [done..|].
  intros code c2 Hc Hk. destruct (comes_back_resumes code c2 t (base c) _ _ Hc Hh Hk) as (tr2 & c3 & Hex2 & Htr2 & []).
  { apply byte_lor. apply Hin. }
  exists tr2, c3. split_and!; try done. rewrite resumed_sp0. unfold base. lia.
Qed.

End port.

(** ** A concrete layout *)

(** Two tasks without RAMPZ: [task_current] at 256, [isr_nesting] at 258, TCBs at
    300 and 310; the first runs with its stack pointer at 1050, the second was
    just created with its stack at 2000. *)
Definition demo_mem : Z → Z :=
  upd (upd (upd (upd (upd (arch_task_init false 500 310 2000 140 600 700 (λ _, 0))
    256 44) 257 1) 258 0) 1051 2) 1052 7.
Definition demo_cpu : cpu :=
  Cpu (λ r, if r =? 24 then 54 else if r =? 25 then 1 else 100 + r) 3 1050 0 0 demo_mem.
Definition after (r : list Z * outcome) : cpu :=
  match snd r with Returned c | Through c => c | Nofuel => demo_cpu end.
(** The second task's core, about to switch back to the first. *)
Definition demo_back (m : Z → Z) : cpu := Cpu (λ r, if r =? 24 then 44 else r - r + 1) 0 2130 0 0 m.

Lemma kept_back m p : kept false m (mem (demo_back m)) p.
Proof. done. Qed.
Ltac differ := let H := fresh in intros H; discriminate H.
Ltac layout :=
  split; unfold byte, apart, masked;
  vm_compute; first [exact eq_refl | differ | split; [differ|reflexivity] | split; reflexivity | left; differ | right; differ].
Lemma stored_from m a bs : m <$> ((λ i : nat, a + Z.of_nat i) <$> seq 0 (length bs)) = bs → stored m a bs.
Proof.
  intros H i b Hi. rewrite <- H, !list_lookup_fmap in Hi.
  apply fmap_Some in Hi as (x & Hx & ->). apply fmap_Some in Hx as (n & Hn & ->).
  apply lookup_seq in Hn as [-> _]. done.
Qed.

Lemma context_switch_roundtrip_witness :
  ∃ tr c1 tr2 c3, execute (arch_context_switch false 256) demo_cpu = (tr, Returned c1) ∧
    execute (arch_context_switch false 256) (demo_back (mem c1)) = (tr2, Returned c3) ∧
    (∀ r, call_saved r → reg c3 r = reg demo_cpu r) ∧ pc c3 = 519 ∧ sp c3 = 1052.
Proof.
  destruct (context_switch_roundtrip false 256 258 demo_cpu 300 310 2104 (start_context 500 2137 600 700))
    as (tr & c1 & Hex & _ & _ & Hback); [layout|apply stored_from; vm_compute; reflexivity|split; [differ|reflexivity]|].
  assert (c1 = after (execute (arch_context_switch false 256) demo_cpu)) as -> by (rewrite Hex; reflexivity).
  destruct (Hback (arch_context_switch false 256)
    (demo_back (mem (after (execute (arch_context_switch false 256) demo_cpu))))) as (tr2 & c3 & Hex2 & _ & Hr & _ & Hpc & Hsp).
  - left. split; [reflexivity|]. exists 310. layout.
  - apply kept_back.
  - exists tr, (after (execute (arch_context_switch false 256) demo_cpu)), tr2, c3.
    split; [exact Hex|]. split; [exact Hex2|]. split; [exact Hr|]. split; [rewrite Hpc|rewrite Hsp]; vm_compute; reflexivity.
Defined.

Lemma first_switch_starts_task_witness :
  ∃ tr c1, execute (arch_context_switch false 256) demo_cpu = (tr ++ [128], Returned c1) ∧
    pc c1 = 500 ∧ pair c1 24 = 600 ∧ pair c1 22 = 700 ∧ sp c1 = 2139.
Proof.
  destruct (first_switch_starts_task false 256 (λ _, 0) 500 310 2000 140 600 700 demo_cpu 300)
    as (tr & c1 & Hex & _ & H1 & H2 & H3 & _ & _ & H4 & _); [split; [differ|reflexivity]..| |left; differ| | |].
  - differ.
  - intros x Hx. change (frame_size false) with 35 in Hx. unfold demo_cpu, demo_mem. cbn [mem]. by rewrite !upd_ne by lia.
  - layout.
  - exists tr, c1. split; [exact Hex|]. split; [exact H1|]. split; [exact H2|]. split; [exact H3|]. exact H4.
Defined.

(** The first task interrupted: the interrupt ends with it current again. *)
Definition demo_leave (m : Z → Z) : cpu := Cpu (λ r, r - r) 0 900 0 0 m.
Lemma kept_leave m p : kept false m (mem (demo_leave m)) p.
Proof. done. Qed.
Lemma isr_roundtrip_witness :
  ∃ tr c1 tr2 c3, execute (arch_contextstore_i false 256 258) demo_cpu = (tr, Through c1) ∧ word (mem c1) 300 = 1017 ∧
    execute (arch_contextrestore_i false 256 258) (demo_leave (mem c1)) = (tr2 ++ [131], Returned c3) ∧
    (∀ r, 0 ≤ r < 32 → reg c3 r = reg demo_cpu r) ∧ sreg c3 = 131 ∧ pc c3 = 519 ∧ sp c3 = 1052.
Proof.
  destruct (isr_roundtrip false 256 258 demo_cpu 300 0) as (tr & c1 & Hex & _ & _ & _ & _ & _ & _ & Hctx & Hback); [layout|].
  specialize (Hctx eq_refl).
  assert (c1 = after (execute (arch_contextstore_i false 256 258) demo_cpu)) as -> by (rewrite Hex; reflexivity).
  destruct (Hback (arch_contextrestore_i false 256 258)
    (demo_leave (mem (after (execute (arch_contextstore_i false 256 258) demo_cpu)))))
    as (tr2 & c3 & Hex2 & _ & Hr & Hs & _ & Hpc & Hsp).
  - right. split; [reflexivity|]. layout.
  - apply kept_leave.
  - exists tr, (after (execute (arch_contextstore_i false 256 258) demo_cpu)), tr2, c3.
    split; [exact Hex|]. split; [exact Hctx|]. split; [exact Hex2|]. split; [exact Hr|].
    split; [exact Hs|]. split; [rewrite Hpc|rewrite Hsp]; vm_compute; reflexivity.
Defined.
