(* ===== verification/MspContext.v ===== *)
(** * The MSP430 port: context store, restore and switch (arch/msp430)

    The assembly of [arch_contextstore_i] and [arch_contextrestore_i]
    (arch_port.h) and of [arch_context_switch] (arch_port.c) as lists of
    instructions, executed on the part of an MSP430 core they use: r4 - r15, the
    status register r2, the stack pointer r1, the program counter r0 and the
    memory of 16-bit words, where bit 0 of the address of a word is ignored; and
    [arch_task_init], which lays out the first context of a task.

    Interrupts are not taken while this code runs; that the interrupt flag stays
    clear up to the instruction that loads the status register is part of what is
    proved. The flags are those of the MSP430 instruction set. The argument
    [new_task] of [arch_context_switch] is in r15, where [arch_task_init] puts the
    first argument of a function, too. *)

From stdpp Require Import base decidable list.
From Stdlib Require Import ZArith Lia.
From S2P Require Import Prelude.

Local Open Scope Z_scope.

(** ** The core *)

Record cpu := Cpu {
  reg : Z → Z;                       (** r4 - r15 *)
  sr : Z;                            (** r2 *)
  sp : Z;                            (** r1 *)
  pc : Z;                            (** r0: where the last return went *)
  mem : Z → Z                        (** memory, by word *)
}.

(** The word at a byte address. *)
Definition rd (m : Z → Z) (a : Z) : Z := m (a / 2).
Definition wr (m : Z → Z) (a v : Z) : Z → Z := upd m (a / 2) v.

Definition set_reg r v c := Cpu (upd (reg c) r v) (sr c) (sp c) (pc c) (mem c).
Definition set_sr v c := Cpu (reg c) v (sp c) (pc c) (mem c).
Definition set_sp v c := Cpu (reg c) (sr c) v (pc c) (mem c).
Definition set_pc v c := Cpu (reg c) (sr c) (sp c) v (mem c).
Definition store a v c := Cpu (reg c) (sr c) (sp c) (pc c) (wr (mem c) a v).

(** Push decrements and stores, pop loads and increments. *)
Definition push (v : Z) (c : cpu) : cpu :=
  let a := (sp c - 2) mod 65536 in store a v (set_sp a c).
Definition top (c : cpu) : Z := rd (mem c) (sp c).
Definition pop_sp (c : cpu) : cpu := set_sp ((sp c + 2) mod 65536) c.

(** [pushm n,r]: r, r-1, ... are pushed; [popm n,r]: ..., r-1, r are popped. *)
Fixpoint pushm (n : nat) (r : Z) (c : cpu) : cpu :=
  match n with O => c | S n => pushm n (r - 1) (push (reg c r) c) end.
Fixpoint popm (n : nat) (r : Z) (c : cpu) : cpu :=
  match n with O => c | S n => popm n r (pop_sp (set_reg (r - Z.of_nat n) (top c) c)) end.

(** Bits of SR. *)
Definition GIE := 8.
Definition CPUOFF := 16.
Definition OSCOFF := 32.
Definition SCG0 := 64.
Definition SCG1 := 128.
Definition setf (i : Z) (b : bool) (s : Z) : Z := if b then Z.setbit s i else Z.clearbit s i.
Definition flag_C := 0.
Definition flag_Z := 1.
Definition flag_N := 2.
Definition flag_GIE := 3.
Definition flag_V := 8.
(** The flags of an addition or subtraction with the result [v]. *)
Definition set_cznv (carry : bool) (v : Z) (overflow : bool) (s : Z) : Z :=
  setf flag_V overflow (setf flag_N (Z.testbit v 15) (setf flag_Z (v =? 0) (setf flag_C carry s))).
(** [bic #k] on a word. *)
Definition bic (k v : Z) : Z := Z.land v (65535 - k).

(** ** Instructions *)

Inductive instr :=
| Ipush_sr | Ipop_sr                           (** [push r2], [pop r2] *)
| Ipushm (n : nat) (r : Z) | Ipopm (n : nat) (r : Z)
| Imov_mr (a r : Z) | Imov_rm (r a : Z)        (** [mov &a, r], [mov r, &a] *)
| Imov_sp_at (r : Z)                           (** [mov r1, @r] *)
| Imov_m_sp (a : Z)                            (** [mov &a, r1] *)
| Imov_at_sp                                   (** [mov @r1, r1] *)
| Imovb_m (k a : Z)                            (** [mov.b #k, &a] *)
| Ibic_at_sp (k : Z) | Ibis_at_sp (k : Z)      (** [bic #k, @r1], [bis #k, @r1] *)
| Iinc_m (a : Z) | Idec_m (a : Z) | Icmp_m (k a : Z)
| Idint.

Definition op (i : instr) (c : cpu) : cpu :=
  match i with
  | Ipush_sr => push (sr c) c
  | Ipop_sr => pop_sp (set_sr (top c) c)
  | Ipushm n r => pushm n r c
  | Ipopm n r => popm n r c
  | Imov_mr a r => set_reg r (rd (mem c) a) c
  | Imov_rm r a => store a (reg c r) c
  | Imov_sp_at r => store (reg c r) (sp c) c
  | Imov_m_sp a => set_sp (rd (mem c) a) c
  | Imov_at_sp => set_sp (top c) c
  | Imovb_m k a => let w := rd (mem c) a in
      store a (if Z.even a then w - w mod 256 + k else w mod 256 + 256 * k) c
  | Ibic_at_sp k => store (sp c) (bic k (top c)) c
  | Ibis_at_sp k => store (sp c) (Z.lor (top c) k) c
  | Iinc_m a => let w := rd (mem c) a in let v := (w + 1) mod 65536 in
      set_sr (set_cznv (v =? 0) v (w =? 32767) (sr c)) (store a v c)
  | Idec_m a => let w := rd (mem c) a in let v := (w - 1) mod 65536 in
      set_sr (set_cznv (negb (w =? 0)) v (w =? 32768) (sr c)) (store a v c)
  | Icmp_m k a => let w := rd (mem c) a in let v := (w - k) mod 65536 in
      set_sr (set_cznv (k <=? w) v
        (xorb (Z.testbit w 15) (Z.testbit k 15) && xorb (Z.testbit w 15) (Z.testbit v 15)) (sr c)) c
  | Idint => set_sr (bic GIE (sr c)) c
  end.

(** Lines of assembly: instructions, forward jumps, labels and returns. *)
Inductive label := Lnested | Ldone.
#[export] Instance label_eq : EqDecision label.
Proof. solve_decision. Defined.
Inductive line := I (i : instr) | L (l : label) | Ijmp (l : label) | Ijne (l : label) | Iret | Ireti.

Fixpoint goto (l : label) (code : list line) : list line :=
  match code with
  | [] => []
  | L l' :: code => if decide (l = l') then code else goto l code
  | _ :: code => goto l code
  end.

(** [ret] and [reti] *)
Definition ret (c : cpu) : cpu := pop_sp (set_pc (top c) c).

(** How a piece of code is left, with the values SR had after each instruction. *)
Inductive outcome := Returned (c : cpu) | Through (c : cpu) | Nofuel.
Fixpoint exec (fuel : nat) (code : list line) (c : cpu) : list Z * outcome :=
  match fuel with
  | O => ([], Nofuel)
  | S fuel =>
      let after c r := (sr c :: fst r, snd r) in
      match code with
      | [] => ([], Through c)
      | I i :: code => let c := op i c in after c (exec fuel code c)
      | L _ :: code => exec fuel code c
      | Ijmp l :: code => after c (exec fuel (goto l code) c)
      | Ijne l :: code => after c (exec fuel (if Z.testbit (sr c) flag_Z then code else goto l code) c)
      | Iret :: _ => let c := ret c in ([sr c], Returned c)
      | Ireti :: _ => let c := ret (op Ipop_sr c) in ([sr c], Returned c)
      end
  end.
Definition execute (code : list line) (c : cpu) : list Z * outcome := exec (S (length code)) code c.

(** ** The code of the port *)

Section port.
(** The addresses of [task_current] and [isr_nesting]. *)
Context (a_task_current a_isr_nesting : Z).

Definition powerbits : Z := SCG1 + SCG0 + OSCOFF + CPUOFF.

Definition arch_context_switch : list line :=
  [I Ipush_sr;
   I (Ipushm 12 15);
   I (Imov_mr a_task_current 4);
   I (Imov_sp_at 4);
   I (Imov_rm 15 a_task_current);              (* task_current = new_task *)
   I (Imov_m_sp a_task_current);
   I Imov_at_sp;
   I (Ipopm 12 15);
   I (Ibic_at_sp powerbits);
   I Ipop_sr;
   Iret].

Definition arch_contextstore_i : list line :=
  [I (Iinc_m a_isr_nesting);
   I (Ipushm 12 15);
   I (Icmp_m 1 a_isr_nesting);
   Ijne Lnested;
   I (Imov_mr a_task_current 15);
   I (Imov_sp_at 15);
   L Lnested].

Definition arch_contextrestore_i : list line :=
  [I Idint;
   I (Idec_m a_isr_nesting);
   Ijne Lnested;
   I (Imov_m_sp a_task_current);
   I Imov_at_sp;
   I (Ipopm 12 15);
   I (Ibic_at_sp powerbits);
   Ijmp Ldone;
   L Lnested;
   I (Imovb_m 128 2592);
   I (Ipopm 12 15);
   L Ldone;
   I (Ibis_at_sp GIE);
   Ireti].

(** [arch_task_init]: words stored downwards from the end of the stack, and the
    stack pointer in [task->ctx]; [None] is [os_halt()]. [arch_task_start] is the
    address of the trampoline; with [apicheck] the assertions are compiled in. *)
Fixpoint store_down (ws : list Z) (stack : Z) (m : Z → Z) : Z * (Z → Z) :=
  match ws with [] => (stack, m) | w :: ws => store_down ws (stack - 2) (wr m stack w) end.

Definition arch_task_init (apicheck : bool) (arch_task_start task stack_param stack_size proc param : Z)
    (m : Z → Z) : option (Z → Z) :=
  let stack := stack_param + stack_size in
  if apicheck && negb false then None else              (* OS_ASSERT(!"should be stack_size - 2") *)
  if apicheck && negb (Z.land stack_param 1 =? 0) then None else
  let '(stack, m) := store_down
    [arch_task_start; GIE; proc; param; 0; 0; 0; 0; 0; 0; 0; 0; 0; 0] (stack - 2) m in
  Some (wr m task ((stack + 2) mod 65536)).

(** Critical sections: the whole status register is saved and written back. *)
Definition arch_dint (c : cpu) : cpu := op Idint c.
Definition arch_is_dint (c : cpu) : bool := negb (Z.testbit (sr c) flag_GIE).
Definition arch_critical_enter (c : cpu) : Z * cpu := (sr c, arch_dint c).
Definition arch_critical_exit (cristate : Z) (c : cpu) : cpu := set_sr cristate c.
End port.

(** ** Reading what was written *)

(** The words or ranges at [a], [n] bytes, and at [b], [k] bytes, are disjoint. *)
Definition apart (a n b k : Z) : Prop := a + n ≤ b ∨ b + k ≤ a.

Lemma rd_wr m a v : rd (wr m a v) a = v.
Proof. apply upd_eq. Qed.
Lemma rd_wr_ne m a v b : apart a 2 b 2 → rd (wr m a v) b = rd m b.
Proof.
  intros H. unfold rd, wr. apply upd_ne. unfold apart in H. pose proof (Z.div_mod a 2). pose proof (Z.div_mod b 2).
  pose proof (Z.mod_pos_bound a 2). pose proof (Z.mod_pos_bound b 2). lia.
Qed.

(** What a run of pushes stores. *)
Lemma pushm_spec n : ∀ r c, 2 * Z.of_nat n ≤ sp c < 65536 →
  let c' := pushm n r c in let q := sp c - 2 * Z.of_nat n in
  sp c' = q ∧ reg c' = reg c ∧ sr c' = sr c ∧ pc c' = pc c ∧
  (∀ i, 0 ≤ i < Z.of_nat n → rd (mem c') (q + 2 * i) = reg c (r - Z.of_nat n + 1 + i)) ∧
  (∀ a, apart a 2 q (2 * Z.of_nat n) → rd (mem c') a = rd (mem c) a).
Proof.
  induction n as [| n IH]; intros r c Hs; cbn zeta.
  { cbn. split_and!; try done; lia. }
  assert (push (reg c r) c = Cpu (reg c) (sr c) (sp c - 2) (pc c) (wr (mem c) (sp c - 2) (reg c r))) as Hp.
  { unfold push. by rewrite Z.mod_small by lia. }
  cbn [pushm]. rewrite Hp.
  destruct (IH (r - 1) (Cpu (reg c) (sr c) (sp c - 2) (pc c) (wr (mem c) (sp c - 2) (reg c r))))
    as (E1 & E2 & E3 & E4 & E5 & E6); [cbn; lia |]. cbn [sp reg sr pc mem] in *.
  split_and!; try done; [lia | |].
  - intros i Hi. destruct (decide (i = Z.of_nat n)) as [-> |].
    + rewrite E6 by (unfold apart; lia). replace (sp c - 2 * Z.of_nat (S n) + 2 * Z.of_nat n) with (sp c - 2) by lia.
      rewrite rd_wr. f_equal. lia.
    + replace (sp c - 2 * Z.of_nat (S n) + 2 * i) with (sp c - 2 - 2 * Z.of_nat n + 2 * i) by lia.
      rewrite E5 by lia. f_equal. lia.
  - intros a Ha. unfold apart in *. rewrite E6 by lia. apply rd_wr_ne. unfold apart. lia.
Qed.

(** What a run of pops loads. *)
Lemma popm_spec n : ∀ r c, 0 ≤ sp c → sp c + 2 * Z.of_nat n < 65536 →
  let c' := popm n r c in
  sp c' = sp c + 2 * Z.of_nat n ∧ mem c' = mem c ∧ sr c' = sr c ∧ pc c' = pc c ∧
  (∀ i, 0 ≤ i < Z.of_nat n → reg c' (r - Z.of_nat n + 1 + i) = rd (mem c) (sp c + 2 * i)) ∧
  (∀ x, x ≤ r - Z.of_nat n ∨ r < x → reg c' x = reg c x).
Proof.
  induction n as [| n IH]; intros r c H0 Hs; cbn zeta.
  { cbn. split_and!; try done; lia. }
  cbn [popm]. set (c1 := pop_sp _).
  assert (c1 = Cpu (upd (reg c) (r - Z.of_nat n) (top c)) (sr c) (sp c + 2) (pc c) (mem c)) as H1.
  { unfold c1, pop_sp, set_sp. cbn. by rewrite Z.mod_small by lia. }
  clearbody c1. subst c1.
  destruct (IH r (Cpu (upd (reg c) (r - Z.of_nat n) (top c)) (sr c) (sp c + 2) (pc c) (mem c)))
    as (E1 & E2 & E3 & E4 & E5 & E6); [cbn; lia.. |]. cbn [sp reg sr pc mem] in *.
  split_and!; try done; [lia | |].
  - intros i Hi. destruct (decide (i = 0)) as [-> |].
    + rewrite E6 by lia. replace (r - Z.of_nat (S n) + 1 + 0) with (r - Z.of_nat n) by lia.
      rewrite upd_eq. unfold top. f_equal. lia.
    + replace (r - Z.of_nat (S n) + 1 + i) with (r - Z.of_nat n + 1 + (i - 1)) by lia.
      rewrite E5 by lia. f_equal. lia.
  - intros x Hx. rewrite E6 by lia. apply upd_ne. lia.
Qed.

#[local] Opaque pushm popm.

(** ** A stored context *)

Record context := Context { ctx_reg : Z → Z; ctx_sr : Z; ctx_pc : Z }.

(** The context [f] stored above the stack pointer [p], in the order of the pops. *)
Definition frame_size : Z := 28.
Record holds (m : Z → Z) (p : Z) (f : context) : Prop := {
  holds_reg : ∀ r, 4 ≤ r < 16 → rd m (p + 2 * (r - 4)) = ctx_reg f r;
  holds_sr : rd m (p + 24) = ctx_sr f;
  holds_pc : rd m (p + 26) = ctx_pc f
}.

(** The core right after the context [f], stored at [p], was resumed with status [s]. *)
Record resumed (f : context) (s p : Z) (c : cpu) : Prop := {
  resumed_reg : ∀ r, 4 ≤ r < 16 → reg c r = ctx_reg f r;
  resumed_sr : sr c = s;
  resumed_pc : pc c = ctx_pc f;
  resumed_sp : sp c = p + frame_size
}.

Definition masked (s : Z) : Prop := Z.testbit s flag_GIE = false.

(** The memory of a context. *)
Definition kept (m m' : Z → Z) (p : Z) : Prop := ∀ i, 0 ≤ i < 14 → rd m' (p + 2 * i) = rd m (p + 2 * i).

Lemma holds_kept m m' p f : holds m p f → kept m m' p → holds m' p f.
Proof.
  intros [H1 H2 H3] Hk. split.
  - intros r Hr. rewrite Hk by lia. by apply H1.
  - rewrite <- H2. apply (Hk 12). lia.
  - rewrite <- H3. apply (Hk 13). lia.
Qed.

Lemma bic_bit k v i : 0 ≤ i → Z.testbit (bic k v) i = Z.testbit v i && Z.testbit (65535 - k) i.
Proof. intros Hi. unfold bic. apply Z.land_spec. Qed.

Lemma bic_power_GIE s : Z.testbit (bic powerbits s) flag_GIE = Z.testbit s flag_GIE.
Proof. rewrite bic_bit by done. apply andb_true_r. Qed.

Lemma set_cznv_GIE a v o s : Z.testbit (set_cznv a v o s) flag_GIE = Z.testbit s flag_GIE.
Proof.
  assert (∀ i b s, 0 ≤ i → i ≠ flag_GIE → Z.testbit (setf i b s) flag_GIE = Z.testbit s flag_GIE) as Hf.
  { intros i [] s' Hi Hn; unfold setf; [apply Z.setbit_neq; lia | apply Z.clearbit_neq; lia]. }
  unfold set_cznv. rewrite !Hf by done. done.
Qed.

(** The end of both ways of resuming: SR and the return address are popped. *)
Lemma finish c p f s : sp c = p + 24 → 0 ≤ p → p + frame_size < 65536 → rd (mem c) (p + 24) = s →
  rd (mem c) (p + 26) = ctx_pc f → (∀ r, 4 ≤ r < 16 → reg c r = ctx_reg f r) →
  sr (op Ipop_sr c) = s ∧ resumed f s p (ret (op Ipop_sr c)) ∧ mem (ret (op Ipop_sr c)) = mem c.
Proof.
  intros Hsp Hp Hp2 Hs Hpc Hr. unfold frame_size in *.
  assert (op Ipop_sr c = Cpu (reg c) s (p + 26) (pc c) (mem c)) as ->.
  { unfold op, pop_sp, set_sp, set_sr, top. cbn [reg sr sp pc mem]. rewrite Hsp, Hs, Z.mod_small by lia. f_equal. lia. }
  assert (ret (Cpu (reg c) s (p + 26) (pc c) (mem c)) = Cpu (reg c) s (p + 28) (ctx_pc f) (mem c)) as ->.
  { unfold ret, pop_sp, set_pc, set_sp, top. cbn [reg sr sp pc mem]. rewrite Hpc, Z.mod_small by lia. f_equal. lia. }
  by split_and!.
Qed.

Section facts.
Context (a_task_current a_isr_nesting : Z).
#[local] Notation arch_context_switch := (arch_context_switch a_task_current).
#[local] Notation arch_contextstore_i := (arch_contextstore_i a_task_current a_isr_nesting).
#[local] Notation arch_contextrestore_i := (arch_contextrestore_i a_task_current a_isr_nesting).

(** One instruction at a time. *)
Lemma msp_exec_I n i code c : exec (S n) (I i :: code) c =
  (sr (op i c) :: fst (exec n code (op i c)), snd (exec n code (op i c))).
Proof. done. Qed.

(** One instruction on an explicit state. *)
Lemma op_load c t p : rd (mem c) a_task_current = t → rd (mem c) t = p →
  op Imov_at_sp (op (Imov_m_sp a_task_current) c) = set_sp p c.
Proof. intros Ht Hp. unfold op, top, set_sp. cbn [reg sr sp pc mem]. by rewrite Ht, Hp. Qed.
Lemma op_bic c a k v : sp c = a → rd (mem c) a = v →
  op (Ibic_at_sp k) c = Cpu (reg c) (sr c) a (pc c) (wr (mem c) a (bic k v)).
Proof. intros Ha Hv. unfold op, store, top. cbn [reg sr sp pc mem]. by rewrite Ha, Hv. Qed.
Lemma op_bis c a k v : sp c = a → rd (mem c) a = v →
  op (Ibis_at_sp k) c = Cpu (reg c) (sr c) a (pc c) (wr (mem c) a (Z.lor v k)).
Proof. intros Ha Hv. unfold op, store, top. cbn [reg sr sp pc mem]. by rewrite Ha, Hv. Qed.

(** The registers of a context popped from [p]. *)
Lemma op_popm c p f : sp c = p → 0 ≤ p → p + frame_size < 65536 → holds (mem c) p f →
  ∃ rs, op (Ipopm 12 15) c = Cpu rs (sr c) (p + 24) (pc c) (mem c) ∧ ∀ r, 4 ≤ r < 16 → rs r = ctx_reg f r.
Proof.
  intros Hsp H0 H1 Hf. unfold frame_size in *.
  destruct (popm_spec 12 15 c) as (E1 & E2 & E3 & E4 & E5 & _); [lia.. |]. cbn [op].
  generalize dependent (popm 12 15 c). intros c' E1 E2 E3 E4 E5. exists (reg c'). split.
  - destruct c'; cbn in *. by subst.
  - intros r Hr. rewrite <- (holds_reg _ _ _ Hf) by done. rewrite <- Hsp, <- (E5 (r - 4)) by lia. f_equal. lia.
Qed.

(** ** Switching from task to task *)

(** Task [t], whose stack pointer is that of [c], calls [arch_context_switch] for
    task [b], whose context is stored at [p]. *)
Record switchable (c : cpu) (t b p : Z) : Prop := {
  sw_current : rd (mem c) a_task_current = t;
  sw_new : reg c 15 = b;
  sw_sp : rd (mem c) b = p;
  sw_masked : masked (sr c);
  sw_room : 26 ≤ sp c ∧ sp c + 2 < 65536;
  sw_frame : 0 ≤ p ∧ p + frame_size < 65536 ∧ apart p frame_size (sp c - 26) frame_size;
  sw_data : apart a_task_current 2 t 2 ∧ apart a_task_current 2 b 2 ∧ apart t 2 b 2;
  sw_stack : ∀ x, x = a_task_current ∨ x = t ∨ x = b → apart x 2 (sp c - 26) frame_size;
  sw_stored : apart t 2 p frame_size ∧ apart a_task_current 2 p frame_size
}.

(** The context of the caller. *)
Definition base (c : cpu) : Z := sp c - 26.
Definition caller (c : cpu) : context := Context (reg c) (sr c) (top c).

Lemma op_push_sr c : 2 ≤ sp c < 65536 →
  op Ipush_sr c = Cpu (reg c) (sr c) (sp c - 2) (pc c) (wr (mem c) (sp c - 2) (sr c)).
Proof. intros H. unfold op, push. by rewrite Z.mod_small by lia. Qed.

(** The registers pushed onto a stack whose pointer is [q + 24]. *)
Lemma op_pushm c q : sp c = q + 24 → 0 ≤ q → q + 24 < 65536 →
  ∃ m, op (Ipushm 12 15) c = Cpu (reg c) (sr c) q (pc c) m ∧
    (∀ r, 4 ≤ r < 16 → rd m (q + 2 * (r - 4)) = reg c r) ∧ ∀ a, apart a 2 q 24 → rd m a = rd (mem c) a.
Proof.
  intros Hsp H0 H1. destruct (pushm_spec 12 15 c) as (E1 & E2 & E3 & E4 & E5 & E6); [lia |]. cbn [op].
  replace (sp c - 2 * Z.of_nat 12) with q in * by lia.
  generalize dependent (pushm 12 15 c). intros c' E1 E2 E3 E4 E5 E6. exists (mem c'). split_and!.
  - destruct c'; cbn in *. by subst.
  - intros r Hr. rewrite E5 by lia. f_equal. lia.
  - intros a Ha. by apply E6.
Qed.

Lemma switch_out c : 26 ≤ sp c → sp c + 2 < 65536 →
  ∃ m, op (Ipushm 12 15) (op Ipush_sr c) = Cpu (reg c) (sr c) (base c) (pc c) m ∧ holds m (base c) (caller c) ∧
  ∀ a, apart a 2 (base c) 26 → rd m a = rd (mem c) a.
Proof.
  intros H0 H1. unfold base. rewrite op_push_sr by lia.
  destruct (op_pushm (Cpu (reg c) (sr c) (sp c - 2) (pc c) (wr (mem c) (sp c - 2) (sr c))) (sp c - 26)) as (m & -> & Hr & Ho);
    [cbn; lia.. |]. cbn [reg sr sp pc mem] in *. exists m. split; [done |].
  assert (∀ a, apart a 2 (sp c - 26) 26 → rd m a = rd (mem c) a) as Hout.
  { intros a Ha. unfold apart in *. rewrite Ho by (unfold apart; lia). apply rd_wr_ne. unfold apart. lia. }
  split; [| done]. split; cbn [ctx_reg ctx_sr ctx_pc caller].
  - done.
  - rewrite Ho by (unfold apart; lia). replace (sp c - 26 + 24) with (sp c - 2) by lia. apply rd_wr.
  - rewrite Hout by (unfold apart; lia). unfold top. f_equal. lia.
Qed.

Lemma msp_context_switch_spec c t b p g : switchable c t b p → holds (mem c) p g →
  let s := bic powerbits (ctx_sr g) in
  ∃ tr c1, execute arch_context_switch c = (tr ++ [s; s], Returned c1) ∧ Forall masked tr ∧ resumed g s p c1 ∧
    rd (mem c1) t = base c ∧ rd (mem c1) a_task_current = b ∧ holds (mem c1) (base c) (caller c).
Proof.
  intros [Ht Hb Hp Hm [H0 H1] (P0 & P1 & P2) (D1 & D2 & D3) Hst (S1 & S2)] Hg s.
  fold (base c) in P2, Hst. pose proof (Hst t (or_intror (or_introl eq_refl))) as St.
  pose proof (Hst b (or_intror (or_intror eq_refl))) as Sb. pose proof (Hst a_task_current (or_introl eq_refl)) as Sa.
  destruct (switch_out c H0 H1) as (m & E & Hh & Hout).
  assert (rd m a_task_current = t) as Ht2 by (rewrite Hout; [done |]; unfold apart, frame_size in *; lia).
  set (m5 := wr (wr m t (base c)) a_task_current b).
  assert (∀ a, apart a 2 t 2 → apart a 2 a_task_current 2 → rd m5 a = rd m a) as Hrd.
  { intros a Ha1 Ha2. unfold m5. rewrite !rd_wr_ne; [done | unfold apart in *; lia..]. }
  assert (∀ a, apart a 2 t 2 → apart a 2 a_task_current 2 → apart a 2 (base c) 26 → rd m5 a = rd (mem c) a) as Hrd0.
  { intros a Ha1 Ha2 Ha3. rewrite Hrd by done. by apply Hout. }
  assert (holds m5 p g) as Hg5.
  { apply (holds_kept (mem c)); [done |]. intros i Hi. apply Hrd0; unfold apart, frame_size in *; lia. }
  assert (holds m5 (base c) (caller c)) as Hh5.
  { apply (holds_kept m); [done |]. intros i Hi. apply Hrd; unfold apart, frame_size in *; lia. }
  set (c5 := Cpu (upd (reg c) 4 t) (sr c) (base c) (pc c) m5).
  destruct (op_popm (set_sp p c5) p g) as (rs & Epop & Hrs); try done.
  change (op (Ipopm 12 15) (set_sp p c5) = Cpu rs (sr c) (p + 24) (pc c) m5) in Epop.
  destruct (finish (Cpu rs (sr c) (p + 24) (pc c) (wr m5 (p + 24) s)) p g s) as (G1 & G2 & G3); try done.
  { apply rd_wr. } { cbn [mem]. rewrite rd_wr_ne by (unfold apart; lia). apply Hg5. }
  exists (replicate 9 (sr c)), (ret (op Ipop_sr (Cpu rs (sr c) (p + 24) (pc c) (wr m5 (p + 24) s)))). split_and!.
  - assert (op (Imov_rm 15 a_task_current) (op (Imov_sp_at 4) (op (Imov_mr a_task_current 4) (Cpu (reg c) (sr c) (base c) (pc c) m))) = c5) as E5.
    { unfold op, store, set_reg, c5, m5. cbn [reg sr sp pc mem]. by rewrite Ht2, upd_eq, (upd_ne _ 4 _ 15), Hb by lia. }
    assert (op Ipush_sr c = Cpu (reg c) (sr c) (sp c - 2) (pc c) (wr (mem c) (sp c - 2) (sr c))) as E1 by (apply op_push_sr; lia).
    assert (op Imov_at_sp (op (Imov_m_sp a_task_current) c5) = set_sp p c5) as E7.
    { eapply op_load; unfold c5; cbn [mem]; [apply rd_wr |]. rewrite (Hrd0 b); [done | unfold apart, frame_size in *; lia..]. }
    unfold execute, MspContext.arch_context_switch. cbn [length]. rewrite !msp_exec_I.
    rewrite E, E5, E7, Epop.
    rewrite (op_bic _ (p + 24) powerbits (ctx_sr g)); [| done | apply Hg5]. rewrite E1.
    cbn [reg sr sp pc mem]. fold s. cbn [exec fst snd]. by rewrite G1, (resumed_sr _ _ _ _ G2).
  - by apply Forall_replicate.
  - exact G2.
  - rewrite G3. cbn [mem]. rewrite rd_wr_ne by (unfold apart, frame_size in *; lia). unfold m5.
    rewrite rd_wr_ne by (unfold apart in *; lia). apply rd_wr.
  - rewrite G3. cbn [mem]. rewrite rd_wr_ne by (unfold apart, frame_size in *; lia). apply rd_wr.
  - rewrite G3. apply (holds_kept m5); [done |]. intros i Hi. cbn [mem]. apply rd_wr_ne. unfold apart, frame_size in *. lia.
Qed.

(** ** Interrupts *)

Lemma exec_jne n l code c : exec (S n) (Ijne l :: code) c =
  (sr c :: fst (exec n (if Z.testbit (sr c) flag_Z then code else goto l code) c),
   snd (exec n (if Z.testbit (sr c) flag_Z then code else goto l code) c)).
Proof. done. Qed.
Lemma exec_jmp n l code c : exec (S n) (Ijmp l :: code) c =
  (sr c :: fst (exec n (goto l code) c), snd (exec n (goto l code) c)).
Proof. done. Qed.

Lemma set_cznv_Z a v o s : Z.testbit (set_cznv a v o s) flag_Z = (v =? 0).
Proof.
  unfold set_cznv. set (x := setf flag_C a s).
  assert (∀ i b s, 0 ≤ i → i ≠ flag_Z → Z.testbit (setf i b s) flag_Z = Z.testbit s flag_Z) as Hf.
  { intros i [] s' Hi Hn; unfold setf; [apply Z.setbit_neq; lia | apply Z.clearbit_neq; lia]. }
  rewrite !Hf by done. unfold setf. destruct (v =? 0); [by apply Z.setbit_eq | apply Z.clearbit_eq].
Qed.

Lemma op_inc c a w : rd (mem c) a = w → 0 ≤ w < 65535 →
  ∃ s, op (Iinc_m a) c = Cpu (reg c) s (sp c) (pc c) (wr (mem c) a (w + 1)) ∧ (masked (sr c) → masked s).
Proof.
  intros Hw Hr. eexists. split.
  - unfold op. rewrite Hw, Z.mod_small by lia. reflexivity.
  - unfold masked. cbn [sr set_sr]. intros <-. apply set_cznv_GIE.
Qed.
Lemma op_dec c a w : rd (mem c) a = w → 1 ≤ w < 65536 →
  ∃ s, op (Idec_m a) c = Cpu (reg c) s (sp c) (pc c) (wr (mem c) a (w - 1)) ∧ (masked (sr c) → masked s) ∧
    Z.testbit s flag_Z = (w =? 1).
Proof.
  intros Hw Hr. eexists. split_and!.
  - unfold op. rewrite Hw, Z.mod_small by lia. reflexivity.
  - unfold masked. cbn [sr set_sr]. intros <-. apply set_cznv_GIE.
  - cbn [sr set_sr]. rewrite set_cznv_Z. destruct (Z.eqb_spec (w - 1) 0), (Z.eqb_spec w 1); done || lia.
Qed.
Lemma op_cmp c a w : rd (mem c) a = w → 1 ≤ w < 65536 →
  ∃ s, op (Icmp_m 1 a) c = Cpu (reg c) s (sp c) (pc c) (mem c) ∧ (masked (sr c) → masked s) ∧
    Z.testbit s flag_Z = (w =? 1).
Proof.
  intros Hw Hr. eexists. split_and!.
  - unfold op. rewrite Hw, Z.mod_small by lia. reflexivity.
  - unfold masked. cbn [sr set_sr]. intros <-. apply set_cznv_GIE.
  - cbn [sr set_sr]. rewrite set_cznv_Z. destruct (Z.eqb_spec (w - 1) 0), (Z.eqb_spec w 1); done || lia.
Qed.
Lemma op_dint c : ∃ s, op Idint c = Cpu (reg c) s (sp c) (pc c) (mem c) ∧ masked s.
Proof. eexists. split; [reflexivity |]. unfold masked. cbn [sr set_sr]. rewrite bic_bit by done. apply andb_false_r. Qed.

(** An interrupt was accepted at nesting depth [n] while task [t] was current: the
    return address and the old status register are on the stack. *)
Record interruptible (c : cpu) (t n : Z) : Prop := {
  in_current : rd (mem c) a_task_current = t;
  in_nesting : rd (mem c) a_isr_nesting = n;
  in_range : 0 ≤ n < 65535;
  in_masked : masked (sr c);
  in_room : 24 ≤ sp c ∧ sp c + 4 < 65536;
  in_data : apart a_task_current 2 a_isr_nesting 2 ∧ apart t 2 a_task_current 2 ∧ apart t 2 a_isr_nesting 2;
  in_stack : ∀ x, x = a_task_current ∨ x = a_isr_nesting ∨ x = t → apart x 2 (sp c - 24) frame_size
}.
Definition isr_base (c : cpu) : Z := sp c - 24.
Definition interrupted (c : cpu) : context := Context (reg c) (top c) (rd (mem c) (sp c + 2)).

Lemma msp_contextstore_spec c t n : interruptible c t n →
  ∃ tr c1, execute arch_contextstore_i c = (tr, Through c1) ∧ Forall masked tr ∧ sp c1 = isr_base c ∧
    holds (mem c1) (isr_base c) (interrupted c) ∧ rd (mem c1) a_isr_nesting = n + 1 ∧
    rd (mem c1) a_task_current = t ∧ (n = 0 → rd (mem c1) t = isr_base c) ∧ masked (sr c1).
Proof.
  intros [Ht Hn Hr Hm [R0 R1] (D1 & D2 & D3) Hst]. fold (isr_base c) in Hst.
  pose proof (Hst t (or_intror (or_intror eq_refl))) as St. pose proof (Hst a_isr_nesting (or_intror (or_introl eq_refl))) as Sn.
  pose proof (Hst a_task_current (or_introl eq_refl)) as Sa. unfold frame_size in *.
  destruct (op_inc c a_isr_nesting n Hn Hr) as (s1 & E1 & M1).
  set (m1 := wr (mem c) a_isr_nesting (n + 1)) in *.
  destruct (op_pushm (Cpu (reg c) s1 (sp c) (pc c) m1) (isr_base c)) as (m & E2 & Hregs & Hout); [cbn; unfold isr_base; lia.. |].
  cbn [reg sr sp pc mem] in *.
  assert (rd m a_isr_nesting = n + 1) as Hn2 by (rewrite Hout; [apply rd_wr | unfold apart in *; lia]).
  destruct (op_cmp (Cpu (reg c) s1 (isr_base c) (pc c) m) a_isr_nesting (n + 1) Hn2) as (s3 & E3 & M3 & Z3); [lia |].
  cbn [reg sr sp pc mem] in *.
  assert (rd m a_task_current = t) as Ht2.
  { rewrite Hout by (unfold apart in *; lia). unfold m1. rewrite rd_wr_ne; [done | unfold apart in *; lia]. }
  assert (holds m (isr_base c) (interrupted c)) as Hh.
  { unfold isr_base in *. split; cbn [ctx_reg ctx_sr ctx_pc interrupted]; [done | |].
    - rewrite Hout by (unfold apart; lia). unfold m1. rewrite rd_wr_ne by (unfold apart in *; lia). unfold top. f_equal. lia.
    - rewrite Hout by (unfold apart; lia). unfold m1. rewrite rd_wr_ne by (unfold apart in *; lia). f_equal. lia. }
  unfold execute, MspContext.arch_contextstore_i. cbn [length].
  rewrite msp_exec_I, E1, msp_exec_I, E2, msp_exec_I, E3, exec_jne. cbn [sr]. rewrite Z3.
  destruct (Z.eqb_spec (n + 1) 1) as [H0 | H0].
  - rewrite !msp_exec_I.
    assert (op (Imov_sp_at 15) (op (Imov_mr a_task_current 15) (Cpu (reg c) s3 (isr_base c) (pc c) m)) =
      Cpu (upd (reg c) 15 t) s3 (isr_base c) (pc c) (wr m t (isr_base c))) as E5.
    { unfold op, store, set_reg. cbn [reg sr sp pc mem]. by rewrite Ht2, upd_eq. }
    rewrite E5. cbn [exec fst snd sr]. eexists _, _. split; [reflexivity |]. split_and!; try done.
    + repeat (constructor; [by auto |]). constructor.
    + apply (holds_kept m); [done |]. intros i Hi. cbn [mem]. apply rd_wr_ne. unfold apart in *. lia.
    + cbn [mem]. rewrite rd_wr_ne; [done | unfold apart in *; lia].
    + cbn [mem]. rewrite rd_wr_ne; [done | unfold apart in *; lia].
    + intros _. apply rd_wr.
    + cbn [sr]. auto.
  - change (goto Lnested [I (Imov_mr a_task_current 15); I (Imov_sp_at 15); L Lnested]) with (@nil line).
    cbn [exec fst snd sr]. eexists _, _. split; [reflexivity |]. split_and!; try done.
    + repeat (constructor; [by auto |]). constructor.
    + lia.
    + cbn [sr]. auto.
Qed.

(** The outermost interrupt ends: the context of the current task [t] is stored at [p]. *)
Record leaving (c : cpu) (t p : Z) : Prop := {
  le_current : rd (mem c) a_task_current = t;
  le_sp : rd (mem c) t = p;
  le_nesting : rd (mem c) a_isr_nesting = 1;
  le_frame : 0 ≤ p ∧ p + frame_size < 65536;
  le_data : apart a_isr_nesting 2 a_task_current 2 ∧ apart a_isr_nesting 2 t 2 ∧ apart a_isr_nesting 2 p frame_size
}.
(** A nested interrupt ends, with the context it stored at the stack pointer [p]. *)
Record leaving_nested (c : cpu) (p n : Z) : Prop := {
  ln_nesting : rd (mem c) a_isr_nesting = n;
  ln_range : 2 ≤ n < 65536;
  ln_sp : sp c = p;
  ln_frame : 0 ≤ p ∧ p + frame_size < 65536;
  ln_data : apart a_isr_nesting 2 p frame_size ∧ apart 2592 2 p frame_size
}.

Lemma msp_contextrestore_spec c t p f : leaving c t p → holds (mem c) p f →
  let s := Z.lor (bic powerbits (ctx_sr f)) GIE in
  ∃ tr c1, execute arch_contextrestore_i c = (tr ++ [s], Returned c1) ∧ Forall masked tr ∧ resumed f s p c1 ∧
    rd (mem c1) a_isr_nesting = 0.
Proof.
  intros [Ht Hp Hn [P0 P1] (D1 & D2 & D3)] Hf s.
  destruct (op_dint c) as (s0 & E0 & M0).
  destruct (op_dec (Cpu (reg c) s0 (sp c) (pc c) (mem c)) a_isr_nesting 1 Hn) as (s1 & E1 & M1 & Z1); [lia |].
  cbn [reg sr sp pc mem] in *. set (m1 := wr (mem c) a_isr_nesting (1 - 1)) in *.
  set (c1 := Cpu (reg c) s1 (sp c) (pc c) m1) in *. specialize (M1 M0).
  assert (∀ a, apart a_isr_nesting 2 a 2 → rd m1 a = rd (mem c) a) as Hrd by (intros a Ha; by apply rd_wr_ne).
  assert (holds m1 p f) as Hf1 by (apply (holds_kept (mem c)); [done |]; intros i Hi; apply Hrd; unfold apart, frame_size in *; lia).
  assert (op Imov_at_sp (op (Imov_m_sp a_task_current) c1) = set_sp p c1) as E3.
  { apply (op_load c1 t p); unfold c1; cbn [mem]; by rewrite Hrd. }
  destruct (op_popm (set_sp p c1) p f) as (rs & E4 & Hrs); try done.
  change (op (Ipopm 12 15) (set_sp p c1) = Cpu rs s1 (p + 24) (pc c) m1) in E4.
  set (m5 := wr m1 (p + 24) (bic powerbits (ctx_sr f))).
  assert (op (Ibic_at_sp powerbits) (Cpu rs s1 (p + 24) (pc c) m1) = Cpu rs s1 (p + 24) (pc c) m5) as E5
    by (rewrite (op_bic _ (p + 24) powerbits (ctx_sr f)); [done | done | apply Hf1]).
  assert (op (Ibis_at_sp GIE) (Cpu rs s1 (p + 24) (pc c) m5) = Cpu rs s1 (p + 24) (pc c) (wr m5 (p + 24) s)) as E6
    by (rewrite (op_bis _ (p + 24) GIE (bic powerbits (ctx_sr f))); [done | done | apply rd_wr]).
  destruct (finish (Cpu rs s1 (p + 24) (pc c) (wr m5 (p + 24) s)) p f s) as (G1 & G2 & G3); try done.
  { apply rd_wr. } { cbn [mem]. unfold m5. rewrite !rd_wr_ne by (unfold apart; lia). apply Hf1. }
  exists [s0; s1; s1; s1; s1; s1; s1; s1; s1], (ret (op Ipop_sr (Cpu rs s1 (p + 24) (pc c) (wr m5 (p + 24) s)))). split_and!.
  - unfold execute, MspContext.arch_contextrestore_i. cbn [length].
    rewrite msp_exec_I, E0, msp_exec_I, E1, exec_jne. change (sr c1) with s1. rewrite Z1. cbn [Z.eqb Pos.eqb].
    rewrite msp_exec_I, msp_exec_I, E3, msp_exec_I, E4, msp_exec_I, E5, exec_jmp.
    change (goto Ldone [L Lnested; I (Imovb_m 128 2592); I (Ipopm 12 15); L Ldone; I (Ibis_at_sp GIE); Ireti])
      with [I (Ibis_at_sp GIE); Ireti].
    rewrite msp_exec_I, E6. cbn [exec fst snd]. by rewrite (resumed_sr _ _ _ _ G2).
  - repeat (constructor; [done |]). constructor.
  - exact G2.
  - rewrite G3. cbn [mem]. unfold m5. rewrite !rd_wr_ne by (unfold apart, frame_size in *; lia). apply rd_wr.
Qed.

Lemma contextrestore_nested_spec c p n f : leaving_nested c p n → holds (mem c) p f →
  let s := Z.lor (ctx_sr f) GIE in
  ∃ tr c1, execute arch_contextrestore_i c = (tr ++ [s], Returned c1) ∧ Forall masked tr ∧ resumed f s p c1 ∧
    (apart a_isr_nesting 2 2592 2 → rd (mem c1) a_isr_nesting = n - 1 ∧
     rd (mem c1) 2592 = rd (mem c) 2592 - rd (mem c) 2592 mod 256 + 128).
Proof.
  intros [Hn Hr Hsp [P0 P1] (D1 & D2)] Hf s.
  destruct (op_dint c) as (s0 & E0 & M0).
  destruct (op_dec (Cpu (reg c) s0 (sp c) (pc c) (mem c)) a_isr_nesting n Hn) as (s1 & E1 & M1 & Z1); [lia |].
  cbn [reg sr sp pc mem] in *. set (m1 := wr (mem c) a_isr_nesting (n - 1)) in *. specialize (M1 M0).
  set (m2 := wr m1 2592 (rd m1 2592 - rd m1 2592 mod 256 + 128)).
  assert (op (Imovb_m 128 2592) (Cpu (reg c) s1 (sp c) (pc c) m1) = Cpu (reg c) s1 (sp c) (pc c) m2) as E2 by done.
  assert (holds m2 p f) as Hf2.
  { apply (holds_kept (mem c)); [done |]. intros i Hi. unfold m2, m1.
    rewrite !rd_wr_ne by (unfold apart, frame_size in *; lia). done. }
  destruct (op_popm (Cpu (reg c) s1 (sp c) (pc c) m2) p f) as (rs & E4 & Hrs); try done. cbn [reg sr sp pc mem] in E4.
  assert (op (Ibis_at_sp GIE) (Cpu rs s1 (p + 24) (pc c) m2) = Cpu rs s1 (p + 24) (pc c) (wr m2 (p + 24) s)) as E6
    by (rewrite (op_bis _ (p + 24) GIE (ctx_sr f)); [done | done | apply Hf2]).
  destruct (finish (Cpu rs s1 (p + 24) (pc c) (wr m2 (p + 24) s)) p f s) as (G1 & G2 & G3); try done.
  { apply rd_wr. } { cbn [mem]. rewrite rd_wr_ne by (unfold apart; lia). apply Hf2. }
  exists [s0; s1; s1; s1; s1; s1], (ret (op Ipop_sr (Cpu rs s1 (p + 24) (pc c) (wr m2 (p + 24) s)))). split_and!.
  - unfold execute, MspContext.arch_contextrestore_i. cbn [length].
    rewrite msp_exec_I, E0, msp_exec_I, E1, exec_jne. cbn [sr]. rewrite Z1, (proj2 (Z.eqb_neq n 1)) by lia.
    match goal with |- context [goto Lnested ?l] => change (goto Lnested l) with
      [I (Imovb_m 128 2592); I (Ipopm 12 15); L Ldone; I (Ibis_at_sp GIE); Ireti] end.
    rewrite msp_exec_I, E2, msp_exec_I, E4. cbn [exec]. rewrite E6. cbn [fst snd]. by rewrite (resumed_sr _ _ _ _ G2).
  - repeat (constructor; [done |]). constructor.
  - exact G2.
  - intros Hap. rewrite G3. cbn [mem]. rewrite !rd_wr_ne by (unfold apart, frame_size in *; lia). unfold m2. split.
    + rewrite rd_wr_ne by (unfold apart in *; lia). apply rd_wr.
    + rewrite rd_wr. unfold m1. by rewrite rd_wr_ne.
Qed.

(** ** Critical sections *)

(** Nested or not, leaving a critical section writes back the whole status register
    of its entry, and inside of it interrupts are masked. *)
Lemma critical_section_spec c c' :
  let '(cristate, c1) := arch_critical_enter c in
  arch_is_dint c1 = true ∧ arch_critical_exit cristate c1 = c ∧
  arch_is_dint (arch_critical_exit cristate c') = arch_is_dint c.
Proof.
  unfold arch_critical_enter, arch_dint. destruct (op_dint c) as (s & E & Hm). rewrite E. split_and!.
  - unfold arch_is_dint. cbn [sr]. by rewrite Hm.
  - by destruct c.
  - done.
Qed.

(** ** Creating a task *)

(** What [store_down] writes, and that it writes nothing else. *)
Lemma msp_store_down_sp ws a m : fst (store_down ws a m) = a - 2 * Z.of_nat (length ws).
Proof. revert a m. induction ws as [| w ws IH]; intros a m; cbn [store_down fst length]; [lia |]. rewrite IH. lia. Qed.
Lemma msp_store_down_out ws a m x : apart x 2 (a - 2 * Z.of_nat (length ws) + 2) (2 * Z.of_nat (length ws)) →
  rd (snd (store_down ws a m)) x = rd m x.
Proof.
  revert a m. induction ws as [| w ws IH]; intros a m Hx; cbn [store_down snd length] in *; [done |]. unfold apart in *.
  rewrite IH by lia. apply rd_wr_ne. unfold apart. lia.
Qed.
Lemma msp_store_down_in ws a m i w : ws !! i = Some w → rd (snd (store_down ws a m)) (a - 2 * Z.of_nat i) = w.
Proof.
  revert a m i. induction ws as [| w' ws IH]; intros a m [| i] Hi; simplify_eq/=.
  - rewrite msp_store_down_out by (unfold apart; lia). rewrite Z.sub_0_r. apply rd_wr.
  - replace (a - 2 * Z.of_nat (S i)) with (a - 2 - 2 * Z.of_nat i) by lia. by apply IH.
Qed.

(** The first context of a task. *)
Definition start_context (start proc param : Z) : context :=
  Context (λ r, if r =? 15 then proc else if r =? 14 then param else 0) GIE start.

Lemma msp_arch_task_init_spec start task sparam ssize proc param m :
  let p := sparam + ssize - frame_size in
  0 ≤ p → p + frame_size < 65536 → apart task 2 p frame_size →
  ∃ m', arch_task_init false start task sparam ssize proc param m = Some m' ∧
    holds m' p (start_context start proc param) ∧ rd m' task = p ∧
    ∀ x, apart x 2 p frame_size → apart x 2 task 2 → rd m' x = rd m x.
Proof.
  intros p H0 H1 Ht. unfold arch_task_init. cbn [andb].
  set (ws := [start; GIE; proc; param; 0; 0; 0; 0; 0; 0; 0; 0; 0; 0]).
  pose proof (msp_store_down_sp ws (sparam + ssize - 2) m) as Hsp.
  pose proof (msp_store_down_out ws (sparam + ssize - 2) m) as Hout.
  pose proof (msp_store_down_in ws (sparam + ssize - 2) m) as Hin.
  destruct (store_down ws (sparam + ssize - 2) m) as [stack m1]. cbn [fst snd] in *.
  change (length ws) with 14%nat in *. unfold frame_size in *.
  assert ((stack + 2) mod 65536 = p) as -> by (rewrite Z.mod_small; lia).
  eexists. split; [reflexivity |].
  assert (∀ i w, ws !! i = Some w → (i < 14)%nat → rd (wr m1 task p) (p + 26 - 2 * Z.of_nat i) = w) as Hws.
  { intros i w Hi Hlt. rewrite rd_wr_ne by (unfold apart in *; lia). rewrite <- (Hin i w Hi). f_equal. lia. }
  split_and!; [| apply rd_wr |].
  - split; cbn [start_context ctx_reg ctx_sr ctx_pc].
    + intros r Hr. replace (p + 2 * (r - 4)) with (p + 26 - 2 * Z.of_nat (Z.to_nat (17 - r))) by lia.
      apply Hws; [| lia]. assert (r = 4 ∨ r = 5 ∨ r = 6 ∨ r = 7 ∨ r = 8 ∨ r = 9 ∨ r = 10 ∨ r = 11 ∨ r = 12 ∨ r = 13 ∨ r = 14 ∨ r = 15) as Hc by lia.
      by destruct_or! Hc; subst r.
    + rewrite <- (Hws 1%nat GIE) by (done || lia). f_equal. lia.
    + rewrite <- (Hws 0%nat start) by (done || lia). f_equal. lia.
  - intros x Hx Hxt. rewrite rd_wr_ne by (unfold apart in *; lia). apply Hout. unfold apart in *. lia.
Qed.

(** ** Properties *)

(** C17: On the MSP430, a task that calls [arch_context_switch] is left with its TCB
    pointing to a context on its own stack and [task_current] naming the new
    task, which runs with the registers, return address and stack pointer of its
    stored context; when a task later switches back, and the stored context was
    not touched meanwhile, the caller goes on behind its call with r4 - r15, its
    stack pointer and SR as they were, but for the low-power bits, which are
    cleared, and interrupts stay masked throughout. *)
Theorem msp_switch_roundtrip c t b p g : switchable c t b p → holds (mem c) p g →
  ∃ tr c1, execute arch_context_switch c = (tr, Returned c1) ∧ resumed g (bic powerbits (ctx_sr g)) p c1 ∧
    rd (mem c1) t = base c ∧ rd (mem c1) a_task_current = b ∧
    ∀ c2 b2, kept (mem c1) (mem c2) (base c) → switchable c2 b2 t (base c) →
      ∃ tr2 c3, execute arch_context_switch c2 = (tr2, Returned c3) ∧ Forall masked tr2 ∧
        (∀ r, 4 ≤ r < 16 → reg c3 r = reg c r) ∧ sr c3 = bic powerbits (sr c) ∧ pc c3 = top c ∧ sp c3 = sp c + 2.
Proof.
  intros Hsw Hg. destruct (msp_context_switch_spec c t b p g Hsw Hg) as (tr & c1 & Hex & _ & Hr & Ht & Ha & Hh).
  eexists _, c1. split; [exact Hex |]. split_and!; [done.. |]. intros c2 b2 Hk Hsw2.
  destruct (msp_context_switch_spec c2 b2 t (base c) (caller c) Hsw2) as (tr2 & c3 & Hex2 & Hm2 & [Hr3 Hs3 Hp3 Hsp3] & _);
    [by eapply holds_kept |].
  eexists _, c3. split; [exact Hex2 |]. split_and!; try done; [| rewrite Hsp3; unfold base, frame_size; lia].
  assert (masked (bic powerbits (sr c))) as Hm by (unfold masked; rewrite bic_power_GIE; apply Hsw).
  apply Forall_app. split; [done |]. by repeat constructor.
Qed.

(** C18: On the MSP430, a task that was switched out inside the kernel, where
    interrupts are masked, is resumed with interrupts enabled when the end of an
    interrupt selects it: [arch_contextrestore_i] sets GIE in every status
    register it restores, although the context has it clear. Registers, stack
    pointer and return address are those of the call, so the task goes on in the
    middle of its critical section with interrupts enabled. *)
Theorem msp_isr_exit_unmasks c t b p g : switchable c t b p → holds (mem c) p g →
  ∃ tr c1, execute arch_context_switch c = (tr, Returned c1) ∧
    ∀ c2, kept (mem c1) (mem c2) (base c) → leaving c2 t (base c) →
      ∃ tr2 c3, execute arch_contextrestore_i c2 = (tr2, Returned c3) ∧
        (∀ r, 4 ≤ r < 16 → reg c3 r = reg c r) ∧ pc c3 = top c ∧ sp c3 = sp c + 2 ∧
        masked (sr c) ∧ Z.testbit (sr c3) flag_GIE = true.
Proof.
  intros Hsw Hg. destruct (msp_context_switch_spec c t b p g Hsw Hg) as (tr & c1 & Hex & _ & _ & _ & _ & Hh).
  eexists _, c1. split; [exact Hex |]. intros c2 Hk Hle.
  destruct (msp_contextrestore_spec c2 t (base c) (caller c) Hle) as (tr2 & c3 & Hex2 & _ & [Hr3 Hs3 Hp3 Hsp3] & _);
    [by eapply holds_kept |].
  eexists _, c3. split; [exact Hex2 |]. split_and!; try done; [rewrite Hsp3; unfold base, frame_size; lia | apply Hsw |].
  rewrite Hs3, Z.lor_spec. apply orb_true_r.
Qed.

(** C19: Interrupt entry and exit on the MSP430 are transparent to the interrupted
    code. The entry stores r4 - r15 below the return address and status register
    that the CPU has pushed, counts the nesting and, at the outermost level,
    leaves the TCB of the interrupted task pointing to the context; the exit, with
    the context untouched and the same task current, or with the stack pointer
    back at the context in a nested interrupt, restores r4 - r15, the stack
    pointer and the interrupted address, with interrupts enabled and, at the
    outermost level, the low-power bits of SR cleared; interrupts are masked up
    to the return. *)
Theorem msp_isr_roundtrip c t n : interruptible c t n →
  ∃ tr c1, execute arch_contextstore_i c = (tr, Through c1) ∧ Forall masked tr ∧ sp c1 = isr_base c ∧
    rd (mem c1) a_isr_nesting = n + 1 ∧ rd (mem c1) a_task_current = t ∧ (n = 0 → rd (mem c1) t = isr_base c) ∧
    ∀ c2, kept (mem c1) (mem c2) (isr_base c) →
      (if decide (n = 0) then leaving c2 t (isr_base c) else leaving_nested c2 (isr_base c) (n + 1)) →
      ∃ tr2 c3, execute arch_contextrestore_i c2 = (tr2 ++ [sr c3], Returned c3) ∧ Forall masked tr2 ∧
        (∀ r, 4 ≤ r < 16 → reg c3 r = reg c r) ∧ pc c3 = rd (mem c) (sp c + 2) ∧ sp c3 = sp c + 4 ∧
        sr c3 = Z.lor (if decide (n = 0) then bic powerbits (top c) else top c) GIE.
Proof.
  intros Hin. destruct (msp_contextstore_spec c t n Hin) as (tr & c1 & Hex & Hm & Hsp & Hh & Hn & Ht & Htcb & _).
  exists tr, c1. split_and!; [done.. |]. intros c2 Hk Hle. pose proof (holds_kept _ _ _ _ Hh Hk) as Hh2.
  destruct (decide (n = 0)) as [H0 | H0].
  - destruct (msp_contextrestore_spec c2 t (isr_base c) _ Hle Hh2) as (tr2 & c3 & Hex2 & Hm2 & [Hr3 Hs3 Hp3 Hsp3] & _).
    exists tr2, c3. rewrite Hs3. split_and!; try done. rewrite Hsp3. unfold isr_base, frame_size. lia.
  - destruct (contextrestore_nested_spec c2 (isr_base c) (n + 1) _ Hle Hh2) as (tr2 & c3 & Hex2 & Hm2 & [Hr3 Hs3 Hp3 Hsp3] & _).
    exists tr2, c3. rewrite Hs3. split_and!; try done. rewrite Hsp3. unfold isr_base, frame_size. lia.
Qed.

(** C20: Starting a task on the MSP430. With the assertions compiled in,
    [arch_task_init] halts for all arguments, since it asserts the negation of a
    string constant. Without them, the first switch to the new task, its stack and
    TCB being untouched meanwhile, starts [arch_task_start] on an empty stack with
    [proc] and [param] in r15 and r14, all other registers zero and interrupts
    enabled. *)
Theorem msp_first_switch_starts_task m0 start task sparam ssize proc param c t :
  let p := sparam + ssize - frame_size in
  0 ≤ p → p + frame_size < 65536 → apart task 2 p frame_size →
  arch_task_init true start task sparam ssize proc param m0 = None ∧
  ∃ m, arch_task_init false start task sparam ssize proc param m0 = Some m ∧
    (kept m (mem c) p → switchable c t task p →
     ∃ tr c1, execute arch_context_switch c = (tr ++ [GIE; GIE], Returned c1) ∧ Forall masked tr ∧
       pc c1 = start ∧ reg c1 15 = proc ∧ reg c1 14 = param ∧ (∀ r, 4 ≤ r < 14 → reg c1 r = 0) ∧
       sr c1 = GIE ∧ sp c1 = sparam + ssize ∧ rd (mem c1) a_task_current = task).
Proof.
  intros p H0 H1 Ht. split; [done |].
  destruct (msp_arch_task_init_spec start task sparam ssize proc param m0 H0 H1 Ht) as (m & Hi & Hh & _). fold p in Hh.
  exists m. split; [exact Hi |]. intros Hk Hsw.
  destruct (msp_context_switch_spec c t task p (start_context start proc param) Hsw) as (tr & c1 & Hex & Hm & [Hr Hs Hpc Hsp] & _ & Ha & _);
    [by eapply holds_kept |].
  exists tr, c1. split_and!; try done; [by apply Hr | by apply Hr | | rewrite Hsp; unfold p; lia].
  intros r Hr'. rewrite Hr by lia. cbn. rewrite !(proj2 (Z.eqb_neq r _)) by lia. done.
Qed.
End facts.

(** ** The properties at a concrete layout *)

(** [task_current] at 512, [isr_nesting] at 514, TCBs at 520 and 524; the first
    task runs with its stack pointer at 1040, the second was just created with its
    stack from 1200 to 1312. *)
Definition demo_init : option (Z → Z) := arch_task_init false 17408 524 1200 112 600 700 (λ _, 0).
Definition demo_mem : Z → Z :=
  wr (wr (wr (wr (default (λ _, 0) demo_init) 512 520) 514 0) 1040 9) 1042 17000.
Definition demo_cpu : cpu := Cpu (λ r, if r =? 15 then 524 else 100 + r) 3 1040 0 demo_mem.
(** The second task's core, about to switch back to the first. *)
Definition demo_back (m : Z → Z) : cpu := Cpu (λ r, if r =? 15 then 520 else 7) 1 1250 0 m.
(** An interrupt handler that has chosen the first task. *)
Definition demo_handler (m : Z → Z) : cpu := Cpu (λ _, 7) 0 1250 0 (wr (wr m 512 520) 514 1).
Definition demo_context : context := start_context 17408 600 700.

Ltac layout := unfold apart, frame_size, base, isr_base in *; cbn; lia.

Lemma demo_holds : holds demo_mem 1284 demo_context.
Proof.
  assert (∀ i, 0 ≤ i < 12 → rd demo_mem (1284 + 2 * i) = ctx_reg demo_context (4 + i)) as H.
  { intros i Hi. assert (i = 0 ∨ i = 1 ∨ i = 2 ∨ i = 3 ∨ i = 4 ∨ i = 5 ∨ i = 6 ∨ i = 7 ∨ i = 8 ∨ i = 9 ∨ i = 10 ∨ i = 11) as Hc by lia.
    destruct_or! Hc; subst i; vm_compute; reflexivity. }
  split; [| vm_compute; reflexivity..].
  intros r Hr. rewrite H by lia. f_equal. lia.
Qed.

Lemma demo_switchable : switchable 512 demo_cpu 520 524 1284.
Proof.
  split; try (vm_compute; reflexivity); try layout.
Qed.

Lemma demo_switchable_back m : rd m 512 = 524 → rd m 520 = 1014 → switchable 512 (demo_back m) 524 520 1014.
Proof. intros H1 H2. split; try done; try layout. Qed.

Lemma demo_leaving m : rd m 520 = 1014 → leaving 512 514 (demo_handler m) 520 1014.
Proof.
  intros H2. split; try layout; unfold demo_handler; cbn [mem].
  - rewrite rd_wr_ne by layout. apply rd_wr.
  - rewrite !rd_wr_ne by layout. exact H2.
  - apply rd_wr.
Qed.

Lemma msp_switch_roundtrip_witness : ∃ tr c1, execute (arch_context_switch 512) demo_cpu = (tr, Returned c1) ∧
  pc c1 = 17408 ∧ sp c1 = 1312 ∧
  ∃ tr2 c3, execute (arch_context_switch 512) (demo_back (mem c1)) = (tr2, Returned c3) ∧ Forall masked tr2 ∧
    (∀ r, 4 ≤ r < 16 → reg c3 r = reg demo_cpu r) ∧ pc c3 = 9 ∧ sp c3 = 1042.
Proof.
  destruct (msp_switch_roundtrip 512 demo_cpu 520 524 1284 demo_context demo_switchable demo_holds)
    as (tr & c1 & Hex & [_ _ Hpc Hsp] & Ht & Ha & Hback).
  destruct (Hback (demo_back (mem c1)) 524) as (tr2 & c3 & Hex2 & Hm & Hr & _ & Hpc3 & Hsp3).
  - intros i _. reflexivity.
  - apply demo_switchable_back; [exact Ha | exact Ht].
  - exists tr, c1. split; [exact Hex |]. split; [exact Hpc |]. split; [exact Hsp |].
    exists tr2, c3. split; [exact Hex2 |]. split; [exact Hm |]. split; [exact Hr |]. split; [exact Hpc3 | exact Hsp3].
Defined.

Lemma msp_isr_exit_unmasks_witness : ∃ tr c1, execute (arch_context_switch 512) demo_cpu = (tr, Returned c1) ∧
  ∃ tr2 c3, execute (arch_contextrestore_i 512 514) (demo_handler (mem c1)) = (tr2, Returned c3) ∧
    pc c3 = 9 ∧ masked (sr demo_cpu) ∧ Z.testbit (sr c3) flag_GIE = true.
Proof.
  destruct (msp_context_switch_spec 512 demo_cpu 520 524 1284 demo_context demo_switchable demo_holds)
    as (tr0 & c0 & Hex0 & _ & _ & Ht0 & _ & _).
  destruct (msp_isr_exit_unmasks 512 514 demo_cpu 520 524 1284 demo_context demo_switchable demo_holds)
    as (tr & c1 & Hex & Hback).
  rewrite Hex0 in Hex. injection Hex as _ <-.
  destruct (Hback (demo_handler (mem c0))) as (tr2 & c3 & Hex2 & _ & Hpc & _ & Hm & Hg).
  - intros i Hi. unfold demo_handler. cbn [mem]. rewrite !rd_wr_ne by layout. reflexivity.
  - apply demo_leaving. exact Ht0.
  - eexists _, c0. split; [exact Hex0 |]. exists tr2, c3. split; [exact Hex2 |]. split; [exact Hpc |]. split; [exact Hm | exact Hg].
Defined.

Lemma msp_isr_roundtrip_witness : ∃ tr c1, execute (arch_contextstore_i 512 514) demo_cpu = (tr, Through c1) ∧
  rd (mem c1) 514 = 1 ∧ rd (mem c1) 520 = 1016 ∧
  ∃ tr2 c3, execute (arch_contextrestore_i 512 514) c1 = (tr2, Returned c3) ∧
    (∀ r, 4 ≤ r < 16 → reg c3 r = reg demo_cpu r) ∧ pc c3 = 17000 ∧ sp c3 = 1044 ∧ sr c3 = 9.
Proof.
  assert (interruptible 512 514 demo_cpu 520 0) as Hin.
  { split; try (vm_compute; reflexivity); try layout. }
  destruct (msp_isr_roundtrip 512 514 demo_cpu 520 0 Hin) as (tr & c1 & Hex & _ & Hsp & Hn & Ha & Ht & Hback).
  specialize (Ht eq_refl).
  destruct (Hback c1) as (tr2 & c3 & Hex2 & _ & Hr & Hpc & Hsp3 & Hs).
  - intros i _. reflexivity.
  - rewrite decide_True by reflexivity. split; first [assumption | layout].
  - exists tr, c1. split; [exact Hex |]. split; [exact Hn |]. split; [exact Ht |]. eexists _, c3. split; [exact Hex2 |].
    split; [exact Hr |]. split; [exact Hpc |]. split; [exact Hsp3 |]. rewrite Hs. vm_compute. reflexivity.
Defined.

Lemma msp_first_switch_starts_task_witness : arch_task_init true 17408 524 1200 112 600 700 (λ _, 0) = None ∧
  ∃ tr c1, execute (arch_context_switch 512) demo_cpu = (tr, Returned c1) ∧
    pc c1 = 17408 ∧ reg c1 15 = 600 ∧ reg c1 14 = 700 ∧ sr c1 = 8 ∧ sp c1 = 1312.
Proof.
  destruct (msp_first_switch_starts_task 512 (λ _, 0) 17408 524 1200 112 600 700 demo_cpu 520) as (Hh & m & Hi & Hrun);
    [layout | layout | layout |].
  split; [exact Hh |]. destruct Hrun as (tr & c1 & Hex & _ & Hpc & H15 & H14 & _ & Hs & Hsp & _).
  - assert (m = default (λ _, 0) demo_init) as -> by (unfold demo_init; rewrite Hi; reflexivity).
    intros i Hi'. unfold demo_cpu, demo_mem. cbn [mem]. rewrite !rd_wr_ne by layout. reflexivity.
  - exact demo_switchable.
  - eexists _, c1. split; [exact Hex |]. split; [exact Hpc |]. split; [exact H15 |]. split; [exact H14 |]. split; [exact Hs | exact Hsp].
Defined.
