(* ===== verification/LinuxContext.v ===== *)
(** * The Linux port: signal masks and the switch by signals (arch/linux)

    On Linux the "interrupts" are signals: a critical section blocks the set
    [arch_crit_signals], an interrupt routine is a signal handler, and the context
    of a task is a [ucontext_t]. The file models the critical sections and
    [arch_is_dint] (arch_port.h, arch_port.c), [arch_os_init], the entry and exit
    of an interrupt ([arch_contextstore_i], [arch_contextrestore_i]), the switch
    ([arch_context_switch] with the SIGUSR1 handler [arch_sig_switch]) and the
    first context of a task ([arch_task_init], [arch_task_start]).

    Of Linux the model has what sigprocmask(2), sigaction(2) and sigreturn(2)
    document: the signal mask of the thread, the delivery of a signal to a handler
    and the return from it. The general registers are those of [gregset_t], in its
    order, up to the flags. What the C library puts in a [ucontext_t]
    ([getcontext], [makecontext]) and in a full set ([sigfillset]) is a parameter,
    the class [Libc], and the class [LibcOk] states the documented part of it the
    port relies on. How the compiler lays out the frame of [arch_context_switch],
    which the code corrects by hand, is the hypothesis [compiled]. Not modelled:
    the floating-point state (the code copies the member [__fpregs_mem], whether
    the return from a signal takes it from there is the kernel's business) and
    the alternate signal stack. *)

From stdpp Require Import base decidable list.
From Stdlib Require Import ZArith Lia.
From S2P Require Import Prelude Arch.

Local Open Scope Z_scope.

(** ** Signal sets *)

(** A [sigset_t] is its bits, signal [n] is bit [n - 1]. Linux has 64 signals: it
    reads and writes only that many bits of the 1024 of the C library. *)
Definition sigset := Z.
Definition sigbit (n : Z) : sigset := Z.shiftl 1 (n - 1).
Definition SIGKILL := 9.
Definition SIGUSR1 := 10.
Definition SIGSTOP := 19.
Definition unmaskable : sigset := Z.lor (sigbit SIGKILL) (sigbit SIGSTOP).
Definition low (s : sigset) : sigset := Z.land s (Z.ones 64).
Definition sigdelset (s : sigset) (n : Z) : sigset := Z.ldiff s (sigbit n).

Inductive sighow := SIG_BLOCK | SIG_UNBLOCK | SIG_SETMASK.

(** The signal mask after [sigprocmask(how, &set, _)]: SIGKILL and SIGSTOP are
    silently left out. *)
Definition sigprocmask (how : sighow) (set mask : sigset) : sigset :=
  let set := Z.ldiff (low set) unmaskable in
  match how with
  | SIG_BLOCK => Z.lor mask set
  | SIG_UNBLOCK => Z.ldiff mask set
  | SIG_SETMASK => set
  end.
(** The content of the third argument afterwards, [old] before. *)
Definition oldset (old mask : sigset) : sigset := Z.lor (Z.ldiff old (Z.ones 64)) mask.

(** Masks a thread can have. *)
Definition valid_mask (m : sigset) : Prop := Z.ldiff (low m) unmaskable = m.

(** ** Contexts *)

(** [ucontext_t]; [uc_stack] is [ss_sp], [ss_flags], [ss_size], and [uc_other]
    stands for the remaining members. *)
Record ucontext := UContext {
  uc_link : Z;
  uc_stack : Z * Z * Z;
  gregs : list Z;
  fpregs_mem : list Z;
  uc_sigmask : sigset;
  uc_other : list Z
}.
Definition set_uc_link v u := UContext v (uc_stack u) (gregs u) (fpregs_mem u) (uc_sigmask u) (uc_other u).
Definition set_uc_stack v u := UContext (uc_link u) v (gregs u) (fpregs_mem u) (uc_sigmask u) (uc_other u).
Definition set_gregs v u := UContext (uc_link u) (uc_stack u) v (fpregs_mem u) (uc_sigmask u) (uc_other u).
Definition set_fpregs_mem v u := UContext (uc_link u) (uc_stack u) (gregs u) v (uc_sigmask u) (uc_other u).
Definition set_uc_sigmask v u := UContext (uc_link u) (uc_stack u) (gregs u) (fpregs_mem u) v (uc_other u).

(** Indices in [gregs] (sys/ucontext.h). *)
Definition REG_R12 := 4%nat.
Definition REG_R13 := 5%nat.
Definition REG_R14 := 6%nat.
Definition REG_R15 := 7%nat.
Definition REG_RDI := 8%nat.
Definition REG_RSI := 9%nat.
Definition REG_RBP := 10%nat.
Definition REG_RBX := 11%nat.
Definition REG_RSP := 15%nat.
Definition REG_RIP := 16%nat.

(** [memcpy(&gregs, &gregs', 8 * 18)]: 18 entries of 8 bytes. *)
Definition copy_gregs (src dst : list Z) : list Z := take 18 src ++ drop 18 dst.

(** ** The C library *)

Class Libc := {
  sigfillset : sigset;                        (** what [sigfillset] leaves in a set *)
  getcontext : list Z → sigset → ucontext → Z * ucontext;
                                              (** by registers and signal mask: result and context *)
  makecontext : ucontext → Z → Z → Z → ucontext  (** with two arguments *)
}.

(** The registers a function must hand back unchanged. *)
Definition callee_saved : list nat := [REG_RBX; REG_R12; REG_R13; REG_R14; REG_R15].

Class LibcOk (L : Libc) : Prop := {
  getcontext_succeeds : ∀ r m u, (getcontext r m u).1 = 0;
  getcontext_length : ∀ r m u, length r = 18%nat → length (gregs u) = 23%nat →
    length (gregs (getcontext r m u).2) = 23%nat;
  getcontext_saves : ∀ r m u i, length r = 18%nat → length (gregs u) = 23%nat →
    i ∈ REG_RSP :: callee_saved → gregs (getcontext r m u).2 !! i = r !! i;
  getcontext_mask : ∀ r m u, low m = m → low (uc_sigmask (getcontext r m u).2) = m;
  makecontext_length : ∀ u f a b, length (gregs (makecontext u f a b)) = length (gregs u);
  makecontext_entry : ∀ u f a b, length (gregs u) = 23%nat →
    gregs (makecontext u f a b) !! REG_RIP = Some f ∧
    gregs (makecontext u f a b) !! REG_RDI = Some a ∧
    gregs (makecontext u f a b) !! REG_RSI = Some b;
  makecontext_stack : ∀ u f a b ss_sp fl ss_size, length (gregs u) = 23%nat →
    uc_stack u = (ss_sp, fl, ss_size) → 4096 ≤ ss_size →
    ∃ sp, gregs (makecontext u f a b) !! REG_RSP = Some sp ∧ ss_sp < sp < ss_sp + ss_size;
  makecontext_mask : ∀ u f a b, uc_sigmask (makecontext u f a b) = uc_sigmask u
}.

(** ** The state of the port *)

Record state := St {
  regs : list Z;                     (** the first 18 of [gregset_t] *)
  mask : sigset;                     (** the signal mask of the thread *)
  pending : bool;                    (** SIGUSR1 is pending *)
  usr1_mask : option sigset;         (** [sa_mask] of [arch_sig_switch], once installed *)
  arch_crit_signals : sigset;
  task_current : Z;
  isr_nesting : Z;
  ctx : Z → ucontext                 (** [task->ctx.context] *)
}.
Definition set_cpu r m s := St r m (pending s) (usr1_mask s) (arch_crit_signals s) (task_current s) (isr_nesting s) (ctx s).
Definition set_mask m s := set_cpu (regs s) m s.
Definition set_pending b s := St (regs s) (mask s) b (usr1_mask s) (arch_crit_signals s) (task_current s) (isr_nesting s) (ctx s).
Definition set_usr1_mask a s := St (regs s) (mask s) (pending s) a (arch_crit_signals s) (task_current s) (isr_nesting s) (ctx s).
Definition set_crit c s := St (regs s) (mask s) (pending s) (usr1_mask s) c (task_current s) (isr_nesting s) (ctx s).
Definition set_task_current t s := St (regs s) (mask s) (pending s) (usr1_mask s) (arch_crit_signals s) t (isr_nesting s) (ctx s).
Definition set_isr_nesting n s := St (regs s) (mask s) (pending s) (usr1_mask s) (arch_crit_signals s) (task_current s) n (ctx s).
Definition set_ctx t u s := St (regs s) (mask s) (pending s) (usr1_mask s) (arch_crit_signals s) (task_current s) (isr_nesting s) (upd (ctx s) t u).

(** ** Signal delivery *)

(** The context the kernel builds on the stack for a handler, at a place that
    contains [f]. *)
Definition signal_frame (f : ucontext) (s : state) : ucontext :=
  set_uc_sigmask (oldset (uc_sigmask f) (mask s)) (set_gregs (regs s ++ drop 18 (gregs f)) f).
(** While a handler runs its signal and its [sa_mask] are blocked as well. *)
Definition enter_handler (signo : Z) (sa_mask : sigset) (s : state) : state :=
  set_mask (sigprocmask SIG_BLOCK (Z.lor sa_mask (sigbit signo)) (mask s)) s.
(** The return from a handler loads the registers and the signal mask. *)
Definition sigreturn (uc : ucontext) (s : state) : state :=
  set_cpu (take 18 (gregs uc)) (sigprocmask SIG_SETMASK (uc_sigmask uc) (mask s)) s.

(** ** Critical sections *)

(** [arch_critical_enter(_critical_state)]: what is in [_critical_state] afterwards. *)
Definition arch_critical_enter (critical_state : sigset) (s : state) : sigset * state :=
  (oldset critical_state (mask s), set_mask (sigprocmask SIG_BLOCK (arch_crit_signals s) (mask s)) s).
Definition arch_critical_exit (critical_state : sigset) (s : state) : state :=
  set_mask (sigprocmask SIG_SETMASK critical_state (mask s)) s.
Definition arch_dint (s : state) : state :=
  set_mask (sigprocmask SIG_BLOCK (arch_crit_signals s) (mask s)) s.
Definition arch_eint (s : state) : state :=
  set_mask (sigprocmask SIG_UNBLOCK (arch_crit_signals s) (mask s)) s.

(** [sigprocmask] fails for no argument it gets here, so no assertion on its
    result is part of the model. *)
Definition arch_is_dint `{Libc} (s : state) : bool :=
  let current_mask := sigfillset in
  let current_mask := oldset current_mask (mask s) in
  current_mask =? arch_crit_signals s.

(** [prev_sigmask] is what the variable of that name holds before. *)
Definition arch_os_init `{Libc} (prev_sigmask : sigset) (s : state) : state :=
  let s := set_crit sigfillset s in
  let s := set_crit (sigdelset (arch_crit_signals s) SIGUSR1) s in
  let prev_sigmask := oldset prev_sigmask (mask s) in
  let s := set_mask (sigprocmask SIG_SETMASK (arch_crit_signals s) (mask s)) s in
  let s := set_crit (oldset (arch_crit_signals s) (mask s)) s in
  let s := set_mask (sigprocmask SIG_SETMASK prev_sigmask (mask s)) s in
  set_usr1_mask (Some (arch_crit_signals s)) s.

(** ** Interrupts *)

(** [arch_contextstore_i]: the entry of an interrupt handler. *)
Definition arch_contextstore_i (uc : ucontext) (s : state) : state :=
  let s := set_isr_nesting (int32_wrap (isr_nesting s + 1)) s in
  if isr_nesting s <=? 1 then set_ctx (task_current s) uc s else s.

(** [arch_contextrestore_i]: the context on the stack is changed before the
    handler returns. *)
Definition arch_contextrestore_i (uc : ucontext) (s : state) : ucontext * state :=
  let s := arch_dint s in
  let s := set_isr_nesting (int32_wrap (isr_nesting s - 1)) s in
  let c := ctx s (task_current s) in
  let uc :=
    if isr_nesting s =? 0 then
      set_fpregs_mem (fpregs_mem c) (set_gregs (copy_gregs (gregs c) (gregs uc)) (set_uc_stack (uc_stack c) uc))
    else uc in
  (set_uc_sigmask (uc_sigmask c) uc, s).

(** A signal that an interrupt handler of the application handles, up to the code
    of the application, and the end of this handler. *)
Definition interrupt (signo : Z) (sa_mask : sigset) (f : ucontext) (s : state) : ucontext * state :=
  let uc := signal_frame f s in
  (uc, arch_contextstore_i uc (enter_handler signo sa_mask s)).
Definition end_interrupt (uc : ucontext) (s : state) : state :=
  let '(uc, s) := arch_contextrestore_i uc s in sigreturn uc s.

(** ** The switch *)

Definition arch_sig_switch (uc : ucontext) (s : state) : ucontext :=
  let c := ctx s (task_current s) in
  let uc := set_uc_stack (uc_stack c) uc in
  let uc := set_gregs (copy_gregs (gregs c) (gregs uc)) uc in
  let uc := set_fpregs_mem (fpregs_mem c) uc in
  set_uc_sigmask (uc_sigmask c) uc.

(** [raise(SIGUSR1)], [None] where the signal terminates the process. Where the
    signal is not blocked its handler is done before [raise] returns; here the
    handler returns somewhere else. *)
Definition raise_usr1 (f : ucontext) (s : state) : option state :=
  if Z.testbit (mask s) (SIGUSR1 - 1) then Some (set_pending true s)
  else match usr1_mask s with
  | None => None
  | Some sa_mask =>
      let uc := signal_frame f s in
      let s := enter_handler SIGUSR1 sa_mask s in
      Some (sigreturn (arch_sig_switch uc s) s)
  end.

(** [body] are the registers at the call of [getcontext], [ra] and [fa] the values
    of [__builtin_return_address(0)] and [__builtin_frame_address(1)], and [f] is
    the memory below the stack pointer. *)
Definition arch_context_switch `{Libc} (body : list Z) (ra fa : Z) (f : ucontext) (new_task : Z) (s : state)
    : option state :=
  let cur := task_current s in
  let s := set_ctx cur (getcontext body (mask s) (ctx s cur)).2 s in
  let g := λ s, gregs (ctx s cur) in
  let s := set_ctx cur (set_gregs (<[REG_RIP := ra]> (g s)) (ctx s cur)) s in
  let s := set_ctx cur (set_gregs (alter (λ v, (v + 32) mod 2 ^ 64) REG_RSP (g s)) (ctx s cur)) s in
  let s := set_ctx cur (set_gregs (<[REG_RBP := fa]> (g s)) (ctx s cur)) s in
  let s := set_task_current new_task s in
  raise_usr1 f s.

(** ** The start of a task *)

(** Up to the call of [proc]: the state it is called in and its argument. The
    two arguments come in rdi and rsi. *)
Definition arch_task_start (s : state) : state * option Z * option Z :=
  (arch_eint s, regs s !! REG_RDI, regs s !! REG_RSI).

(** [start] is the address of [arch_task_start]. [None] is the assertion that the
    stack is aligned, or [arch_halt]. *)
Definition arch_task_init `{Libc} (start task stack_param stack_size proc param : Z) (s : state) : option state :=
  if negb (Z.land stack_param 7 =? 0) then None
  else
    let '(ret, u) := getcontext (regs s) (mask s) (ctx s task) in
    if negb (ret =? 0) then None
    else
      let '(_, ss_flags, _) := uc_stack u in
      let u := set_uc_stack (stack_param, ss_flags, stack_size) u in
      let u := set_uc_link 0 u in
      Some (set_ctx task (makecontext u start proc param) s).

(** ** Lemmas on masks *)

Lemma low_spec s i : 0 ≤ i → Z.testbit (low s) i = Z.testbit s i && (i <? 64).
Proof.
  intros Hi. unfold low. rewrite Z.land_spec, Z.testbit_ones_nonneg by lia. done.
Qed.

(** Compare two sets signal by signal. *)
Ltac testbits :=
  unfold sigprocmask, oldset, sigdelset;
  repeat first [rewrite Z.lor_spec | rewrite Z.ldiff_spec | rewrite low_spec by lia
               | rewrite Z.testbit_ones_nonneg by lia].
Ltac bits i := apply Z.bits_inj'; intros i ?; testbits.

Lemma unmaskable_spec i : 0 ≤ i → Z.testbit unmaskable i = (i =? 8) || (i =? 18).
Proof.
  intros Hi. unfold unmaskable, sigbit. rewrite Z.lor_spec, !Z.shiftl_1_l, !Z.pow2_bits_eqb by done.
  unfold SIGKILL, SIGSTOP. rewrite (Z.eqb_sym i 8), (Z.eqb_sym i 18). done.
Qed.

Lemma valid_bits m i : valid_mask m → 0 ≤ i →
  Z.testbit m i = Z.testbit m i && (i <? 64) && negb (Z.testbit unmaskable i).
Proof.
  intros Hm Hi. pose proof (f_equal (λ z, Z.testbit z i) Hm) as E. cbn beta in E.
  rewrite Z.ldiff_spec, low_spec in E by done. by rewrite E.
Qed.

Lemma setmask_valid set m : valid_mask (sigprocmask SIG_SETMASK set m).
Proof.
  unfold valid_mask. bits i. destruct (i <? 64), (Z.testbit unmaskable i), (Z.testbit set i); done.
Qed.

Lemma valid_low m : valid_mask m → low m = m.
Proof.
  intros Hm. bits i. rewrite (valid_bits m i Hm) by done.
  destruct (i <? 64), (Z.testbit unmaskable i), (Z.testbit m i); done.
Qed.

(** What is read of a set a mask was stored in is this mask. *)
Lemma setmask_oldset old m m' : valid_mask m → sigprocmask SIG_SETMASK (oldset old m) m' = m.
Proof.
  intros Hm. bits i.
  pose proof (valid_bits m i Hm ltac:(done)) as Hi.
  destruct (i <? 64), (Z.testbit unmaskable i), (Z.testbit m i), (Z.testbit old i); cbn in *; congruence.
Qed.

Lemma setmask_low set m m' : valid_mask m → low set = m → sigprocmask SIG_SETMASK set m' = m.
Proof. intros Hm E. unfold sigprocmask. rewrite E. rewrite <- (valid_low m Hm) at 1. apply Hm. Qed.

(** ** Lemmas on contexts *)

Definition sized (s : state) : Prop :=
  length (regs s) = 18%nat ∧ ∀ t, length (gregs (ctx s t)) = 23%nat.

(** The thread runs with the registers and the mask of a context. *)
Definition loaded (c : ucontext) (s : state) : Prop :=
  regs s = take 18 (gregs c) ∧ mask s = sigprocmask SIG_SETMASK (uc_sigmask c) 0.

Lemma take_copy_gregs src dst : length src = 23%nat → take 18 (copy_gregs src dst) = take 18 src.
Proof. intros H. unfold copy_gregs. rewrite take_app_le, take_take by (rewrite length_take; lia). done. Qed.

Lemma raise_loads f s : Z.testbit (mask s) (SIGUSR1 - 1) = false → usr1_mask s ≠ None →
  length (gregs (ctx s (task_current s))) = 23%nat →
  ∃ s', raise_usr1 f s = Some s' ∧ loaded (ctx s (task_current s)) s' ∧
    ctx s' = ctx s ∧ task_current s' = task_current s ∧ isr_nesting s' = isr_nesting s ∧
    arch_crit_signals s' = arch_crit_signals s.
Proof.
  intros Hu Hi Hl. unfold raise_usr1. rewrite Hu. destruct (usr1_mask s) as [sa |]; [| done].
  eexists. split_and!; [done | | done..]. by split; [apply take_copy_gregs |].
Qed.

Lemma end_interrupt_loads uc s : isr_nesting s = 1 → length (gregs (ctx s (task_current s))) = 23%nat →
  loaded (ctx s (task_current s)) (end_interrupt uc s) ∧ isr_nesting (end_interrupt uc s) = 0.
Proof.
  intros Hn Hl. unfold end_interrupt, arch_contextrestore_i. cbn. rewrite Hn.
  change (int32_wrap (1 - 1) =? 0) with true. by split; [split; [apply take_copy_gregs |] |].
Qed.

Lemma interrupt_sized signo sa_mask f s : sized s → length (gregs f) = 23%nat →
  sized (interrupt signo sa_mask f s).2.
Proof.
  intros [Hr Hl] Hf. unfold interrupt, arch_contextstore_i. cbn.
  destruct (_ <=? 1); split; try done. intros t. cbn. unfold upd. case_match; [| done].
  cbn. rewrite length_app, length_drop. lia.
Qed.

(** ** The switch *)

(** What [arch_context_switch] requires of a thread: the handler of SIGUSR1 is
    installed and the signal is not blocked. *)
Record can_switch (s : state) (body : list Z) : Prop := {
  cs_sized : sized s;
  cs_body : length body = 18%nat;
  cs_valid : valid_mask (mask s);
  cs_usr1 : Z.testbit (mask s) (SIGUSR1 - 1) = false;
  cs_installed : usr1_mask s ≠ None
}.

(** The compiler's part: [ret] are the registers the caller of
    [arch_context_switch] expects when the call returns. *)
Record compiled (ret body : list Z) (ra fa : Z) : Prop := {
  c_length : length ret = 18%nat;
  c_rip : ret !! REG_RIP = Some ra;
  c_rbp : ret !! REG_RBP = Some fa;
  c_rsp : ∃ sp, body !! REG_RSP = Some sp ∧ ret !! REG_RSP = Some ((sp + 32) mod 2 ^ 64);
  c_saved : ∀ i, i ∈ callee_saved → ret !! i = body !! i
}.

(** The registers a caller relies on. *)
Definition kept_regs : list nat := REG_RIP :: REG_RBP :: REG_RSP :: callee_saved.
Definition continues (ret : list Z) (m : sigset) (s : state) : Prop :=
  (∀ i, i ∈ kept_regs → regs s !! i = ret !! i) ∧ mask s = m.

(** A context that [arch_context_switch] has stored. *)
Record stored (ret : list Z) (m : sigset) (c : ucontext) : Prop := {
  st_length : length (gregs c) = 23%nat;
  st_regs : ∀ i, i ∈ kept_regs → gregs c !! i = ret !! i;
  st_mask : low (uc_sigmask c) = m
}.

Lemma kept_regs_lt i : i ∈ kept_regs → (i < 18)%nat.
Proof.
  intros Hi. revert i Hi. apply Forall_forall. unfold kept_regs, callee_saved.
  repeat constructor; unfold REG_RIP, REG_RBP, REG_RSP, REG_RBX, REG_R12, REG_R13, REG_R14, REG_R15; lia.
Qed.

Lemma loaded_stored ret m c s : valid_mask m → stored ret m c → loaded c s → continues ret m s.
Proof.
  intros Hm [_ Hr Hs] [Lr Lm]. split.
  - intros i Hi. rewrite Lr, lookup_take_lt by by apply kept_regs_lt. by apply Hr.
  - rewrite Lm. by apply setmask_low.
Qed.

(** The corrections of the stored registers. *)
Lemma switch_registers ret body ra fa (g : list Z) :
  compiled ret body ra fa → length g = 23%nat →
  (∀ i, i ∈ REG_RSP :: callee_saved → g !! i = body !! i) →
  ∀ i, i ∈ kept_regs →
  <[REG_RBP := fa]> (alter (λ v, (v + 32) mod 2 ^ 64) REG_RSP (<[REG_RIP := ra]> g)) !! i = ret !! i.
Proof.
  intros [_ C1 C2 (sp & C3 & C4) C5] Lg Hg i Hi. unfold kept_regs in Hi.
  apply elem_of_cons in Hi as [-> | Hi].
  { rewrite list_lookup_insert_ne, list_lookup_alter_ne by done. rewrite list_lookup_insert_eq; [done |]. unfold REG_RIP. lia. }
  apply elem_of_cons in Hi as [-> | Hi].
  { rewrite list_lookup_insert_eq; [done |]. rewrite length_alter, length_insert. unfold REG_RBP. lia. }
  apply elem_of_cons in Hi as [-> | Hi].
  { rewrite list_lookup_insert_ne, list_lookup_alter_eq, list_lookup_insert_ne by done.
    rewrite Hg, C3 by (apply list_elem_of_here). done. }
  rewrite C5, <- Hg by (try done; by apply list_elem_of_further).
  assert (i ≠ REG_RBP ∧ i ≠ REG_RSP ∧ i ≠ REG_RIP) as (? & ? & ?).
  { revert i Hi. apply Forall_forall. by repeat constructor. }
  by rewrite list_lookup_insert_ne, list_lookup_alter_ne, list_lookup_insert_ne.
Qed.

(** One call: what is stored of the running task, and that the other one runs. *)
Lemma linux_switch_spec `{LibcOk} s body ra fa f new ret :
  can_switch s body → compiled ret body ra fa →
  ∃ s', arch_context_switch body ra fa f new s = Some s' ∧
    task_current s' = new ∧ loaded (ctx s' new) s' ∧
    stored ret (mask s) (ctx s' (task_current s)) ∧
    (∀ t, t ≠ task_current s → ctx s' t = ctx s t) ∧
    isr_nesting s' = isr_nesting s ∧ arch_crit_signals s' = arch_crit_signals s ∧ sized s'.
Proof.
  intros [[Hr Hl] Hb Hv Hu Hi] C. unfold arch_context_switch. cbn. rewrite !upd_eq. cbn.
  set (u := (getcontext body (mask s) (ctx s (task_current s))).2).
  assert (length (gregs u) = 23%nat) as Lu by (unfold u; by rewrite getcontext_length).
  match goal with |- ∃ _, raise_usr1 f ?z = _ ∧ _ => set (s1 := z) end.
  assert (∀ t, length (gregs (ctx s1 t)) = 23%nat) as L1.
  { intros t. cbn. unfold upd. repeat case_match; cbn; repeat first [rewrite length_insert | rewrite length_alter]; auto. }
  destruct (raise_loads f s1) as (s' & E & HL & Ec & Et & En & Ea); [done | done | apply L1 |].
  exists s'. rewrite E. split_and!; try done.
  - rewrite Ec. exact HL.
  - rewrite Ec. cbn. rewrite !upd_eq. split; cbn.
    + by rewrite length_insert, length_alter, length_insert.
    + apply (switch_registers ret body ra fa); [done | done |]. intros i Hi'. unfold u. by apply getcontext_saves.
    + unfold u. apply getcontext_mask. by apply valid_low.
  - intros t Ht. rewrite Ec. cbn. by rewrite !upd_ne.
  - split; [| intros t; rewrite Ec; apply L1]. destruct HL as [-> _]. rewrite length_take, L1. done.
Qed.

(** The two ways a stored context comes to run again in [s]: another task switches
    to [t], or an interrupt of another task ends with [t] as the current task. *)
Definition comes_back `{Libc} (t : Z) (P : state → Prop) (s : state) : Prop :=
  (∀ body ra fa f ret, can_switch s body → compiled ret body ra fa → task_current s ≠ t →
     ∃ s', arch_context_switch body ra fa f t s = Some s' ∧ task_current s' = t ∧ P s') ∧
  (∀ uc, task_current s = t → isr_nesting s = 1 → P (end_interrupt uc s)).

Lemma linux_comes_back `{LibcOk} t c (P : state → Prop) s :
  (∀ s', loaded c s' → P s') → length (gregs c) = 23%nat → ctx s t = c → comes_back t P s.
Proof.
  intros HP Hl Hc. split.
  - intros body ra fa f ret Hs C Ht.
    destruct (linux_switch_spec s body ra fa f t ret Hs C) as (s' & E & Et & HL & _ & Hk & _).
    exists s'. split_and!; [done | done |]. apply HP. by rewrite Hk, Hc in HL.
  - intros uc Ht Hn. apply HP. rewrite <- Hc, <- Ht. apply end_interrupt_loads; [done |]. by rewrite Ht, Hc.
Qed.

(** C21: Linux port, [arch_context_switch]: the call stores the context of the
    running task and the thread goes on with the registers and the signal mask
    of the new task. As long as the stored context is not changed, the next
    switch to the task, and also the end of an interrupt that selects it, returns
    to the caller of [arch_context_switch]: the return address, the stack pointer,
    the frame pointer and the registers it relies on are those of the call, and
    the signal mask is the one of the call, so a task that was switched out in a
    critical section goes on in this critical section. The frame of the
    function is assumed to be [compiled] the way the code counts on: [ra] and [fa]
    are the return address and the frame pointer of the caller, whose stack
    pointer is 32 bytes above that of the body, and the body leaves the registers
    alone that a caller relies on. *)
Theorem linux_switch_roundtrip `{LibcOk} s body ra fa f new ret :
  can_switch s body → compiled ret body ra fa →
  ∃ s1, arch_context_switch body ra fa f new s = Some s1 ∧
    task_current s1 = new ∧ loaded (ctx s1 new) s1 ∧
    (new ≠ task_current s → ctx s1 new = ctx s new) ∧
    ∀ s2, ctx s2 (task_current s) = ctx s1 (task_current s) →
      comes_back (task_current s) (continues ret (mask s)) s2.
Proof.
  intros Hs C.
  destruct (linux_switch_spec s body ra fa f new ret Hs C) as (s1 & E & Et & HL & HS & Hk & _).
  exists s1. split_and!; [done | done | done | by intros; apply Hk |]. intros s2 H2.
  apply (linux_comes_back _ (ctx s1 (task_current s))); [| apply HS | done].
  intros s'. by apply loaded_stored; [apply Hs |].
Qed.

(** C22: Linux port, interrupts: an interrupt handler stores the context of the
    interrupted task, and when its end selects the same task again, nothing of
    the registers and the signal mask has changed. When it selects another task,
    the thread goes on with this task, and the interrupted one goes on with all its
    registers and its signal mask as soon as it is selected again, at the end of
    an interrupt or by [arch_context_switch]. *)
Theorem linux_isr_roundtrip `{LibcOk} s signo sa_mask f :
  sized s → length (gregs f) = 23%nat → valid_mask (mask s) → isr_nesting s = 0 →
  let '(uc, s1) := interrupt signo sa_mask f s in
  isr_nesting s1 = 1 ∧ task_current s1 = task_current s ∧
  (∀ t, t ≠ task_current s → ctx s1 t = ctx s t) ∧
  (∀ s2, isr_nesting s2 = 1 → sized s2 → loaded (ctx s2 (task_current s2)) (end_interrupt uc s2)) ∧
  ∀ s2, ctx s2 (task_current s) = ctx s1 (task_current s) →
    comes_back (task_current s) (λ s3, regs s3 = regs s ∧ mask s3 = mask s) s2.
Proof.
  intros [Hr Hl] Hf Hv Hn. unfold interrupt, arch_contextstore_i. cbn. rewrite Hn.
  change (int32_wrap (0 + 1)) with 1. cbn. split_and!; try done.
  - intros t Ht. by apply upd_ne.
  - intros s2 H1 [_ H2]. by apply end_interrupt_loads.
  - rewrite upd_eq. intros s2 H2. eapply linux_comes_back; [| | done].
    + intros s' [E1 E2]. cbn in E1. cbn [uc_sigmask signal_frame set_uc_sigmask set_gregs] in E2. rewrite take_app_length' in E1 by done.
      by rewrite setmask_oldset in E2.
    + cbn. rewrite length_app, length_drop. lia.
Qed.

(** C25: Linux port, nested interrupts: the end of a nested interrupt goes on with
    all registers of the handler it interrupted, but with the signal mask of the
    task that was interrupted first: the signal of this handler, and all others
    that were blocked while it runs, are not blocked any more. *)
Theorem linux_nested_exit_unblocks s f s1 uc signo sa_mask signo' sa_mask' f' :
  sized s → length (gregs f') = 23%nat → valid_mask (mask s) → isr_nesting s = 0 →
  (uc, s1) = interrupt signo sa_mask f s →
  ∀ s2, sized s2 → isr_nesting s2 = 1 → task_current s2 = task_current s →
    ctx s2 (task_current s) = ctx s1 (task_current s) →
  let '(uc', s3) := interrupt signo' sa_mask' f' s2 in
  ctx s3 = ctx s2 ∧ isr_nesting s3 = 2 ∧
  ∀ s4, isr_nesting s4 = 2 → task_current s4 = task_current s → ctx s4 = ctx s3 →
    regs (end_interrupt uc' s4) = regs s2 ∧ isr_nesting (end_interrupt uc' s4) = 1 ∧
    mask (end_interrupt uc' s4) = mask s.
Proof.
  intros [Hr Hl] Hf Hv Hn [= -> ->] s2 [R2 L2] N2 T2 C2.
  unfold interrupt, arch_contextstore_i in *. cbn in *. rewrite Hn in C2. rewrite N2.
  change (int32_wrap (0 + 1)) with 1 in C2. change (int32_wrap (1 + 1)) with 2. cbn in *.
  rewrite upd_eq in C2. split_and!; [done | done |]. intros s4 N4 T4 C4.
  unfold end_interrupt, arch_contextrestore_i. cbn. rewrite N4. change (int32_wrap (2 - 1)) with 1. cbn.
  rewrite take_app_length' by done. split_and!; [done | done |].
  rewrite T4, C4, C2. cbn. apply (setmask_oldset (uc_sigmask f) (mask s) 0 Hv).
Qed.

Lemma sigbit_spec n i : 1 ≤ n → 0 ≤ i → Z.testbit (sigbit n) i = (i =? n - 1).
Proof. intros Hn Hi. unfold sigbit. rewrite Z.shiftl_1_l, Z.pow2_bits_eqb by lia. apply Z.eqb_sym. Qed.

Lemma crit_bits `{Libc} prev s i : 0 ≤ i →
  Z.testbit (arch_crit_signals (arch_os_init prev s)) i =
    Z.testbit sigfillset i && negb (i =? 9) && negb ((i <? 64) && Z.testbit unmaskable i).
Proof.
  intros Hi. change (arch_crit_signals (arch_os_init prev s)) with
    (oldset (sigdelset sigfillset SIGUSR1) (sigprocmask SIG_SETMASK (sigdelset sigfillset SIGUSR1) 0)).
  testbits. rewrite (sigbit_spec SIGUSR1) by done. change (SIGUSR1 - 1) with 9.
  destruct (Z.testbit sigfillset i), (i =? 9), (i <? 64), (Z.testbit unmaskable i); done.
Qed.

(** C23: Linux port, critical sections: once [arch_os_init] has prepared the set,
    [arch_critical_enter] blocks every signal of a full set except SIGUSR1, which
    the switch needs, and the two that no thread can block, and [arch_is_dint]
    reports it. [arch_critical_exit] gives back the mask of before whatever was
    in the variable, and a critical section inside another one changes nothing;
    this for masks that block no signal outside that set, as SIGUSR1. *)
Theorem linux_critical_section `{Libc} s0 s prev junk :
  arch_crit_signals s = arch_crit_signals (arch_os_init prev s0) →
  valid_mask (mask s) → Z.ldiff (mask s) (arch_crit_signals s) = 0 →
  let '(saved, s1) := arch_critical_enter junk s in
  arch_is_dint s1 = true ∧
  (∀ n, 1 ≤ n ≤ 64 → Z.testbit (mask s1) (n - 1) =
    Z.testbit sigfillset (n - 1) && bool_decide (n ≠ SIGUSR1 ∧ n ≠ SIGKILL ∧ n ≠ SIGSTOP)) ∧
  arch_critical_exit saved s1 = s ∧
  (arch_is_dint s = true → s1 = s).
Proof.
  intros Hc Hv Hs. unfold arch_critical_enter.
  assert (∀ i, 0 ≤ i → Z.testbit (mask s) i && negb (Z.testbit (arch_crit_signals s) i) = false) as Hb.
  { intros i Hi. rewrite <- Z.ldiff_spec, Hs by done. apply Z.bits_0. }
  assert (∀ i, 0 ≤ i → Z.testbit (sigprocmask SIG_BLOCK (arch_crit_signals s) (mask s)) i =
    Z.testbit (arch_crit_signals s) i && (i <? 64)) as Hm.
  { intros i Hi. specialize (Hb i Hi). pose proof (valid_bits _ i Hv Hi) as Hvi. revert Hb Hvi. testbits.
    rewrite Hc, crit_bits by done. destruct (Z.testbit (mask s) i), (Z.testbit sigfillset i), (i =? 9), (i <? 64), (Z.testbit unmaskable i); done. }
  split_and!.
  - unfold arch_is_dint. cbn [mask set_mask set_cpu arch_crit_signals]. apply Z.eqb_eq, Z.bits_inj'. intros i Hi.
    unfold oldset. rewrite Z.lor_spec, Hm, Hc by done. testbits. rewrite crit_bits by done.
    destruct (Z.testbit sigfillset i), (i =? 9) eqn:E9, (i <? 64) eqn:E64, (Z.testbit unmaskable i); try done.
    all: lia.
  - intros n Hn. cbn [mask set_mask set_cpu]. rewrite Hm, Hc, crit_bits, unmaskable_spec by lia.
    rewrite (proj2 (Z.ltb_lt (n - 1) 64)), andb_true_r, <- andb_assoc by lia. f_equal.
    unfold SIGUSR1, SIGKILL, SIGSTOP.
    destruct (Z.eqb_spec (n - 1) 9), (Z.eqb_spec (n - 1) 8), (Z.eqb_spec (n - 1) 18);
      case_bool_decide; try done; lia.
  - unfold arch_critical_exit. cbn [mask set_mask set_cpu]. rewrite setmask_oldset by done. by destruct s.
  - unfold arch_is_dint. intros E%Z.eqb_eq.
    assert (sigprocmask SIG_BLOCK (arch_crit_signals s) (mask s) = mask s) as ->; [| by destruct s].
    apply Z.bits_inj'. intros i Hi. rewrite Hm by done. rewrite <- E. testbits.
    rewrite (valid_bits _ i Hv Hi).
    destruct (Z.testbit sigfillset i), (Z.testbit (mask s) i), (i <? 64), (Z.testbit unmaskable i); done.
Qed.

(** C24: Linux port, start of a task: [arch_task_init] halts for a stack that is
    not aligned. Otherwise, as soon as the context it prepares is loaded, by a switch or
    at the end of an interrupt, the thread is at the entry of [arch_task_start] with the
    procedure and its argument, on the stack of the task, and [arch_task_start]
    calls the procedure with no signal of the critical set blocked, although the task
    was created with whatever mask its creator had. *)
Theorem linux_first_switch_starts_task `{LibcOk} start task sp size proc param s :
  sized s → valid_mask (mask s) → 4096 ≤ size →
  (sp mod 8 ≠ 0 → arch_task_init start task sp size proc param s = None) ∧
  (sp mod 8 = 0 → ∃ s1, arch_task_init start task sp size proc param s = Some s1 ∧
    (∀ t, t ≠ task → ctx s1 t = ctx s t) ∧
    ∀ s2, ctx s2 task = ctx s1 task →
      comes_back task (λ s3,
        regs s3 !! REG_RIP = Some start ∧ mask s3 = mask s ∧
        (∃ v, regs s3 !! REG_RSP = Some v ∧ sp < v < sp + size) ∧
        let '(s4, p, a) := arch_task_start s3 in
        p = Some proc ∧ a = Some param ∧
        ∀ n, 1 ≤ n ≤ 64 → Z.testbit (arch_crit_signals s4) (n - 1) = true →
          n ≠ SIGKILL → n ≠ SIGSTOP → Z.testbit (mask s4) (n - 1) = false) s2).
Proof.
  intros [Hr Hl] Hv Hz. unfold arch_task_init.
  assert (Z.land sp 7 = sp mod 8) as -> by (change 7 with (Z.ones 3); rewrite Z.land_ones by lia; done).
  split; intros Ha; [by rewrite (proj2 (Z.eqb_neq _ _) Ha) |]. rewrite Ha. cbn [negb Z.eqb].
  pose proof (getcontext_succeeds (regs s) (mask s) (ctx s task)) as E0.
  pose proof (getcontext_length (regs s) (mask s) (ctx s task) Hr (Hl task)) as EL.
  pose proof (getcontext_mask (regs s) (mask s) (ctx s task) (valid_low _ Hv)) as EM.
  destruct (getcontext (regs s) (mask s) (ctx s task)) as [r u]. cbn in *. subst r. cbn [negb Z.eqb].
  destruct (uc_stack u) as [[? fl] ?].
  eexists. split_and!; [done | intros t Ht; by apply upd_ne |]. intros s2 H2.
  eapply linux_comes_back; [| | exact H2]; cbn; rewrite upd_eq; [| by rewrite makecontext_length].
  set (v := set_uc_link 0 _). intros s3 [E1 E2].
  assert (length (gregs v) = 23%nat) as Lv by exact EL.
  destruct (makecontext_entry v start proc param Lv) as (M1 & M2 & M3).
  destruct (makecontext_stack v start proc param sp fl size Lv eq_refl Hz) as (w & M4 & M5).
  rewrite makecontext_mask in E2. rewrite E1.
  split_and!.
  - by rewrite lookup_take_lt by (unfold REG_RIP; lia).
  - rewrite E2. by apply setmask_low.
  - exists w. by rewrite lookup_take_lt by (unfold REG_RSP; lia).
  - by rewrite lookup_take_lt by (unfold REG_RDI; lia).
  - by rewrite lookup_take_lt by (unfold REG_RSI; lia).
  - intros n Hn Hc N1 N2. cbn in Hc |- *. testbits. rewrite unmaskable_spec, Hc by lia.
    unfold SIGKILL, SIGSTOP in *.
    rewrite (proj2 (Z.ltb_lt (n - 1) 64)), (proj2 (Z.eqb_neq (n - 1) 8)), (proj2 (Z.eqb_neq (n - 1) 18)) by lia.
    apply andb_false_r.
Qed.

(** ** A C library and a thread, for the witnesses *)

(** A full set without the two signals glibc keeps for itself. *)
#[export] Instance demo_libc : Libc := {|
  sigfillset := Z.ldiff (Z.ones 1024) (Z.lor (sigbit 32) (sigbit 33));
  getcontext r m u := (0, set_uc_sigmask (oldset (uc_sigmask u) m) (set_gregs (r ++ drop 18 (gregs u)) u));
  makecontext u f a b := let '(ss_sp, _, ss_size) := uc_stack u in
    set_gregs (<[REG_RIP := f]> (<[REG_RDI := a]> (<[REG_RSI := b]>
      (<[REG_RSP := ss_sp + ss_size - 8]> (gregs u))))) u
|}.

#[export] Instance demo_libc_ok : LibcOk demo_libc.
Proof.
  split; cbn.
  - done.
  - intros r m u Hr Hu. rewrite length_app, length_drop. lia.
  - intros r m u i Hr Hu Hi. apply lookup_app_l. rewrite Hr.
    revert i Hi. apply Forall_forall. unfold callee_saved, REG_RSP, REG_RBX, REG_R12, REG_R13, REG_R14, REG_R15.
    repeat constructor; lia.
  - intros r m u Hm. bits i. rewrite <- Hm. testbits. destruct (Z.testbit (uc_sigmask u) i), (Z.testbit m i), (i <? 64); done.
  - intros u f a b. destruct (uc_stack u) as [[? ?] ?]. cbn. by rewrite !length_insert.
  - intros u f a b Hu. destruct (uc_stack u) as [[? ?] ?]. cbn. split_and!.
    + rewrite list_lookup_insert_eq; [done |]. rewrite !length_insert, Hu. unfold REG_RIP. lia.
    + rewrite list_lookup_insert_ne, list_lookup_insert_eq; [done | | done]. rewrite !length_insert, Hu. unfold REG_RDI. lia.
    + rewrite !list_lookup_insert_ne by done. rewrite list_lookup_insert_eq; [done |]. rewrite length_insert, Hu. unfold REG_RSI. lia.
  - intros u f a b sp fl size Hu -> Hz. cbn. exists (sp + size - 8). split; [| lia].
    rewrite !list_lookup_insert_ne by done. rewrite list_lookup_insert_eq; [done |]. rewrite Hu. unfold REG_RSP. lia.
  - intros u f a b. by destruct (uc_stack u) as [[? ?] ?].
Qed.

Definition demo_ucontext (m : sigset) : ucontext := UContext 0 (0, 0, 0) (replicate 23 0) [] m [].
Definition demo_regs : list Z := seqZ 1 18.
(** Task 1 runs with the set [arch_os_init] prepares; task 2 was stored with the mask [m]. *)
Definition demo_boot : state := St demo_regs 0 false None 0 1 0 (λ _, demo_ucontext 0).
Definition demo_crit : sigset := arch_crit_signals (arch_os_init 0 demo_boot).
Definition demo_state (nesting : Z) (m : sigset) : state :=
  St demo_regs 0 false (Some demo_crit) demo_crit 1 nesting (λ _, demo_ucontext m).

Lemma demo_sized n m : sized (demo_state n m).
Proof. by split. Qed.
Lemma demo_mask n m : mask (demo_state n m) = 0.
Proof. by vm_compute. Qed.

Definition demo_ret : list Z := <[REG_RSP := 48]> (<[REG_RIP := 4096]> (<[REG_RBP := 7777]> demo_regs)).
Lemma demo_compiled : compiled demo_ret demo_regs 4096 7777.
Proof.
  split; [done | done | done | |].
  - by exists 16.
  - apply Forall_forall. by repeat constructor.
Qed.

Lemma demo_can_switch : can_switch (demo_state 0 0) demo_regs.
Proof. split; [apply demo_sized | done | by rewrite demo_mask | by rewrite demo_mask | done]. Qed.

Lemma linux_switch_roundtrip_witness :
  ∃ s1, arch_context_switch demo_regs 4096 7777 (demo_ucontext 0) 2 (demo_state 0 0) = Some s1 ∧ task_current s1 = 2.
Proof.
  destruct (linux_switch_roundtrip (demo_state 0 0) demo_regs 4096 7777 (demo_ucontext 0) 2 demo_ret
    demo_can_switch demo_compiled) as (s1 & E & Et & _).
  by exists s1.
Defined.

Lemma linux_isr_roundtrip_witness :
  let '(uc, s1) := interrupt 14 0 (demo_ucontext 0) (demo_state 0 0) in isr_nesting s1 = 1.
Proof.
  refine (proj1 (linux_isr_roundtrip (demo_state 0 0) 14 0 (demo_ucontext 0) (demo_sized 0 0) eq_refl _ eq_refl)).
  by rewrite demo_mask.
Defined.

(** A timer interrupt (14) interrupted by signal 1. *)
Lemma linux_nested_exit_unblocks_witness :
  let '(uc, s1) := interrupt 14 0 (demo_ucontext 0) (demo_state 0 0) in
  let '(uc', s3) := interrupt 1 0 (demo_ucontext 0) s1 in
  Z.testbit (mask s1) 13 = true ∧ mask (end_interrupt uc' s3) = mask (demo_state 0 0).
Proof.
  set (i1 := interrupt 14 0 (demo_ucontext 0) (demo_state 0 0)).
  assert (valid_mask (mask (demo_state 0 0))) as Hv by (by rewrite demo_mask).
  assert (sized i1.2) as Hz by (by apply interrupt_sized; [apply demo_sized |]).
  destruct (linux_nested_exit_unblocks (demo_state 0 0) (demo_ucontext 0) i1.2 i1.1 14 0 1 0 (demo_ucontext 0)
    (demo_sized 0 0) eq_refl Hv eq_refl (eq_sym (surjective_pairing i1)) i1.2 Hz eq_refl eq_refl eq_refl) as (_ & _ & H).
  split; [by vm_compute |]. by apply H.
Defined.

Lemma linux_critical_section_witness :
  let '(saved, s1) := arch_critical_enter 0 (demo_state 0 0) in arch_is_dint s1 = true.
Proof.
  refine (proj1 (linux_critical_section demo_boot (demo_state 0 0) 0 0 _ _ _)).
  - reflexivity.
  - by rewrite demo_mask.
  - by rewrite demo_mask, Z.ldiff_0_l.
Defined.

Lemma linux_first_switch_starts_task_witness :
  ∃ s1, arch_task_init 4096 2 8192 4096 10 11 (demo_state 0 0) = Some s1.
Proof.
  destruct (proj2 (linux_first_switch_starts_task 4096 2 8192 4096 10 11 (demo_state 0 0)
    (demo_sized 0 0) ltac:(by rewrite demo_mask) ltac:(lia)) eq_refl) as (s1 & E & _).
  by exists s1.
Defined.
