(* ===== verification/LinkedList.v ===== *)
(** * The intrusive doubly linked list of source/list.h

    The memory of the [list_t] objects is a finite map from addresses to
    [next]/[prev] pairs; a pointer is an [option] address, NULL being [None].
    Every function of list.h is a function on that memory which fails (returns
    [None]) when it dereferences NULL or an address that holds no [list_t].
    [chain]/[repr] relate a memory to the sequences it represents, and one
    lemma per function states what it does to these sequences. *)

From stdpp Require Import base decidable list gmap.
From Stdlib Require Import ZArith Lia Sorted.
From S2P Require Import Prelude.

Section list_h.
Context {addr : Type} `{Countable addr}.

(** [struct _list_t] *)
Record list_t := ListT { next : option addr; prev : option addr }.

(** The memory of the list elements and list heads. *)
Abbreviation heap := (gmap addr list_t).

(** [p->next], [p->prev], [p->next = v], [p->prev = v] *)
Definition get_next (p : option addr) (h : heap) : option (option addr) :=
  a ← p; n ← h !! a; Some (next n).
Definition get_prev (p : option addr) (h : heap) : option (option addr) :=
  a ← p; n ← h !! a; Some (prev n).
Definition set_next (p v : option addr) (h : heap) : option heap :=
  a ← p; n ← h !! a; Some (<[a := ListT v (prev n)]> h).
Definition set_prev (p v : option addr) (h : heap) : option heap :=
  a ← p; n ← h !! a; Some (<[a := ListT (next n) v]> h).

(** [__list_put_in_between] *)
Definition list_put_in_between (elem left right : option addr) (h : heap) : option heap :=
  h ← set_prev right elem h;
  h ← set_next elem right h;
  h ← set_prev elem left h;
  set_next left elem h.

(** [__list_connect_together] *)
Definition list_connect_together (left right : option addr) (h : heap) : option heap :=
  h ← set_prev right left h;
  set_next left right h.

Definition list_init (l : option addr) (h : heap) : option heap :=
  h ← set_next l l h;
  set_prev l l h.

Definition list_prepend (l elem : option addr) (h : heap) : option heap :=
  n ← get_next l h;
  list_put_in_between elem l n h.

Definition list_append (l elem : option addr) (h : heap) : option heap :=
  p ← get_prev l h;
  list_put_in_between elem p l h.

Definition list_put_after (itr ele : option addr) (h : heap) : option heap :=
  n ← get_next itr h;
  list_put_in_between ele itr n h.

Definition list_put_before (itr ele : option addr) (h : heap) : option heap :=
  p ← get_prev itr h;
  list_put_in_between ele p itr h.

Definition list_unlink (elem : option addr) (h : heap) : option heap :=
  p ← get_prev elem h;
  n ← get_next elem h;
  h ← list_connect_together p n h;
  list_init elem h.

Definition list_is_empty (l : option addr) (h : heap) : option bool :=
  n ← get_next l h;
  Some (bool_decide (n = l)).

Definition list_itr_begin (l : option addr) (h : heap) : option (option addr) :=
  get_next l h.

Definition list_itr_end (l itr : option addr) : bool := bool_decide (l = itr).

Definition list_peekfirst (l : option addr) (h : heap) : option (option addr) :=
  n ← get_next l h;
  if bool_decide (n = l) then Some None else get_next l h.

Definition list_detachfirst (l : option addr) (h : heap) : option (option addr * heap) :=
  elem ← get_next l h;
  if bool_decide (elem = l) then Some (None, h) else
  p ← get_prev elem h;
  n ← get_next elem h;
  h ← list_connect_together p n h;
  h ← list_init elem h;
  Some (elem, h).

Definition list_peeklast (l : option addr) (h : heap) : option (option addr) :=
  p ← get_prev l h;
  if bool_decide (p = l) then Some None else get_prev l h.

(** [struct _listprio_t] embeds a [list_t] as its first member; its [prio]
    member is kept in a second map over the same addresses. *)
Definition get_prio (pr : gmap addr Z) (p : option addr) : option Z :=
  a ← p; pr !! a.

(** The [while] loop of [listprio_append] ([fuel] bounds its iterations). *)
Fixpoint listprio_seek (fuel : nat) (pr : gmap addr Z) (h elem l r : option addr)
    (m : heap) : option (option addr * option addr) :=
  match fuel with
  | O => None
  | S fuel =>
      if bool_decide (r = h) then Some (l, r) else
      ep ← get_prio pr elem;
      rp ← get_prio pr r;
      if (ep <=? rp)%Z then
        r' ← get_next r m;
        listprio_seek fuel pr h elem r r' m
      else Some (l, r)
  end.

Definition listprio_append (fuel : nat) (pr : gmap addr Z) (h elem : option addr)
    (m : heap) : option heap :=
  r ← get_next h m;
  lr ← listprio_seek fuel pr h elem h r m;
  list_put_in_between elem lr.1 lr.2 m.

Definition listprio_detachfirst (l : option addr) (h : heap) : option (option addr * heap) :=
  elem ← get_next l h;
  if bool_decide (elem = l) then Some (None, h) else
  p ← get_prev elem h;
  n ← get_next elem h;
  h ← list_connect_together p n h;
  h ← list_init elem h;
  Some (elem, h).

(** ** Sequences represented by a memory *)

Definition nx (h : heap) (a : addr) : option addr := n ← h !! a; next n.
Definition pv (h : heap) (a : addr) : option addr := n ← h !! a; prev n.

(** Last element of [a :: xs], first element of [ys ++ [b]]. *)
Fixpoint lastd (a : addr) (xs : list addr) : addr :=
  match xs with [] => a | x :: xs' => lastd x xs' end.
Definition hdd (ys : list addr) (b : addr) : addr :=
  match ys with [] => b | y :: _ => y end.

(** [a], the elements [xs] and [b] are linked one after the other, both ways. *)
Fixpoint chain (h : heap) (a : addr) (xs : list addr) (b : addr) : Prop :=
  match xs with
  | [] => nx h a = Some b ∧ pv h b = Some a
  | x :: xs' => nx h a = Some x ∧ pv h x = Some a ∧ chain h x xs' b
  end.

(** The memory [h] represents, for every head [hd] of [A], the sequence
    [A !! hd]; distinct lists share no node. *)
Record repr (h : heap) (A : gmap addr (list addr)) : Prop := {
  repr_chain : ∀ hd xs, A !! hd = Some xs → chain h hd xs hd;
  repr_nodup : ∀ hd xs, A !! hd = Some xs → NoDup (hd :: xs);
  repr_disj : ∀ hd1 hd2 xs1 xs2 x, A !! hd1 = Some xs1 → A !! hd2 = Some xs2 →
    x ∈ hd1 :: xs1 → x ∈ hd2 :: xs2 → hd1 = hd2
}.

(** [x] is neither a head nor an element of a represented list. *)
Definition unlinked (A : gmap addr (list addr)) (x : addr) : Prop :=
  ∀ hd xs, A !! hd = Some xs → x ∉ hd :: xs.

(** [h'] holds a [list_t] at the same addresses as [h]. *)
Definition same_dom (h' h : heap) : Prop := ∀ x, is_Some (h' !! x) ↔ is_Some (h !! x).

(** Specification of [listprio_append] on sequences: [e] goes before the first
    element whose priority is smaller. *)
Fixpoint prio_insert (pr : addr → Z) (e : addr) (xs : list addr) : list addr :=
  match xs with
  | [] => [e]
  | x :: xs' => if (pr e <=? pr x)%Z then x :: prio_insert pr e xs' else e :: x :: xs'
  end.

(** Appending several elements, one call after the other. *)
Fixpoint list_append_all (hd : addr) (es : list addr) (h : heap) : option heap :=
  match es with
  | [] => Some h
  | e :: es => h ← list_append (Some hd) (Some e) h; list_append_all hd es h
  end.

(** Detaching the first element until the list is empty: the elements obtained. *)
Fixpoint list_drain (fuel : nat) (hd : addr) (h : heap) : option (list addr * heap) :=
  match fuel with
  | O => None
  | S fuel =>
      '(e, h) ← list_detachfirst (Some hd) h;
      match e with
      | None => Some ([], h)
      | Some e => '(es, h) ← list_drain fuel hd h; Some (e :: es, h)
      end
  end.

(** [repr] decided on a finite representation. *)
Fixpoint chain_b (h : heap) (a : addr) (xs : list addr) (b : addr) : bool :=
  match xs with
  | [] => bool_decide (nx h a = Some b) && bool_decide (pv h b = Some a)
  | x :: xs' => bool_decide (nx h a = Some x) && bool_decide (pv h x = Some a) && chain_b h x xs' b
  end.
Definition repr_b (h : heap) (l : list (addr * list addr)) : bool :=
  forallb (λ '(hd, xs), chain_b h hd xs hd) l
  && bool_decide (NoDup (concat ((λ '(hd, xs), hd :: xs) <$> l))).

End list_h.

Arguments list_t : clear implicits.

(** ** Reading and writing single fields *)

Section facts.
Context {addr : Type} `{Countable addr}.

(** Memories holding nodes at the same addresses form an equivalence, and
    asking whether an address is a node respects it. *)
#[export] Instance same_dom_equiv : Equivalence (same_dom (addr := addr)).
Proof.
  split; [by intros h x | intros h1 h2 H12 x; by rewrite (H12 x) |].
  intros h1 h2 h3 H12 H23 x. by rewrite (H12 x), (H23 x).
Qed.
#[export] Instance is_node_proper (x : addr) :
  Proper (same_dom ==> iff) (λ h : gmap addr (list_t addr), is_Some (h !! x)).
Proof. intros h1 h2 H12. apply H12. Qed.

Implicit Types (h : gmap addr (list_t addr)) (a b e l r : addr) (xs ys : list addr).
Implicit Types (A : gmap addr (list addr)).

Lemma nx_dom h a b : nx h a = Some b → is_Some (h !! a).
Proof. unfold nx. destruct (h !! a); [eauto | done]. Qed.

Lemma pv_dom h a b : pv h a = Some b → is_Some (h !! a).
Proof. unfold pv. destruct (h !! a); [eauto | done]. Qed.

Lemma get_next_nx h a : is_Some (h !! a) → get_next (Some a) h = Some (nx h a).
Proof. intros [n Hn]. cbn. unfold nx. by rewrite Hn. Qed.

Lemma get_prev_pv h a : is_Some (h !! a) → get_prev (Some a) h = Some (pv h a).
Proof. intros [n Hn]. cbn. unfold pv. by rewrite Hn. Qed.

(** [upd f g h' h]: [h'] has the addresses of [h], and [f]/[g] are its fields. *)
Definition fields (f g : addr → option addr) (h' h : gmap addr (list_t addr)) : Prop :=
  (∀ x, is_Some (h' !! x) ↔ is_Some (h !! x)) ∧ (∀ x, nx h' x = f x) ∧ (∀ x, pv h' x = g x).

Lemma set_next_fields h a v : is_Some (h !! a) →
  ∃ h', set_next (Some a) v h = Some h' ∧
    fields (λ x, if decide (x = a) then v else nx h x) (pv h) h' h.
Proof.
  intros [n Hn]. cbn. rewrite Hn. eexists; split; [done |].
  split_and!; intros x; unfold nx, pv; rewrite lookup_insert; decide_all;
    rewrite ?Hn; naive_solver.
Qed.

Lemma set_prev_fields h a v : is_Some (h !! a) →
  ∃ h', set_prev (Some a) v h = Some h' ∧
    fields (nx h) (λ x, if decide (x = a) then v else pv h x) h' h.
Proof.
  intros [n Hn]. cbn. rewrite Hn. eexists; split; [done |].
  split_and!; intros x; unfold nx, pv; rewrite lookup_insert; decide_all;
    rewrite ?Hn; naive_solver.
Qed.

(** Run one field write, naming the facts about the memory it yields. *)
Ltac field_step D N P :=
  match goal with
  | |- context [set_next (Some ?a) ?v ?h] =>
      let h1 := fresh "m" in destruct (set_next_fields h a v) as (h1 & -> & D & N & P);
      [ | cbn [mbind option_bind] ]
  | |- context [set_prev (Some ?a) ?v ?h] =>
      let h1 := fresh "m" in destruct (set_prev_fields h a v) as (h1 & -> & D & N & P);
      [ | cbn [mbind option_bind] ]
  end.

Lemma put_in_between_fields h e l r :
  is_Some (h !! e) → is_Some (h !! l) → is_Some (h !! r) → e ≠ l → e ≠ r →
  ∃ h', list_put_in_between (Some e) (Some l) (Some r) h = Some h' ∧
    fields (λ x, if decide (x = l) then Some e else if decide (x = e) then Some r else nx h x)
           (λ x, if decide (x = r) then Some e else if decide (x = e) then Some l else pv h x)
           h' h.
Proof.
  intros. unfold list_put_in_between.
  field_step D1 N1 P1; [done |]. field_step D2 N2 P2; [by apply D1 |].
  field_step D3 N3 P3; [by apply D2, D1 |]. field_step D4 N4 P4; [by apply D3, D2, D1 |].
  eexists; split; [done |]. split_and!; intros x.
  - by rewrite D4, D3, D2, D1.
  - rewrite N4, N3, N2, N1. decide_all.
  - rewrite P4, P3, P2, P1. decide_all.
Qed.

Lemma connect_fields h l r : is_Some (h !! l) → is_Some (h !! r) →
  ∃ h', list_connect_together (Some l) (Some r) h = Some h' ∧
    fields (λ x, if decide (x = l) then Some r else nx h x)
           (λ x, if decide (x = r) then Some l else pv h x) h' h.
Proof.
  intros. unfold list_connect_together.
  field_step D1 N1 P1; [done |]. field_step D2 N2 P2; [by apply D1 |].
  eexists; split; [done |]. split_and!; intros x.
  - by rewrite D2, D1.
  - by rewrite N2, N1.
  - by rewrite P2, P1.
Qed.

Lemma list_init_fields h e : is_Some (h !! e) →
  ∃ h', list_init (Some e) h = Some h' ∧
    fields (λ x, if decide (x = e) then Some e else nx h x)
           (λ x, if decide (x = e) then Some e else pv h x) h' h.
Proof.
  intros. unfold list_init.
  field_step D1 N1 P1; [done |]. field_step D2 N2 P2; [by apply D1 |].
  eexists; split; [done |]. split_and!; intros x.
  - by rewrite D2, D1.
  - by rewrite N2, N1.
  - by rewrite P2, P1.
Qed.

Lemma list_unlink_fields h e p n :
  nx h e = Some n → pv h e = Some p → is_Some (h !! p) → is_Some (h !! n) →
  ∃ h', list_unlink (Some e) h = Some h' ∧
    fields (λ x, if decide (x = e) then Some e else if decide (x = p) then Some n else nx h x)
           (λ x, if decide (x = e) then Some e else if decide (x = n) then Some p else pv h x)
           h' h.
Proof.
  intros Hn Hp ? ?. pose proof (nx_dom _ _ _ Hn). unfold list_unlink.
  rewrite get_prev_pv, get_next_nx, Hn, Hp by done. cbn [mbind option_bind].
  destruct (connect_fields h p n) as (h1 & -> & D1 & N1 & P1); [done.. |]. cbn [mbind option_bind].
  destruct (list_init_fields h1 e) as (h2 & -> & D2 & N2 & P2); [by apply D1 |].
  eexists; split; [done |]. split_and!; intros x.
  - by rewrite D2, D1.
  - by rewrite N2, N1.
  - by rewrite P2, P1.
Qed.

(** ** Chains *)

Lemma chain_prefix h a xs ys b : chain h a (xs ++ ys) b → chain h a xs (hdd ys b).
Proof.
  revert a. induction xs as [| x xs IH]; intros a; cbn.
  - destruct ys; cbn; tauto.
  - intros (? & ? & ?). eauto.
Qed.

Lemma chain_suffix h a xs ys b : chain h a (xs ++ ys) b → chain h (lastd a xs) ys b.
Proof. revert a. induction xs as [| x xs IH]; intros a; cbn; [done | naive_solver]. Qed.

Lemma chain_join h a xs ys b :
  chain h a xs (hdd ys b) → chain h (lastd a xs) ys b → chain h a (xs ++ ys) b.
Proof.
  revert a. induction xs as [| x xs IH]; intros a; cbn.
  - destruct ys; cbn; tauto.
  - intros (? & ? & ?) ?. eauto.
Qed.

Lemma lastd_in a xs : lastd a xs ∈ a :: xs.
Proof.
  revert a. induction xs as [| x xs IH]; intros a; cbn; [set_solver |].
  specialize (IH x). set_solver.
Qed.

Lemma lastd_app a xs x : lastd a (xs ++ [x]) = x.
Proof. revert a. induction xs; intros; cbn; auto. Qed.

Lemma hdd_in ys b : hdd ys b ∈ ys ++ [b].
Proof. destruct ys; cbn; set_solver. Qed.

(** Membership in the whole circular list. *)
Lemma lastd_in_app a xs zs : lastd a xs ∈ a :: xs ++ zs.
Proof. rewrite app_comm_cons, elem_of_app. left. apply lastd_in. Qed.

Lemma hdd_in_app xs ys b : hdd ys b ∈ b :: xs ++ ys.
Proof. destruct ys; cbn; rewrite elem_of_cons, elem_of_app, ?elem_of_cons; auto. Qed.

Lemma hdd_in_app_mid xs e ys b : hdd ys b ∈ b :: xs ++ e :: ys.
Proof. destruct ys; cbn; rewrite elem_of_cons, elem_of_app, ?elem_of_cons; auto. Qed.

Lemma chain_nx h a xs b : chain h a xs b → nx h a = Some (hdd xs b).
Proof. destruct xs; cbn; tauto. Qed.

Lemma chain_pv h a xs b : chain h a xs b → pv h b = Some (lastd a xs).
Proof. revert a. induction xs as [| x xs IH]; intros a; cbn; [tauto | naive_solver]. Qed.

Lemma chain_frame h h' a xs b :
  (∀ x, x ∈ a :: xs → nx h' x = nx h x) → (∀ x, x ∈ xs ++ [b] → pv h' x = pv h x) →
  chain h a xs b → chain h' a xs b.
Proof.
  revert a. induction xs as [| x xs IH]; intros a Hn Hp; cbn.
  - rewrite Hn, Hp by set_solver. done.
  - rewrite Hn, Hp by set_solver. intros (? & ? & ?). split_and!; auto.
    apply IH; auto; intros; [apply Hn | apply Hp]; set_solver.
Qed.

(** The chain up to its last element, re-targeted to a new end. *)
Lemma chain_retarget h h' a xs r e :
  NoDup (a :: xs) → chain h a xs r →
  nx h' (lastd a xs) = Some e → pv h' e = Some (lastd a xs) →
  (∀ x, x ∈ a :: xs → x ≠ lastd a xs → nx h' x = nx h x) →
  (∀ x, x ∈ xs → pv h' x = pv h x) →
  chain h' a xs e.
Proof.
  revert a. induction xs as [| x xs IH]; intros a Hnd Hc Hn Hp Hfn Hfp; cbn in *; [done |].
  destruct Hc as (? & ? & ?). apply NoDup_cons in Hnd as [Ha Hnd].
  rewrite Hfn, Hfp; [split_and!; auto | set_solver | set_solver |].
  - apply IH; auto; intros; [apply Hfn | apply Hfp]; set_solver.
  - intros ->. apply Ha. apply lastd_in.
Qed.

(** The chain after its first node, re-attached to a new start. *)
Lemma chain_releft h h' l ys b e :
  chain h l ys b → nx h' e = Some (hdd ys b) → pv h' (hdd ys b) = Some e →
  (∀ x, x ∈ ys → nx h' x = nx h x) →
  (∀ x, x ∈ tail (ys ++ [b]) → pv h' x = pv h x) →
  chain h' e ys b.
Proof.
  destruct ys as [| y ys]; cbn; [naive_solver |].
  intros (? & ? & ?) ? ? Hn Hp. split_and!; auto. eapply chain_frame; eauto.
Qed.

Lemma chain_nodes h a xs b x : chain h a xs b → x ∈ a :: xs ++ [b] → is_Some (h !! x).
Proof.
  revert a. induction xs as [| y xs IH]; intros a; cbn.
  - intros [Hn Hp] Hx. rewrite !elem_of_cons in Hx.
    destruct Hx as [-> | [-> | []%not_elem_of_nil]]; eauto using nx_dom, pv_dom.
  - intros (Hn & Hp & Hc) Hx. apply elem_of_cons in Hx as [-> | Hx]; eauto using nx_dom.
Qed.

(** Insertion between two adjacent nodes of a circular list. *)
Lemma chain_insert h h' hd xs ys e :
  chain h hd (xs ++ ys) hd → NoDup (hd :: xs ++ ys) → e ∉ hd :: xs ++ ys →
  fields (λ x, if decide (x = lastd hd xs) then Some e
               else if decide (x = e) then Some (hdd ys hd) else nx h x)
         (λ x, if decide (x = hdd ys hd) then Some e
               else if decide (x = e) then Some (lastd hd xs) else pv h x) h' h →
  chain h' hd (xs ++ e :: ys) hd.
Proof.
  intros Hc Hnd He (_ & Hn & Hp).
  pose proof (lastd_in hd xs) as Hl. pose proof (hdd_in ys hd) as Hh.
  apply NoDup_cons in Hnd as [Hd Hnd]. apply NoDup_app in Hnd as (Hnx & Hdis & Hny).
  rewrite not_elem_of_cons, not_elem_of_app in He. destruct He as (He & Hex & Hey).
  rewrite not_elem_of_app in Hd. destruct Hd as (Hdx & Hdy).
  assert (lastd hd xs ≠ e) as Hle by set_solver -Hn Hp Hc.
  assert (hdd ys hd ≠ e) as Hhe by set_solver -Hn Hp Hc.
  assert (hdd ys hd ∉ xs) as Hhx.
  { intros Hx. apply elem_of_app in Hh as [Hh | Hh%list_elem_of_singleton];
      [by eapply Hdis | by rewrite Hh in Hx]. }
  assert (∀ x, x ∈ ys → x ≠ lastd hd xs) as Hly.
  { intros x Hx ->. apply elem_of_cons in Hl as [Hl | Hl]; [by rewrite Hl in Hx | by eapply Hdis]. }
  assert (nx h' e = Some (hdd ys hd)) as He1 by (rewrite Hn; decide_all).
  assert (pv h' (hdd ys hd) = Some e) as He2 by (rewrite Hp; decide_all).
  apply chain_join; cbn.
  - eapply chain_retarget; [| eapply chain_prefix, Hc | | | |].
    + by apply NoDup_cons.
    + rewrite Hn. decide_all.
    + rewrite Hp. decide_all.
    + intros x Hx Hx'. rewrite Hn. decide_all. set_solver -Hn Hp Hc.
    + intros x Hx. rewrite Hp. decide_all.
  - rewrite Hn, Hp. split_and!; [decide_all.. |].
    eapply chain_releft; [eapply chain_suffix, Hc | done | done | |].
    + intros x Hx. rewrite Hn. pose proof (Hly x Hx). decide_all.
    + intros x Hx. rewrite Hp. destruct ys as [| y ys]; cbn in *; [by apply elem_of_nil in Hx |].
      apply NoDup_cons in Hny as [? ?]. apply not_elem_of_cons in Hdy, Hey.
      apply elem_of_app in Hx as [Hx | ->%list_elem_of_singleton]; decide_all; naive_solver.
Qed.

(** Removal of a node of a circular list. *)
Lemma chain_remove h h' hd xs ys e :
  chain h hd (xs ++ e :: ys) hd → NoDup (hd :: xs ++ e :: ys) →
  fields (λ x, if decide (x = e) then Some e
               else if decide (x = lastd hd xs) then Some (hdd ys hd) else nx h x)
         (λ x, if decide (x = e) then Some e
               else if decide (x = hdd ys hd) then Some (lastd hd xs) else pv h x) h' h →
  chain h' hd (xs ++ ys) hd.
Proof.
  intros Hc Hnd (_ & Hn & Hp).
  pose proof (lastd_in hd xs) as Hl. pose proof (hdd_in ys hd) as Hh.
  apply NoDup_cons in Hnd as [Hd Hnd]. apply NoDup_app in Hnd as (Hnx & Hdis & Hny).
  apply NoDup_cons in Hny as [Hey Hny].
  rewrite not_elem_of_app, not_elem_of_cons in Hd. destruct Hd as (Hdx & Hde & Hdy).
  assert (lastd hd xs ≠ e) as Hle by set_solver -Hn Hp Hc.
  assert (hdd ys hd ≠ e) as Hhe by set_solver -Hn Hp Hc.
  assert (hdd ys hd ∉ xs) as Hhx.
  { intros Hx. apply elem_of_app in Hh as [Hh | Hh%list_elem_of_singleton];
      [by eapply Hdis, list_elem_of_further | by rewrite Hh in Hx]. }
  assert (e ∉ xs) as Hex by set_solver -Hn Hp Hc.
  assert (∀ x, x ∈ ys → x ≠ lastd hd xs) as Hly.
  { intros x Hx ->. apply elem_of_cons in Hl as [Hl | Hl]; [by rewrite Hl in Hx | by eapply Hdis, list_elem_of_further]. }
  assert (nx h' (lastd hd xs) = Some (hdd ys hd)) as H1 by (rewrite Hn; decide_all).
  assert (pv h' (hdd ys hd) = Some (lastd hd xs)) as H2 by (rewrite Hp; decide_all).
  apply chain_join.
  - eapply chain_retarget; [| eapply chain_prefix, Hc | done | done | |].
    + by apply NoDup_cons.
    + intros x Hx Hx'. rewrite Hn. decide_all. set_solver -Hn Hp Hc.
    + intros x Hx. rewrite Hp. decide_all.
  - pose proof (chain_suffix _ _ _ _ _ Hc) as (_ & _ & Hs).
    eapply chain_releft; [exact Hs | done | done | |].
    + intros x Hx. rewrite Hn. pose proof (Hly x Hx). decide_all.
    + intros x Hx. rewrite Hp. destruct ys as [| y ys]; cbn in *; [by apply elem_of_nil in Hx |].
      apply NoDup_cons in Hny as [? ?]. apply not_elem_of_cons in Hdy, Hey.
      apply elem_of_app in Hx as [Hx | ->%list_elem_of_singleton]; decide_all; naive_solver.
Qed.

(** ** What each function does to the represented sequences *)

Lemma repr_dom h A hd xs x : repr h A → A !! hd = Some xs → x ∈ hd :: xs → is_Some (h !! x).
Proof.
  intros HR HA Hx. eapply chain_nodes; [by eapply repr_chain | set_solver].
Qed.

Lemma repr_update h h' A hd xs' :
  repr h A → chain h' hd xs' hd → NoDup (hd :: xs') →
  (∀ x hd2 xs2, x ∈ hd :: xs' → A !! hd2 = Some xs2 → hd2 ≠ hd → x ∉ hd2 :: xs2) →
  (∀ x hd2 xs2, A !! hd2 = Some xs2 → hd2 ≠ hd → x ∈ hd2 :: xs2 →
     nx h' x = nx h x ∧ pv h' x = pv h x) →
  repr h' (<[hd := xs']> A).
Proof.
  intros [HC HN HD] Hc Hnd Hdis Hf. split.
  - intros hd2 xs2. rewrite lookup_insert. case_decide; [naive_solver |]. intros HA.
    eapply chain_frame; [| | by apply HC]; intros x Hx; eapply Hf; eauto.
    apply elem_of_app in Hx as [? | ?%list_elem_of_singleton]; subst; [by apply list_elem_of_further | apply list_elem_of_here].
  - intros hd2 xs2. rewrite lookup_insert. case_decide; naive_solver.
  - intros hd1 hd2 xs1 xs2 x. rewrite !lookup_insert.
    repeat case_decide; intros ? ? ? ?; simplify_eq; eauto; exfalso; by eapply Hdis.
Qed.

(** Insertion of an unlinked node before [hdd ys hd]. *)
Lemma repr_insert h A hd xs ys e :
  repr h A → A !! hd = Some (xs ++ ys) → unlinked A e → is_Some (h !! e) →
  ∃ h', list_put_in_between (Some e) (Some (lastd hd xs)) (Some (hdd ys hd)) h = Some h' ∧
    repr h' (<[hd := xs ++ e :: ys]> A) ∧ same_dom h' h.
Proof.
  intros HR HA He Hdom.
  pose proof (He _ _ HA) as Hne.
  pose proof (lastd_in_app hd xs ys) as Hl. pose proof (hdd_in_app xs ys hd) as Hh.
  destruct (put_in_between_fields h e (lastd hd xs) (hdd ys hd)) as (h' & Hp & HF);
    [done | by eapply repr_dom | by eapply repr_dom | by intros -> | by intros -> |].
  exists h'. split_and!; [done | | exact (proj1 HF)].
  eapply repr_update; [done | eapply chain_insert; eauto using repr_chain, repr_nodup | | |].
  - rewrite app_comm_cons, <- Permutation_middle. apply NoDup_cons; split; [done |].
    by apply (repr_nodup _ _ HR).
  - intros x hd2 xs2 Hx HA2 Hne2 Hx2. apply (Hne2).
    assert (x = e ∨ x ∈ hd :: xs ++ ys) as [-> | Hx'].
    { rewrite elem_of_cons, elem_of_app, elem_of_cons in Hx.
      rewrite elem_of_cons, elem_of_app. naive_solver. }
    + by destruct (He _ _ HA2).
    + by eapply (repr_disj _ _ HR).
  - intros x hd2 xs2 HA2 Hne2 Hx2. destruct HF as (_ & Hn & Hpv). rewrite Hn, Hpv.
    assert (x ∉ hd :: xs ++ ys) as Hx by (intros Hx; apply Hne2; by eapply (repr_disj _ _ HR)).
    assert (x ≠ e) by (intros ->; by eapply He).
    decide_all.
Qed.

Lemma list_append_repr h A hd xs e :
  repr h A → A !! hd = Some xs → unlinked A e → is_Some (h !! e) →
  ∃ h', list_append (Some hd) (Some e) h = Some h' ∧
    repr h' (<[hd := xs ++ [e]]> A) ∧ same_dom h' h.
Proof.
  intros HR HA He Hd. unfold list_append.
  rewrite get_prev_pv by (eapply repr_dom; eauto using list_elem_of_here).
  erewrite chain_pv by (by eapply repr_chain). cbn [mbind option_bind].
  apply (repr_insert h A hd xs []); rewrite ?app_nil_r; auto.
Qed.

Lemma list_prepend_repr h A hd xs e :
  repr h A → A !! hd = Some xs → unlinked A e → is_Some (h !! e) →
  ∃ h', list_prepend (Some hd) (Some e) h = Some h' ∧
    repr h' (<[hd := e :: xs]> A) ∧ same_dom h' h.
Proof.
  intros HR HA He Hd. unfold list_prepend.
  rewrite get_next_nx by (eapply repr_dom; eauto using list_elem_of_here).
  erewrite chain_nx by (by eapply repr_chain). cbn [mbind option_bind].
  apply (repr_insert h A hd [] xs); auto.
Qed.

(** The iterator standing before [ys] in the list [xs ++ ys]. *)
Lemma repr_itr_dom h A hd xs ys :
  repr h A → A !! hd = Some (xs ++ ys) → is_Some (h !! hdd ys hd).
Proof.
  intros HR HA. eapply repr_dom; eauto. apply hdd_in_app.
Qed.

Lemma list_put_before_repr h A hd xs ys e :
  repr h A → A !! hd = Some (xs ++ ys) → unlinked A e → is_Some (h !! e) →
  ∃ h', list_put_before (Some (hdd ys hd)) (Some e) h = Some h' ∧
    repr h' (<[hd := xs ++ e :: ys]> A) ∧ same_dom h' h.
Proof.
  intros HR HA He Hd. unfold list_put_before.
  rewrite get_prev_pv by (by eapply repr_itr_dom).
  erewrite chain_pv by (eapply chain_prefix; by eapply repr_chain). cbn [mbind option_bind].
  by apply repr_insert.
Qed.

Lemma list_put_after_repr h A hd xs ys e :
  repr h A → A !! hd = Some (xs ++ ys) → unlinked A e → is_Some (h !! e) →
  ∃ h', list_put_after (Some (lastd hd xs)) (Some e) h = Some h' ∧
    repr h' (<[hd := xs ++ e :: ys]> A) ∧ same_dom h' h.
Proof.
  intros HR HA He Hd. unfold list_put_after.
  erewrite get_next_nx, chain_nx.
  - cbn [mbind option_bind]. by apply repr_insert.
  - eapply chain_suffix; by eapply repr_chain.
  - eapply repr_dom; eauto. apply lastd_in_app.
Qed.

(** Advancing the iterator standing on [e]. *)
Lemma repr_next h A hd xs e ys :
  repr h A → A !! hd = Some (xs ++ e :: ys) → get_next (Some e) h = Some (Some (hdd ys hd)).
Proof.
  intros HR HA. pose proof (repr_chain _ _ HR _ _ HA) as Hc.
  apply chain_suffix in Hc as (_ & _ & Hc).
  rewrite get_next_nx by (eapply repr_dom; eauto; set_solver). by erewrite chain_nx.
Qed.

Lemma repr_begin h A hd xs :
  repr h A → A !! hd = Some xs → list_itr_begin (Some hd) h = Some (Some (hdd xs hd)).
Proof.
  intros HR HA. unfold list_itr_begin.
  rewrite get_next_nx by (eapply repr_dom; eauto using list_elem_of_here).
  erewrite chain_nx; [done | by eapply repr_chain].
Qed.

Lemma list_unlink_repr h A hd xs e ys :
  repr h A → A !! hd = Some (xs ++ e :: ys) →
  ∃ h', list_unlink (Some e) h = Some h' ∧
    repr h' (<[hd := xs ++ ys]> A) ∧ same_dom h' h ∧ unlinked (<[hd := xs ++ ys]> A) e.
Proof.
  intros HR HA. pose proof (repr_chain _ _ HR _ _ HA) as Hc.
  pose proof (repr_nodup _ _ HR _ _ HA) as Hnd.
  assert (e ∈ hd :: xs ++ e :: ys) as He by (rewrite app_comm_cons, elem_of_app; right; apply list_elem_of_here).
  pose proof (lastd_in_app hd xs (e :: ys)) as Hl. pose proof (hdd_in_app_mid xs e ys hd) as Hh.
  destruct (list_unlink_fields h e (lastd hd xs) (hdd ys hd)) as (h' & Hu & HF).
  { apply chain_suffix in Hc as (_ & _ & Hc). by eapply chain_nx. }
  { apply chain_prefix in Hc. by eapply chain_pv. }
  { by eapply repr_dom. }
  { by eapply repr_dom. }
  exists h'. split_and!; [done | | exact (proj1 HF) |].
  - eapply repr_update; [done | by eapply chain_remove | | |].
    + eapply sublist_NoDup; [exact Hnd |]. apply sublist_skip, sublist_app; [done | by apply sublist_cons].
    + intros x hd2 xs2 Hx HA2 Hne2 Hx2. apply Hne2. eapply (repr_disj _ _ HR); eauto.
      revert Hx. rewrite !elem_of_cons, !elem_of_app, elem_of_cons. tauto.
    + intros x hd2 xs2 HA2 Hne2 Hx2. destruct HF as (_ & Hn & Hpv). rewrite Hn, Hpv.
      assert (x ∉ hd :: xs ++ e :: ys) as Hx by (intros Hx; apply Hne2; by eapply (repr_disj _ _ HR)).
      assert (x ≠ lastd hd xs) by (by intros ->).
      assert (x ≠ hdd ys hd) by (by intros ->).
      assert (x ≠ e) by (intros ->; apply Hx; apply He).
      decide_all.
  - intros hd2 xs2. rewrite lookup_insert. case_decide; intros HA2 Hx; simplify_eq.
    + rewrite app_comm_cons, <- Permutation_middle in Hnd. by apply NoDup_cons in Hnd as [? _].
    + assert (hd2 = hd); [| done]. eapply (repr_disj _ _ HR _ _ _ _ e); eauto.
Qed.

(** (Re)initialising the head [hd]: any other list must be disjoint from it. *)
Lemma list_init_repr h A hd :
  repr h A → is_Some (h !! hd) →
  (∀ hd2 xs2, hd2 ≠ hd → A !! hd2 = Some xs2 → hd ∉ hd2 :: xs2) →
  ∃ h', list_init (Some hd) h = Some h' ∧ repr h' (<[hd := []]> A) ∧ same_dom h' h.
Proof.
  intros HR Hd Hdis. destruct (list_init_fields h hd Hd) as (h' & Hi & HF).
  exists h'. split_and!; [done | | exact (proj1 HF)]. destruct HF as (_ & Hn & Hp).
  eapply repr_update; [done | | apply NoDup_singleton | |].
  - cbn. rewrite Hn, Hp. decide_all.
  - intros x hd2 xs2 ->%list_elem_of_singleton ? ?. by apply Hdis.
  - intros x hd2 xs2 HA Hne Hx. rewrite Hn, Hp.
    assert (x ≠ hd) by (intros ->; by eapply Hdis). decide_all.
Qed.

(** Lists that are no longer used are forgotten. *)
Lemma repr_delete h A hd : repr h A → repr h (delete hd A).
Proof.
  intros [HC HN HD]. split; intros *; rewrite ?lookup_delete_Some; naive_solver.
Qed.

(** Writing a node that belongs to no list. *)
Lemma repr_store h A x v : repr h A → unlinked A x → repr (<[x := v]> h) A.
Proof.
  intros [HC HN HD] Hx. split; [| done | done]. intros hd xs HA.
  pose proof (Hx _ _ HA) as Hx'.
  assert (∀ y, y ∈ hd :: xs → <[x := v]> h !! y = h !! y) as Hy.
  { intros y Hy. apply lookup_insert_ne. by intros <-. }
  eapply chain_frame; [| | by apply HC]; intros y Hy'; unfold nx, pv; rewrite Hy; [done.. |].
  rewrite Permutation_app_comm in Hy'. done.
Qed.

Lemma list_is_empty_repr h A hd xs :
  repr h A → A !! hd = Some xs → list_is_empty (Some hd) h = Some (bool_decide (xs = [])).
Proof.
  intros HR HA. pose proof (repr_begin _ _ _ _ HR HA) as Hb. unfold list_itr_begin in Hb.
  pose proof (repr_nodup _ _ HR _ _ HA) as [Hhd _]%NoDup_cons.
  unfold list_is_empty. rewrite Hb. cbn. f_equal. apply bool_decide_ext.
  destruct xs; cbn in *; [done |]. split; [| done]. intros [=]. set_solver.
Qed.

Lemma list_peekfirst_repr h A hd xs :
  repr h A → A !! hd = Some xs → list_peekfirst (Some hd) h = Some (head xs).
Proof.
  intros HR HA. pose proof (repr_begin _ _ _ _ HR HA) as Hb. unfold list_itr_begin in Hb.
  pose proof (repr_nodup _ _ HR _ _ HA) as [Hhd _]%NoDup_cons.
  unfold list_peekfirst. rewrite Hb. cbn.
  destruct xs as [| x xs]; cbn in *; [by rewrite bool_decide_true |].
  rewrite bool_decide_false; [done | intros [= ->]; set_solver].
Qed.

Lemma list_peeklast_repr h A hd xs :
  repr h A → A !! hd = Some xs → list_peeklast (Some hd) h = Some (last xs).
Proof.
  intros HR HA. unfold list_peeklast.
  pose proof (repr_nodup _ _ HR _ _ HA) as [Hhd _]%NoDup_cons.
  rewrite get_prev_pv by (eapply repr_dom; eauto using list_elem_of_here).
  erewrite chain_pv by (by eapply repr_chain).
  induction xs as [| x xs _] using rev_ind.
  - cbn. by rewrite bool_decide_true.
  - rewrite lastd_app, last_snoc. cbn. rewrite bool_decide_false; [done |].
    intros [= ->]. set_solver.
Qed.

Lemma list_detachfirst_nil h A hd :
  repr h A → A !! hd = Some [] → list_detachfirst (Some hd) h = Some (None, h).
Proof.
  intros HR HA. pose proof (repr_begin _ _ _ _ HR HA) as Hb. unfold list_itr_begin in Hb.
  unfold list_detachfirst. rewrite Hb. cbn. by rewrite bool_decide_true.
Qed.

Lemma list_detachfirst_unlink h hd e :
  get_next (Some hd) h = Some (Some e) → e ≠ hd →
  list_detachfirst (Some hd) h = (h' ← list_unlink (Some e) h; Some (Some e, h')).
Proof.
  intros Hn Hne. unfold list_detachfirst, list_unlink. rewrite Hn. cbn [mbind option_bind].
  rewrite bool_decide_false by congruence.
  destruct (get_prev (Some e) h) as [p |]; [cbn [mbind option_bind] | done].
  destruct (get_next (Some e) h) as [n |]; [cbn [mbind option_bind] | done].
  by destruct (list_connect_together p n h).
Qed.

Lemma list_detachfirst_cons h A hd e xs :
  repr h A → A !! hd = Some (e :: xs) →
  ∃ h', list_detachfirst (Some hd) h = Some (Some e, h') ∧
    repr h' (<[hd := xs]> A) ∧ same_dom h' h ∧ unlinked (<[hd := xs]> A) e.
Proof.
  intros HR HA. pose proof (repr_begin _ _ _ _ HR HA) as Hb. unfold list_itr_begin in Hb.
  destruct (list_unlink_repr h A hd [] e xs HR HA) as (h' & Hu & HR' & Hd & He).
  exists h'. split_and!; [| done..].
  pose proof (repr_nodup _ _ HR _ _ HA) as [Hhd _]%NoDup_cons.
  erewrite list_detachfirst_unlink; [by rewrite Hu | exact Hb |].
  intros ->. apply Hhd, list_elem_of_here.
Qed.

(** ** The priority list *)

Lemma prio_insert_split (pr : addr → Z) e xs :
  ∃ l r : list addr, xs = l ++ r ∧ prio_insert pr e xs = l ++ e :: r ∧
    Forall (λ x, (pr e <= pr x)%Z) l ∧ (∀ x, head r = Some x → (pr x < pr e)%Z).
Proof.
  induction xs as [| x xs (l & r & -> & Hi & Hl & Hr)]; cbn.
  - exists [], []. naive_solver.
  - destruct (Z.leb_spec (pr e) (pr x)).
    + exists (x :: l), r. rewrite Hi. split_and!; auto.
    + exists [], (x :: l ++ r). split_and!; auto. by intros ? [= <-].
Qed.

Lemma prio_insert_perm (pr : addr → Z) e xs : prio_insert pr e xs ≡ₚ e :: xs.
Proof.
  destruct (prio_insert_split pr e xs) as (l & r & -> & -> & _ & _).
  by rewrite Permutation_middle.
Qed.

(** [prio_insert] keeps a descending sequence descending and is stable. *)
Lemma prio_insert_sorted (pr : addr → Z) e xs :
  StronglySorted (λ x y, (pr y <= pr x)%Z) xs →
  StronglySorted (λ x y, (pr y <= pr x)%Z) (prio_insert pr e xs).
Proof.
  induction 1 as [| x xs Hs IH Hx]; cbn; [repeat constructor |].
  destruct (Z.leb_spec (pr e) (pr x)).
  - constructor; [done |]. rewrite prio_insert_perm. by constructor.
  - constructor; [by constructor |]. constructor; [lia |].
    eapply Forall_impl; [exact Hx |]. cbn. lia.
Qed.

Lemma filter_none_prio (pr : addr → Z) e xs :
  Forall (λ y, (pr y < pr e)%Z) xs → filter (λ x, pr x = pr e) xs = [].
Proof.
  induction 1 as [| x xs Hx _ IH]; [done |]. rewrite filter_cons, decide_False by lia. done.
Qed.

Lemma prio_insert_filter (pr : addr → Z) e xs p :
  StronglySorted (λ x y, (pr y <= pr x)%Z) xs →
  filter (λ x, pr x = p) (prio_insert pr e xs) = filter (λ x, pr x = p) (xs ++ [e]).
Proof.
  induction 1 as [| x xs Hs IH Hx]; cbn [prio_insert]; [done |].
  destruct (Z.leb_spec (pr e) (pr x)).
  - cbn [app]. rewrite !filter_cons. by rewrite IH.
  - rewrite filter_app, (filter_cons _ e (x :: xs)), (filter_cons _ e []).
    destruct (decide (pr e = p)) as [<- |]; [| by rewrite app_nil_r].
    rewrite filter_none_prio; [done |]. constructor; [lia |].
    eapply Forall_impl; [exact Hx |]. cbn. lia.
Qed.

(** The seek loop stops at the insertion point found by [prio_insert]. *)
Lemma listprio_seek_spec m A (prm : gmap addr Z) (pr : addr → Z) hd e fuel done rest :
  repr m A → A !! hd = Some (done ++ rest) → length rest < fuel →
  (∀ x, x ∈ e :: rest → prm !! x = Some (pr x)) →
  ∃ l r : list addr, rest = l ++ r ∧ prio_insert pr e rest = l ++ e :: r ∧
    listprio_seek fuel prm (Some hd) (Some e) (Some (lastd hd done)) (Some (hdd rest hd)) m
      = Some (Some (lastd hd (done ++ l)), Some (hdd r hd)).
Proof.
  intros HR. revert done rest. induction fuel as [| fuel IH]; intros done rest HA Hf Hpr; [lia |].
  destruct rest as [| x rest].
  - exists [], []. cbn. rewrite app_nil_r, bool_decide_true by done. auto.
  - cbn [listprio_seek hdd]. pose proof (repr_nodup _ _ HR _ _ HA) as [Hhd _]%NoDup_cons.
    rewrite bool_decide_false by (intros [=]; subst; set_solver).
    unfold get_prio. cbn [mbind option_bind]. rewrite !Hpr by set_solver. cbn [prio_insert mbind option_bind].
    destruct (Z.leb_spec (pr e) (pr x)).
    + erewrite repr_next by eauto. cbn [mbind option_bind].
      destruct (IH (done ++ [x]) rest) as (l & r & -> & Hi & Hs).
      { by rewrite <- app_assoc. }
      { cbn in Hf; lia. }
      { intros y Hy. apply Hpr. set_solver. }
      rewrite lastd_app in Hs. exists (x :: l), r. rewrite Hi. split_and!; [done.. |].
      by rewrite Hs, <- app_assoc.
    + exists [], (x :: rest). by rewrite app_nil_r.
Qed.

Lemma listprio_append_repr m A (prm : gmap addr Z) (pr : addr → Z) hd e xs fuel :
  repr m A → A !! hd = Some xs → length xs < fuel → unlinked A e → is_Some (m !! e) →
  (∀ x, x ∈ e :: xs → prm !! x = Some (pr x)) →
  ∃ m', listprio_append fuel prm (Some hd) (Some e) m = Some m' ∧
    repr m' (<[hd := prio_insert pr e xs]> A) ∧ same_dom m' m.
Proof.
  intros HR HA Hf He Hd Hpr. unfold listprio_append.
  pose proof (repr_begin _ _ _ _ HR HA) as Hb. unfold list_itr_begin in Hb. rewrite Hb.
  cbn [mbind option_bind].
  destruct (listprio_seek_spec m A prm pr hd e fuel [] xs) as (l & r & -> & Hi & Hs); auto.
  cbn [lastd app] in Hs. rewrite Hs. cbn [mbind option_bind fst snd]. rewrite Hi.
  by apply repr_insert.
Qed.

(** Initialising an element that is on no list. *)
Lemma list_init_eq (h : gmap addr (list_t addr)) e : is_Some (h !! e) →
  list_init (Some e) h = Some (<[e := ListT (Some e) (Some e)]> h).
Proof.
  intros [n Hn]. unfold list_init, set_next, set_prev. cbn. rewrite Hn. cbn.
  rewrite lookup_insert_eq. cbn. by rewrite insert_insert_eq.
Qed.

(** ** Deciding [repr] *)

Lemma chain_b_ok h a xs b : chain_b h a xs b = true → chain h a xs b.
Proof.
  revert a. induction xs as [| x xs IH]; intros a; cbn.
  - rewrite andb_true_iff, !bool_decide_eq_true. done.
  - rewrite !andb_true_iff, !bool_decide_eq_true. naive_solver.
Qed.

Lemma NoDup_concat_disj {B} (ls : list (list B)) (i j : nat) (l1 l2 : list B) (x : B) :
  NoDup (concat ls) → ls !! i = Some l1 → ls !! j = Some l2 → x ∈ l1 → x ∈ l2 → i = j.
Proof.
  revert i j. induction ls as [| l ls IH]; intros i j; [done |].
  cbn [concat]. rewrite NoDup_app. intros (_ & Hd & Hn) Hi Hj Hx1 Hx2.
  assert (∀ (k : nat) (l' : list B), ls !! k = Some l' → x ∈ l' → x ∈ concat ls) as Hc.
  { intros k l' Hk Hx. apply list_elem_of_In, in_concat. exists l'.
    rewrite <- !list_elem_of_In. split; [by eapply list_elem_of_lookup_2 | done]. }
  destruct i as [| i], j as [| j]; cbn in *; simplify_eq; [done | | | f_equal; by eapply IH].
  - exfalso. eapply Hd; [exact Hx1 | by eapply Hc].
  - exfalso. eapply Hd; [exact Hx2 | by eapply Hc].
Qed.

Lemma repr_b_ok (h : gmap addr (list_t addr)) (l : list (addr * list addr)) : repr_b h l = true → repr h (list_to_map l).
Proof.
  unfold repr_b. rewrite andb_true_iff, bool_decide_eq_true, forallb_forall. intros [Hc Hn].
  assert (∀ hd xs, (list_to_map l : gmap addr (list addr)) !! hd = Some xs →
    ∃ i : nat, l !! i = Some (hd, xs)) as Hl.
  { intros hd xs Hx%elem_of_list_to_map_2. by apply list_elem_of_lookup. }
  assert (∀ (i : nat) hd xs, l !! i = Some (hd, xs) →
    ((λ '(hd, xs), hd :: xs) <$> l) !! i = Some (hd :: xs)) as Hf.
  { intros i hd xs Hi. by rewrite list_lookup_fmap, Hi. }
  split.
  - intros hd xs [i Hi]%Hl. apply chain_b_ok. apply (Hc (hd, xs)).
    apply list_elem_of_In. by eapply list_elem_of_lookup_2.
  - intros hd xs [i Hi]%Hl. specialize (Hf _ _ _ Hi). clear Hi.
    revert i Hf. revert Hn. generalize ((λ '(hd, xs), hd :: xs) <$> l). clear.
    intros ls Hn. induction ls as [| y ys IH]; intros i Hi; [done |].
    cbn [concat] in Hn. apply NoDup_app in Hn as (Hn1 & _ & Hn2).
    destruct i; cbn in Hi; simplify_eq; [done | by eapply IH].
  - intros hd1 hd2 xs1 xs2 x [i Hi]%Hl [j Hj]%Hl Hx1 Hx2.
    assert (i = j) as -> by (eapply NoDup_concat_disj; eauto). congruence.
Qed.

Lemma unlinked_b (l : list (addr * list addr)) x :
  bool_decide (x ∉ concat ((λ '(hd, xs), hd :: xs) <$> l)) = true →
  unlinked (list_to_map l) x.
Proof.
  intros Hx%bool_decide_eq_true hd xs HA%elem_of_list_to_map_2 Hin. apply Hx.
  apply list_elem_of_In, in_concat. exists (hd :: xs). rewrite <- !list_elem_of_In. split; [| done].
  apply (list_elem_of_fmap_2 (λ '(hd, xs), hd :: xs) _ _ HA).
Qed.

(** ** A memory is determined by its two fields *)

Lemma heap_ext (h h' : gmap addr (list_t addr)) :
  same_dom h' h → (∀ x, nx h' x = nx h x) → (∀ x, pv h' x = pv h x) → h' = h.
Proof.
  intros Hd Hn Hp. apply map_eq. intros x. specialize (Hd x). specialize (Hn x). specialize (Hp x).
  unfold nx, pv in *. destruct (h' !! x) as [[]|], (h !! x) as [[]|]; cbn in *; try naive_solver.
Qed.

Lemma unlinked_insert_ne A hd xs x : unlinked A x → x ∉ hd :: xs → unlinked (<[hd := xs]> A) x.
Proof. intros HA Hx hd' xs'. rewrite lookup_insert. case_decide; [naive_solver | apply HA]. Qed.

Lemma unlinked_subseteq A A' x : A' ⊆ A → unlinked A x → unlinked A' x.
Proof. intros HA Hu hd xs Hx. by eapply Hu, lookup_weaken. Qed.

Lemma list_append_all_repr h A hd xs es :
  repr h A → A !! hd = Some xs → NoDup es →
  (∀ e, e ∈ es → unlinked A e ∧ is_Some (h !! e)) →
  ∃ h', list_append_all hd es h = Some h' ∧ repr h' (<[hd := xs ++ es]> A) ∧ same_dom h' h.
Proof.
  revert h A xs. induction es as [| e es IH]; intros h A xs HR HA Hn Hes.
  - exists h. rewrite app_nil_r, insert_id by done. done.
  - apply NoDup_cons in Hn as [He Hn].
    destruct (Hes e) as [Hu Hd]; [apply list_elem_of_here |].
    destruct (list_append_repr h A hd xs e HR HA Hu Hd) as (h1 & Ha & HR1 & Hd1).
    destruct (IH h1 (<[hd := xs ++ [e]]> A) (xs ++ [e])) as (h2 & Hr & HR2 & Hd2);
      [done | apply lookup_insert_eq | done | |].
    + intros e' He'. destruct (Hes e') as [Hu' Hd']; [by apply list_elem_of_further |].
      split; [| by apply Hd1]. apply unlinked_insert_ne; [done |].
      pose proof (Hu' _ _ HA) as Hx. rewrite not_elem_of_cons in Hx |- *.
      rewrite not_elem_of_app, list_elem_of_singleton. split_and!; [tauto.. |]. by intros ->.
    + exists h2. cbn [list_append_all]. rewrite Ha. cbn [mbind option_bind]. rewrite Hr. rewrite insert_insert_eq, <- app_assoc in HR2.
      split_and!; [done.. | by transitivity h1].
Qed.

Lemma list_drain_repr h A hd xs fuel :
  repr h A → A !! hd = Some xs → length xs < fuel →
  ∃ h', list_drain fuel hd h = Some (xs, h') ∧ repr h' (<[hd := []]> A) ∧ same_dom h' h.
Proof.
  revert h A xs. induction fuel as [| fuel IH]; intros h A xs HR HA Hf; [lia |].
  destruct xs as [| x xs]; cbn [list_drain].
  - rewrite (list_detachfirst_nil _ _ _ HR HA). cbn. exists h. by rewrite insert_id.
  - destruct (list_detachfirst_cons _ _ _ _ _ HR HA) as (h1 & Hx & HR1 & Hd1 & _).
    rewrite Hx. cbn. destruct (IH h1 (<[hd := xs]> A) xs) as (h2 & Hr & HR2 & Hd2);
      [done | apply lookup_insert_eq | cbn in Hf; lia |].
    exists h2. rewrite Hr. rewrite insert_insert_eq in HR2. split_and!; [done.. | by transitivity h1].
Qed.

(** The nodes on both sides of a position of a list point to each other. *)
Lemma repr_adjacent h A hd xs ys : repr h A → A !! hd = Some (xs ++ ys) →
  nx h (lastd hd xs) = Some (hdd ys hd) ∧ pv h (hdd ys hd) = Some (lastd hd xs).
Proof.
  intros HR HA. pose proof (repr_chain _ _ HR _ _ HA) as Hc. split.
  - by eapply chain_nx, chain_suffix.
  - by eapply chain_pv, chain_prefix.
Qed.

(** Linking [e] between two adjacent nodes and unlinking it again. *)
Lemma put_in_between_unlink h e l r :
  nx h l = Some r → pv h r = Some l → is_Some (h !! e) → e ≠ l → e ≠ r →
  ∃ h1, list_put_in_between (Some e) (Some l) (Some r) h = Some h1 ∧
    list_unlink (Some e) h1 = Some (<[e := ListT (Some e) (Some e)]> h).
Proof.
  intros Hn Hp He Hl Hr. pose proof (nx_dom _ _ _ Hn) as Hdl. pose proof (pv_dom _ _ _ Hp) as Hdr.
  destruct (put_in_between_fields h e l r) as (h1 & H1 & D1 & N1 & P1); [done.. |].
  exists h1. split; [done |].
  destruct (list_unlink_fields h1 e l r) as (h2 & -> & D2 & N2 & P2);
    [rewrite N1; decide_all | rewrite P1; decide_all | by apply D1 | by apply D1 |].
  f_equal. apply heap_ext.
  - intros x. rewrite D2, D1, lookup_insert. decide_all.
  - intros x. rewrite N2, N1. unfold nx at 2. rewrite lookup_insert. decide_all.
  - intros x. rewrite P2, P1. unfold pv at 2. rewrite lookup_insert. decide_all.
Qed.

End facts.

(** ** Properties of list.h *)

Section properties.
Context {addr : Type} `{Countable addr}.

(** Lists are first-in first-out. Elements that are on no list, appended
    one after the other with [list_append], are given back by repeated
    [list_detachfirst] in that order, behind what the list held before; the
    list then is empty, every other list is as before, and no call follows a
    wild pointer. *)
Theorem list_fifo (h : gmap addr (list_t addr)) A hd xs es :
  repr h A → A !! hd = Some xs → NoDup es →
  (∀ e, e ∈ es → unlinked A e ∧ is_Some (h !! e)) →
  ∃ h1 h2, list_append_all hd es h = Some h1 ∧
    list_drain (S (length (xs ++ es))) hd h1 = Some (xs ++ es, h2) ∧
    repr h2 (<[hd := []]> A).
Proof.
  intros HR HA Hn Hes.
  destruct (list_append_all_repr h A hd xs es HR HA Hn Hes) as (h1 & Ha & HR1 & _).
  destruct (list_drain_repr h1 (<[hd := xs ++ es]> A) hd (xs ++ es) (S (length (xs ++ es))))
    as (h2 & Hd & HR2 & _); [done | apply lookup_insert_eq | lia |].
  exists h1, h2. by rewrite insert_insert_eq in HR2.
Qed.

(** Unlinking undoes insertion exactly. After [list_put_before] of an
    unlinked element at any position of a list, [list_unlink] of that element
    leaves every [list_t] of the memory as it was, the element itself being
    re-initialised to point to itself. *)
Theorem list_insert_unlink (h : gmap addr (list_t addr)) A hd xs ys e :
  repr h A → A !! hd = Some (xs ++ ys) → unlinked A e → is_Some (h !! e) →
  ∃ h1, list_put_before (Some (hdd ys hd)) (Some e) h = Some h1 ∧
    list_unlink (Some e) h1 = Some (<[e := ListT (Some e) (Some e)]> h).
Proof.
  intros HR HA He Hd. destruct (repr_adjacent _ _ _ _ _ HR HA) as [Hn Hp].
  pose proof (He _ _ HA) as Hx.
  unfold list_put_before. rewrite get_prev_pv by (by eapply repr_itr_dom). rewrite Hp. cbn [mbind option_bind].
  apply put_in_between_unlink; [done.. | |]; intros ->; apply Hx; [apply lastd_in_app | apply hdd_in_app].
Qed.

(** [listprio_append] keeps a priority list in descending order of
    priority (the comment in list.h says ascending): it finishes within one
    iteration per element, the result holds the old elements and the new one,
    sorted, and elements of equal priority stay in the order of insertion. *)
Theorem listprio_append_sorted (h : gmap addr (list_t addr)) A prm (pr : addr → Z) hd e xs :
  repr h A → A !! hd = Some xs → unlinked A e → is_Some (h !! e) →
  (∀ x, x ∈ e :: xs → prm !! x = Some (pr x)) →
  StronglySorted (λ x y, (pr y <= pr x)%Z) xs →
  ∃ h' ys, listprio_append (S (length xs)) prm (Some hd) (Some e) h = Some h' ∧
    repr h' (<[hd := ys]> A) ∧
    StronglySorted (λ x y, (pr y <= pr x)%Z) ys ∧ ys ≡ₚ e :: xs ∧
    ∀ p, filter (λ x, pr x = p) ys = filter (λ x, pr x = p) (xs ++ [e]).
Proof.
  intros HR HA He Hd Hpr Hs.
  destruct (listprio_append_repr h A prm pr hd e xs (S (length xs))) as (h' & Ha & HR' & _); auto.
  exists h', (prio_insert pr e xs). split_and!; [done | done | | apply prio_insert_perm |].
  - by apply prio_insert_sorted.
  - intros p. by apply prio_insert_filter.
Qed.
End properties.

(** ** The properties at concrete lists *)

(** Head 0 with the elements 1 and 2; 3 and 4 are unlinked. *)
Definition demo_heap : gmap nat (list_t nat) :=
  list_to_map [(0, ListT (Some 1) (Some 2)); (1, ListT (Some 2) (Some 0));
               (2, ListT (Some 0) (Some 1)); (3, ListT (Some 3) (Some 3));
               (4, ListT (Some 4) (Some 4))].
Definition demo_seqs : list (nat * list nat) := [(0, [1; 2])].

Lemma list_fifo_witness : ∃ h1 h2,
  list_append_all 0 [3; 4] demo_heap = Some h1 ∧
  list_drain 5 0 h1 = Some ([1; 2; 3; 4], h2) ∧ repr h2 (<[0 := []]> (list_to_map demo_seqs)).
Proof.
  apply (list_fifo demo_heap (list_to_map demo_seqs) 0 [1; 2] [3; 4]).
  - by apply repr_b_ok.
  - done.
  - apply (bool_decide_unpack _). done.
  - intros e He. split; [apply unlinked_b |]; repeat (apply elem_of_cons in He as [-> | He]; [by eauto |]);
      by apply not_elem_of_nil in He.
Defined.

Lemma list_insert_unlink_witness : ∃ h1,
  list_put_before (Some 2) (Some 3) demo_heap = Some h1 ∧
  list_unlink (Some 3) h1 = Some (<[3 := ListT (Some 3) (Some 3)]> demo_heap).
Proof.
  apply (list_insert_unlink demo_heap (list_to_map demo_seqs) 0 [1] [2] 3).
  - by apply repr_b_ok.
  - done.
  - by apply unlinked_b.
  - by eauto.
Defined.

(** Priorities 7, 3 and, for the new element, 3: it goes last. *)
Lemma listprio_append_sorted_witness :
  let pr x := match x with 1 => 7%Z | _ => 3%Z end in
  ∃ h' ys, listprio_append 3 (list_to_map [(1, 7%Z); (2, 3%Z); (3, 3%Z)]) (Some 0) (Some 3) demo_heap = Some h' ∧
    repr h' (<[0 := ys]> (list_to_map demo_seqs)) ∧
    StronglySorted (λ x y, (pr y <= pr x)%Z) ys ∧ ys ≡ₚ [3; 1; 2] ∧
    ∀ p, filter (λ x, pr x = p) ys = filter (λ x, pr x = p) [1; 2; 3].
Proof.
  intros pr.
  apply (listprio_append_sorted demo_heap (list_to_map demo_seqs) _ pr 0 3 [1; 2]).
  - by apply repr_b_ok.
  - done.
  - by apply unlinked_b.
  - by eauto.
  - intros x Hx. repeat (apply elem_of_cons in Hx as [-> | Hx]; [done |]). by apply not_elem_of_nil in Hx.
  - repeat constructor. done.
Defined.
