(* ===== verification/Kernel.v ===== *)
(** * Kernel data, kernel state and the monad of kernel code

    The types of os_sched.h, os_sem.h, os_mtx.h, os_waitqueue.h and os_timer.h,
    the global variables of os_sched.c, os_timer.c and os_waitqueue.c as one
    record, and the monad [K] in which the C functions are written: state
    passing, with the outcomes of C code that can halt ([OS_ASSERT]), go wrong
    (NULL dereference) or hand the CPU to another task in the middle of a
    function ([arch_context_switch]). *)

From stdpp Require Import base decidable list countable gmap.
From Stdlib Require Import ZArith Lia.
From S2P Require Import Prelude Arch LinkedList.

Local Open Scope Z_scope.

(** ** Object identities (addresses of the C objects) *)

(** Task control blocks. *)
Abbreviation tid := nat (only parsing).
(** The TCB [task_idle]. *)
Definition task_idle : tid := 0%nat.
(** Mutexes and wait queues, allocated by the user. *)
Abbreviation mid := nat (only parsing).
Abbreviation wqid := nat (only parsing).
(** Semaphores: the user's, and the [join_sem] on the stack of a joining task. *)
Inductive semid := SemUser (n : nat) | SemJoin (t : tid).
(** Timers: the user's, and the [timer] on the stack of a blocked task. *)
Inductive tmid := TmUser (n : nat) | TmBlock (t : tid).
(** Task queues: the ready queue and the [task_queue] members. *)
Inductive qid := Q_ready | Q_sem (s : semid) | Q_mtx (m : mid) | Q_wq (w : wqid).
(** Every [list_t] of the kernel. *)
Inductive laddr :=
| L_task (t : tid)                  (** [task->list] *)
| L_mtx_list (t : tid)              (** [task->mtx_list] *)
| L_mtx (m : mid)                   (** [mtx->listh] *)
| L_bucket (q : qid) (p : Z)        (** [task_queue->tasks[p]] *)
| L_timer (x : tmid)                (** [timer->list] *)
| L_timer_list                      (** [timer_list] of os_timer.c *)
| L_autoreload.                     (** [list_autoreload] of [timer_trigger] *)

#[export] Instance semid_eq : EqDecision semid.
Proof. solve_decision. Defined.
#[export] Instance tmid_eq : EqDecision tmid.
Proof. solve_decision. Defined.
#[export] Instance qid_eq : EqDecision qid.
Proof. solve_decision. Defined.
#[export] Instance laddr_eq : EqDecision laddr.
Proof. solve_decision. Defined.

#[export] Instance semid_countable : Countable semid.
Proof.
  refine (inj_countable' (λ x, match x with SemUser n => inl n | SemJoin t => inr t end)
    (λ y, match y with inl n => SemUser n | inr t => SemJoin t end) _).
  by intros [].
Defined.
#[export] Instance tmid_countable : Countable tmid.
Proof.
  refine (inj_countable' (λ x, match x with TmUser n => inl n | TmBlock t => inr t end)
    (λ y, match y with inl n => TmUser n | inr t => TmBlock t end) _).
  by intros [].
Defined.
#[export] Instance qid_countable : Countable qid.
Proof.
  refine (inj_countable'
    (λ x, match x with Q_ready => inl (inl tt) | Q_sem s => inl (inr s)
                     | Q_mtx m => inr (inl m) | Q_wq w => inr (inr w) end)
    (λ y, match y with inl (inl _) => Q_ready | inl (inr s) => Q_sem s
                     | inr (inl m) => Q_mtx m | inr (inr w) => Q_wq w end) _).
  by intros [].
Defined.
#[export] Instance laddr_countable : Countable laddr.
Proof.
  refine (inj_countable'
    (λ x, match x with
          | L_task t => inl (inl (inl t)) | L_mtx_list t => inl (inl (inr t))
          | L_mtx m => inl (inr (inl m)) | L_bucket q p => inl (inr (inr (q, p)))
          | L_timer x => inr (inl x) | L_timer_list => inr (inr true)
          | L_autoreload => inr (inr false) end)
    (λ y, match y with
          | inl (inl (inl t)) => L_task t | inl (inl (inr t)) => L_mtx_list t
          | inl (inr (inl m)) => L_mtx m | inl (inr (inr (q, p))) => L_bucket q p
          | inr (inl x) => L_timer x | inr (inr true) => L_timer_list
          | inr (inr false) => L_autoreload end) _).
  by intros [].
Defined.

(** ** Data types *)

(** [OS_CONFIG_PRIOCNT] *)
Definition OS_CONFIG_PRIOCNT : Z := 5.

(** [os_taskstate_t]; the code compares states by their numeric order. *)
Inductive os_taskstate_t :=
| TASKSTATE_RUNNING | TASKSTATE_READY | TASKSTATE_WAIT | TASKSTATE_DESTROYED | TASKSTATE_INVALID.
Definition taskstate_val (x : os_taskstate_t) : Z :=
  match x with TASKSTATE_RUNNING => 0 | TASKSTATE_READY => 1 | TASKSTATE_WAIT => 2
             | TASKSTATE_DESTROYED => 3 | TASKSTATE_INVALID => 4 end.

(** [os_taskblock_t] *)
Inductive os_taskblock_t :=
| OS_TASKBLOCK_INVALID | OS_TASKBLOCK_SEM | OS_TASKBLOCK_MTX | OS_TASKBLOCK_WAITQUEUE.

(** [os_retcode_t], as the integers of the C enumeration: [ret_value] and
    [block_code] of the TCB share one memory cell. *)
Definition OS_OK : Z := 0.
Definition OS_WOULDBLOCK : Z := 1.
Definition OS_TIMEOUT : Z := 2.
Definition OS_DESTROYED : Z := 3.
Definition OS_INVALID : Z := 4.

#[export] Instance taskstate_eq : EqDecision os_taskstate_t.
Proof. solve_decision. Defined.
#[export] Instance taskblock_eq : EqDecision os_taskblock_t.
Proof. solve_decision. Defined.

(** [os_task_t]; the embedded [list_t] members live in the memory of lists. *)
Record os_task_t := Task {
  prio_base : Z;
  prio_current : Z;
  state : os_taskstate_t;
  task_queue : option qid;
  block_type : os_taskblock_t;
  timer : option tmid;
  join_sem : option semid;
  ret_value : Z;                    (** union of [ret_value] and [block_code] *)
  stack_end : Z;
  stack_size : Z
}.

(** A zeroed TCB ([memset(task, 0, sizeof(os_task_t))]). *)
Definition task_zero : os_task_t :=
  Task 0 0 TASKSTATE_RUNNING None OS_TASKBLOCK_INVALID None None 0 0 0.

(** [os_mtx_t] *)
Record os_mtx_t := Mtx { owner : option tid; recur : Z }.

(** Timer callbacks: the two callbacks of the kernel and the user's. *)
Inductive timer_proc_t :=
| P_null | P_os_sem_timerclbck | P_os_waitqueue_timerclbck | P_user (n : nat).
Inductive timer_param_t := Param_null | Param_task (t : tid) | Param_user (n : Z).

(** [os_timer_t] *)
Record os_timer_t := Timer {
  ticks_rem : Z;
  ticks_reload : Z;
  clbck : timer_proc_t;
  param : timer_param_t;
  magic : Z
}.
Definition timer_zero : os_timer_t := Timer 0 0 P_null Param_null 0.

(** The memory of the kernel objects and the global variables. *)
Record kstate := Kstate {
  links : gmap laddr (list_t laddr);        (** every [list_t] *)
  masks : gmap qid Z;                       (** [task_queue->mask] *)
  tasks : gmap tid os_task_t;
  sems : gmap semid Z;                      (** [sem->value] *)
  mtxs : gmap mid os_mtx_t;
  timers : gmap tmid os_timer_t;
  task_current : option tid;
  isr_nesting : Z;
  sched_lock : Z;
  waitqueue_current : option wqid;
  ticks_cnt : Z;
  timer_tick_unsynch : Z;
  dint : bool;                              (** interrupts are disabled *)
  stacks : gmap Z Z                         (** the bytes of the task stacks *)
}.

Definition set_links x s := Kstate x (masks s) (tasks s) (sems s) (mtxs s) (timers s)
  (task_current s) (isr_nesting s) (sched_lock s) (waitqueue_current s) (ticks_cnt s)
  (timer_tick_unsynch s) (dint s) (stacks s).
Definition set_masks x s := Kstate (links s) x (tasks s) (sems s) (mtxs s) (timers s)
  (task_current s) (isr_nesting s) (sched_lock s) (waitqueue_current s) (ticks_cnt s)
  (timer_tick_unsynch s) (dint s) (stacks s).
Definition set_tasks x s := Kstate (links s) (masks s) x (sems s) (mtxs s) (timers s)
  (task_current s) (isr_nesting s) (sched_lock s) (waitqueue_current s) (ticks_cnt s)
  (timer_tick_unsynch s) (dint s) (stacks s).
Definition set_sems x s := Kstate (links s) (masks s) (tasks s) x (mtxs s) (timers s)
  (task_current s) (isr_nesting s) (sched_lock s) (waitqueue_current s) (ticks_cnt s)
  (timer_tick_unsynch s) (dint s) (stacks s).
Definition set_mtxs x s := Kstate (links s) (masks s) (tasks s) (sems s) x (timers s)
  (task_current s) (isr_nesting s) (sched_lock s) (waitqueue_current s) (ticks_cnt s)
  (timer_tick_unsynch s) (dint s) (stacks s).
Definition set_timers x s := Kstate (links s) (masks s) (tasks s) (sems s) (mtxs s) x
  (task_current s) (isr_nesting s) (sched_lock s) (waitqueue_current s) (ticks_cnt s)
  (timer_tick_unsynch s) (dint s) (stacks s).
Definition set_task_current x s := Kstate (links s) (masks s) (tasks s) (sems s) (mtxs s)
  (timers s) x (isr_nesting s) (sched_lock s) (waitqueue_current s) (ticks_cnt s)
  (timer_tick_unsynch s) (dint s) (stacks s).
Definition set_isr_nesting x s := Kstate (links s) (masks s) (tasks s) (sems s) (mtxs s)
  (timers s) (task_current s) x (sched_lock s) (waitqueue_current s) (ticks_cnt s)
  (timer_tick_unsynch s) (dint s) (stacks s).
Definition set_sched_lock x s := Kstate (links s) (masks s) (tasks s) (sems s) (mtxs s)
  (timers s) (task_current s) (isr_nesting s) x (waitqueue_current s) (ticks_cnt s)
  (timer_tick_unsynch s) (dint s) (stacks s).
Definition set_waitqueue_current x s := Kstate (links s) (masks s) (tasks s) (sems s) (mtxs s)
  (timers s) (task_current s) (isr_nesting s) (sched_lock s) x (ticks_cnt s)
  (timer_tick_unsynch s) (dint s) (stacks s).
Definition set_ticks_cnt x s := Kstate (links s) (masks s) (tasks s) (sems s) (mtxs s)
  (timers s) (task_current s) (isr_nesting s) (sched_lock s) (waitqueue_current s) x
  (timer_tick_unsynch s) (dint s) (stacks s).
Definition set_unsynch x s := Kstate (links s) (masks s) (tasks s) (sems s) (mtxs s)
  (timers s) (task_current s) (isr_nesting s) (sched_lock s) (waitqueue_current s)
  (ticks_cnt s) x (dint s) (stacks s).
Definition set_dint x s := Kstate (links s) (masks s) (tasks s) (sems s) (mtxs s) (timers s)
  (task_current s) (isr_nesting s) (sched_lock s) (waitqueue_current s) (ticks_cnt s)
  (timer_tick_unsynch s) x (stacks s).
Definition set_stacks x s := Kstate (links s) (masks s) (tasks s) (sems s) (mtxs s) (timers s)
  (task_current s) (isr_nesting s) (sched_lock s) (waitqueue_current s) (ticks_cnt s)
  (timer_tick_unsynch s) (dint s) x.

(** Field updates of a TCB. *)
Definition set_prio_current x t := Task (prio_base t) x (state t) (task_queue t)
  (block_type t) (timer t) (join_sem t) (ret_value t) (stack_end t) (stack_size t).
Definition set_state x t := Task (prio_base t) (prio_current t) x (task_queue t)
  (block_type t) (timer t) (join_sem t) (ret_value t) (stack_end t) (stack_size t).
Definition set_task_queue x t := Task (prio_base t) (prio_current t) (state t) x
  (block_type t) (timer t) (join_sem t) (ret_value t) (stack_end t) (stack_size t).
Definition set_block_type x t := Task (prio_base t) (prio_current t) (state t) (task_queue t)
  x (timer t) (join_sem t) (ret_value t) (stack_end t) (stack_size t).
Definition set_timer x t := Task (prio_base t) (prio_current t) (state t) (task_queue t)
  (block_type t) x (join_sem t) (ret_value t) (stack_end t) (stack_size t).
Definition set_join_sem x t := Task (prio_base t) (prio_current t) (state t) (task_queue t)
  (block_type t) (timer t) x (ret_value t) (stack_end t) (stack_size t).
Definition set_ret_value x t := Task (prio_base t) (prio_current t) (state t) (task_queue t)
  (block_type t) (timer t) (join_sem t) x (stack_end t) (stack_size t).
Definition set_stack e n t := Task (prio_base t) (prio_current t) (state t) (task_queue t)
  (block_type t) (timer t) (join_sem t) (ret_value t) e n.
(** [task->block_code = x]: the same cell as [ret_value]. *)
Definition set_block_code := set_ret_value.
Definition block_code := ret_value.

(** The state after static initialisation, before [os_init()]: the static
    objects [ready_queue] and [timer_list] are zeroed memory. *)
Definition kstate_reset : kstate :=
  Kstate
    (list_to_map ((λ a, (a, ListT None None)) <$>
      L_timer_list :: (L_bucket Q_ready <$> seqZ 0 OS_CONFIG_PRIOCNT)))
    {[Q_ready := 0]} ∅ ∅ ∅ ∅ None 0 0 None 0 0 false ∅.

(** ** The monad of kernel code *)

(** Outcome of running kernel code from a state. *)
Inductive res (A : Type) : Type :=
| Done (a : A) (s : kstate)         (** the code returned [a] *)
| Halted (s : kstate)               (** the code called [os_halt()] *)
| Undef                             (** the code dereferenced NULL or a wild pointer *)
| NoFuel                            (** a loop did not finish within its fuel *)
| Switch (me : tid) (s : kstate) (k : kstate → res A).
    (** task [me] saved its context in [arch_context_switch]; [s] is the state
        in which [task_current] goes on, [k] runs when [me] is switched to again *)
Arguments Done {A}. Arguments Halted {A}. Arguments Undef {A}. Arguments NoFuel {A}.
Arguments Switch {A}.

Fixpoint res_bind {A B} (r : res A) (f : A → kstate → res B) : res B :=
  match r with
  | Done a s => f a s
  | Halted s => Halted s
  | Undef => Undef
  | NoFuel => NoFuel
  | Switch me s k => Switch me s (λ s', res_bind (k s') f)
  end.

Definition K (A : Type) : Type := kstate → res A.
#[export] Instance K_ret : MRet K := λ A a s, Done a s.
#[export] Instance K_bind : MBind K := λ A B f m s, res_bind (m s) f.

Definition undefined {A} : K A := λ _, Undef.
Definition nofuel {A} : K A := λ _, NoFuel.
Definition gets {A} (f : kstate → A) : K A := λ s, Done (f s) s.
Definition modify (f : kstate → kstate) : K unit := λ s, Done tt (f s).
Definition when (b : bool) (m : K unit) : K unit := if b then m else mret tt.

(** Using a pointer that may be NULL. *)
Definition deref {A} (p : option A) : K A :=
  match p with Some a => mret a | None => undefined end.

(** Reading and writing the memory of lists with the functions of list.h. *)
Definition read_links {A} (f : gmap laddr (list_t laddr) → option A) : K A := λ s,
  match f (links s) with Some a => Done a s | None => Undef end.
Definition on_links (f : gmap laddr (list_t laddr) → option (gmap laddr (list_t laddr))) : K unit :=
  λ s, match f (links s) with Some h => Done tt (set_links h s) | None => Undef end.
Definition on_links_ret {A}
    (f : gmap laddr (list_t laddr) → option (A * gmap laddr (list_t laddr))) : K A := λ s,
  match f (links s) with Some (a, h) => Done a (set_links h s) | None => Undef end.

Definition get_task (t : tid) : K os_task_t := λ s,
  match tasks s !! t with Some x => Done x s | None => Undef end.
Definition mod_task (t : tid) (f : os_task_t → os_task_t) : K unit := λ s,
  match tasks s !! t with
  | Some x => Done tt (set_tasks (<[t := f x]> (tasks s)) s)
  | None => Undef
  end.
Definition get_mask (q : qid) : K Z := λ s,
  match masks s !! q with Some m => Done m s | None => Undef end.
Definition mod_mask (q : qid) (f : Z → Z) : K unit := λ s,
  match masks s !! q with
  | Some m => Done tt (set_masks (<[q := f m]> (masks s)) s)
  | None => Undef
  end.
Definition get_sem (x : semid) : K Z := λ s,
  match sems s !! x with Some v => Done v s | None => Undef end.
Definition put_sem (x : semid) (v : Z) : K unit := modify (λ s, set_sems (<[x := v]> (sems s)) s).
Definition get_mtx (m : mid) : K os_mtx_t := λ s,
  match mtxs s !! m with Some v => Done v s | None => Undef end.
Definition put_mtx (m : mid) (v : os_mtx_t) : K unit := modify (λ s, set_mtxs (<[m := v]> (mtxs s)) s).
(** Timer objects are static memory, zero before they are written. *)
Definition get_timer (x : tmid) : K os_timer_t := gets (λ s, default timer_zero (timers s !! x)).
Definition put_timer (x : tmid) (v : os_timer_t) : K unit :=
  modify (λ s, set_timers (<[x := v]> (timers s)) s).
(** A local [os_timer_t] is whatever the stack held; [junk] is the value of its
    [magic], the one member that is read before it is written. *)
Definition local_timer (x : tmid) (junk : Z) : K unit :=
  tm ← get_timer x;
  put_timer x (Timer (ticks_rem tm) (ticks_reload tm) (clbck tm) (param tm) junk).
Definition byte_at (s : kstate) (a : Z) : Z := default 0 (stacks s !! a).
(** [task_current->...] *)
Definition current : K tid := c ← gets task_current; deref c.

(** Storing zeros over [list_t] members ([memset]). *)
Definition null_links (xs : list laddr) : K unit :=
  modify (λ s, set_links (foldr (λ x h, <[x := ListT None None]> h) (links s) xs) s).

(** ** Interrupts, assertions and the context switch *)

Definition arch_dint : K unit := modify (set_dint true).
Definition arch_eint : K unit := modify (set_dint false).
Definition arch_is_dint : K bool := gets dint.
Definition arch_critical_enter : K bool := cristate ← gets dint; arch_dint;; mret cristate.
Definition arch_critical_exit (cristate : bool) : K unit := modify (set_dint cristate).

(** [os_halt()]: interrupts disabled, scheduler locked, [arch_halt()]. *)
Definition os_halt {A} : K A := λ s, Halted (set_sched_lock 1 (set_dint true s)).

(** [OS_ASSERT] with [OS_CONFIG_APICHECK], [OS_SELFCHECK_ASSERT] with
    [OS_CONFIG_SELFCHECKING] *)
Definition OS_ASSERT (cond : bool) : K unit := if cond then mret tt else os_halt.
Definition OS_SELFCHECK_ASSERT (cond : bool) : K unit := OS_ASSERT cond.

(** [arch_context_switch]: saves the context of [task_current], assigns
    [task_current = new_task] and restores the context of the new task. The
    rest of the calling function runs when the old task is restored. *)
Definition switch_context (me new : tid) : K unit := λ s,
  Switch me (set_task_current (Some new) s) (λ s', Done tt s').
Definition arch_context_switch (new_task : option tid) : K unit :=
  me ← current;
  new ← deref new_task;
  switch_context me new.

(** ** Reasoning about outcomes *)

(** [holds r Q G R]: code with outcome [r] never goes wrong nor runs out of
    fuel; it may stop in [os_halt]; it leaves the CPU only in states satisfying
    the guarantee [G] and, resumed in any state satisfying the rely [R], goes
    on likewise; if it returns, [Q] holds. *)
Fixpoint holds {A} (r : res A) (Q : A → kstate → Prop) (G R : tid → kstate → Prop) : Prop :=
  match r with
  | Done a s => Q a s
  | Halted _ => True
  | Undef => False
  | NoFuel => False
  | Switch me s k => G me s ∧ ∀ s', R me s' → holds (k s') Q G R
  end.

(** The code does not reach [os_halt] either, up to its first context switch. *)
Definition proceeds {A} (r : res A) : Prop :=
  match r with Done _ _ | Switch _ _ _ => True | _ => False end.

Lemma holds_bind {A B} (r : res A) (f : A → kstate → res B) Q' Q G R :
  holds r Q' G R → (∀ a s, Q' a s → holds (f a s) Q G R) → holds (res_bind r f) Q G R.
Proof.
  intros Hr Hf. induction r; cbn in *; auto. destruct Hr as [HG Hk]. split; auto.
Qed.

Lemma holds_mono {A} (r : res A) (Q Q' : A → kstate → Prop) G R :
  holds r Q G R → (∀ a s, Q a s → Q' a s) → holds r Q' G R.
Proof.
  intros Hr HQ. induction r; cbn in *; auto. destruct Hr as [HG Hk]. split; auto.
Qed.

Lemma bind_Done {A B} (m : K A) (f : A → K B) s a s' :
  m s = Done a s' → (m ≫= f) s = f a s'.
Proof. unfold mbind, K_bind. by intros ->. Qed.

Lemma bind_Done_inv {A B} (m : K A) (f : A → K B) s b s' :
  (m ≫= f) s = Done b s' → ∃ a s1, m s = Done a s1 ∧ f a s1 = Done b s'.
Proof. unfold mbind, K_bind. destruct (m s) as [a s1 | | | |]; cbn; try done. eauto. Qed.

Lemma bind_Switch {A B} (m : K A) (f : A → K B) s me s' k :
  m s = Switch me s' k → (m ≫= f) s = Switch me s' ((k : K A) ≫= f).
Proof. unfold mbind, K_bind. by intros ->. Qed.

Lemma bind_rewrite {A B} (m m' : K A) (f : A → K B) s s' :
  m s = m' s' → (m ≫= f) s = (m' ≫= f) s'.
Proof. unfold mbind, K_bind. by intros ->. Qed.

Lemma bind_Halted {A B} (m : K A) (f : A → K B) s s' :
  m s = Halted s' → (m ≫= f) s = Halted s'.
Proof. unfold mbind, K_bind. by intros ->. Qed.

Lemma get_task_Some t tk s : tasks s !! t = Some tk → get_task t s = Done tk s.
Proof. unfold get_task. by intros ->. Qed.
Lemma mod_task_Some t f tk s : tasks s !! t = Some tk →
  mod_task t f s = Done tt (set_tasks (<[t := f tk]> (tasks s)) s).
Proof. unfold mod_task. by intros ->. Qed.
Lemma get_mask_Some q m s : masks s !! q = Some m → get_mask q s = Done m s.
Proof. unfold get_mask. by intros ->. Qed.
Lemma mod_mask_Some q f m s : masks s !! q = Some m →
  mod_mask q f s = Done tt (set_masks (<[q := f m]> (masks s)) s).
Proof. unfold mod_mask. by intros ->. Qed.
Lemma get_sem_Some x v s : sems s !! x = Some v → get_sem x s = Done v s.
Proof. unfold get_sem. by intros ->. Qed.
Lemma get_mtx_Some m v s : mtxs s !! m = Some v → get_mtx m s = Done v s.
Proof. unfold get_mtx. by intros ->. Qed.
Lemma read_links_Some {A} (f : _ → option A) a s : f (links s) = Some a → read_links f s = Done a s.
Proof. unfold read_links. by intros ->. Qed.
Lemma on_links_Some f h s : f (links s) = Some h → on_links f s = Done tt (set_links h s).
Proof. unfold on_links. by intros ->. Qed.
Lemma on_links_ret_Some {A} (f : _ → option (A * _)) a h s :
  f (links s) = Some (a, h) → on_links_ret f s = Done a (set_links h s).
Proof. unfold on_links_ret. by intros ->. Qed.
Lemma current_Some t s : task_current s = Some t → current s = Done t s.
Proof. unfold current, mbind, K_bind, gets. cbn. by intros ->. Qed.
