(* ===== verification/TaskQueue.v ===== *)
(** * Task queues (source/os_sched.c)

    [os_taskqueue_t]: one bucket (list) of tasks per priority and a bit mask of
    the non-empty buckets. The operations are those of os_sched.c; the
    invariant [queues_ok] ties buckets, mask and the [task_queue]/[prio_current]
    members of the TCBs together, relative to the sequences [A] represented by
    the memory of lists. *)

From stdpp Require Import base decidable list countable gmap.
From Stdlib Require Import ZArith Lia.
From S2P Require Import Prelude Arch LinkedList Kernel.

Local Open Scope Z_scope.

Section taskqueue.
Context {AP : ArchPort}.

(** [os_container_of(ptr, os_task_t, list)] of a [list_t] inside a TCB; for NULL
    or a list head the result is a wild pointer, and using it is undefined. *)
Definition task_of_link (p : option laddr) : K tid :=
  match p with Some (L_task t) => mret t | _ => undefined end.

Definition os_taskqueue_enqueue (q : qid) (t : tid) : K unit :=
  task ← get_task t;
  on_links (list_append (Some (L_bucket q (prio_current task))) (Some (L_task t)));;
  mod_task t (set_task_queue (Some q));;
  mod_mask q (λ mask, arch_bitmask_set mask (prio_current task)).

Definition os_taskqueue_unlink (t : tid) : K unit :=
  on_links (list_unlink (Some (L_task t)));;
  task ← get_task t;
  q ← deref (task_queue task);
  empty ← read_links (list_is_empty (Some (L_bucket q (prio_current task))));
  when empty (mod_mask q (λ mask, arch_bitmask_clear mask (prio_current task)));;
  mod_task t (set_task_queue None).

Definition os_taskqueue_reprio (t : tid) (new_prio : Z) : K unit :=
  task ← get_task t;
  when (negb (prio_current task =? new_prio))
    (match task_queue task with Some _ => os_taskqueue_unlink t | None => mret tt end;;
     mod_task t (set_prio_current new_prio);;
     match task_queue task with Some q => os_taskqueue_enqueue q t | None => mret tt end).

Definition os_taskqueue_intdequeue (q : qid) (maxprio : Z) : K (option tid) :=
  link ← on_links_ret (list_detachfirst (Some (L_bucket q maxprio)));
  t ← task_of_link link;
  empty ← read_links (list_is_empty (Some (L_bucket q maxprio)));
  when empty (mod_mask q (λ mask, arch_bitmask_clear mask maxprio));;
  mod_task t (set_task_queue None);;
  mret (Some t).

Definition os_taskqueue_dequeue (q : qid) : K (option tid) :=
  mask ← get_mask q;
  let maxprio := arch_bitmask_fls mask in
  if maxprio =? 0 then mret None else
  os_taskqueue_intdequeue q (maxprio - 1).

Definition os_taskqueue_dequeue_prio (q : qid) (prio : Z) : K (option tid) :=
  mask ← get_mask q;
  let maxprio := arch_bitmask_fls mask in
  if maxprio =? 0 then mret None else
  if (maxprio - 1) <? prio then mret None else
  os_taskqueue_intdequeue q (maxprio - 1).

Definition os_taskqueue_peek (q : qid) : K (option tid) :=
  mask ← get_mask q;
  let maxprio := arch_bitmask_fls mask in
  if maxprio =? 0 then mret None else
  link ← read_links (list_peekfirst (Some (L_bucket q (maxprio - 1))));
  t ← task_of_link link;
  mret (Some t).

(** [for (i = 0; i < os_element_cnt(task_queue->tasks); i++) list_init(...)] *)
Definition os_taskqueue_init_from (q : qid) (prios : list Z) : K unit :=
  foldr (λ i k, on_links (list_init (Some (L_bucket q i)));; k) (mret tt) prios.
Definition os_taskqueue_init (q : qid) : K unit :=
  os_taskqueue_init_from q (seqZ 0 OS_CONFIG_PRIOCNT);;
  modify (λ s, set_masks (<[q := 0]> (masks s)) s).

(** The part of [memset(obj, 0, sizeof *obj)] that covers [obj->task_queue]. *)
Definition taskqueue_memset (q : qid) : K unit :=
  null_links (L_bucket q <$> seqZ 0 OS_CONFIG_PRIOCNT);;
  modify (λ s, set_masks (<[q := 0]> (masks s)) s).

(** ** Invariant *)

(** [q] is initialised: all its buckets are list heads. *)
Definition live (A : gmap laddr (list laddr)) (q : qid) : Prop :=
  ∀ p, 0 ≤ p < OS_CONFIG_PRIOCNT → is_Some (A !! L_bucket q p).

(** The tasks of bucket [p] of queue [q], first to last. *)
Definition task_of (x : laddr) : option tid :=
  match x with L_task t => Some t | _ => None end.
Definition qtasks (A : gmap laddr (list laddr)) (q : qid) (p : Z) : list tid :=
  omap task_of (default [] (A !! L_bucket q p)).

(** [A] with the tasks [ts] in bucket [p] of [q]. *)
Definition set_bucket (A : gmap laddr (list laddr)) (q : qid) (p : Z) (ts : list tid) :=
  <[L_bucket q p := L_task <$> ts]> A.

(** [s'] differs from [s] by the TCB of [t] and by list and mask contents. *)
Definition queue_step (s : kstate) (t : tid) (tk' : os_task_t) (s' : kstate) : Prop :=
  ∃ h mk, s' = set_masks mk (set_tasks (<[t := tk']> (tasks s)) (set_links h s)) ∧
    same_dom h (links s).

Record queues_ok (A : gmap laddr (list laddr)) (s : kstate) : Prop := {
  qo_repr : repr (links s) A;
  qo_bucket : ∀ q p xs, A !! L_bucket q p = Some xs →
    0 ≤ p < OS_CONFIG_PRIOCNT ∧ live A q ∧ is_Some (masks s !! q) ∧ xs = L_task <$> qtasks A q p;
  qo_member : ∀ q p t, t ∈ qtasks A q p →
    ∃ tk, tasks s !! t = Some tk ∧ task_queue tk = Some q ∧ prio_current tk = p;
  qo_mask : ∀ q m, masks s !! q = Some m → live A q →
    0 ≤ m < 256 ∧ ∀ i, 0 ≤ i < 8 → Z.testbit m i = true ↔ qtasks A q i ≠ [];
  qo_task : ∀ t tk, tasks s !! t = Some tk → is_Some (links s !! L_task t) ∧
    match task_queue tk with
    | None => unlinked A (L_task t)
    | Some q => t ∈ qtasks A q (prio_current tk)
    end
}.

(** ** Specification: a queue as one sequence of tasks per priority *)

Abbreviation pqueue := (Z → list tid).
Definition pq_enqueue (f : pqueue) (p : Z) (t : tid) : pqueue :=
  λ i, if decide (i = p) then f i ++ [t] else f i.
Definition pq_remove (f : pqueue) (p : Z) (t : tid) : pqueue :=
  λ i, if decide (i = p) then filter (.≠ t) (f i) else f i.
(** [t] is the first task of the highest non-empty priority [p]. *)
Definition pq_top (f : pqueue) (p : Z) (t : tid) : Prop :=
  head (f p) = Some t ∧ ∀ i, p < i → f i = [].
Definition pq_empty (f : pqueue) : Prop := ∀ i, f i = [].

End taskqueue.

(** ** Sequences of tasks *)

Section facts.
Implicit Types (A : gmap laddr (list laddr)) (s : kstate) (q : qid) (t : tid) (tk : os_task_t).

#[export] Instance L_task_inj : Inj (=) (=) L_task.
Proof. by intros ? ? [=]. Qed.

Lemma omap_task_of (ts : list tid) : omap task_of (L_task <$> ts) = ts.
Proof. induction ts; cbn; [done | by f_equal]. Qed.

Lemma elem_of_L_task t (ts : list tid) : L_task t ∈ (L_task <$> ts) ↔ t ∈ ts.
Proof. by rewrite (list_elem_of_fmap_inj L_task). Qed.

Lemma qtasks_insert A q p ts q' p' :
  qtasks (<[L_bucket q p := L_task <$> ts]> A) q' p' =
  if decide (q' = q ∧ p' = p) then ts else qtasks A q' p'.
Proof.
  unfold qtasks. rewrite lookup_insert.
  destruct (decide (L_bucket q p = L_bucket q' p')) as [[= <- <-] | Hne].
  - rewrite decide_True by done. apply omap_task_of.
  - rewrite decide_False; [done |]. by intros [-> ->].
Qed.

Lemma qtasks_insert_other A hd xs q p : (∀ q' p', hd ≠ L_bucket q' p') →
  qtasks (<[hd := xs]> A) q p = qtasks A q p.
Proof. intros Hhd. unfold qtasks. rewrite lookup_insert_ne by apply Hhd. done. Qed.

Lemma qtasks_delete_other A hd q p : (∀ q' p', hd ≠ L_bucket q' p') →
  qtasks (delete hd A) q p = qtasks A q p.
Proof. intros Hhd. unfold qtasks. rewrite lookup_delete_ne by apply Hhd. done. Qed.

Lemma live_insert A hd xs q : live A q → live (<[hd := xs]> A) q.
Proof. intros Hl p Hp. rewrite lookup_insert. case_decide; eauto. Qed.

Lemma live_insert_inv A hd xs q : live (<[hd := xs]> A) q → is_Some (A !! hd) → live A q.
Proof.
  intros Hl Hhd p Hp. specialize (Hl p Hp). revert Hl. rewrite lookup_insert. case_decide; naive_solver.
Qed.

Lemma unlinked_insert A hd xs x :
  x ∉ hd :: xs → unlinked A x → unlinked (<[hd := xs]> A) x.
Proof. intros Hx HA hd' xs'. rewrite lookup_insert. case_decide; [intros [= <-]; by subst | apply HA]. Qed.

Context (A : gmap laddr (list laddr)) (s : kstate).
Context (HQ : queues_ok A s).

Lemma bucket_lookup q p : live A q → 0 ≤ p < OS_CONFIG_PRIOCNT →
  A !! L_bucket q p = Some (L_task <$> qtasks A q p).
Proof.
  intros Hl Hp. destruct (Hl p Hp) as [xs Hxs]. rewrite Hxs. f_equal. by apply (qo_bucket _ _ HQ) in Hxs as (_ & _ & _ & ?).
Qed.

Lemma qtasks_live q p t : t ∈ qtasks A q p →
  live A q ∧ 0 ≤ p < OS_CONFIG_PRIOCNT ∧ A !! L_bucket q p = Some (L_task <$> qtasks A q p).
Proof.
  intros Ht. unfold qtasks in Ht. destruct (A !! L_bucket q p) as [xs |] eqn:E; [| by apply elem_of_nil in Ht].
  pose proof (qo_bucket _ _ HQ _ _ _ E) as (? & ? & ? & ?). naive_solver.
Qed.

Lemma qtasks_range q p : qtasks A q p ≠ [] → live A q ∧ 0 ≤ p < OS_CONFIG_PRIOCNT.
Proof.
  intros Hne. destruct (qtasks A q p) as [| t ts] eqn:E; [done |].
  assert (t ∈ qtasks A q p) as Ht by (rewrite E; apply list_elem_of_here).
  by apply qtasks_live in Ht as (? & ? & _).
Qed.

Lemma qtasks_NoDup q p : NoDup (qtasks A q p).
Proof.
  unfold qtasks. destruct (A !! L_bucket q p) as [xs |] eqn:E; [| apply NoDup_nil_2].
  pose proof (qo_bucket _ _ HQ _ _ _ E) as (_ & _ & _ & Hxs).
  pose proof (repr_nodup _ _ (qo_repr _ _ HQ) _ _ E) as [_ Hnd]%NoDup_cons. cbn.
  rewrite Hxs in Hnd. rewrite Hxs, omap_task_of. by apply NoDup_fmap in Hnd; [| apply _].
Qed.

Lemma live_mask q : live A q → ∃ m, masks s !! q = Some m ∧ 0 ≤ m < 256 ∧
  ∀ i, 0 ≤ i < 8 → Z.testbit m i = true ↔ qtasks A q i ≠ [].
Proof.
  intros Hl. destruct (Hl 0) as [xs Hxs]; [done |].
  apply (qo_bucket _ _ HQ) in Hxs as (_ & _ & [m Hm] & _).
  exists m. split; [done |]. by apply (qo_mask _ _ HQ).
Qed.

Lemma member_unique q p q' p' t : t ∈ qtasks A q p → t ∈ qtasks A q' p' → q = q' ∧ p = p'.
Proof.
  intros (tk & Htk & ? & ?)%(qo_member _ _ HQ) (tk' & Htk' & ? & ?)%(qo_member _ _ HQ).
  naive_solver.
Qed.

Lemma task_unlinked t tk : tasks s !! t = Some tk → task_queue tk = None →
  unlinked A (L_task t) ∧ is_Some (links s !! L_task t).
Proof. intros Ht Hq. pose proof (qo_task _ _ HQ _ _ Ht) as [? Hu]. by rewrite Hq in Hu. Qed.

Lemma not_member t tk q p : tasks s !! t = Some tk → task_queue tk = None → t ∉ qtasks A q p.
Proof. intros Ht Hq (tk' & ? & ? & ?)%(qo_member _ _ HQ). naive_solver. Qed.
End facts.

(** ** Frame lemmas of the invariant *)

Section frames.
Implicit Types (A : gmap laddr (list laddr)) (s : kstate) (q : qid) (t : tid) (tk : os_task_t).

Lemma queues_ok_ext A s s' :
  links s' = links s → masks s' = masks s → tasks s' = tasks s → queues_ok A s → queues_ok A s'.
Proof. intros Hl Hm Ht []. split; rewrite ?Hl, ?Hm, ?Ht; auto. Qed.

(** Updating members of a TCB other than [task_queue] and, when the task is
    queued, [prio_current]. *)
Lemma queues_ok_mod_task A s t tk tk' :
  tasks s !! t = Some tk → task_queue tk' = task_queue tk →
  (task_queue tk ≠ None → prio_current tk' = prio_current tk) →
  queues_ok A s → queues_ok A (set_tasks (<[t := tk']> (tasks s)) s).
Proof.
  intros Ht Hq Hp [HR HB HM HK HT]. split; cbn; [done | done | | done |].
  - intros q p t' (tk2 & H2 & ? & ?)%HM. rewrite lookup_insert. case_decide; subst; [| naive_solver].
    exists tk'. simplify_eq. split_and!; [done | congruence |]. apply Hp. congruence.
  - intros t2 tk2. rewrite lookup_insert. case_decide; intros; simplify_eq; [| by apply HT].
    pose proof (HT _ _ Ht) as [? Hm]. split; [done |]. rewrite Hq.
    destruct (task_queue tk) eqn:E; [| done]. by rewrite Hp.
Qed.

(** Changing a list that is not a bucket and holds no task. *)
Lemma queues_ok_other A s h' hd xs :
  (∀ q p, hd ≠ L_bucket q p) → (∀ t, L_task t ∉ hd :: xs) →
  repr h' (<[hd := xs]> A) → (∀ t, is_Some (links s !! L_task t) → is_Some (h' !! L_task t)) →
  queues_ok A s → queues_ok (<[hd := xs]> A) (set_links h' s).
Proof.
  intros Hhd Hxs HR' Hd [HR HB HM HK HT].
  assert (∀ q, live (<[hd := xs]> A) q ↔ live A q) as Hlive.
  { intros q. split; intros Hl p Hp; specialize (Hl p Hp); rewrite lookup_insert_ne in *; auto. }
  split; cbn; [done | | | |].
  - intros q p ys. rewrite lookup_insert_ne by apply Hhd. rewrite Hlive, qtasks_insert_other by done. apply HB.
  - intros q p t. rewrite qtasks_insert_other by done. apply HM.
  - intros q m Hm Hl. rewrite Hlive in Hl. destruct (HK q m Hm Hl) as [? Hb].
    split; [done |]. intros i. rewrite qtasks_insert_other by done. apply Hb.
  - intros t tk Ht. destruct (HT _ _ Ht) as [Hs Hm]. split; [by apply Hd |].
    destruct (task_queue tk); [by rewrite qtasks_insert_other by done |].
    by apply unlinked_insert.
Qed.

(** A task enters the bucket of its priority. *)
Lemma queues_ok_enqueue A s h' q t tk m :
  queues_ok A s → live A q → 0 ≤ prio_current tk < OS_CONFIG_PRIOCNT →
  tasks s !! t = Some tk → task_queue tk = None → masks s !! q = Some m →
  repr h' (<[L_bucket q (prio_current tk) := L_task <$> (qtasks A q (prio_current tk) ++ [t])]> A) →
  same_dom h' (links s) →
  queues_ok (<[L_bucket q (prio_current tk) := L_task <$> (qtasks A q (prio_current tk) ++ [t])]> A)
    (set_masks (<[q := arch_bitmask_set m (prio_current tk)]> (masks s))
      (set_tasks (<[t := set_task_queue (Some q) tk]> (tasks s)) (set_links h' s))).
Proof.
  intros HQ Hl Hp Ht Hq Hm HR' Hd. pose proof HQ as [HR HB HM HK HT].
  set (p := prio_current tk) in *. set (ts := qtasks A q p).
  split; cbn; [done | | | |].
  - intros q' p' xs. rewrite qtasks_insert, lookup_insert, (lookup_insert (masks s)).
    destruct (decide (L_bucket q p = L_bucket q' p')) as [[= <- <-] | Hne]; intros Hxs.
    + simplify_eq. rewrite decide_True by done. rewrite decide_True by done.
      split_and!; eauto; try lia. by apply live_insert.
    + rewrite (decide_False (P := q' = q ∧ p' = p)) by (intros [-> ->]; by apply Hne). destruct (HB _ _ _ Hxs) as (? & ? & ? & ?).
      split_and!; auto; try lia; [by apply live_insert |]. case_decide; eauto.
  - intros q' p' t'. rewrite qtasks_insert, lookup_insert. case_decide as Hc.
    + destruct Hc as [-> ->]. rewrite elem_of_app, list_elem_of_singleton. intros [Hin | ->].
      * destruct (HM _ _ _ Hin) as (tk' & ? & ? & ?). rewrite decide_False by congruence. eauto.
      * rewrite decide_True by done. eexists; split; eauto.
    + intros (tk' & ? & ? & ?)%HM. rewrite decide_False by congruence. eauto.
  - intros q' m'. rewrite lookup_insert. case_decide; intros Hm' Hl'; simplify_eq.
    + split; [apply bitmask_set_range |]. intros i Hi. rewrite qtasks_insert.
      rewrite bitmask_set_testbit by (unfold OS_CONFIG_PRIOCNT in *; lia).
      destruct (Z.eqb_spec i p) as [-> | Hne]; cbn.
      * rewrite decide_True by done. split; [| done]. intros _ [_ ?]%app_eq_nil. done.
      * rewrite decide_False by (by intros [_ ?]). by apply HK.
    + pose proof (live_insert_inv _ _ _ _ Hl' (Hl _ Hp)) as Hl2.
      destruct (HK _ _ Hm' Hl2) as [? Hb]. split; [done |]. intros i Hi. rewrite qtasks_insert.
      rewrite decide_False by (intros [-> _]; congruence). by apply Hb.
  - intros t' tk'. rewrite lookup_insert. case_decide as Hc; intros Ht'; simplify_eq; cbn.
    + split; [apply Hd; by apply HT in Ht as [? _] |].
      rewrite qtasks_insert, decide_True by done. apply elem_of_app. right. apply list_elem_of_here.
    + destruct (HT _ _ Ht') as [Hs Hu]. split; [by apply Hd |].
      destruct (task_queue tk') as [q' |] eqn:Eq'.
      * rewrite qtasks_insert. case_decide as Hc'; [| done]. destruct Hc' as [-> Hp'].
        rewrite Hp' in Hu. by apply elem_of_app; left.
      * apply unlinked_insert; [| done]. rewrite not_elem_of_cons. split; [done |].
        rewrite elem_of_L_task, elem_of_app, list_elem_of_singleton. intros [Hin | ->]; [| done].
        destruct (HM _ _ _ Hin) as (? & ? & ? & ?). congruence.
Qed.

(** The masks when a task leaves its bucket. *)
Lemma masks_remove A s q p t m ts1 ts2 q' m' :
  queues_ok A s → live A q → 0 ≤ p < OS_CONFIG_PRIOCNT → masks s !! q = Some m → qtasks A q p = ts1 ++ t :: ts2 →
  (if bool_decide (ts1 ++ ts2 = []) then <[q := arch_bitmask_clear m p]> (masks s) else masks s) !! q' = Some m' → live A q' →
  0 ≤ m' < 256 ∧ ∀ i, 0 ≤ i < 8 → Z.testbit m' i = true ↔ qtasks (<[L_bucket q p := L_task <$> (ts1 ++ ts2)]> A) q' i ≠ [].
Proof.
  intros HQ Hl Hp Hm Hts Hm' Hl'. pose proof (qo_mask _ _ HQ) as HK.
  destruct (decide (q' = q)) as [-> | Hne].
  - destruct (HK _ _ Hm Hl') as [Hr Hbit].
    assert (∀ i, 0 ≤ i < 8 → i ≠ p → Z.testbit m i = true ↔ qtasks (<[L_bucket q p:=L_task <$> ts1 ++ ts2]> A) q i ≠ []) as Hother.
    { intros i Hi Hne. rewrite qtasks_insert, decide_False by (by intros [_ ?]). by apply Hbit. }
    case_bool_decide as He.
    + rewrite lookup_insert_eq in Hm'. simplify_eq. split; [apply bitmask_clear_range |].
      intros i Hi. rewrite bitmask_clear_testbit by (unfold OS_CONFIG_PRIOCNT in *; lia).
      destruct (Z.eqb_spec i p) as [-> | Hne]; cbn; [| by apply Hother].
      rewrite qtasks_insert, decide_True by done. by rewrite He.
    + simplify_eq. split; [done |]. intros i Hi.
      destruct (decide (i = p)) as [-> | Hne]; [| by apply Hother].
      rewrite qtasks_insert, decide_True by done. rewrite Hbit by done. rewrite Hts.
      split; [done |]. intros _ [_ ?]%app_eq_nil. done.
  - assert (masks s !! q' = Some m') as Hm2.
    { case_bool_decide; [by rewrite lookup_insert_ne in Hm' | done]. }
    destruct (HK _ _ Hm2 Hl') as [Hr Hbit]. split; [done |]. intros i Hi.
    rewrite qtasks_insert, decide_False by (by intros [? _]). by apply Hbit.
Qed.

(** A task leaves its bucket. *)
Lemma queues_ok_remove A s h' q t tk m ts1 ts2 :
  queues_ok A s → tasks s !! t = Some tk → task_queue tk = Some q → masks s !! q = Some m →
  qtasks A q (prio_current tk) = ts1 ++ t :: ts2 →
  repr h' (<[L_bucket q (prio_current tk) := L_task <$> (ts1 ++ ts2)]> A) →
  same_dom h' (links s) →
  queues_ok (<[L_bucket q (prio_current tk) := L_task <$> (ts1 ++ ts2)]> A)
    (set_tasks (<[t := set_task_queue None tk]> (tasks s))
      (set_masks (if bool_decide (ts1 ++ ts2 = [])
                  then <[q := arch_bitmask_clear m (prio_current tk)]> (masks s) else masks s)
         (set_links h' s))).
Proof.
  intros HQ Ht Hq Hm Hts HR' Hd. pose proof HQ as [HR HB HM HK HT].
  set (p := prio_current tk) in *.
  assert (t ∈ qtasks A q p) as Hin by (rewrite Hts, elem_of_app, elem_of_cons; auto).
  destruct (qtasks_live _ _ HQ _ _ _ Hin) as (Hl & Hp & Hb).
  pose proof (qtasks_NoDup _ _ HQ q p) as Hnd. rewrite Hts in Hnd.
  rewrite <- Permutation_middle in Hnd. apply NoDup_cons in Hnd as [Hnt Hnd].
  split; cbn; [done | | | |].
  - intros q' p' xs. rewrite qtasks_insert, lookup_insert.
    assert (∀ q0, is_Some (masks s !! q0) → is_Some ((if bool_decide (ts1 ++ ts2 = [])
      then <[q:=arch_bitmask_clear m p]> (masks s) else masks s) !! q0)) as Hmk.
    { intros q0 ?. case_bool_decide; [| done]. rewrite lookup_insert. case_decide; eauto. }
    destruct (decide (L_bucket q p = L_bucket q' p')) as [[= <- <-] | Hne]; intros Hxs.
    + simplify_eq. rewrite decide_True by done. split_and!; eauto; try lia. by apply live_insert.
    + rewrite (decide_False (P := q' = q ∧ p' = p)) by (intros [-> ->]; by apply Hne). destruct (HB _ _ _ Hxs) as (? & ? & ? & ?).
      split_and!; auto; try lia. by apply live_insert.
  - intros q' p' t'. rewrite qtasks_insert, lookup_insert. case_decide as Hc.
    + destruct Hc as [-> ->]. intros Hin'.
      assert (t' ≠ t) by (by intros ->).
      destruct (HM q p t') as (tk' & ? & ? & ?); [| rewrite decide_False by done; eauto].
      rewrite Hts, elem_of_app, elem_of_cons. apply elem_of_app in Hin'. tauto.
    + intros Hin'. assert (t' ≠ t) as Hne.
      { intros ->. destruct (member_unique _ _ HQ _ _ _ _ _ Hin Hin') as [-> ->]. by apply Hc. }
      destruct (HM _ _ _ Hin') as (tk' & ? & ? & ?). rewrite decide_False by done. eauto.
  - intros q' m' Hm' Hl2. pose proof (live_insert_inv _ _ _ _ Hl2 (Hl _ Hp)) as Hl'. by eapply (masks_remove A s).
  - intros t' tk'. rewrite lookup_insert. case_decide as Hc; intros Ht'; simplify_eq; cbn.
    + split; [apply Hd; by apply HT in Ht as [? _] |]. intros hd2 xs2. rewrite lookup_insert.
      case_decide; intros HA Hx; simplify_eq.
      * apply elem_of_cons in Hx as [? | Hx]; [done |]. by rewrite elem_of_L_task in Hx.
      * assert (L_bucket q p = hd2); [| done].
        eapply (repr_disj _ _ HR _ _ _ _ (L_task t')); eauto.
        apply list_elem_of_further. by rewrite elem_of_L_task.
    + destruct (HT _ _ Ht') as [Hs Hu]. split; [by apply Hd |].
      destruct (task_queue tk') as [q' |] eqn:Eq'.
      * rewrite qtasks_insert. case_decide as Hc'; [| done]. destruct Hc' as [-> Hp'].
        rewrite Hp', Hts, elem_of_app, elem_of_cons in Hu. rewrite elem_of_app. naive_solver.
      * apply unlinked_insert; [| done]. rewrite not_elem_of_cons. split; [done |].
        rewrite elem_of_L_task. intros Hin'. apply (not_member _ _ HQ t' tk' q p); [done.. |].
        rewrite Hts, elem_of_app, elem_of_cons. apply elem_of_app in Hin'. tauto.
Qed.
End frames.

(** ** Functional specification of the operations *)

Section specs.
Context {AP : ArchPort} {APOK : ArchPortOk AP}.
Implicit Types (A : gmap laddr (list laddr)) (s : kstate) (q : qid) (t : tid) (tk : os_task_t).

Lemma qtasks_set_bucket A q p ts q' p' :
  qtasks (set_bucket A q p ts) q' p' = if decide (q' = q ∧ p' = p) then ts else qtasks A q' p'.
Proof. apply qtasks_insert. Qed.

Lemma live_set_bucket A q p ts q' : live A q' → live (set_bucket A q p ts) q'.
Proof. apply live_insert. Qed.

Lemma set_bucket_other A q p ts hd : (∀ q' p', hd ≠ L_bucket q' p') →
  set_bucket A q p ts !! hd = A !! hd.
Proof. intros Hhd. apply lookup_insert_ne. intros Heq. by eapply Hhd. Qed.

(** The mask determines the highest non-empty bucket. *)
Lemma mask_top A s q m : queues_ok A s → live A q → masks s !! q = Some m →
  (arch_bitmask_fls m = 0 ∧ pq_empty (qtasks A q)) ∨
  ∃ p t ts, arch_bitmask_fls m = p + 1 ∧ 0 ≤ p < OS_CONFIG_PRIOCNT ∧
    qtasks A q p = t :: ts ∧ pq_top (qtasks A q) p t.
Proof.
  intros HQ Hl Hm. destruct (live_mask _ _ HQ _ Hl) as (m' & Hm' & Hr & Hb).
  rewrite Hm in Hm'. injection Hm' as <-.
  assert (∀ i, qtasks A q i ≠ [] → 0 ≤ i < 8) as Hi.
  { intros i [_ ?]%(qtasks_range _ _ HQ). unfold OS_CONFIG_PRIOCNT in *. lia. }
  destruct (decide (m = 0)) as [-> | Hm0].
  - left. split; [apply fls_zero |]. intros i. destruct (qtasks A q i) eqn:E; [done |].
    assert (qtasks A q i ≠ []) as Hne by (by rewrite E).
    pose proof (Hi i Hne) as Hi'. apply Hb in Hne; [| done]. by rewrite Z.bits_0 in Hne.
  - right. destruct (fls_highest m) as (p & Hf & Hp & Hbit & Htop); [lia |].
    apply Hb in Hbit; [| done]. pose proof (qtasks_range _ _ HQ _ _ Hbit) as [_ ?].
    destruct (qtasks A q p) as [| t ts] eqn:E; [done |]. exists p, t, ts. split_and!; try done; try lia.
    split; [by rewrite E |]. intros i Hgt. destruct (qtasks A q i) eqn:E'; [done |].
    assert (qtasks A q i ≠ []) as Hne by (by rewrite E').
    pose proof (Hi i Hne). apply Hb in Hne; [| done]. rewrite Htop in Hne; [done | lia].
Qed.

Lemma enqueue_spec A s q t tk :
  queues_ok A s → live A q → tasks s !! t = Some tk → task_queue tk = None →
  0 ≤ prio_current tk < OS_CONFIG_PRIOCNT →
  ∃ s', os_taskqueue_enqueue q t s = Done tt s' ∧
    queue_step s t (set_task_queue (Some q) tk) s' ∧
    queues_ok (set_bucket A q (prio_current tk) (qtasks A q (prio_current tk) ++ [t])) s'.
Proof.
  intros HQ Hl Ht Hq Hp.
  destruct (live_mask _ _ HQ _ Hl) as (m & Hm & _).
  destruct (task_unlinked _ _ HQ _ _ Ht Hq) as [Hu Hd].
  destruct (list_append_repr (links s) A (L_bucket q (prio_current tk))
    (L_task <$> qtasks A q (prio_current tk)) (L_task t)) as (h & Ha & HR & Hdom);
    [apply HQ | by eapply bucket_lookup | done.. |].
  unfold os_taskqueue_enqueue.
  erewrite bind_Done by (by apply get_task_Some).
  erewrite bind_Done by (by apply on_links_Some).
  erewrite bind_Done by (by apply mod_task_Some).
  erewrite mod_mask_Some by done.
  eexists; split; [done |]. split; [by eexists _, _ |].
  apply (queues_ok_enqueue A s h q t tk m); try done. by rewrite fmap_app.
Qed.

(** The common tail of [os_taskqueue_unlink] and [os_taskqueue_intdequeue]. *)
Lemma clear_if_empty {B} A h q p ts m s (Q : K B) :
  repr h A → A !! L_bucket q p = Some (L_task <$> ts) → links s = h → masks s !! q = Some m →
  (empty ← read_links (list_is_empty (Some (L_bucket q p)));
   when empty (mod_mask q (λ mask, arch_bitmask_clear mask p));; Q) s =
  Q (set_masks (if bool_decide (ts = []) then <[q := arch_bitmask_clear m p]> (masks s)
                else masks s) s).
Proof.
  intros HR HA <- Hm.
  erewrite bind_Done by (apply read_links_Some, (list_is_empty_repr _ A); done).
  rewrite (bool_decide_ext (L_task <$> ts = []) (ts = [])) by (by destruct ts).
  case_bool_decide; cbn [when].
  - by erewrite bind_Done by (by apply mod_mask_Some).
  - erewrite bind_Done by done. by destruct s.
Qed.

Lemma unlink_spec A s q t tk :
  queues_ok A s → tasks s !! t = Some tk → task_queue tk = Some q →
  ∃ s' ts1 ts2, os_taskqueue_unlink t s = Done tt s' ∧
    qtasks A q (prio_current tk) = ts1 ++ t :: ts2 ∧
    queue_step s t (set_task_queue None tk) s' ∧
    queues_ok (set_bucket A q (prio_current tk) (ts1 ++ ts2)) s'.
Proof.
  intros HQ Ht Hq. pose proof (qo_task _ _ HQ _ _ Ht) as [_ Hin]. rewrite Hq in Hin.
  destruct (qtasks_live _ _ HQ _ _ _ Hin) as (Hl & Hp & HA).
  destruct (live_mask _ _ HQ _ Hl) as (m & Hm & _).
  apply list_elem_of_split in Hin as (ts1 & ts2 & Hts).
  destruct (list_unlink_repr (links s) A (L_bucket q (prio_current tk))
    (L_task <$> ts1) (L_task t) (L_task <$> ts2)) as (h & Hu & HR & Hdom & _);
    [apply HQ | by rewrite HA, Hts, fmap_app |].
  rewrite <- fmap_app in HR.
  unfold os_taskqueue_unlink.
  erewrite bind_Done by (by apply on_links_Some).
  erewrite bind_Done by (by apply get_task_Some). rewrite Hq.
  erewrite bind_Done by done.
  cbn beta. erewrite (clear_if_empty _ h _ _ (ts1 ++ ts2) m (set_links h s) (mod_task t (set_task_queue None))) by (try done; apply lookup_insert_eq).
  erewrite mod_task_Some by done.
  eexists _, ts1, ts2; split; [done |]. split_and!; [done | by eexists _, _ |].
  by apply (queues_ok_remove A s h q t tk m ts1 ts2).
Qed.

Lemma intdequeue_spec A s q p t ts :
  queues_ok A s → qtasks A q p = t :: ts →
  ∃ s' tk, os_taskqueue_intdequeue q p s = Done (Some t) s' ∧ tasks s !! t = Some tk ∧
    task_queue tk = Some q ∧ prio_current tk = p ∧
    queue_step s t (set_task_queue None tk) s' ∧
    queues_ok (set_bucket A q p ts) s'.
Proof.
  intros HQ Hts. assert (t ∈ qtasks A q p) as Hin by (rewrite Hts; apply list_elem_of_here).
  destruct (qo_member _ _ HQ _ _ _ Hin) as (tk & Ht & Hq & Hpr).
  destruct (qtasks_live _ _ HQ _ _ _ Hin) as (Hl & Hp & HA).
  destruct (live_mask _ _ HQ _ Hl) as (m & Hm & _).
  destruct (list_detachfirst_cons (links s) A (L_bucket q p)
    (L_task t) (L_task <$> ts)) as (h & Hu & HR & Hdom & _); [apply HQ | by rewrite HA, Hts |].
  unfold os_taskqueue_intdequeue.
  erewrite bind_Done by (by apply on_links_ret_Some). cbn [task_of_link].
  erewrite bind_Done by done.
  cbn beta. erewrite (clear_if_empty _ h _ _ ts m (set_links h s)) by (try done; apply lookup_insert_eq).
  erewrite bind_Done by (by apply mod_task_Some).
  eexists _, tk; split; [done |]. split_and!; try done; [by eexists _, _ |].
  subst p. by apply (queues_ok_remove A s h q t tk m [] ts).
Qed.

Lemma dequeue_spec A s q : queues_ok A s → live A q →
  (pq_empty (qtasks A q) ∧ os_taskqueue_dequeue q s = Done None s) ∨
  ∃ s' t tk ts, os_taskqueue_dequeue q s = Done (Some t) s' ∧ tasks s !! t = Some tk ∧
    task_queue tk = Some q ∧ pq_top (qtasks A q) (prio_current tk) t ∧
    qtasks A q (prio_current tk) = t :: ts ∧
    queue_step s t (set_task_queue None tk) s' ∧
    queues_ok (set_bucket A q (prio_current tk) ts) s'.
Proof.
  intros HQ Hl. destruct (live_mask _ _ HQ _ Hl) as (m & Hm & _).
  unfold os_taskqueue_dequeue. erewrite bind_Done by (by apply get_mask_Some).
  destruct (mask_top _ _ _ _ HQ Hl Hm) as [[-> He] | (p & t & ts & -> & Hp & Hts & Htop)].
  - by left.
  - right. cbn zeta. destruct (Z.eqb_spec (p + 1) 0); [lia |]. rewrite Z.add_simpl_r.
    destruct (intdequeue_spec _ _ _ _ _ _ HQ Hts) as (s' & tk & Hd & Ht & Hq & <- & Hs & HQ').
    by exists s', t, tk, ts.
Qed.

Lemma dequeue_prio_spec A s q prio : queues_ok A s → live A q →
  ((∀ i, prio ≤ i → qtasks A q i = []) ∧ os_taskqueue_dequeue_prio q prio s = Done None s) ∨
  ∃ s' t tk ts, os_taskqueue_dequeue_prio q prio s = Done (Some t) s' ∧ tasks s !! t = Some tk ∧
    task_queue tk = Some q ∧ prio ≤ prio_current tk ∧ pq_top (qtasks A q) (prio_current tk) t ∧
    qtasks A q (prio_current tk) = t :: ts ∧
    queue_step s t (set_task_queue None tk) s' ∧
    queues_ok (set_bucket A q (prio_current tk) ts) s'.
Proof.
  intros HQ Hl. destruct (live_mask _ _ HQ _ Hl) as (m & Hm & _).
  unfold os_taskqueue_dequeue_prio. erewrite bind_Done by (by apply get_mask_Some).
  destruct (mask_top _ _ _ _ HQ Hl Hm) as [[-> He] | (p & t & ts & -> & Hp & Hts & Htop)].
  - left. split; [| done]. intros i _. apply He.
  - cbn zeta. destruct (Z.eqb_spec (p + 1) 0); [lia |]. rewrite Z.add_simpl_r.
    destruct (Z.ltb_spec p prio).
    + left. split; [| done]. intros i Hi. apply Htop. lia.
    + right. destruct (intdequeue_spec _ _ _ _ _ _ HQ Hts) as (s' & tk & Hd & Ht & Hq & <- & Hs & HQ').
      by exists s', t, tk, ts.
Qed.

Lemma peek_spec A s q : queues_ok A s → live A q →
  (pq_empty (qtasks A q) ∧ os_taskqueue_peek q s = Done None s) ∨
  ∃ t tk, os_taskqueue_peek q s = Done (Some t) s ∧ tasks s !! t = Some tk ∧
    task_queue tk = Some q ∧ pq_top (qtasks A q) (prio_current tk) t.
Proof.
  intros HQ Hl. destruct (live_mask _ _ HQ _ Hl) as (m & Hm & _).
  unfold os_taskqueue_peek. erewrite bind_Done by (by apply get_mask_Some).
  destruct (mask_top _ _ _ _ HQ Hl Hm) as [[-> He] | (p & t & ts & -> & Hp & Hts & Htop)].
  - by left.
  - right. cbn zeta. destruct (Z.eqb_spec (p + 1) 0); [lia |]. rewrite Z.add_simpl_r.
    assert (t ∈ qtasks A q p) as Hin by (rewrite Hts; apply list_elem_of_here).
    destruct (qo_member _ _ HQ _ _ _ Hin) as (tk & Ht & Hq & <-).
    erewrite bind_Done by (apply read_links_Some, (list_peekfirst_repr _ A);
      [apply HQ | by apply (bucket_lookup _ _ HQ)]).
    rewrite Hts. cbn [fmap list_fmap head task_of_link]. erewrite bind_Done by done.
    by exists t, tk.
Qed.

(** Changing the priority of a queued task moves it to the tail of its new bucket. *)
Lemma reprio_queued_spec A s q t tk prio :
  queues_ok A s → tasks s !! t = Some tk → task_queue tk = Some q →
  prio_current tk ≠ prio → 0 ≤ prio < OS_CONFIG_PRIOCNT →
  ∃ s' ts1 ts2, os_taskqueue_reprio t prio s = Done tt s' ∧
    qtasks A q (prio_current tk) = ts1 ++ t :: ts2 ∧
    queue_step s t (set_prio_current prio tk) s' ∧
    queues_ok (set_bucket (set_bucket A q (prio_current tk) (ts1 ++ ts2)) q prio
      (qtasks A q prio ++ [t])) s'.
Proof.
  intros HQ Ht Hq Hne Hp. unfold os_taskqueue_reprio.
  erewrite bind_Done by (by apply get_task_Some). rewrite Hq.
  destruct (Z.eqb_spec (prio_current tk) prio); [done |]. cbn [negb when].
  destruct (unlink_spec _ _ _ _ _ HQ Ht Hq) as (s1 & ts1 & ts2 & Hu & Hts & (h1 & mk1 & -> & Hd1) & HQ1).
  erewrite bind_Done by exact Hu.
  assert (live A q) as Hl.
  { eapply (qtasks_live _ _ HQ q _ t). rewrite Hts, elem_of_app, elem_of_cons. auto. }
  erewrite bind_Done by (apply mod_task_Some; cbn; apply lookup_insert_eq). cbn.
  rewrite insert_insert_eq.
  eapply (queues_ok_mod_task _ _ t _ (set_prio_current prio (set_task_queue None tk))) in HQ1;
    [| cbn; apply lookup_insert_eq | done | done].
  cbn in HQ1. rewrite insert_insert_eq in HQ1.
  destruct (enqueue_spec _ _ q t (set_prio_current prio (set_task_queue None tk)) HQ1)
    as (s' & He & (h2 & mk2 & -> & Hd2) & HQ2);
    [by apply live_set_bucket | cbn; apply lookup_insert_eq | done | done |].
  eexists _, ts1, ts2. split; [exact He |]. split_and!; [done | |].
  - exists h2, mk2. split; [| by transitivity h1]. cbn [tasks set_tasks set_masks set_links].
    rewrite !insert_insert_eq. destruct tk; cbn in Hq; by subst.
  - cbn [prio_current set_prio_current set_task_queue] in HQ2.
    by rewrite qtasks_set_bucket, decide_False in HQ2 by (intros [_ ?]; congruence).
Qed.

Lemma reprio_same_spec s t tk :
  tasks s !! t = Some tk → os_taskqueue_reprio t (prio_current tk) s = Done tt s.
Proof.
  intros Ht. unfold os_taskqueue_reprio. erewrite bind_Done by (by apply get_task_Some).
  by rewrite Z.eqb_refl.
Qed.

Lemma reprio_unqueued_spec A s t tk prio :
  queues_ok A s → tasks s !! t = Some tk → task_queue tk = None →
  os_taskqueue_reprio t prio s = Done tt (set_tasks (<[t := set_prio_current prio tk]> (tasks s)) s).
Proof.
  intros HQ Ht Hq. unfold os_taskqueue_reprio.
  erewrite bind_Done by (by apply get_task_Some). rewrite Hq.
  destruct (Z.eqb_spec (prio_current tk) prio) as [<- |]; cbn [negb when].
  - rewrite insert_id; [by destruct s |]. rewrite Ht. by destruct tk.
  - erewrite bind_Done by done. erewrite bind_Done by (by apply mod_task_Some). done.
Qed.
End specs.

(** ** A task queue refines a priority queue

    The abstract queue is one sequence of (task, priority) in service order;
    a bucket queue is read off by concatenating its buckets from the highest
    priority to the lowest. *)

Section refinement.
Context {AP : ArchPort} {APOK : ArchPortOk AP}.

Abbreviation pq := (list (tid * Z)).

(** Insertion behind every task of at least the same priority. *)
Fixpoint pq_insert (t : tid) (p : Z) (l : pq) : pq :=
  match l with
  | [] => [(t, p)]
  | (x, px) :: l' => if p <=? px then (x, px) :: pq_insert t p l' else (t, p) :: l
  end.
Definition pq_delete (t : tid) (l : pq) : pq := filter (λ x, x.1 ≠ t) l.
Fixpoint pq_prio (t : tid) (l : pq) : option Z :=
  match l with [] => None | (x, p) :: l' => if decide (x = t) then Some p else pq_prio t l' end.

(** The operations of a task queue, as data. *)
Inductive tq_op :=
| Tq_enqueue (t : tid) | Tq_dequeue | Tq_dequeue_prio (p : Z) | Tq_peek
| Tq_unlink (t : tid) | Tq_reprio (t : tid) (p : Z).

(** The queue's content and the priorities of the tasks on no queue. *)
Record aqueue := Aqueue { aq_in : pq; aq_out : gmap tid Z }.

(** The abstract operation; [None] where the operation may not be used. *)
Definition aq_pop (a : aqueue) : option (option tid * aqueue) :=
  match aq_in a with
  | [] => Some (None, a)
  | (t, p) :: l => Some (Some t, Aqueue l (<[t := p]> (aq_out a)))
  end.
Definition aq_step (o : tq_op) (a : aqueue) : option (option tid * aqueue) :=
  match o with
  | Tq_enqueue t =>
      p ← aq_out a !! t; Some (None, Aqueue (pq_insert t p (aq_in a)) (delete t (aq_out a)))
  | Tq_dequeue => aq_pop a
  | Tq_dequeue_prio p =>
      match aq_in a with
      | (_, px) :: _ => if px <? p then Some (None, a) else aq_pop a
      | [] => Some (None, a)
      end
  | Tq_peek => Some (fst <$> head (aq_in a), a)
  | Tq_unlink t =>
      p ← pq_prio t (aq_in a);
      Some (None, Aqueue (pq_delete t (aq_in a)) (<[t := p]> (aq_out a)))
  | Tq_reprio t p =>
      guard (0 ≤ p < OS_CONFIG_PRIOCNT);;
      match pq_prio t (aq_in a) with
      | Some p0 => Some (None, if p0 =? p then a
                               else Aqueue (pq_insert t p (pq_delete t (aq_in a))) (aq_out a))
      | None => _ ← aq_out a !! t; Some (None, Aqueue (aq_in a) (<[t := p]> (aq_out a)))
      end
  end.
Fixpoint aq_run (os : list tq_op) (a : aqueue) : option (list (option tid) * aqueue) :=
  match os with
  | [] => Some ([], a)
  | o :: os => '(r, a) ← aq_step o a; '(rs, a) ← aq_run os a; Some (r :: rs, a)
  end.

(** The same operations of os_sched.c on queue [q]. *)
Definition tq_step (q : qid) (o : tq_op) : K (option tid) :=
  match o with
  | Tq_enqueue t => os_taskqueue_enqueue q t;; mret None
  | Tq_dequeue => os_taskqueue_dequeue q
  | Tq_dequeue_prio p => os_taskqueue_dequeue_prio q p
  | Tq_peek => os_taskqueue_peek q
  | Tq_unlink t => os_taskqueue_unlink t;; mret None
  | Tq_reprio t p => os_taskqueue_reprio t p;; mret None
  end.
Fixpoint tq_run (q : qid) (os : list tq_op) : K (list (option tid)) :=
  match os with
  | [] => mret []
  | o :: os => r ← tq_step q o; rs ← tq_run q os; mret (r :: rs)
  end.

(** The buckets of [q] from priority [n - 1] down to 0. *)
Fixpoint absq_from (n : nat) (f : Z → list tid) : pq :=
  match n with
  | O => []
  | S n => ((λ t, (t, Z.of_nat n)) <$> f (Z.of_nat n)) ++ absq_from n f
  end.
Definition absq (A : gmap laddr (list laddr)) (q : qid) : pq :=
  absq_from (Z.to_nat OS_CONFIG_PRIOCNT) (qtasks A q).

(** The refinement relation. *)
Definition refines (q : qid) (a : aqueue) (s : kstate) : Prop :=
  ∃ A, queues_ok A s ∧ live A q ∧ aq_in a = absq A q ∧
    ∀ t p, aq_out a !! t = Some p → 0 ≤ p < OS_CONFIG_PRIOCNT ∧
      ∃ tk, tasks s !! t = Some tk ∧ task_queue tk = None ∧ prio_current tk = p.

(** *** Reading off a bucket queue *)

Lemma absq_from_ext n f g : (∀ i, 0 ≤ i < Z.of_nat n → f i = g i) → absq_from n f = absq_from n g.
Proof.
  induction n as [| n IH]; intros Hfg; cbn; [done |].
  rewrite Hfg by lia. f_equal. apply IH. intros i ?. apply Hfg. lia.
Qed.

Lemma absq_from_elem n f t p : (t, p) ∈ absq_from n f ↔ 0 ≤ p < Z.of_nat n ∧ t ∈ f p.
Proof.
  induction n as [| n IH]; cbn; [rewrite elem_of_nil; lia |].
  rewrite elem_of_app, IH, list_elem_of_fmap. split.
  - intros [(x & [= -> ->] & ?) | [? ?]]; split; auto; lia.
  - intros [Hp Ht]. destruct (decide (p = Z.of_nat n)) as [-> |]; [left; eauto | right].
    split; [lia | done].
Qed.

Lemma pq_insert_ge t p (l1 l2 : pq) :
  (∀ x, x ∈ l1 → p ≤ x.2) → pq_insert t p (l1 ++ l2) = l1 ++ pq_insert t p l2.
Proof.
  induction l1 as [| [x px] l1 IH]; intros Hl; cbn; [done |].
  pose proof (Hl (x, px) ltac:(apply list_elem_of_here)) as Hx. cbn in Hx.
  rewrite (proj2 (Z.leb_le p px)) by done. f_equal. apply IH.
  intros y Hy. apply Hl. by apply list_elem_of_further.
Qed.

Lemma pq_insert_lt t p (l : pq) : (∀ x, x ∈ l → x.2 < p) → pq_insert t p l = (t, p) :: l.
Proof.
  destruct l as [| [x px] l]; intros Hl; cbn; [done |].
  pose proof (Hl (x, px) ltac:(apply list_elem_of_here)) as Hx. cbn in Hx.
  by rewrite (proj2 (Z.leb_gt p px)).
Qed.

Lemma absq_from_enqueue n f t p : 0 ≤ p < Z.of_nat n →
  absq_from n (λ i, if decide (i = p) then f i ++ [t] else f i) = pq_insert t p (absq_from n f).
Proof.
  induction n as [| n IH]; intros Hp; [lia |]. cbn [absq_from].
  rewrite pq_insert_ge by (intros ? (y & -> & _)%list_elem_of_fmap; cbn; lia).
  case_decide as Hn.
  - subst p. rewrite fmap_app, <- app_assoc. f_equal. rewrite pq_insert_lt.
    + cbn. f_equal. apply absq_from_ext. intros i ?. rewrite decide_False by lia. done.
    + intros [y py] [? _]%absq_from_elem. cbn. lia.
  - f_equal. apply IH. lia.
Qed.

Lemma absq_from_empty n f : pq_empty f → absq_from n f = [].
Proof. intros Hf. induction n as [| n IH]; cbn; [done |]. by rewrite Hf, IH. Qed.

Lemma absq_from_top n f t ts p : 0 ≤ p < Z.of_nat n → f p = t :: ts → (∀ i, p < i → f i = []) →
  absq_from n f = (t, p) :: absq_from n (λ i, if decide (i = p) then ts else f i).
Proof.
  induction n as [| n IH]; intros Hp Ht Htop; [lia |]. cbn [absq_from].
  case_decide as Hn.
  - subst p. rewrite Ht. cbn. do 2 f_equal. apply absq_from_ext. intros i ?. by rewrite decide_False by lia.
  - rewrite (Htop (Z.of_nat n)) by lia. cbn. apply IH; auto. lia.
Qed.

Lemma absq_from_delete n f t :
  pq_delete t (absq_from n f) = absq_from n (λ i, filter (.≠ t) (f i)).
Proof.
  induction n as [| n IH]; cbn; [done |]. unfold pq_delete in *. rewrite filter_app, IH. f_equal.
  generalize (f (Z.of_nat n)). clear. induction l as [| x l IH]; [done |].
  rewrite fmap_cons, !filter_cons. cbn [fst]. rewrite IH. by destruct (decide (x ≠ t)).
Qed.

Lemma pq_prio_elem t p (l : pq) : pq_prio t l = Some p → (t, p) ∈ l.
Proof.
  induction l as [| [x px] l IH]; cbn; [done |]. rewrite elem_of_cons.
  case_decide as Hx; [intros [= <-]; left; by subst | intros Hp; right; by apply IH].
Qed.
Lemma pq_prio_None t (l : pq) p : pq_prio t l = None → (t, p) ∉ l.
Proof.
  induction l as [| [x px] l IH]; cbn; [intros _; apply not_elem_of_nil |].
  rewrite elem_of_cons. case_decide as Hx; [done |]. intros Hn [Heq | Hin]; [congruence | by apply IH].
Qed.

(** *** Effect of bucket updates on the sequence read off *)

Lemma absq_set_bucket A q p ts :
  absq (set_bucket A q p ts) q =
  absq_from (Z.to_nat OS_CONFIG_PRIOCNT) (λ i, if decide (i = p) then ts else qtasks A q i).
Proof.
  apply absq_from_ext. intros i _. rewrite qtasks_set_bucket.
  destruct (decide (i = p)) as [-> |]; [by rewrite decide_True | rewrite decide_False; [done | naive_solver]].
Qed.

Lemma absq_enqueue A q p t : 0 ≤ p < OS_CONFIG_PRIOCNT →
  absq (set_bucket A q p (qtasks A q p ++ [t])) q = pq_insert t p (absq A q).
Proof.
  intros Hp. rewrite absq_set_bucket. unfold absq. rewrite <- absq_from_enqueue by (cbn in *; lia).
  apply absq_from_ext. intros i _. by case_decide; subst.
Qed.

Lemma absq_remove A s q p t ts1 ts2 : queues_ok A s → qtasks A q p = ts1 ++ t :: ts2 →
  absq (set_bucket A q p (ts1 ++ ts2)) q = pq_delete t (absq A q).
Proof.
  intros HQ Hts. rewrite absq_set_bucket. unfold absq. rewrite absq_from_delete.
  assert (t ∈ qtasks A q p) as Hin by (rewrite Hts, elem_of_app, elem_of_cons; auto).
  apply absq_from_ext. intros i _. case_decide as Hi.
  - subst i. pose proof (qtasks_NoDup _ _ HQ q p) as Hn. rewrite Hts in Hn |- *.
    by rewrite filter_ne_split.
  - rewrite filter_ne_id; [done |]. intros Ht.
    by destruct (member_unique _ _ HQ _ _ _ _ _ Hin Ht) as [_ ?].
Qed.

Lemma absq_elem A s q t p : queues_ok A s → (t, p) ∈ absq A q ↔ t ∈ qtasks A q p.
Proof.
  intros HQ. unfold absq. rewrite absq_from_elem. split; [tauto |]. intros Ht. split; [| done].
  destruct (qtasks_live _ _ HQ _ _ _ Ht) as (_ & ? & _). cbn in *. lia.
Qed.

(** *** Simulation *)

Lemma aq_out_unqueued A s t tk : queues_ok A s → tasks s !! t = Some tk → task_queue tk = None →
  ∀ q p, t ∉ qtasks A q p.
Proof. intros HQ Ht Hq q p. by eapply not_member. Qed.

(** The tasks on no queue are untouched when another task changes. *)
Lemma aq_out_frame (m : gmap tid Z) (T : gmap tid os_task_t) t tk' :
  (∀ t p, m !! t = Some p → 0 ≤ p < OS_CONFIG_PRIOCNT ∧
    ∃ tk, T !! t = Some tk ∧ task_queue tk = None ∧ prio_current tk = p) →
  ∀ t0 p, t0 ≠ t → m !! t0 = Some p → 0 ≤ p < OS_CONFIG_PRIOCNT ∧
    ∃ tk, <[t := tk']> T !! t0 = Some tk ∧ task_queue tk = None ∧ prio_current tk = p.
Proof. intros Hm t0 p Hne Ht. rewrite lookup_insert_ne by done. by apply Hm. Qed.

Lemma pop_refines q a s s' t tk ts A :
  queues_ok A s → live A q →
  (∀ t p, aq_out a !! t = Some p → 0 ≤ p < OS_CONFIG_PRIOCNT ∧
    ∃ tk, tasks s !! t = Some tk ∧ task_queue tk = None ∧ prio_current tk = p) →
  aq_in a = absq A q → tasks s !! t = Some tk → pq_top (qtasks A q) (prio_current tk) t →
  qtasks A q (prio_current tk) = t :: ts → queue_step s t (set_task_queue None tk) s' →
  queues_ok (set_bucket A q (prio_current tk) ts) s' →
  ∃ a', aq_pop a = Some (Some t, a') ∧ refines q a' s' ∧
    ∃ l, aq_in a = (t, prio_current tk) :: l.
Proof.
  intros HQ Hl Ho Ha Ht [_ Htop] Hts (h & mk & -> & _) HQ'.
  assert (t ∈ qtasks A q (prio_current tk)) as Hin by (rewrite Hts; apply list_elem_of_here).
  destruct (qtasks_live _ _ HQ _ _ _ Hin) as (_ & Hp & _).
  assert (aq_in a = (t, prio_current tk) :: absq (set_bucket A q (prio_current tk) ts) q) as Hin_a.
  { rewrite Ha, absq_set_bucket. unfold absq. apply absq_from_top; [cbn in *; lia | done | done]. }
  unfold aq_pop. rewrite Hin_a. eexists. split; [done |]. split; [| by eexists].
  exists (set_bucket A q (prio_current tk) ts).
  split_and!; [done | by apply live_set_bucket | done |].
  intros t0 p. cbn [aq_out]. rewrite lookup_insert. case_decide as Hc; [intros [= <-]; subst t0 |].
  - split; [done |]. cbn [tasks set_masks set_tasks]. rewrite lookup_insert_eq. by eexists.
  - intros Ht0. cbn [tasks set_masks set_tasks]. by eapply aq_out_frame.
Qed.

(** One operation at a time. *)
Definition op_refines (q : qid) (o : tq_op) : Prop := ∀ a s r a',
  refines q a s → aq_step o a = Some (r, a') → ∃ s', tq_step q o s = Done r s' ∧ refines q a' s'.

Lemma enqueue_refines q t : op_refines q (Tq_enqueue t).
Proof.
  intros a s r a' (A & HQ & Hl & Ha & Ho). cbn [aq_step tq_step].
  destruct (aq_out a !! t) as [p |] eqn:Et; cbn; [| done]. intros [= <- <-].
  destruct (Ho _ _ Et) as (Hp & tk & Ht & Hq & <-).
  destruct (enqueue_spec A s q t tk HQ Hl Ht Hq Hp) as (s' & He & (h & mk & -> & _) & HQ').
  erewrite bind_Done by exact He. eexists; split; [done |].
  eexists; split_and!; [exact HQ' | by apply live_set_bucket | |].
  + by rewrite absq_enqueue, Ha.
  + intros t0 p. cbn [aq_out tasks set_masks set_tasks]. intros [Hne Ht0]%lookup_delete_Some.
    eapply aq_out_frame; eauto.
Qed.

Lemma dequeue_refines q : op_refines q (Tq_dequeue).
Proof.
  intros a s r a' (A & HQ & Hl & Ha & Ho). cbn [aq_step tq_step].
  intros Hs. destruct (dequeue_spec A s q HQ Hl) as [[He ->] | (s' & t & tk & ts & -> & Ht & _ & Htop & Hts & Hst & HQ')].
  + unfold aq_pop in Hs. rewrite Ha in Hs. unfold absq in Hs. rewrite absq_from_empty in Hs by done.
    injection Hs as <- <-. eexists; split; [done |]. by exists A.
  + destruct (pop_refines q a s s' t tk ts A) as (a2 & Hp & HR & _); [done.. |]. rewrite Hp in Hs. injection Hs as <- <-. eauto.
Qed.

Lemma dequeue_prio_refines q p : op_refines q (Tq_dequeue_prio p).
Proof.
  intros a s r a' (A & HQ & Hl & Ha & Ho). cbn [aq_step tq_step].
  intros Hs. destruct (dequeue_prio_spec A s q p HQ Hl)
    as [[He ->] | (s' & t & tk & ts & -> & Ht & _ & Hge & Htop & Hts & Hst & HQ')].
  + assert (r = None ∧ a' = a) as [-> ->]; [| eexists; split; [done | by exists A]].
    destruct (aq_in a) as [| [t px] l] eqn:El; [by injection Hs as <- <- |].
    destruct (Z.ltb_spec px p); [by injection Hs as <- <- |].
    assert (t ∈ qtasks A q px) as Hin.
    { apply (absq_elem _ _ _ _ _ HQ). rewrite <- Ha. apply list_elem_of_here. }
    rewrite He in Hin by lia. by apply elem_of_nil in Hin.
  + destruct (pop_refines q a s s' t tk ts A) as (a2 & Hp & HR & l & Hal); [done.. |]. rewrite Hal in Hs.
    rewrite (proj2 (Z.ltb_ge _ _)) in Hs by lia. rewrite Hp in Hs. injection Hs as <- <-. eauto.
Qed.

Lemma peek_refines q : op_refines q (Tq_peek).
Proof.
  intros a s r a' (A & HQ & Hl & Ha & Ho). cbn [aq_step tq_step].
  intros [= <- <-]. destruct (peek_spec A s q HQ Hl) as [[He ->] | (t & tk & -> & Ht & Hq & Htop)].
  + rewrite Ha. unfold absq. rewrite absq_from_empty by done. eexists; split; [done | by exists A].
  + destruct Htop as [Hhd Htop]. destruct (qtasks A q (prio_current tk)) as [| t' ts] eqn:Hts; [done |].
    injection Hhd as ->. rewrite Ha.
    assert (t ∈ qtasks A q (prio_current tk)) as Hin by (rewrite Hts; apply list_elem_of_here).
    destruct (qtasks_live _ _ HQ _ _ _ Hin) as (_ & Hp & _).
    unfold absq. erewrite absq_from_top; [| | exact Hts | exact Htop]; [| cbn in *; lia].
    eexists; split; [done | by exists A].
Qed.

Lemma unlink_refines q t : op_refines q (Tq_unlink t).
Proof.
  intros a s r a' (A & HQ & Hl & Ha & Ho). cbn [aq_step tq_step].
  destruct (pq_prio t (aq_in a)) as [p |] eqn:Ep; cbn; [| done]. intros [= <- <-].
  apply pq_prio_elem in Ep. rewrite Ha, (absq_elem _ _ _ _ _ HQ) in Ep.
  destruct (qo_member _ _ HQ _ _ _ Ep) as (tk & Ht & Hq & <-).
  destruct (unlink_spec A s q t tk HQ Ht Hq) as (s' & ts1 & ts2 & Hu & Hts & (h & mk & -> & _) & HQ').
  erewrite bind_Done by exact Hu. eexists; split; [done |].
  eexists; split_and!; [exact HQ' | by apply live_set_bucket | |].
  + cbn [aq_in]. rewrite Ha. symmetry. by eapply absq_remove.
  + intros t0 p. cbn [aq_out]. rewrite lookup_insert. case_decide as Hc; [intros [= <-]; subst t0 |].
    * split; [by destruct (qtasks_live _ _ HQ _ _ _ Ep) as (_ & ? & _) |]. cbn [tasks set_masks set_tasks]. rewrite lookup_insert_eq. by eexists.
    * intros Ht0. cbn [tasks set_masks set_tasks]. by eapply aq_out_frame.
Qed.

Lemma reprio_refines q t p : op_refines q (Tq_reprio t p).
Proof.
  intros a s r a' (A & HQ & Hl & Ha & Ho). cbn [aq_step tq_step].
  destruct (decide (0 ≤ p < OS_CONFIG_PRIOCNT)) as [Hp |]; [| by case_guard].
  case_guard; [| done]. cbn [mbind option_bind].
  destruct (pq_prio t (aq_in a)) as [p0 |] eqn:Ep.
  + intros [= <- <-]. apply pq_prio_elem in Ep. rewrite Ha, (absq_elem _ _ _ _ _ HQ) in Ep.
    destruct (qo_member _ _ HQ _ _ _ Ep) as (tk & Ht & Hq & <-).
    destruct (Z.eqb_spec (prio_current tk) p) as [<- | Hne].
    * erewrite bind_Done by (by apply reprio_same_spec). eexists; split; [done | by exists A].
    * destruct (reprio_queued_spec A s q t tk p HQ Ht Hq Hne Hp)
        as (s' & ts1 & ts2 & Hr & Hts & (h & mk & -> & _) & HQ').
      erewrite bind_Done by exact Hr. eexists; split; [done |].
      eexists; split_and!; [exact HQ' | by do 2 apply live_set_bucket | |].
      -- cbn [aq_in]. rewrite Ha, <- (absq_remove A s q _ t ts1 ts2 HQ Hts), <- absq_enqueue by done.
         by rewrite qtasks_set_bucket, decide_False by (intros [_ ?]; congruence).
      -- intros t0 p1. cbn [aq_out tasks set_masks set_tasks]. intros Ht0. eapply aq_out_frame; eauto.
         intros ->. destruct (Ho _ _ Ht0) as (_ & ? & ? & ? & _). congruence.
  + destruct (aq_out a !! t) as [p0 |] eqn:Et; cbn; [| done]. intros [= <- <-].
    destruct (Ho _ _ Et) as (Hp0 & tk & Ht & Hq & <-).
    erewrite bind_Done by (by eapply reprio_unqueued_spec). eexists; split; [done |].
    exists A. split_and!; [eapply queues_ok_mod_task; eauto; by rewrite Hq | done.. |].
    intros t0 p1. cbn [aq_out tasks set_tasks]. rewrite lookup_insert. case_decide as Hc.
    * intros [= <-]. subst t0. rewrite lookup_insert_eq. split; [done |]. by eexists.
    * intros Ht0. by eapply aq_out_frame.
Qed.

Lemma tq_step_refines q o : op_refines q o.
Proof.
  destruct o; [apply enqueue_refines | apply dequeue_refines | apply dequeue_prio_refines
              | apply peek_refines | apply unlink_refines | apply reprio_refines].
Qed.

(** C1: A task queue implements a stable priority queue. For every sequence of
    enqueue, dequeue, dequeue-above-a-priority, peek, unlink and
    change-of-priority calls that respects the callers' obligations (only
    unqueued tasks are enqueued, only queued ones unlinked, new priorities below
    [OS_CONFIG_PRIOCNT]), the bucket-and-mask implementation of os_sched.c goes
    wrong nowhere and returns the same tasks as a list kept sorted by
    priority, first-in first-out among equals; a changed priority puts the task
    behind its new equals, an unchanged one leaves it in place. *)
Theorem taskqueue_refines q os a s rs a' :
  refines q a s → aq_run os a = Some (rs, a') →
  ∃ s', tq_run q os s = Done rs s' ∧ refines q a' s'.
Proof.
  revert a s rs. induction os as [| o os IH]; intros a s rs HR; cbn.
  - intros [= <- <-]. by exists s.
  - destruct (aq_step o a) as [[r a1] |] eqn:Eo; cbn; [| done].
    destruct (aq_run os a1) as [[rs1 a2] |] eqn:Er; cbn; [| done]. intros [= <- <-].
    destruct (tq_step_refines _ _ _ _ _ _ HR Eo) as (s1 & Hs & HR1).
    destruct (IH _ _ _ HR1 Er) as (s2 & Hs2 & HR2).
    erewrite bind_Done by exact Hs. erewrite bind_Done by exact Hs2. by exists s2.
Qed.

End refinement.

(** ** Deciding the invariant on a concrete state *)

Section decide.
Definition live_b (l : list (laddr * list laddr)) (q : qid) : bool :=
  forallb (λ p, bool_decide (L_bucket q p ∈ l.*1)) (seqZ 0 OS_CONFIG_PRIOCNT).

Definition bucket_b (l : list (laddr * list laddr)) (s : kstate) (e : laddr * list laddr) : bool :=
  match e.1 with
  | L_bucket q p =>
      (0 <=? p) && (p <? OS_CONFIG_PRIOCNT) && live_b l q && bool_decide (is_Some (masks s !! q))
      && bool_decide (e.2 = L_task <$> omap task_of e.2)
      && forallb (λ t, match tasks s !! t with
                       | Some tk => bool_decide (task_queue tk = Some q) && (prio_current tk =? p)
                       | None => false end) (omap task_of e.2)
  | _ => true
  end.

Definition mask_b (l : list (laddr * list laddr)) (qm : qid * Z) : bool :=
  negb (live_b l qm.1) ||
  ((0 <=? qm.2) && (qm.2 <? 256) &&
   forallb (λ i, eqb (Z.testbit qm.2 i) (negb (bool_decide (qtasks (list_to_map l) qm.1 i = []))))
     (seqZ 0 8)).

Definition tcb_b (l : list (laddr * list laddr)) (s : kstate) (e : tid * os_task_t) : bool :=
  bool_decide (is_Some (links s !! L_task e.1)) &&
  match task_queue e.2 with
  | None => bool_decide (L_task e.1 ∉ concat ((λ '(hd, xs), hd :: xs) <$> l))
  | Some q => bool_decide (e.1 ∈ qtasks (list_to_map l) q (prio_current e.2))
  end.

Definition queues_ok_b (l : list (laddr * list laddr)) (s : kstate) : bool :=
  repr_b (links s) l && forallb (bucket_b l s) l && forallb (mask_b l) (map_to_list (masks s))
  && forallb (tcb_b l s) (map_to_list (tasks s)).

Lemma live_b_ok l q : live_b l q = true ↔ live (list_to_map l) q.
Proof.
  unfold live_b, live. rewrite forallb_forall. split.
  - intros Hb p Hp. assert (p ∈ seqZ 0 OS_CONFIG_PRIOCNT) as Hin%list_elem_of_In by (apply elem_of_seqZ; lia).
    apply Hb, bool_decide_eq_true in Hin.
    destruct ((list_to_map l : gmap laddr (list laddr)) !! L_bucket q p) eqn:E; [by eauto |].
    by apply not_elem_of_list_to_map in E.
  - intros Hl p [Hp ?]%list_elem_of_In%elem_of_seqZ. apply bool_decide_eq_true.
    destruct (Hl p) as [xs Hxs]; [cbn in *; lia |].
    apply elem_of_list_to_map_2 in Hxs. by apply (list_elem_of_fmap_2 fst _ _ Hxs).
Qed.

Lemma map_forallb {X Y} `{Countable X} (f : X * Y → bool) (m : gmap X Y) x y :
  forallb f (map_to_list m) = true → m !! x = Some y → f (x, y) = true.
Proof. rewrite forallb_forall. intros Hf Hx. apply Hf, list_elem_of_In. by apply elem_of_map_to_list. Qed.

Lemma queues_ok_b_ok l s : queues_ok_b l s = true → queues_ok (list_to_map l) s.
Proof.
  unfold queues_ok_b. rewrite !andb_true_iff. intros [[[HR HB] HM] HT].
  assert (∀ q p xs, (list_to_map l : gmap laddr (list laddr)) !! L_bucket q p = Some xs → bucket_b l s (L_bucket q p, xs) = true) as Hb.
  { intros q p xs Hx%elem_of_list_to_map_2. rewrite forallb_forall in HB. by apply HB, list_elem_of_In. }
  split.
  - by apply repr_b_ok.
  - intros q p xs Hx. unfold qtasks. rewrite Hx. cbn. apply Hb in Hx. unfold bucket_b in Hx. cbn in Hx.
    rewrite !andb_true_iff, !bool_decide_eq_true, live_b_ok in Hx. cbn in *. lia || intuition lia.
  - intros q p t Ht. unfold qtasks in Ht. destruct ((list_to_map l : gmap laddr (list laddr)) !! L_bucket q p) as [xs |] eqn:Hx; [| by apply elem_of_nil in Ht].
    cbn in Ht. apply Hb in Hx. unfold bucket_b in Hx. cbn in Hx. rewrite !andb_true_iff, forallb_forall in Hx.
    destruct Hx as [_ Hx]. apply list_elem_of_In in Ht. apply Hx in Ht.
    destruct (tasks s !! t) as [tk |]; [| done]. rewrite andb_true_iff, bool_decide_eq_true, Z.eqb_eq in Ht. eauto.
  - intros q m Hm Hl. apply (map_forallb _ _ _ _ HM) in Hm. unfold mask_b in Hm. cbn in Hm.
    apply orb_true_iff in Hm as [Hm | Hm].
    { apply live_b_ok in Hl. by rewrite Hl in Hm. }
    rewrite !andb_true_iff, forallb_forall in Hm. destruct Hm as [Hr Hi]. split; [lia |].
    intros i Hi'. assert (i ∈ seqZ 0 8) as Hin%list_elem_of_In by (apply elem_of_seqZ; lia).
    apply Hi, eqb_prop in Hin. rewrite Hin, negb_true_iff, bool_decide_eq_false. done.
  - intros t tk Ht. apply (map_forallb _ _ _ _ HT) in Ht. unfold tcb_b in Ht. cbn in Ht.
    rewrite andb_true_iff, bool_decide_eq_true in Ht. destruct Ht as [? Ht]. split; [done |].
    destruct (task_queue tk); [by apply bool_decide_eq_true in Ht | by apply unlinked_b].
Qed.
End decide.

(** ** The refinement at a concrete queue: tasks 1, 2 and 3 of priorities 1, 3, 3 *)

Definition demo_task (p : Z) : os_task_t :=
  Task p p TASKSTATE_READY None OS_TASKBLOCK_INVALID None None 0 0 0.
Definition demo_queues : kstate :=
  set_links (list_to_map (
      ((λ p, let a := L_bucket Q_ready p in (a, ListT (Some a) (Some a))) <$> seqZ 0 OS_CONFIG_PRIOCNT) ++
      ((λ t, let a := L_task t in (a, ListT (Some a) (Some a))) <$> [1; 2; 3]%nat)))
    (set_tasks (list_to_map [(1%nat, demo_task 1); (2%nat, demo_task 3); (3%nat, demo_task 3)]) kstate_reset).
Definition demo_buckets : list (laddr * list laddr) :=
  (λ p, (L_bucket Q_ready p, [])) <$> seqZ 0 OS_CONFIG_PRIOCNT.

Lemma taskqueue_refines_witness :
  let _ := avr_port in
  ∃ s', tq_run Q_ready [Tq_enqueue 1; Tq_enqueue 2; Tq_enqueue 3; Tq_reprio 1 3; Tq_peek; Tq_dequeue;
                        Tq_dequeue_prio 4; Tq_dequeue; Tq_dequeue; Tq_dequeue]%nat demo_queues =
    Done [None; None; None; None; Some 2; Some 2; None; Some 3; Some 1; None]%nat s'.
Proof.
  intros AP.
  destruct (taskqueue_refines Q_ready
    [Tq_enqueue 1; Tq_enqueue 2; Tq_enqueue 3; Tq_reprio 1 3; Tq_peek; Tq_dequeue;
     Tq_dequeue_prio 4; Tq_dequeue; Tq_dequeue; Tq_dequeue]%nat
    (Aqueue [] (list_to_map [(1%nat, 1); (2%nat, 3); (3%nat, 3)])) demo_queues
    [None; None; None; None; Some 2; Some 2; None; Some 3; Some 1; None]%nat
    (Aqueue [] (list_to_map [(1%nat, 3); (2%nat, 3); (3%nat, 3)]))) as (s' & Hs & _).
  - exists (list_to_map demo_buckets). split_and!.
    + apply queues_ok_b_ok. by vm_compute.
    + apply live_b_ok. by vm_compute.
    + by vm_compute.
    + intros t p [[= -> ->] | [[= -> ->] | [[= -> ->] | []%not_elem_of_nil]%elem_of_cons]%elem_of_cons]%elem_of_list_to_map_2%elem_of_cons;
        (split; [done | by eexists]).
  - by vm_compute.
  - by exists s'.
Defined.
