(* ===== verification/Timer.v ===== *)
(** * Timers (source/os_timer.c, os_blocktimer_* of source/os_private.h)

    The global list of armed timers, sorted by remaining ticks, the lazily
    applied tick count [timer_tick_unsynch], and the operations that arm,
    disarm and trigger timers. Callbacks are function pointers: the
    component takes the function that calls them as an argument. Loops take
    the number of iterations they may use as [fuel]. *)

From stdpp Require Import base decidable list countable gmap sorting.
From Stdlib Require Import ZArith Lia Sorted.
From S2P Require Import Prelude Arch LinkedList Kernel.

Local Open Scope Z_scope.

Section timer.
Context {AP : ArchPort}.

Definition OS_TICKS_MAX : Z := ARCH_TICKS_MAX.
Definition OS_TIMEOUT_INFINITE : Z := OS_TICKS_MAX.
Definition OS_TIMEOUT_TRY : Z := 0.
Definition OS_TIMER_UNSYNCH_MAX : Z := 1024.
Definition OS_TIMER_TICKSREM_MAX : Z := 65535 - OS_TIMER_UNSYNCH_MAX.
Definition OS_TIMER_MAGIC1 : Z := 43707.   (* 0xAABB *)
Definition OS_TIMER_MAGIC2 : Z := 52445.   (* 0xCCDD *)

(** Arithmetic on [os_ticks_t]. *)
Definition ticks_wrap (x : Z) : Z := x mod 2 ^ arch_ticks_bits.

Definition set_ticks_rem x t := Timer x (ticks_reload t) (clbck t) (param t) (magic t).
Definition set_ticks_reload x t := Timer (ticks_rem t) x (clbck t) (param t) (magic t).
Definition set_magic x t := Timer (ticks_rem t) (ticks_reload t) (clbck t) (param t) x.

(** [os_container_of(itr, os_timer_t, list)] *)
Definition timer_of_link (p : option laddr) : K tmid :=
  match p with Some (L_timer x) => mret x | _ => undefined end.

(** The storage of a [list_t] that the caller of the kernel provides. *)
Definition provide_link (a : laddr) : K unit := modify (λ s,
  match links s !! a with
  | Some _ => s
  | None => set_links (<[a := ListT None None]> (links s)) s
  end).

(** The loop of [timer_add]: the first timer that expires later. *)
Fixpoint timer_seek (fuel : nat) (add_timer : tmid) (itr : option laddr) : K (option laddr) :=
  match fuel with
  | O => nofuel
  | S fuel =>
      if list_itr_end (Some L_timer_list) itr then mret itr else
      itr_timer ← timer_of_link itr;
      it ← get_timer itr_timer;
      at_ ← get_timer add_timer;
      if ticks_rem it >? ticks_rem at_ then mret itr else
      itr ← read_links (get_next itr);
      timer_seek fuel add_timer itr
  end.

Definition timer_add (fuel : nat) (add_timer : tmid) : K unit :=
  itr ← read_links (list_itr_begin (Some L_timer_list));
  itr ← timer_seek fuel add_timer itr;
  on_links (list_put_before itr (Some (L_timer add_timer))).

Definition os_timers_init : K unit :=
  on_links (list_init (Some L_timer_list)).

(** [os_timer_create] up to its critical section, where interrupts may still come,
    the critical section, and the whole. *)
Definition os_timer_create_init (x : tmid) (cb : timer_proc_t) (pa : timer_param_t)
    (timeout_ticks reload_ticks : Z) : K unit :=
  OS_ASSERT (timeout_ticks >? 0);;
  OS_ASSERT (timeout_ticks <? OS_TIMER_TICKSREM_MAX);;
  tm ← get_timer x;
  OS_ASSERT (negb (magic tm =? OS_TIMER_MAGIC1));;
  provide_link (L_timer x);;
  on_links (list_init (Some (L_timer x)));;
  put_timer x (Timer timeout_ticks reload_ticks cb pa OS_TIMER_MAGIC1).
Definition os_timer_create_add (fuel : nat) (x : tmid) : K unit :=
  cristate ← arch_critical_enter;
  unsynch ← gets timer_tick_unsynch;
  tm ← get_timer x;
  put_timer x (set_ticks_rem (ticks_wrap (ticks_rem tm + unsynch)) tm);;
  timer_add fuel x;;
  arch_critical_exit cristate.
Definition os_timer_create (fuel : nat) (x : tmid) (cb : timer_proc_t) (pa : timer_param_t)
    (timeout_ticks reload_ticks : Z) : K unit :=
  os_timer_create_init x cb pa timeout_ticks reload_ticks;;
  os_timer_create_add fuel x.

Definition os_timer_destroy (x : tmid) : K unit :=
  tm ← get_timer x;
  OS_ASSERT ((magic tm =? OS_TIMER_MAGIC1) || (magic tm =? OS_TIMER_MAGIC2));;
  cristate ← arch_critical_enter;
  tm ← get_timer x;
  when (ticks_rem tm >? 0)
    (on_links (list_unlink (Some (L_timer x)));;
     put_timer x (set_ticks_reload 0 (set_ticks_rem 0 tm)));;
  tm ← get_timer x;
  put_timer x (set_magic OS_TIMER_MAGIC2 tm);;
  empty ← read_links (list_is_empty (Some L_timer_list));
  when empty (modify (set_unsynch 0));;
  arch_critical_exit cristate.

Definition os_ticks_now : K Z := gets ticks_cnt.

Definition os_ticks_diff (ticks_start ticks_end : Z) : Z :=
  if ticks_start >? ticks_end
  then ticks_wrap (ticks_wrap (ticks_wrap (OS_TICKS_MAX - ticks_start) + 1) + ticks_end)
  else ticks_wrap (ticks_end - ticks_start).

(** [os_blocktimer_create]/[os_blocktimer_destroy] of os_private.h *)
Definition os_blocktimer_create (fuel : nat) (x : tmid) (cb : timer_proc_t) (timeout_ticks : Z) : K unit :=
  c ← current;
  task ← get_task c;
  OS_SELFCHECK_ASSERT (bool_decide (timer task = None));;
  os_timer_create fuel x cb (Param_task c) timeout_ticks 0;;
  mod_task c (set_timer (Some x)).

Definition os_blocktimer_destroy (t : tid) : K unit :=
  task ← get_task t;
  match timer task with
  | Some x => os_timer_destroy x;; mod_task t (set_timer None)
  | None => mret tt
  end.

(** ** Triggering *)

Context (call_clbck : timer_proc_t → timer_param_t → K unit).

(** The loop of [timer_trigger] over the timer list. *)
Fixpoint timer_trigger_loop (fuel : nat) (itr : option laddr) : K unit :=
  match fuel with
  | O => nofuel
  | S fuel =>
      if list_itr_end (Some L_timer_list) itr then mret tt else
      itr_timer ← timer_of_link itr;
      itr ← read_links (get_next itr);
      unsynch ← gets timer_tick_unsynch;
      tm ← get_timer itr_timer;
      put_timer itr_timer (set_ticks_rem (ticks_wrap (ticks_rem tm - unsynch)) tm);;
      if ticks_wrap (ticks_rem tm - unsynch) >? 0 then timer_trigger_loop fuel itr else
      on_links (list_unlink (Some (L_timer itr_timer)));;
      tm ← get_timer itr_timer;
      call_clbck (clbck tm) (param tm);;
      tm ← get_timer itr_timer;
      when (ticks_reload tm >? 0)
        (on_links (list_append (Some L_autoreload) (Some (L_timer itr_timer))));;
      timer_trigger_loop fuel itr
  end.

(** The loop that re-arms the auto-reloaded timers. *)
Fixpoint timer_readd_loop (fuel : nat) : K unit :=
  match fuel with
  | O => nofuel
  | S fuel' =>
      itr ← on_links_ret (list_detachfirst (Some L_autoreload));
      match itr with
      | None => mret tt
      | Some _ =>
          itr_timer ← timer_of_link itr;
          tm ← get_timer itr_timer;
          put_timer itr_timer (set_ticks_rem (ticks_reload tm) tm);;
          timer_add fuel itr_timer;;
          timer_readd_loop fuel'
      end
  end.

Definition timer_trigger (fuel : nat) : K unit :=
  provide_link L_autoreload;;
  on_links (list_init (Some L_autoreload));;
  itr ← read_links (list_itr_begin (Some L_timer_list));
  timer_trigger_loop fuel itr;;
  modify (set_unsynch 0);;
  timer_readd_loop fuel.

End timer.

(** ** The timer list *)

(** Spec: insertion behind the timers that expire no later. *)
Fixpoint timer_insert (rem : tmid → Z) (x : tmid) (xs : list tmid) : list tmid :=
  match xs with
  | [] => [x]
  | y :: ys => if rem y >? rem x then x :: y :: ys else y :: timer_insert rem x ys
  end.

Definition timer_of (a : laddr) : option tmid := match a with L_timer x => Some x | _ => None end.
(** The armed timers, in the order of the list. *)
Definition armed (A : gmap laddr (list laddr)) : list tmid :=
  omap timer_of (default [] (A !! L_timer_list)).
Definition set_armed (A : gmap laddr (list laddr)) (xs : list tmid) :=
  <[L_timer_list := L_timer <$> xs]> A.
Definition timer_at (s : kstate) (x : tmid) : os_timer_t := default timer_zero (timers s !! x).
(** The content of [ticks_rem]. *)
Definition rem (s : kstate) (x : tmid) : Z := ticks_rem (timer_at s x).
(** Ticks until the timer fires, the lazily counted ones taken off. *)
Definition remaining (s : kstate) (x : tmid) : Z := rem s x - timer_tick_unsynch s.

(** [x] was initialised by [os_timer_create], which has still to add it to the list:
    its link is an empty list of its own, as [list_init] leaves it. Only timers of
    the user are created with interrupts enabled. *)
Definition pending (A : gmap laddr (list laddr)) (s : kstate) (x : tmid) : Prop :=
  A !! L_timer x = Some [] ∧ (∃ n, x = TmUser n) ∧ magic (timer_at s x) = OS_TIMER_MAGIC1 ∧
  0 < rem s x < OS_TIMER_TICKSREM_MAX.

(** The list holds exactly the armed timers, soonest first, each with at least
    [d] ticks to go. *)
Record timers_wf {AP : ArchPort} {d : Z} (A : gmap laddr (list laddr)) (s : kstate) : Prop := {
  to_list : A !! L_timer_list = Some (L_timer <$> armed A);
  to_sorted : StronglySorted (λ x y, rem s x ≤ rem s y) (armed A);
  to_armed : ∀ x, x ∈ armed A →
    timer_tick_unsynch s + d ≤ rem s x ≤ OS_TICKS_MAX ∧ magic (timer_at s x) = OS_TIMER_MAGIC1;
  to_idle : ∀ x, x ∉ armed A → (rem s x = 0 ∧ unlinked A (L_timer x)) ∨ pending A s x;
  to_reload : ∀ x, 0 ≤ ticks_reload (timer_at s x) ≤ OS_TICKS_MAX;
  to_unsynch : 0 ≤ timer_tick_unsynch s ≤ OS_TIMER_UNSYNCH_MAX + 1 - d;
  to_empty : armed A = [] → timer_tick_unsynch s = 0
}.
(** The invariant between kernel calls. *)
Abbreviation timers_ok := (timers_wf (d := 1)).

Section facts.
Context {AP : ArchPort} {APOK : ArchPortOk AP}.
Implicit Types (A : gmap laddr (list laddr)) (s : kstate) (x y : tmid).

#[export] Instance L_timer_inj : Inj (=) (=) L_timer.
Proof. by intros ? ? [=]. Qed.

Lemma omap_timer_of (xs : list tmid) : omap timer_of (L_timer <$> xs) = xs.
Proof. induction xs; cbn; [done | by f_equal]. Qed.

Lemma armed_set_armed A xs : armed (set_armed A xs) = xs.
Proof. unfold armed, set_armed. rewrite lookup_insert_eq. apply omap_timer_of. Qed.

Lemma elem_of_L_timer x (xs : list tmid) : L_timer x ∈ (L_timer <$> xs) ↔ x ∈ xs.
Proof. by rewrite (list_elem_of_fmap_inj L_timer). Qed.

Lemma timer_insert_split (rm : tmid → Z) x xs :
  ∃ l r, xs = l ++ r ∧ timer_insert rm x xs = l ++ x :: r ∧
    Forall (λ y, rm y ≤ rm x) l ∧ ∀ y, head r = Some y → rm x < rm y.
Proof.
  induction xs as [| y ys (l & r & -> & Hi & Hl & Hr)]; cbn.
  - exists [], []. by split_and!.
  - destruct (Z.gtb_spec (rm y) (rm x)) as [Hgt | Hle].
    + exists [], (y :: l ++ r). split_and!; auto. by intros ? [= <-].
    + exists (y :: l), r. rewrite Hi. split_and!; auto.
Qed.

Lemma timer_insert_perm (rm : tmid → Z) x xs : timer_insert rm x xs ≡ₚ x :: xs.
Proof.
  destruct (timer_insert_split rm x xs) as (l & r & -> & -> & _). by rewrite Permutation_middle.
Qed.

Lemma elem_of_timer_insert (rm : tmid → Z) x y xs : y ∈ timer_insert rm x xs ↔ y = x ∨ y ∈ xs.
Proof. by rewrite (timer_insert_perm rm x xs), elem_of_cons. Qed.

Lemma timer_insert_sorted (rm : tmid → Z) x xs :
  StronglySorted (λ x y, rm x ≤ rm y) xs → StronglySorted (λ x y, rm x ≤ rm y) (timer_insert rm x xs).
Proof.
  induction 1 as [| y ys Hs IH Hy]; cbn; [repeat constructor |].
  destruct (Z.gtb_spec (rm y) (rm x)) as [Hgt | Hle].
  - constructor; [by constructor |]. constructor; [lia |].
    eapply Forall_impl; [exact Hy |]. cbn. lia.
  - constructor; [done |]. rewrite timer_insert_perm. by constructor.
Qed.

Lemma StronglySorted_ext (r1 r2 : tmid → Z) xs : (∀ x, x ∈ xs → r2 x = r1 x) →
  StronglySorted (λ x y, r1 x ≤ r1 y) xs → StronglySorted (λ x y, r2 x ≤ r2 y) xs.
Proof.
  intros Hr Hs. induction Hs as [| y ys Hs IH Hy]; [constructor |].
  constructor; [apply IH; intros; apply Hr; by apply list_elem_of_further |].
  rewrite Forall_forall in Hy |- *. intros z Hz.
  rewrite (Hr y), (Hr z) by (rewrite elem_of_cons; auto). auto.
Qed.

Lemma StronglySorted_impl (R1 R2 : tmid → tmid → Prop) xs : (∀ x y, R1 x y → R2 x y) →
  StronglySorted R1 xs → StronglySorted R2 xs.
Proof.
  induction 2 as [| y ys Hs IH Hy]; [constructor |]. constructor; [done |].
  eapply Forall_impl; [exact Hy |]. auto.
Qed.

Lemma StronglySorted_filter (R : tmid → tmid → Prop) (P : tmid → Prop) `{∀ x, Decision (P x)} xs :
  StronglySorted R xs → StronglySorted R (filter P xs).
Proof.
  induction 1 as [| y ys Hs IH Hy]; [constructor |]. rewrite filter_cons. case_decide; [| done].
  constructor; [done |]. rewrite Forall_forall in Hy |- *. intros z [_ Hz]%list_elem_of_filter. auto.
Qed.

Lemma timer_insert_mono (r1 r2 : tmid → Z) x xs :
  (∀ y z, r1 y > r1 z ↔ r2 y > r2 z) → timer_insert r1 x xs = timer_insert r2 x xs.
Proof.
  intros Hr. induction xs as [| y ys IH]; cbn; [done |]. rewrite IH. pose proof (Hr y x).
  destruct (Z.gtb_spec (r1 y) (r1 x)), (Z.gtb_spec (r2 y) (r2 x)); (done || lia).
Qed.

Lemma timer_insert_ext (r1 r2 : tmid → Z) x xs :
  (∀ y, y ∈ x :: xs → r1 y = r2 y) → timer_insert r1 x xs = timer_insert r2 x xs.
Proof.
  induction xs as [| y ys IH]; intros Hr; cbn; [done |].
  rewrite (Hr x), (Hr y) by (rewrite !elem_of_cons; auto).
  destruct (r2 y >? r2 x); [done |]. f_equal. apply IH. intros z Hz. apply Hr.
  rewrite !elem_of_cons in *. tauto.
Qed.

(** The seek loop stops at the insertion point. *)
Lemma timer_seek_spec A s x fuel dn rest :
  repr (links s) A → A !! L_timer_list = Some (L_timer <$> dn ++ rest) → (length rest < fuel)%nat →
  ∃ l r, rest = l ++ r ∧ timer_insert (rem s) x rest = l ++ x :: r ∧
    timer_seek fuel x (Some (hdd (L_timer <$> rest) L_timer_list)) s =
    Done (Some (hdd (L_timer <$> r) L_timer_list)) s.
Proof.
  intros HR. revert dn rest. induction fuel as [| fuel IH]; intros dn rest HA Hf; [lia |].
  destruct rest as [| y rest]; cbn [timer_seek].
  - exists [], []. unfold list_itr_end. cbn. by rewrite bool_decide_true.
  - unfold list_itr_end. cbn [fmap list_fmap hdd]. rewrite bool_decide_false by done.
    cbn [timer_of_link]. erewrite bind_Done by done. cbn beta.
    erewrite bind_Done by done. cbn beta. erewrite bind_Done by done. cbn beta.
    cbn [timer_insert]. change (default timer_zero (timers s !! y)) with (timer_at s y).
    change (default timer_zero (timers s !! x)) with (timer_at s x). fold (rem s y) (rem s x).
    destruct (rem s y >? rem s x).
    + exists [], (y :: rest). done.
    + erewrite bind_Done.
      2:{ apply read_links_Some. rewrite fmap_app, fmap_cons in HA. eapply repr_next; eauto. }
      destruct (IH (dn ++ [y]) rest) as (l & r & -> & Hi & Hs).
      { by rewrite <- app_assoc. }
      { cbn in Hf. lia. }
      exists (y :: l), r. rewrite Hi. split_and!; [done.. |]. exact Hs.
Qed.

Lemma timer_add_spec A s x fuel xs :
  repr (links s) A → A !! L_timer_list = Some (L_timer <$> xs) → (length xs < fuel)%nat →
  unlinked A (L_timer x) → is_Some (links s !! L_timer x) →
  ∃ h, timer_add fuel x s = Done tt (set_links h s) ∧
    repr h (set_armed A (timer_insert (rem s) x xs)) ∧ same_dom h (links s).
Proof.
  intros HR HA Hf Hu Hd. unfold timer_add.
  erewrite bind_Done by (apply read_links_Some; by eapply repr_begin).
  destruct (timer_seek_spec A s x fuel [] xs HR HA Hf) as (l & r & -> & Hi & Hs).
  erewrite bind_Done by exact Hs.
  rewrite fmap_app in HA.
  destruct (list_put_before_repr (links s) A L_timer_list _ _ (L_timer x) HR HA Hu Hd)
    as (h & Hp & HR' & Hd').
  exists h. split_and!; [by apply on_links_Some | | done].
  unfold set_armed. by rewrite Hi, fmap_app, fmap_cons.
Qed.

Lemma ticks_wrap_id v : 0 ≤ v ≤ 65535 → ticks_wrap v = v.
Proof.
  intros Hv. unfold ticks_wrap. apply Z.mod_small. split; [lia |].
  apply Z.lt_le_trans with (2 ^ 16); [cbn; lia |]. apply Z.pow_le_mono_r; [lia | apply ticks_wide].
Qed.

Lemma ticks_max_val : OS_TICKS_MAX = 65535.
Proof. apply ticks_max. Qed.

(** Storage for a link, initialised to an unlinked element. *)
Lemma provide_init {B} a s (k : K B) :
  (provide_link a;; on_links (list_init (Some a));; k) s =
  k (set_links (<[a := ListT (Some a) (Some a)]> (links s)) s).
Proof.
  unfold provide_link. destruct (links s !! a) as [n |] eqn:E.
  - erewrite bind_Done by (unfold modify; by rewrite E).
    erewrite bind_Done by (apply on_links_Some, list_init_eq; rewrite E; eauto). done.
  - erewrite bind_Done by (unfold modify; by rewrite E).
    erewrite bind_Done by (apply on_links_Some, list_init_eq; cbn; rewrite lookup_insert_eq; eauto).
    cbn. by rewrite insert_insert_eq.
Qed.

Lemma timer_at_insert s m x y tm : timers s = <[x := tm]> m →
  timer_at s y = if decide (y = x) then tm else default timer_zero (m !! y).
Proof. unfold timer_at. intros ->. rewrite lookup_insert. by decide_all. Qed.

Lemma not_armed A s x : timers_ok A s → magic (timer_at s x) ≠ OS_TIMER_MAGIC1 → x ∉ armed A.
Proof. intros HT Hm Hx. by apply (to_armed _ _ HT) in Hx as [_ ?]. Qed.

(** Unlinked elements stay unlinked when the timer list gets timers among [xs]. *)
Lemma unlinked_set_armed A xs a : a ≠ L_timer_list → (∀ x, x ∈ xs → a ≠ L_timer x) →
  unlinked A a → unlinked (set_armed A xs) a.
Proof.
  intros Ha Hx Hu. apply unlinked_insert_ne; [done |]. rewrite not_elem_of_cons. split; [done |].
  intros (x & -> & Hin)%list_elem_of_fmap. by eapply Hx.
Qed.

(** A timer that is not armed stays so when the timer list changes. *)
Lemma idle_set_armed A s s' xs y : timer_at s' y = timer_at s y → y ∉ xs →
  (rem s y = 0 ∧ unlinked A (L_timer y)) ∨ pending A s y →
  (rem s' y = 0 ∧ unlinked (set_armed A xs) (L_timer y)) ∨ pending (set_armed A xs) s' y.
Proof.
  intros Hat Hy [[Hr Hu] | (Hl & Hn & Hm)]; [left | right].
  - unfold rem. rewrite Hat. split; [exact Hr |]. apply unlinked_set_armed; [done | | done]. by intros z Hz [= ->].
  - unfold pending, rem. rewrite Hat. split; [| done]. unfold set_armed. by rewrite lookup_insert_ne.
Qed.

(** A timer that is neither armed nor being created. *)
Lemma idle_timer A s x : timers_ok A s → magic (timer_at s x) ≠ OS_TIMER_MAGIC1 → rem s x = 0 ∧ unlinked A (L_timer x).
Proof.
  intros HT Hm. destruct (to_idle _ _ HT x) as [? | (_ & _ & ? & _)]; [by eapply not_armed | done | done].
Qed.

(** *** Creating a timer: the part with interrupts enabled, and the critical section *)

Lemma timer_create_init_run x cb pa timeout reload s :
  0 < timeout < OS_TIMER_TICKSREM_MAX → magic (timer_at s x) ≠ OS_TIMER_MAGIC1 →
  os_timer_create_init x cb pa timeout reload s =
  Done tt (set_timers (<[x := Timer timeout reload cb pa OS_TIMER_MAGIC1]> (timers s))
    (set_links (<[L_timer x := ListT (Some (L_timer x)) (Some (L_timer x))]> (links s)) s)).
Proof.
  intros Ht Hm. unfold os_timer_create_init, OS_ASSERT.
  rewrite (proj2 (Z.gtb_lt timeout 0)), (proj2 (Z.ltb_lt timeout _)) by lia.
  do 2 erewrite bind_Done by done. erewrite bind_Done by done. cbn beta.
  change (default timer_zero (timers s !! x)) with (timer_at s x).
  rewrite (proj2 (Z.eqb_neq _ _) Hm). cbn [negb]. erewrite bind_Done by done.
  by rewrite provide_init.
Qed.

Lemma timer_create_add_run A s fuel x :
  repr (links s) A → A !! L_timer_list = Some (L_timer <$> armed A) → unlinked A (L_timer x) →
  is_Some (links s !! L_timer x) → 0 ≤ rem s x + timer_tick_unsynch s ≤ 65535 → (length (armed A) < fuel)%nat →
  ∃ h, let s' := set_timers (<[x := set_ticks_rem (rem s x + timer_tick_unsynch s) (timer_at s x)]> (timers s)) (set_links h s) in
    os_timer_create_add fuel x s = Done tt s' ∧
    repr h (set_armed A (timer_insert (rem s') x (armed A))) ∧ same_dom h (links s).
Proof.
  intros HR HA Hu Hd Hr Hf. unfold os_timer_create_add.
  do 2 erewrite bind_Done by done. cbn beta. erewrite bind_Done by done. cbn beta. erewrite bind_Done by done.
  match goal with |- context [(timer_add fuel x ≫= ?f) ?S] => set (s1 := S) end.
  assert (s1 = set_timers (<[x := set_ticks_rem (rem s x + timer_tick_unsynch s) (timer_at s x)]> (timers s)) (set_dint true s)) as Hs1.
  { subst s1. unfold set_timers; cbn. do 3 f_equal. by apply ticks_wrap_id. }
  destruct (timer_add_spec A s1 x fuel (armed A)) as (h & Ha & HR' & Hd'); [by rewrite Hs1 | done | done | done | by rewrite Hs1 |].
  erewrite bind_Done by exact Ha. exists h. cbn zeta. rewrite Hs1 in HR', Hd' |- *. split_and!; done.
Qed.

Lemma os_timer_create_run A s fuel x cb pa timeout reload :
  repr (links s) A → timers_ok A s →
  0 < timeout < OS_TIMER_TICKSREM_MAX → magic (timer_at s x) ≠ OS_TIMER_MAGIC1 →
  (length (armed A) < fuel)%nat →
  ∃ h, let s' := set_timers (<[x := Timer (timeout + timer_tick_unsynch s) reload cb pa OS_TIMER_MAGIC1]>
         (timers s)) (set_links h s) in
    os_timer_create fuel x cb pa timeout reload s = Done tt s' ∧
    repr h (set_armed A (timer_insert (rem s') x (armed A))) ∧
    (∀ a, is_Some (links s !! a) → is_Some (h !! a)).
Proof.
  intros HR HT Ht Hm Hf. destruct (idle_timer _ _ _ HT Hm) as [_ Hu]. pose proof (to_unsynch _ _ HT) as Hun.
  unfold os_timer_create. erewrite bind_Done by (by apply timer_create_init_run). set (s1 := set_timers _ _).
  assert (timer_at s1 x = Timer timeout reload cb pa OS_TIMER_MAGIC1) as Hat.
  { unfold s1, timer_at. cbn. by rewrite lookup_insert_eq. }
  unfold OS_TIMER_TICKSREM_MAX, OS_TIMER_UNSYNCH_MAX in *.
  destruct (timer_create_add_run A s1 fuel x) as (h & Hrun & HR' & Hd); try done.
  - by apply repr_store.
  - apply (to_list _ _ HT).
  - cbn. rewrite lookup_insert_eq. eauto.
  - unfold rem. rewrite Hat. cbn. lia.
  - exists h. unfold rem in Hrun, HR'. rewrite Hat in Hrun, HR'. cbn in Hrun, HR'. rewrite insert_insert_eq in Hrun.
    cbn zeta. unfold rem. cbn. split_and!; [exact Hrun | by rewrite insert_insert_eq in HR' |].
    intros a Ha. apply Hd. cbn. rewrite lookup_insert. case_decide; eauto.
Qed.

Lemma timers_ok_create A s x cb pa timeout reload h :
  let s' := set_timers (<[x := Timer (timeout + timer_tick_unsynch s) reload cb pa OS_TIMER_MAGIC1]>
         (timers s)) (set_links h s) in
  timers_ok A s → 0 < timeout < OS_TIMER_TICKSREM_MAX → magic (timer_at s x) ≠ OS_TIMER_MAGIC1 →
  0 ≤ reload ≤ OS_TICKS_MAX →
  timers_ok (set_armed A (timer_insert (rem s') x (armed A))) s'.
Proof.
  intros s' HT Ht Hm Hr. pose proof (not_armed _ _ _ HT Hm) as Hx.
  pose proof (to_unsynch _ _ HT) as Hu. pose proof ticks_max_val as Hmax.
  assert (∀ y, timer_at s' y = if decide (y = x) then
    Timer (timeout + timer_tick_unsynch s) reload cb pa OS_TIMER_MAGIC1 else timer_at s y) as Hat.
  { intros y. by apply timer_at_insert. }
  assert (∀ y, y ∈ armed A → rem s' y = rem s y) as Hrem.
  { intros y Hy. unfold rem. rewrite Hat, decide_False; [done |]. by intros ->. }
  unfold OS_TIMER_TICKSREM_MAX, OS_TIMER_UNSYNCH_MAX in *.
  split; rewrite ?armed_set_armed.
  - apply lookup_insert_eq.
  - apply timer_insert_sorted. apply (StronglySorted_ext (rem s)); [done | apply (to_sorted _ _ HT)].
  - intros y Hy. apply elem_of_timer_insert in Hy. unfold rem. rewrite Hat.
    destruct (decide (y = x)) as [-> | Hne]; [cbn; split; [lia | done] |].
    destruct Hy as [? | Hy]; [done |]. by apply (to_armed _ _ HT).
  - intros y Hin. assert (y ≠ x ∧ y ∉ armed A) as [Hne Hy] by (rewrite elem_of_timer_insert in Hin; tauto).
    apply (idle_set_armed A s); [by rewrite Hat, decide_False | by intros Hin2%elem_of_timer_insert; tauto | by apply (to_idle _ _ HT)].
  - intros y. rewrite Hat. case_decide; [done | apply (to_reload _ _ HT)].
  - done.
  - intros Hn. exfalso. pose proof (timer_insert_perm (rem s') x (armed A)) as Hp. rewrite Hn in Hp.
    by apply Permutation_nil_cons in Hp.
Qed.

(** *** Disarming *)

Lemma set_armed_id A : A !! L_timer_list = Some (L_timer <$> armed A) → set_armed A (armed A) = A.
Proof. intros HA. by apply insert_id. Qed.

Lemma armed_NoDup {d} A s : repr (links s) A → timers_wf (d := d) A s → NoDup (armed A).
Proof.
  intros HR HT. pose proof (repr_nodup _ _ HR _ _ (to_list _ _ HT)) as [_ Hn]%NoDup_cons.
  by apply NoDup_fmap in Hn; [| apply _].
Qed.

(** What [os_timer_destroy] leaves of a timer. *)
Definition destroyed (tm : os_timer_t) : os_timer_t :=
  set_magic OS_TIMER_MAGIC2 (if ticks_rem tm >? 0 then set_ticks_reload 0 (set_ticks_rem 0 tm) else tm).

(** Unlinking an element that is on no list, as [list_init] leaves it, does nothing. *)
Lemma unlink_alone (h : gmap laddr (list_t laddr)) A a : repr h A → A !! a = Some [] → list_unlink (Some a) h = Some h.
Proof.
  intros HR HA. destruct (repr_chain _ _ HR _ _ HA) as [Hn Hp]. cbn in Hn, Hp. unfold nx, pv in *.
  destruct (h !! a) as [[n p] |] eqn:E; [| done]. cbn in *. subst.
  unfold list_unlink, list_connect_together, get_prev, get_next, set_prev, set_next. cbn. rewrite E. cbn.
  rewrite E. cbn. repeat (rewrite lookup_insert_eq; cbn).
  by rewrite !insert_insert_eq, insert_id.
Qed.

(** Only a timer that is being created is the head of a list. *)
Lemma armed_no_head h A x : repr h A → A !! L_timer_list = Some (L_timer <$> armed A) → x ∈ armed A → A !! L_timer x = None.
Proof.
  intros HR HA Hx. destruct (A !! L_timer x) as [ys |] eqn:E; [exfalso | done].
  assert (L_timer x = L_timer_list); [| done]. eapply (repr_disj _ _ HR); [exact E | exact HA | apply list_elem_of_here |].
  by apply list_elem_of_further, elem_of_L_timer.
Qed.

Lemma not_head A s x : repr (links s) A → timers_ok A s → ¬ pending A s x → A !! L_timer x = None.
Proof.
  intros HR HT Hp. destruct (A !! L_timer x) as [ys |] eqn:E; [exfalso | done].
  destruct (decide (x ∈ armed A)) as [Hx | Hx].
  - by rewrite (armed_no_head _ _ _ HR (to_list _ _ HT) Hx) in E.
  - destruct (to_idle _ _ HT _ Hx) as [[_ Hu] | ?]; [| done]. by apply (Hu _ _ E), list_elem_of_here.
Qed.

(** Memory without the empty list of a timer that is being created. *)
Definition settled (A : gmap laddr (list laddr)) x : gmap laddr (list laddr) := delete (L_timer x) A.
Lemma settled_id A x : A !! L_timer x = None → settled A x = A.
Proof. apply delete_id. Qed.
Lemma armed_settled A x : armed (settled A x) = armed A.
Proof. unfold armed, settled. by rewrite lookup_delete_ne. Qed.
Lemma settled_unlinked A s x : repr (links s) A → x ∉ armed A → timers_ok A s → unlinked (settled A x) (L_timer x).
Proof.
  intros HR Hx HT hd ys Hd Hin. unfold settled in Hd. apply lookup_delete_Some in Hd as [Hne Hy]. destruct (to_idle _ _ HT _ Hx) as [[_ Hu] | (Hh & _)]; [by apply (Hu _ _ Hy) |].
  apply Hne. by eapply (repr_disj _ _ HR _ _ _ _ _ Hh Hy (list_elem_of_here _ _)).
Qed.

Lemma os_timer_destroy_run A s x :
  repr (links s) A → timers_ok A s →
  magic (timer_at s x) = OS_TIMER_MAGIC1 ∨ magic (timer_at s x) = OS_TIMER_MAGIC2 →
  ∃ h, let xs := filter (.≠ x) (armed A) in
    let s' := set_unsynch (if bool_decide (xs = []) then 0 else timer_tick_unsynch s)
      (set_timers (<[x := destroyed (timer_at s x)]> (timers s)) (set_links h s)) in
    os_timer_destroy x s = Done tt s' ∧ repr h (set_armed (settled A x) xs) ∧ same_dom h (links s).
Proof.
  intros HR HT Hm. pose proof (to_list _ _ HT) as HA. pose proof (armed_NoDup _ _ HR HT) as Hn.
  unfold os_timer_destroy. erewrite bind_Done by done. cbn beta.
  change (default timer_zero (timers s !! x)) with (timer_at s x).
  assert ((magic (timer_at s x) =? OS_TIMER_MAGIC1) || (magic (timer_at s x) =? OS_TIMER_MAGIC2) = true) as ->
    by (destruct Hm as [-> | ->]; done).
  unfold OS_ASSERT. do 3 erewrite bind_Done by done. cbn beta.
  change (default timer_zero _) with (timer_at s x).
  destruct (decide (x ∈ armed A)) as [Hx | Hx].
  - pose proof (to_armed _ _ HT _ Hx) as [Hr _]. pose proof (to_unsynch _ _ HT) as Hu.
    rewrite settled_id by (by eapply armed_no_head).
    apply list_elem_of_split in Hx as (l & r & Hlr). rewrite Hlr, fmap_app, fmap_cons in HA.
    destruct (list_unlink_repr (links s) A _ _ _ _ HR HA) as (h & Hul & HR' & Hd & _).
    rewrite <- fmap_app in HR'.
    assert (filter (.≠ x) (armed A) = l ++ r) as Hfil by (rewrite Hlr in Hn |- *; by apply filter_ne_split).
    exists h. cbn zeta. rewrite Hfil. split_and!; [| done..].
    fold (rem s x). rewrite (proj2 (Z.gtb_lt (rem s x) 0)) by lia. cbn [when].
    erewrite bind_Done by (erewrite bind_Done by (by apply on_links_Some); done).
    do 2 erewrite bind_Done by done. cbn beta.
    erewrite bind_Done by (apply read_links_Some; eapply list_is_empty_repr; [exact HR' | apply lookup_insert_eq]).
    rewrite (bool_decide_ext (L_timer <$> l ++ r = []) (l ++ r = [])) by (by destruct (l ++ r)).
    unfold destroyed. fold (rem s x). rewrite (proj2 (Z.gtb_lt (rem s x) 0)) by lia.
    cbn. rewrite lookup_insert_eq, insert_insert_eq. by destruct (bool_decide _).
  - assert (filter (.≠ x) (armed A) = armed A) as Hfil by (by apply filter_ne_id).
    exists (links s). cbn zeta. rewrite Hfil, <- (armed_settled A x), set_armed_id by (rewrite armed_settled; unfold settled; by rewrite lookup_delete_ne).
    rewrite armed_settled. split_and!; [| by apply repr_delete | done].
    assert (ticks_rem (timer_at s x) > 0 → list_unlink (Some (L_timer x)) (links s) = Some (links s)) as Hul.
    { intros Hp. destruct (to_idle _ _ HT _ Hx) as [[Hr _] | (Hh & _)]; [unfold rem in Hr; lia | by apply (unlink_alone _ A)]. }
    assert (∀ s1, links s1 = links s → read_links (list_is_empty (Some L_timer_list)) s1 = Done (bool_decide (armed A = [])) s1) as Hemp.
    { intros s1 Hs1. apply read_links_Some. rewrite Hs1. etransitivity; [eapply list_is_empty_repr; [exact HR | exact HA] |].
      f_equal. apply bool_decide_ext. by destruct (armed A). }
    unfold destroyed. destruct (Z.gtb_spec (ticks_rem (timer_at s x)) 0) as [Hp | Hp]; cbn [when].
    + erewrite bind_Done by (erewrite bind_Done by (by apply on_links_Some, Hul; lia); done).
      do 2 erewrite bind_Done by done. cbn beta. erewrite bind_Done by (by apply Hemp).
      cbn [timers set_timers set_links]. rewrite lookup_insert_eq. cbn. rewrite insert_insert_eq. by destruct (bool_decide _).
    + do 3 erewrite bind_Done by done. cbn beta. erewrite bind_Done by (by apply Hemp). by destruct (bool_decide _), s.
Qed.

Lemma timers_ok_destroy A s x h :
  repr (links s) A → timers_ok A s → let xs := filter (.≠ x) (armed A) in
  timers_ok (set_armed (settled A x) xs)
    (set_unsynch (if bool_decide (xs = []) then 0 else timer_tick_unsynch s)
      (set_timers (<[x := destroyed (timer_at s x)]> (timers s)) (set_links h s))).
Proof.
  intros HR HT xs. set (s' := set_unsynch _ _). pose proof (to_unsynch _ _ HT) as Hu.
  assert (∀ y, timer_at s' y = if decide (y = x) then destroyed (timer_at s x) else timer_at s y) as Hat.
  { intros y. by apply timer_at_insert. }
  assert (∀ y, y ∈ xs ↔ y ≠ x ∧ y ∈ armed A) as Hxs by (intros y; unfold xs; by rewrite list_elem_of_filter).
  assert (∀ y, y ≠ x → rem s' y = rem s y) as Hrem by (intros y Hy; unfold rem; by rewrite Hat, decide_False).
  assert (rem s' x = 0) as Hx0.
  { unfold rem. rewrite Hat, decide_True by done. unfold destroyed.
    destruct (Z.gtb_spec (ticks_rem (timer_at s x)) 0) as [|Hle]; [done |]. cbn.
    destruct (decide (x ∈ armed A)) as [Hin | Hin]; [apply (to_armed _ _ HT) in Hin; unfold rem in Hin; lia |].
    apply (to_idle _ _ HT) in Hin as [[? _] | (_ & _ & _ & Hp)]; [done | unfold rem in Hp; lia]. }
  split; rewrite ?armed_set_armed.
  - apply lookup_insert_eq.
  - apply (StronglySorted_ext (rem s)); [intros y [? _]%Hxs; by apply Hrem |].
    apply StronglySorted_filter, (to_sorted _ _ HT).
  - intros y [Hne Hy]%Hxs. destruct (to_armed _ _ HT _ Hy) as [? ?]. rewrite Hrem by done.
    rewrite Hat, decide_False by done. cbn. split; [| done]. case_bool_decide; lia.
  - intros y Hy. destruct (decide (y = x)) as [-> | Hne].
    + left. split; [done |]. destruct (decide (x ∈ armed A)) as [Hin | Hin].
      * intros hd ys. unfold set_armed, settled. rewrite lookup_insert. case_decide as Hd.
        { intros [= <-] [? | [? _]%elem_of_L_timer%Hxs]%elem_of_cons; [by subst | done]. }
        intros [_ Hys]%lookup_delete_Some Hin2. apply Hd. eapply (repr_disj _ _ HR); [apply (to_list _ _ HT) | exact Hys | | exact Hin2].
        by apply list_elem_of_further, elem_of_L_timer.
      * apply unlinked_set_armed; [done | by intros z [? _]%Hxs [= ->] |]. by apply (settled_unlinked _ s).
    + apply (idle_set_armed _ s); [by rewrite Hat, decide_False | done |]. assert (y ∉ armed A) as Hin by (intros ?; by apply Hy, Hxs).
      destruct (to_idle _ _ HT _ Hin) as [[? Hun] | (Hh & ?)]; [left | right].
      * split; [done |]. eapply unlinked_subseteq; [apply delete_subseteq | done].
      * split; [| done]. unfold settled. rewrite lookup_delete_ne; [done |]. by intros [= ->].
  - intros y. rewrite Hat. case_decide; [| apply (to_reload _ _ HT)].
    pose proof (to_reload _ _ HT x). unfold destroyed. destruct (_ >? 0); cbn; lia.
  - cbn. case_bool_decide; [unfold OS_TIMER_UNSYNCH_MAX; lia | done].
  - cbn. intros ->. done.
Qed.
End facts.

(** ** Triggering: what the timer component asks of callbacks *)

(** Everything but the timers, the tick counters and the memory of lists. *)
Definition same_kernel (s s' : kstate) : Prop :=
  masks s' = masks s ∧ tasks s' = tasks s ∧ sems s' = sems s ∧ mtxs s' = mtxs s ∧
  task_current s' = task_current s ∧ isr_nesting s' = isr_nesting s ∧
  sched_lock s' = sched_lock s ∧ waitqueue_current s' = waitqueue_current s.
(** The state of the timer component. *)
Definition same_timers (s s' : kstate) : Prop :=
  timers s' = timers s ∧ timer_tick_unsynch s' = timer_tick_unsynch s ∧
  ticks_cnt s' = ticks_cnt s ∧ dint s' = dint s.

(** Timer [y] is on no list, but for an empty one of its own. *)
Definition off (A : gmap laddr (list laddr)) (y : tmid) : Prop :=
  unlinked A (L_timer y) ∨ A !! L_timer y = Some [].
Lemma off_insert_ne A hd xs y : off A y → L_timer y ∉ hd :: xs → off (<[hd := xs]> A) y.
Proof.
  intros [Hu | Hh] Hy; [left; by apply unlinked_insert_ne | right].
  rewrite lookup_insert_ne; [done |]. intros ->. by apply Hy, list_elem_of_here.
Qed.
(** Every timer is on the timer list, on the auto-reload list or on no list. *)
Definition located (A : gmap laddr (list laddr)) (xs ar : list tmid) : Prop :=
  A !! L_timer_list = Some (L_timer <$> xs) ∧ A !! L_autoreload = Some (L_timer <$> ar) ∧
  ∀ y, y ∉ xs → y ∉ ar → off A y.

(** Timers as before but for their counts. *)
Definition same_but_counts (s s' : kstate) : Prop :=
  ∀ x, ∃ c, timer_at s' x = set_ticks_rem c (timer_at s x).

(** The interface between the timer component and the owners of callbacks.
    [P]: the timers that may fire. [Inv fired A s] is what callbacks rely on
    and establish once the callbacks of the timers [fired] have been called, in
    that order. It must not depend on the counts and the lists of timers, and a
    callback leaves the timers alone. *)
Class TimerClient (call_clbck : timer_proc_t → timer_param_t → K unit) (P : tmid → Prop)
    (Inv : list tmid → gmap laddr (list laddr) → kstate → Prop) : Prop := {
  client_frame : ∀ fired A s A' s',
    Inv fired A s → same_kernel s s' → same_but_counts s s' → repr (links s') A' →
    (∀ a, is_Some (links s !! a) → is_Some (links s' !! a)) →
    (∀ hd, hd ≠ L_timer_list → hd ≠ L_autoreload → A' !! hd = A !! hd) →
    (∀ hd xs, hd = L_timer_list ∨ hd = L_autoreload → A' !! hd = Some xs →
      ∃ ts, xs = L_timer <$> ts) →
    Inv fired A' s';
  client_call : ∀ fired A s x,
    P x → x ∉ fired → Inv fired A s → repr (links s) A → unlinked A (L_timer x) →
    ∃ A' s', call_clbck (clbck (timer_at s x)) (param (timer_at s x)) s = Done tt s' ∧
      Inv (fired ++ [x]) A' s' ∧ repr (links s') A' ∧ same_timers s s' ∧
      A' !! L_timer_list = A !! L_timer_list ∧ A' !! L_autoreload = A !! L_autoreload ∧
      (∀ y, unlinked A (L_timer y) → unlinked A' (L_timer y)) ∧
      (∀ y, A' !! L_timer y = A !! L_timer y) ∧
      ∀ a, is_Some (links s !! a) → is_Some (links s' !! a)
}.

Section trigger.
Context {AP : ArchPort} {APOK : ArchPortOk AP}.
Context (call_clbck : timer_proc_t → timer_param_t → K unit) (P : tmid → Prop)
  (Inv : list tmid → gmap laddr (list laddr) → kstate → Prop)
  {HC : TimerClient call_clbck P Inv}.
Implicit Types (A : gmap laddr (list laddr)) (s : kstate) (x y : tmid).

(** The timers [ar] re-armed with their reload values [rf]. *)
Definition readd (rf : tmid → Z) (xs ar : list tmid) : list tmid :=
  foldl (λ l x, timer_insert rf x l) xs ar.

Lemma timer_at_eq s s' : timers s' = timers s → ∀ x, timer_at s' x = timer_at s x.
Proof. unfold timer_at. by intros ->. Qed.

(** Taking the first of the unprocessed timers off the timer list. *)
Lemma unlink_timer A s dn x rest ar :
  repr (links s) A → located A (dn ++ x :: rest) ar → x ∉ ar →
  ∃ h, on_links (list_unlink (Some (L_timer x))) s = Done tt (set_links h s) ∧
    repr h (set_armed A (dn ++ rest)) ∧ located (set_armed A (dn ++ rest)) (dn ++ rest) ar ∧
    unlinked (set_armed A (dn ++ rest)) (L_timer x) ∧ same_dom h (links s).
Proof.
  intros HR (HA & HA2 & Hl) Hx. pose proof HA as HA'. rewrite fmap_app, fmap_cons in HA'.
  destruct (list_unlink_repr (links s) A _ _ _ _ HR HA') as (h & Hu & HR' & Hd & Hux).
  exists h. unfold set_armed. rewrite fmap_app.
  assert (located (<[L_timer_list:=(L_timer <$> dn) ++ (L_timer <$> rest)]> A) (dn ++ rest) ar).
  { split_and!; [by rewrite fmap_app; apply lookup_insert_eq | by rewrite lookup_insert_ne |].
    intros y Hy1 Hy2. destruct (decide (y = x)) as [-> | Hne]; [by left |].
    apply off_insert_ne.
    - apply Hl; [| done]. rewrite elem_of_app, elem_of_cons. rewrite elem_of_app in Hy1. tauto.
    - rewrite <- fmap_app, not_elem_of_cons. split; [done |]. by rewrite elem_of_L_timer. }
  split_and!; [by apply on_links_Some | done..].
Qed.

(** Queueing a timer for re-arming. *)
Lemma autoreload_timer A s x xs ar :
  repr (links s) A → located A xs ar → unlinked A (L_timer x) → is_Some (links s !! L_timer x) →
  ∃ h, on_links (list_append (Some L_autoreload) (Some (L_timer x))) s = Done tt (set_links h s) ∧
    repr h (<[L_autoreload := L_timer <$> ar ++ [x]]> A) ∧
    located (<[L_autoreload := L_timer <$> ar ++ [x]]> A) xs (ar ++ [x]) ∧ same_dom h (links s).
Proof.
  intros HR (HA & HA2 & Hl) Hu Hd.
  destruct (list_append_repr _ _ _ _ _ HR HA2 Hu Hd) as (h & Ha & HR' & Hdm).
  change [L_timer x] with (L_timer <$> [x]) in HR'. rewrite <- fmap_app in HR'.
  exists h. split_and!; [by apply on_links_Some | done | | done].
  split_and!; [by rewrite lookup_insert_ne | apply lookup_insert_eq |].
  intros y Hy1 Hy2. apply off_insert_ne.
  - apply Hl; [done |]. rewrite elem_of_app in Hy2. tauto.
  - rewrite not_elem_of_cons. split; [done |]. by rewrite elem_of_L_timer.
Qed.

Lemma dom_le_trans (h1 h2 h3 : gmap laddr (list_t laddr)) :
  (∀ a, is_Some (h1 !! a) → is_Some (h2 !! a)) → (∀ a, is_Some (h2 !! a) → is_Some (h3 !! a)) →
  ∀ a, is_Some (h1 !! a) → is_Some (h3 !! a).
Proof. auto. Qed.

Lemma same_counts_refl s s' : timers s' = timers s → same_but_counts s s'.
Proof. intros Ht x. exists (rem s x). rewrite (timer_at_eq _ _ Ht). unfold rem. by destruct (timer_at s x). Qed.

Lemma same_counts_insert s s' x c :
  timers s' = <[x := set_ticks_rem c (timer_at s x)]> (timers s) → same_but_counts s s'.
Proof.
  intros Ht y. rewrite (timer_at_insert _ _ _ _ _ Ht). case_decide; subst; [eauto |].
  exists (rem s y). unfold rem, timer_at. by destruct (default timer_zero (timers s !! y)).
Qed.

(** The client's invariant survives changes of the timer component. *)
Lemma client_links f A s A' s' xs ar :
  Inv f A s → same_kernel s s' → same_but_counts s s' → repr (links s') A' → located A' xs ar →
  (∀ hd, hd ≠ L_timer_list → hd ≠ L_autoreload → A' !! hd = A !! hd) →
  (∀ a, is_Some (links s !! a) → is_Some (links s' !! a)) → Inv f A' s'.
Proof.
  intros HI Hk Hc HR (H1 & H2 & _) Hhd Hd. eapply client_frame; eauto.
  intros hd ys [-> | ->] Hys; [rewrite H1 in Hys | rewrite H2 in Hys]; injection Hys as <-; eauto.
Qed.

(** One timer of the list that has not expired: only its count changes. *)
Definition count_down (u : Z) (x : tmid) (s : kstate) : kstate :=
  set_timers (<[x := set_ticks_rem (rem s x - u) (timer_at s x)]> (timers s)) s.

Lemma trigger_step fuel dn x rest A s ar :
  repr (links s) A → located A (dn ++ x :: rest) ar →
  0 ≤ timer_tick_unsynch s ≤ rem s x → rem s x ≤ OS_TICKS_MAX →
  timer_trigger_loop call_clbck (S fuel) (Some (L_timer x)) s =
  (if rem s x - timer_tick_unsynch s >? 0
   then timer_trigger_loop call_clbck fuel (Some (hdd (L_timer <$> rest) L_timer_list))
   else on_links (list_unlink (Some (L_timer x)));;
        tm ← get_timer x;
        call_clbck (clbck tm) (param tm);;
        tm ← get_timer x;
        when (ticks_reload tm >? 0)
          (on_links (list_append (Some L_autoreload) (Some (L_timer x))));;
        timer_trigger_loop call_clbck fuel (Some (hdd (L_timer <$> rest) L_timer_list)))
  (count_down (timer_tick_unsynch s) x s).
Proof.
  intros HR (HA & _ & _) Hu Hm. cbn [timer_trigger_loop]. unfold list_itr_end.
  rewrite bool_decide_false by done. cbn [timer_of_link].
  erewrite bind_Done by done. cbn beta.
  erewrite bind_Done.
  2:{ apply read_links_Some. rewrite fmap_app, fmap_cons in HA. eapply repr_next; eauto. }
  do 2 erewrite bind_Done by done. cbn beta.
  change (default timer_zero (timers s !! x)) with (timer_at s x). fold (rem s x).
  rewrite ticks_wrap_id by (rewrite ticks_max_val in Hm; lia).
  erewrite bind_Done by done. by destruct (_ >? 0).
Qed.

Lemma timer_at_count_down u x s y :
  timer_at (count_down u x s) y =
  if decide (y = x) then set_ticks_rem (rem s x - u) (timer_at s x) else timer_at s y.
Proof. by apply timer_at_insert. Qed.

(** An expired timer leaves the list, its callback runs, and it is queued for
    re-arming if it has a reload value. *)
Lemma expire_step f A s dn x rest ar (k : K unit) :
  Inv f A s → repr (links s) A → located A (dn ++ x :: rest) ar → x ∉ ar → P x → x ∉ f →
  ∃ A' s', (on_links (list_unlink (Some (L_timer x)));;
      tm ← get_timer x; call_clbck (clbck tm) (param tm);;
      tm ← get_timer x;
      when (ticks_reload tm >? 0) (on_links (list_append (Some L_autoreload) (Some (L_timer x))));; k) s = k s' ∧
    Inv (f ++ [x]) A' s' ∧ repr (links s') A' ∧ same_timers s s' ∧
    located A' (dn ++ rest) (ar ++ if ticks_reload (timer_at s x) >? 0 then [x] else []) ∧
    (∀ a, is_Some (links s !! a) → is_Some (links s' !! a)) ∧ ∀ y, A' !! L_timer y = A !! L_timer y.
Proof.
  intros HI HR HL Hx HP Hxf.
  assert (is_Some (links s !! L_timer x)) as Hdx.
  { destruct HL as (HA & _). eapply repr_dom; [exact HR | exact HA |]. apply list_elem_of_further.
    rewrite elem_of_L_timer, elem_of_app, elem_of_cons. auto. }
  destruct (unlink_timer A s dn x rest ar HR HL Hx) as (h & Hul & HR2 & HL2 & Hux & Hd2).
  erewrite bind_Done by exact Hul. set (s2 := set_links h s) in *.
  assert (Inv f (set_armed A (dn ++ rest)) s2) as HI2.
  { eapply client_links; [exact HI | done | by apply same_counts_refl | exact HR2 | exact HL2 | |].
    - intros hd Hhd _. by apply lookup_insert_ne.
    - intros b. apply Hd2. }
  erewrite bind_Done by done. cbn beta. change (default timer_zero (timers s2 !! x)) with (timer_at s2 x).
  destruct (client_call f _ s2 x HP Hxf HI2 HR2 Hux) as (A3 & s3 & Hc & HI3 & HR3 & (Ht & Ht1 & Ht2 & Ht3) & Hl1 & Hl2 & Hun & Hhds & Hd3).
  erewrite bind_Done by exact Hc. erewrite bind_Done by done. cbn beta.
  change (default timer_zero (timers s3 !! x)) with (timer_at s3 x).
  rewrite (timer_at_eq s2 s3 Ht). change (timer_at s2 x) with (timer_at s x).
  assert (located A3 (dn ++ rest) ar) as HL3.
  { destruct HL2 as (H1 & H2 & H3). split_and!; [congruence.. |]. intros y Hy1 Hy2.
    destruct (H3 y Hy1 Hy2); [left; by apply Hun | right; by rewrite Hhds]. }
  assert (∀ y, A3 !! L_timer y = A !! L_timer y) as Hhd3.
  { intros y. rewrite Hhds. unfold set_armed. by rewrite lookup_insert_ne. }
  assert (∀ b, is_Some (links s !! b) → is_Some (links s3 !! b)) as Hd.
  { intros b Hb. by apply Hd3, Hd2. }
  destruct (ticks_reload (timer_at s x) >? 0); cbn [when].
  - destruct (autoreload_timer A3 s3 x (dn ++ rest) ar HR3 HL3) as (h4 & Ha & HR4 & HL4 & Hd4);
      [by apply Hun | by apply Hd |].
    erewrite bind_Done by exact Ha. eexists _, _. split; [done |]. split_and!; try done.
    + eapply client_links; [exact HI3 | done | by apply same_counts_refl | exact HR4 | exact HL4 | |].
      * intros hd _ Hhd. by apply lookup_insert_ne.
      * intros b. apply Hd4.
    + intros b Hb. by apply Hd4, Hd.
    + intros y. by rewrite lookup_insert_ne.
  - erewrite bind_Done by done. exists A3, s3. rewrite app_nil_r. by split_and!.
Qed.

(** A loop that sets the count of the first timer and then those of the rest. *)
Lemma counts_cons (g : tmid → Z) x rest s s1 s' : x ∉ rest →
  (∀ y, timer_at s1 y = if decide (y = x) then set_ticks_rem (g x) (timer_at s x) else timer_at s y) →
  (∀ y, timer_at s' y = if decide (y ∈ rest) then set_ticks_rem (g y) (timer_at s1 y) else timer_at s1 y) →
  ∀ y, timer_at s' y = if decide (y ∈ x :: rest) then set_ticks_rem (g y) (timer_at s y) else timer_at s y.
Proof.
  intros Hx H1 H' y. rewrite H', H1. destruct (decide (y = x)) as [-> | Hyx].
  - rewrite decide_False by done. by rewrite decide_True by apply list_elem_of_here.
  - destruct (decide (y ∈ rest)); [by rewrite decide_True by (by apply list_elem_of_further) |].
    rewrite decide_False; [done |]. rewrite elem_of_cons. tauto.
Qed.

(** What the loop over the timer list does to the timers [rest] it has still to
    visit; those of [dn] are visited and stay armed, those of [ar] are to be armed
    again, and [f] have fired. [r] and [rl]: the counts and reload values on entry;
    [u]: the ticks to take off. *)
Definition swept (r rl : tmid → Z) u f dn rest ar A s A' s' : Prop :=
  let fired := filter (λ x, r x = u) rest in
  Inv (f ++ fired) A' s' ∧ repr (links s') A' ∧
  located A' (dn ++ filter (λ x, r x ≠ u) rest) (ar ++ filter (λ x, rl x > 0) fired) ∧
  timer_tick_unsynch s' = u ∧ ticks_cnt s' = ticks_cnt s ∧ dint s' = dint s ∧
  (∀ a, is_Some (links s !! a) → is_Some (links s' !! a)) ∧ (∀ y, A' !! L_timer y = A !! L_timer y) ∧
  ∀ y, timer_at s' y = if decide (y ∈ rest) then set_ticks_rem (r y - u) (timer_at s y) else timer_at s y.

Lemma swept_running r rl u f dn x rest ar A s A' s' : x ∉ rest → rem s x = r x → r x ≠ u →
  swept r rl u f (dn ++ [x]) rest ar A (count_down u x s) A' s' → swept r rl u f dn (x :: rest) ar A s A' s'.
Proof.
  intros Hx Hrx Hne (HI & HR & HL & Hu & Hc & Hd & Hdm & Hh & Ht). unfold swept. cbn zeta.
  rewrite !filter_cons, (decide_False (P := r x = u)), (decide_True (P := r x ≠ u)) by done.
  rewrite <- app_assoc in HL. split_and!; try done.
  eapply (counts_cons (λ y, r y - u)); [done | | exact Ht]. intros y. by rewrite timer_at_count_down, Hrx.
Qed.

Lemma swept_fired r rl u f dn x rest ar A A1 s s1 A' s' : x ∉ rest → rem s x = r x → r x = u →
  same_timers (count_down u x s) s1 → (∀ a, is_Some (links s !! a) → is_Some (links s1 !! a)) →
  (∀ y, A1 !! L_timer y = A !! L_timer y) →
  swept r rl u (f ++ [x]) dn rest (ar ++ if rl x >? 0 then [x] else []) A1 s1 A' s' → swept r rl u f dn (x :: rest) ar A s A' s'.
Proof.
  intros Hx Hrx Hux (Ht1 & Hu1 & Hc1 & Hd1) Hdm1 Hh1 (HI & HR & HL & Hu & Hc & Hd & Hdm & Hh & Ht). unfold swept. cbn zeta.
  rewrite !(filter_cons _ x rest), (decide_True (P := r x = u)), (decide_False (P := r x ≠ u)) by auto.
  rewrite filter_cons. rewrite <- app_assoc in HI. cbn [app] in HI. split_and!; try done.
  - destruct (Z.gtb_spec (rl x) 0).
    + rewrite decide_True by lia. by rewrite <- app_assoc in HL.
    + rewrite decide_False by lia. by rewrite app_nil_r in HL.
  - by rewrite Hc, Hc1.
  - by rewrite Hd, Hd1.
  - intros a Ha. by apply Hdm, Hdm1.
  - intros y. by rewrite Hh.
  - eapply (counts_cons (λ y, r y - u)); [done | | exact Ht]. intros y. by rewrite (timer_at_eq _ _ Ht1), timer_at_count_down, Hrx.
Qed.

Lemma trigger_loop_spec (r rl : tmid → Z) u fuel dn rest ar f A s :
  Inv f A s → repr (links s) A → located A (dn ++ rest) ar → NoDup rest →
  (∀ y, y ∈ rest → y ∉ ar ∧ y ∉ f ∧ P y ∧ rem s y = r y ∧ u ≤ r y ≤ OS_TICKS_MAX) →
  (∀ y, ticks_reload (timer_at s y) = rl y) →
  timer_tick_unsynch s = u → 0 ≤ u → (length rest < fuel)%nat →
  ∃ A' s', timer_trigger_loop call_clbck fuel (Some (hdd (L_timer <$> rest) L_timer_list)) s = Done tt s' ∧
    swept r rl u f dn rest ar A s A' s'.
Proof.
  revert dn rest ar f A s.
  induction fuel as [| fuel IH]; intros dn rest ar f A s HI HR HL Hn Hr Hrl Hu Hu0 Hf; [lia |].
  destruct rest as [| x rest].
  - exists A, s. cbn. unfold list_itr_end. rewrite bool_decide_true by done. unfold swept. cbn. rewrite !app_nil_r.
    split_and!; try done. by rewrite app_nil_r in HL.
  - apply NoDup_cons in Hn as [Hx Hn]. cbn [length] in Hf.
    destruct (Hr x) as (Hxa & Hxf & HPx & Hrx & Hux); [apply list_elem_of_here |].
    change (hdd (L_timer <$> x :: rest) L_timer_list) with (L_timer x).
    rewrite (trigger_step fuel dn x rest A s ar HR HL) by lia.
    assert (∀ y, y ∈ rest → y ≠ x) as Hne by (by intros y Hy ->).
    assert (Inv f A (count_down u x s)) as HI1.
    { eapply client_links; [exact HI | done | by eapply same_counts_insert | done | exact HL | done | done]. }
    assert (∀ y, ticks_reload (timer_at (count_down u x s) y) = rl y) as Hrl1.
    { intros y. rewrite timer_at_count_down. case_decide; [subst; apply Hrl | apply Hrl]. }
    assert (∀ y, y ∈ rest → rem (count_down u x s) y = r y) as Hrem1.
    { intros y Hy. unfold rem. rewrite timer_at_count_down, decide_False by auto. apply Hr. by apply list_elem_of_further. }
    rewrite Hu, Hrx. destruct (Z.gtb_spec (r x - u) 0) as [Hgt | Hle].
    + destruct (IH (dn ++ [x]) rest ar f A (count_down u x s)) as (A' & s' & Hrun & Hs'); try done; [by rewrite <- app_assoc | | lia |].
      * intros y Hy. destruct (Hr y) as (? & ? & ? & ? & ?); [by apply list_elem_of_further |]. split_and!; auto; lia.
      * exists A', s'. split; [done |]. apply swept_running; try done. lia.
    + destruct (expire_step f A (count_down u x s) dn x rest ar
        (timer_trigger_loop call_clbck fuel (Some (hdd (L_timer <$> rest) L_timer_list))) HI1 HR HL Hxa HPx Hxf)
        as (A1 & s1 & Hstep & HIe & HR1 & Hst1 & HL1 & Hdm1 & Hh1).
      rewrite Hstep. rewrite Hrl1 in HL1. destruct Hst1 as (Ht1 & Hu1 & Hc1 & Hd1).
      destruct (IH dn rest (ar ++ if rl x >? 0 then [x] else []) (f ++ [x]) A1 s1) as (A' & s' & Hrun & Hs'); try done.
      * intros y Hy. destruct (Hr y) as (Hya & Hyf & ? & ? & ?); [by apply list_elem_of_further |]. pose proof (Hne y Hy).
        split_and!; [| set_solver | done | | lia | lia]; [destruct (rl x >? 0); set_solver |].
        unfold rem. rewrite (timer_at_eq _ _ Ht1). by apply Hrem1.
      * intros y. by rewrite (timer_at_eq _ _ Ht1).
      * by rewrite Hu1.
      * lia.
      * exists A', s'. split; [done |]. apply (swept_fired _ _ _ _ _ _ _ _ A A1 _ s1); try done. lia.
Qed.

Lemma readd_step fuel f A s xs x ar (rf : tmid → Z) :
  Inv f A s → repr (links s) A → located A xs (x :: ar) → x ∉ ar → x ∉ xs →
  ticks_reload (timer_at s x) = rf x → (∀ y, y ∈ xs → rem s y = rf y) → (length xs < S fuel)%nat →
  ∃ A' h, timer_readd_loop (S fuel) s =
      timer_readd_loop fuel (set_timers (<[x := set_ticks_rem (rf x) (timer_at s x)]> (timers s)) (set_links h s)) ∧
    Inv f A' (set_timers (<[x := set_ticks_rem (rf x) (timer_at s x)]> (timers s)) (set_links h s)) ∧
    repr h A' ∧ located A' (timer_insert rf x xs) ar ∧ same_dom h (links s) ∧ ∀ y, A' !! L_timer y = A !! L_timer y.
Proof.
  intros HI HR (HA & HA2 & Hl) Hx Hxs Hrl Hrem Hf. rewrite fmap_cons in HA2.
  destruct (list_detachfirst_cons (links s) A _ _ _ HR HA2) as (h1 & Hd1 & HR1 & Hdm1 & Hux).
  set (A1 := <[L_autoreload := _]> A) in *.
  set (tm := set_ticks_rem (rf x) (timer_at s x)).
  set (s1 := set_timers (<[x := tm]> (timers s)) (set_links h1 s)).
  assert (is_Some (links s !! L_timer x)) as Hdx.
  { eapply repr_dom; [exact HR | exact HA2 |]. apply list_elem_of_further, list_elem_of_here. }
  assert (∀ y, rem s1 y = if decide (y = x) then rf x else rem s y) as Hr1.
  { intros y. unfold rem. rewrite (timer_at_insert s1 (timers s) x y tm) by done.
    by destruct (decide (y = x)). }
  destruct (timer_add_spec A1 s1 x (S fuel) xs) as (h2 & Ha2 & HR2 & Hdm2);
    [exact HR1 | unfold A1; by rewrite lookup_insert_ne | done | done | by apply Hdm1 |].
  rewrite (timer_insert_ext (rem s1) rf) in HR2.
  2:{ intros y [-> | Hy]%elem_of_cons; rewrite Hr1; [by rewrite decide_True |].
      rewrite decide_False by (by intros ->). by apply Hrem. }
  assert (located (set_armed A1 (timer_insert rf x xs)) (timer_insert rf x xs) ar) as HL2.
  { split_and!; [apply lookup_insert_eq | |].
    - unfold set_armed, A1. rewrite lookup_insert_ne by done. apply lookup_insert_eq.
    - intros y Hy1 Hy2. rewrite elem_of_timer_insert in Hy1. apply off_insert_ne.
      + apply off_insert_ne.
        * apply Hl; [tauto |]. rewrite elem_of_cons. tauto.
        * rewrite not_elem_of_cons. split; [done |]. by rewrite elem_of_L_timer.
      + rewrite not_elem_of_cons, elem_of_L_timer, elem_of_timer_insert. split; [done | tauto]. }
  assert (same_dom h2 (links s)) as Hdm by (by transitivity h1).
  exists (set_armed A1 (timer_insert rf x xs)), h2. split_and!; [| | done | done | done |].
  - cbn [timer_readd_loop]. erewrite bind_Done by (by apply on_links_ret_Some). cbn [timer_of_link].
    do 3 erewrite bind_Done by done. cbn beta.
    change (default timer_zero _) with (timer_at s x). rewrite Hrl.
    erewrite bind_Done by exact Ha2. done.
  - eapply client_links; [exact HI | done | by eapply same_counts_insert | exact HR2 | exact HL2 | |].
    + intros hd Hn1 Hn2. unfold set_armed, A1. by rewrite !lookup_insert_ne.
    + intros b. apply Hdm.
  - intros y. unfold set_armed, A1. by rewrite !lookup_insert_ne.
Qed.

Lemma readd_loop_spec (rf : tmid → Z) fuel xs ar f A s :
  Inv f A s → repr (links s) A → located A xs ar → NoDup ar →
  (∀ y, y ∈ ar → y ∉ xs ∧ ticks_reload (timer_at s y) = rf y) → (∀ y, y ∈ xs → rem s y = rf y) →
  (length xs + 2 * length ar < fuel)%nat →
  ∃ A' s', timer_readd_loop fuel s = Done tt s' ∧ Inv f A' s' ∧ repr (links s') A' ∧
    located A' (readd rf xs ar) [] ∧
    timer_tick_unsynch s' = timer_tick_unsynch s ∧ ticks_cnt s' = ticks_cnt s ∧ dint s' = dint s ∧
    (∀ a, is_Some (links s !! a) → is_Some (links s' !! a)) ∧ (∀ y, A' !! L_timer y = A !! L_timer y) ∧
    ∀ y, timer_at s' y = if decide (y ∈ ar) then set_ticks_rem (rf y) (timer_at s y) else timer_at s y.
Proof.
  revert xs ar A s. induction fuel as [| fuel IH]; intros xs ar A s HI HR HL Hn Har Hxs Hf; [lia |].
  destruct ar as [| x ar].
  - exists A, s. split_and!; try done. cbn [timer_readd_loop].
    erewrite bind_Done by (apply on_links_ret_Some; eapply list_detachfirst_nil; [exact HR | apply HL]).
    by destruct s.
  - apply NoDup_cons in Hn as [Hx Hn].
    destruct (Har x) as [Hxx Hrx]; [apply list_elem_of_here |].
    destruct (readd_step fuel f A s xs x ar rf) as (A1 & h1 & -> & HI1 & HR1 & HL1 & Hd1 & Hh1); auto.
    { cbn in Hf. lia. }
    set (s1 := set_timers _ _) in *.
    assert (∀ y, timer_at s1 y = if decide (y = x) then set_ticks_rem (rf x) (timer_at s x) else timer_at s y) as Hat
      by (intros y; by apply timer_at_insert).
    assert (∀ y, y ∈ ar → y ≠ x) as Hne by (by intros y Hy ->).
    destruct (IH (timer_insert rf x xs) ar A1 s1) as (A' & s' & Hrun & HI' & HR' & HL' & ? & ? & ? & Hdm & Hh' & Ht'); auto.
    + intros y Hy. destruct (Har y) as [? ?]; [by apply list_elem_of_further |].
      rewrite elem_of_timer_insert, Hat, decide_False by auto. pose proof (Hne y Hy). tauto.
    + intros y [-> | Hy]%elem_of_timer_insert; unfold rem; rewrite Hat; [by rewrite decide_True |].
      rewrite decide_False by (by intros ->). by apply Hxs.
    + rewrite timer_insert_perm. cbn in Hf |- *. lia.
    + exists A', s'. split_and!; try done.
      * intros b Hb. by apply Hdm, Hd1.
      * intros y. by rewrite Hh'.
      * by apply (counts_cons rf x ar s s1).
Qed.

Lemma elem_of_readd (rf : tmid → Z) xs ar y : y ∈ readd rf xs ar ↔ y ∈ xs ∨ y ∈ ar.
Proof.
  revert xs. induction ar as [| x ar IH]; intros xs; cbn.
  - rewrite elem_of_nil. tauto.
  - unfold readd in IH. rewrite IH, elem_of_timer_insert, elem_of_cons. tauto.
Qed.

Lemma readd_sorted (rf : tmid → Z) xs ar :
  StronglySorted (λ x y, rf x ≤ rf y) xs → StronglySorted (λ x y, rf x ≤ rf y) (readd rf xs ar).
Proof.
  revert xs. induction ar as [| x ar IH]; intros xs Hs; cbn; [done |].
  apply IH. by apply timer_insert_sorted.
Qed.

(** What triggering at [u] counted ticks makes of the counts, the armed timers
    and the expired ones. *)
Definition expired (r : tmid → Z) (u : Z) (xs : list tmid) : list tmid := filter (λ x, r x = u) xs.
Definition count_after (r rl : tmid → Z) (u : Z) (x : tmid) : Z :=
  if decide (r x = u) then rl x else r x - u.
Definition armed_after (r rl : tmid → Z) (u : Z) (xs : list tmid) : list tmid :=
  readd (count_after r rl u) (filter (λ x, r x ≠ u) xs) (filter (λ x, rl x > 0) (expired r u xs)).

Lemma elem_of_armed_after r rl u xs y :
  y ∈ armed_after r rl u xs ↔ y ∈ xs ∧ (r y ≠ u ∨ rl y > 0).
Proof.
  unfold armed_after, expired. rewrite elem_of_readd, !list_elem_of_filter.
  destruct (decide (r y = u)); tauto.
Qed.

(** Preparing the stack-allocated list head. *)
Lemma autoreload_init A s xs : repr (links s) A → A !! L_timer_list = Some (L_timer <$> xs) →
  (∀ y, y ∉ xs → off A y) → unlinked A L_autoreload →
  let h := <[L_autoreload := ListT (Some L_autoreload) (Some L_autoreload)]> (links s) in
  repr h (<[L_autoreload := []]> A) ∧ located (<[L_autoreload := []]> A) xs [].
Proof.
  intros HR HA Hl Hu h. split.
  - destruct (list_init_repr h A L_autoreload) as (h' & Hi & HR' & _).
    + by apply repr_store.
    + unfold h. rewrite lookup_insert_eq. eauto.
    + intros hd2 xs2 _. apply Hu.
    + rewrite list_init_eq in Hi by (unfold h; rewrite lookup_insert_eq; eauto).
      unfold h in Hi. rewrite insert_insert_eq in Hi. by injection Hi as <-.
  - split_and!; [by rewrite lookup_insert_ne | by rewrite lookup_insert_eq |].
    intros y Hy _. apply off_insert_ne; [by apply Hl |].
    rewrite not_elem_of_cons. split; [done | apply not_elem_of_nil].
Qed.

(** Dropping the list head again. *)
Lemma autoreload_drop A s xs : repr (links s) A → located A xs [] →
  repr (links s) (delete L_autoreload A) ∧ delete L_autoreload A !! L_timer_list = Some (L_timer <$> xs) ∧
  (∀ y, y ∉ xs → off (delete L_autoreload A) y) ∧ unlinked (delete L_autoreload A) L_autoreload.
Proof.
  intros HR (H1 & H2 & H3). split_and!.
  - by apply repr_delete.
  - by rewrite lookup_delete_ne.
  - intros y Hy. destruct (H3 y Hy) as [Hu |]; [apply not_elem_of_nil | left | right; by rewrite lookup_delete_ne].
    eapply unlinked_subseteq; [apply delete_subseteq | done].
  - intros hd ys [Hne Hhd]%lookup_delete_Some Hin. apply Hne.
    eapply (repr_disj _ _ HR L_autoreload hd); eauto. apply list_elem_of_here.
Qed.

(** The invariant after triggering. *)
Lemma timers_ok_triggered A s A' s' :
  let u := timer_tick_unsynch s in
  let rl := λ x, ticks_reload (timer_at s x) in
  repr (links s) A → timers_wf (d := 0) A s →
  A' !! L_timer_list = Some (L_timer <$> armed A') →
  armed A' = armed_after (rem s) rl u (armed A) →
  (∀ y, y ∉ armed A' → off A' y) → (∀ y, A' !! L_timer y = A !! L_timer y) → timer_tick_unsynch s' = 0 →
  (∀ y, timer_at s' y = set_ticks_rem
     (if decide (y ∈ armed A) then count_after (rem s) rl u y else rem s y) (timer_at s y)) →
  timers_ok A' s'.
Proof.
  intros u rl HR HT HA Harm Hun Hh Hu' Ht. pose proof ticks_max_val as Hmax.
  assert (∀ y, y ∈ armed A → rem s' y = count_after (rem s) rl u y) as Hr.
  { intros y Hy. unfold rem at 1. by rewrite Ht, decide_True. }
  assert (∀ y, y ∈ armed A' ↔ y ∈ armed A ∧ (rem s y ≠ u ∨ rl y > 0)) as Hin
    by (intros y; by rewrite Harm, elem_of_armed_after).
  split.
  - done.
  - apply (StronglySorted_ext (count_after (rem s) rl u)); [intros y [Hy _]%Hin; by apply Hr |].
    rewrite Harm. apply readd_sorted.
    apply (StronglySorted_ext (λ x, rem s x - u)).
    { intros y [Hy _]%list_elem_of_filter. unfold count_after. by rewrite decide_False. }
    apply StronglySorted_filter. eapply StronglySorted_impl; [| apply (to_sorted _ _ HT)]. cbn. lia.
  - intros y [Hy Hc]%Hin. rewrite Hr, Ht by done. destruct (to_armed _ _ HT _ Hy) as [H Hm].
    split; [| done]. pose proof (to_reload _ _ HT y) as Hry. change (ticks_reload (timer_at s y)) with (rl y) in Hry.
    pose proof (to_unsynch _ _ HT) as Hu. change (timer_tick_unsynch s) with u in Hu, H. unfold count_after. rewrite Hu'.
    destruct (decide (rem s y = u)); [destruct Hc; [done | lia] | lia].
  - intros y Hy. destruct (decide (y ∈ armed A)) as [Hx | Hx].
    + left. split.
      * rewrite Hr by done. rewrite Hin in Hy. unfold count_after.
        pose proof (to_reload _ _ HT y) as Hry. change (ticks_reload (timer_at s y)) with (rl y) in Hry.
        destruct (decide (rem s y = u)); [| tauto]. destruct (decide (rl y > 0)); [tauto | lia].
      * destruct (Hun y Hy) as [| Hhd]; [done |]. rewrite Hh, (armed_no_head _ _ _ HR (to_list _ _ HT) Hx) in Hhd. done.
    + assert (timer_at s' y = timer_at s y) as Hat by (rewrite Ht, decide_False by done; unfold rem; by destruct (timer_at s y)).
      destruct (to_idle _ _ HT _ Hx) as [[Hr0 Hul] | (Hhd & Hp)]; [left | right]; unfold pending, rem; rewrite Hat; [| by rewrite Hh].
      split; [done |]. destruct (Hun y Hy) as [| Hhd]; [done |]. rewrite Hh in Hhd. by destruct (Hul _ _ Hhd (list_elem_of_here _ _)).
  - intros y. rewrite Ht. apply (to_reload _ _ HT).
  - rewrite Hu'. unfold OS_TIMER_UNSYNCH_MAX. lia.
  - done.
Qed.

(** Re-armed and kept timers together are no more than the armed ones. *)
Lemma length_filter_partition (r rl : tmid → Z) u (xs : list tmid) :
  (length (filter (λ x, r x ≠ u) xs) + length (filter (λ x, (rl x > 0)%Z) (expired r u xs)) ≤ length xs)%nat.
Proof.
  unfold expired. induction xs as [| x xs IH]; [done |]. rewrite !(filter_cons _ x xs).
  destruct (decide (r x = u)) as [He | He].
  - rewrite decide_False by (intros ?; done). rewrite filter_cons. case_decide; cbn; lia.
  - rewrite decide_True by done. cbn. lia.
Qed.

(** [timer_trigger] up to the loop that arms timers again, at [u] counted ticks. *)
Lemma trigger_sweep fuel A s :
  Inv [] A s → repr (links s) A → timers_wf (d := 0) A s → unlinked A L_autoreload →
  (∀ x, x ∈ armed A → P x) → (length (armed A) < fuel)%nat →
  ∃ A2 s2, timer_trigger call_clbck fuel s = timer_readd_loop fuel (set_unsynch 0 s2) ∧
    swept (rem s) (λ x, ticks_reload (timer_at s x)) (timer_tick_unsynch s) [] [] (armed A) [] A s A2 s2.
Proof.
  intros HI HR HT Hua HP Hf. set (xs := armed A). pose proof (armed_NoDup _ _ HR HT) as Hn.
  pose proof (to_unsynch _ _ HT) as Hu.
  assert (∀ y, y ∉ xs → off A y) as Hl by (intros y Hy; destruct (to_idle _ _ HT y Hy) as [[_ ?] | [? _]]; [by left | by right]).
  destruct (autoreload_init A s xs HR (to_list _ _ HT) Hl Hua) as [HR1 HL1].
  unfold timer_trigger. rewrite provide_init. set (s1 := set_links _ s) in *. set (A1 := <[_ := _]> A) in *.
  assert (∀ b, is_Some (links s !! b) → is_Some (links s1 !! b)) as Hdm by (intros b Hb; cbn; rewrite lookup_insert; case_decide; eauto).
  assert (Inv [] A1 s1) as HI1.
  { eapply client_links; [exact HI | done | by apply same_counts_refl | exact HR1 | exact HL1 | | exact Hdm].
    intros hd _ Hhd. unfold A1. by rewrite lookup_insert_ne. }
  erewrite bind_Done by (apply read_links_Some; eapply repr_begin; [exact HR1 | apply HL1]).
  destruct (trigger_loop_spec (rem s) (λ x, ticks_reload (timer_at s x)) (timer_tick_unsynch s) fuel [] xs [] [] A1 s1) as
    (A2 & s2 & Hrun & HI2 & HR2 & HL2 & Hu2 & Hc2 & Hd2 & Hdm2 & Hh2 & Ht2); try done; try lia.
  { intros y Hy. split_and!; [apply not_elem_of_nil.. | by apply HP | done | |];
    destruct (to_armed _ _ HT _ Hy) as [? _]; lia. }
  erewrite bind_Done by exact Hrun. erewrite bind_Done by done.
  exists A2, s2. split; [done |]. split_and!; try done; [intros a Ha; by apply Hdm2, Hdm |].
  intros y. rewrite Hh2. unfold A1. by rewrite lookup_insert_ne.
Qed.

(** The timers after both loops of [timer_trigger]. *)
Lemma triggered_counts (r rl : tmid → Z) u xs s s2 s3 :
  (∀ y, r y = rem s y) → (∀ y, 0 ≤ rl y) →
  (∀ y, timer_at s2 y = if decide (y ∈ xs) then set_ticks_rem (r y - u) (timer_at s y) else timer_at s y) →
  (∀ y, timer_at s3 y = if decide (y ∈ filter (λ x, rl x > 0) (expired r u xs)) then
    set_ticks_rem (count_after r rl u y) (timer_at s2 y) else timer_at s2 y) →
  ∀ y, timer_at s3 y = set_ticks_rem (if decide (y ∈ xs) then count_after r rl u y else r y) (timer_at s y).
Proof.
  intros Hr Hrl Ht2 Ht3 y. rewrite Ht3, Ht2. set (ar := filter _ _).
  assert (y ∈ ar ↔ y ∈ xs ∧ r y = u ∧ rl y > 0) as Har by (unfold ar, expired; rewrite !list_elem_of_filter; tauto).
  unfold count_after. destruct (decide (y ∈ xs)) as [Hx | Hx], (decide (y ∈ ar)) as [Hy | Hy].
  - apply Har in Hy. rewrite decide_True by tauto. by destruct (timer_at s y).
  - destruct (decide (r y = u)) as [He | He]; [| by destruct (timer_at s y)].
    assert (rl y = 0) as -> by (specialize (Hrl y); destruct (decide (rl y > 0)); [tauto | lia]).
    by rewrite He, Z.sub_diag; destruct (timer_at s y).
  - tauto.
  - rewrite Hr. unfold rem. by destruct (timer_at s y).
Qed.

(** [timer_trigger] as a whole. *)
Lemma timer_trigger_spec fuel A s :
  let u := timer_tick_unsynch s in
  let rl := λ x, ticks_reload (timer_at s x) in
  Inv [] A s → repr (links s) A → timers_wf (d := 0) A s → unlinked A L_autoreload →
  (∀ x, x ∈ armed A → P x) → (2 * length (armed A) < fuel)%nat →
  ∃ A' s', timer_trigger call_clbck fuel s = Done tt s' ∧
    Inv (expired (rem s) u (armed A)) A' s' ∧ repr (links s') A' ∧ timers_ok A' s' ∧
    unlinked A' L_autoreload ∧ armed A' = armed_after (rem s) rl u (armed A) ∧
    timer_tick_unsynch s' = 0 ∧ ticks_cnt s' = ticks_cnt s ∧ dint s' = dint s ∧
    (∀ x, x ∈ armed A' → rem s' x = count_after (rem s) rl u x) ∧
    (∀ x, ∃ c, timer_at s' x = set_ticks_rem c (timer_at s x)) ∧
    (∀ x, x ∉ armed A → timer_at s' x = timer_at s x) ∧ ∀ x, A' !! L_timer x = A !! L_timer x.
Proof.
  intros u rl HI HR HT Hua HP Hf. set (xs := armed A) in *. set (r := rem s).
  set (ar := filter (λ x, rl x > 0) (expired r u xs)).
  destruct (trigger_sweep fuel A s HI HR HT Hua HP) as (A2 & s2 & -> & HI2 & HR2 & HL2 & Hu2 & Hc2 & Hd2 & Hdm2 & Hh2 & Ht2); [unfold xs in *; lia |].
  fold r rl u xs in HL2, HI2, Ht2. cbn [app] in HL2, HI2. fold (expired r u xs) in HL2, HI2. fold ar in HL2.
  assert (∀ y, timer_at (set_unsynch 0 s2) y = if decide (y ∈ xs) then set_ticks_rem (r y - u) (timer_at s y) else timer_at s y) as Ht2' by exact Ht2.
  destruct (readd_loop_spec (count_after r rl u) fuel (filter (λ x, r x ≠ u) xs) ar (expired r u xs) A2 (set_unsynch 0 s2))
    as (A3 & s3 & Hrun3 & HI3 & HR3 & HL3 & Hu3 & Hc3 & Hd3 & Hdm3 & Hh3 & Ht3); try done.
  { eapply client_links; [exact HI2 | done | by apply same_counts_refl | exact HR2 | exact HL2 | done | done]. }
  { do 2 apply NoDup_filter. by eapply armed_NoDup. }
  { intros y [Hy1 [Hy2 Hy3]%list_elem_of_filter]%list_elem_of_filter. split; [rewrite list_elem_of_filter; tauto |].
    unfold count_after. rewrite decide_True by done. rewrite Ht2'. by destruct (decide (y ∈ xs)). }
  { intros y [Hy1 Hy2]%list_elem_of_filter. unfold count_after, rem. by rewrite decide_False, Ht2', decide_True by done. }
  { pose proof (length_filter_partition r rl u xs). unfold ar, xs in *. lia. }
  destruct (autoreload_drop A3 s3 _ HR3 HL3) as (HR4 & HA4 & Hl4 & Hua4).
  set (A4 := delete L_autoreload A3) in *.
  assert (armed A4 = armed_after r rl u xs) as Harm by (unfold armed; rewrite HA4; cbn; apply omap_timer_of).
  pose proof (triggered_counts r rl u xs s _ s3 (λ _, eq_refl) (λ y, proj1 (to_reload _ _ HT y)) Ht2' Ht3) as Ht.
  assert (∀ y, y ∈ xs → rem s3 y = count_after r rl u y) as Hr3 by (intros y Hy; unfold rem; by rewrite Ht, decide_True).
  exists A4, s3. split; [exact Hrun3 |]. split_and!; try done.
  - eapply client_frame; [exact HI3 | done | by apply same_counts_refl | exact HR4 | done | |].
    + intros hd _ Hhd. unfold A4. by rewrite lookup_delete_ne.
    + intros hd ys [-> | ->] Hys; [rewrite HA4 in Hys; injection Hys as <-; eauto |].
      unfold A4 in Hys. by rewrite lookup_delete_eq in Hys.
  - apply (timers_ok_triggered A s A4 s3 HR HT); try done; [by rewrite HA4, Harm | |].
    + intros y Hy. apply Hl4. by rewrite Harm in Hy.
    + intros y. unfold A4. by rewrite lookup_delete_ne, Hh3, Hh2.
  - rewrite Hc3. exact Hc2.
  - rewrite Hd3. exact Hd2.
  - intros x Hx. apply Hr3. rewrite Harm, elem_of_armed_after in Hx. tauto.
  - intros x. eexists. apply Ht.
  - intros x Hx. rewrite Ht, decide_False by done. unfold r, rem. by destruct (timer_at s x).
  - intros y. unfold A4. by rewrite lookup_delete_ne, Hh3, Hh2.
Qed.
End trigger.

(** ** Properties of timers *)

Section properties.
Context {AP : ArchPort} {APOK : ArchPortOk AP}.

(** C31: Arming a timer. For a timeout in the accepted range and a timer that is
    not active, [os_timer_create] returns with the timer armed to fire after
    exactly [timeout_ticks] more ticks, whatever number of ticks the lazily
    updated list has not accounted for yet; it stands in the list behind the
    timers that expire no later, every other timer keeps its remaining time,
    the list stays sorted, and the interrupt state is restored. *)
Theorem os_timer_create_arms A s fuel x cb pa timeout reload :
  repr (links s) A → timers_ok A s → 0 < timeout < OS_TIMER_TICKSREM_MAX →
  0 ≤ reload ≤ OS_TICKS_MAX → magic (timer_at s x) ≠ OS_TIMER_MAGIC1 →
  (length (armed A) < fuel)%nat →
  ∃ A' s', os_timer_create fuel x cb pa timeout reload s = Done tt s' ∧
    repr (links s') A' ∧ timers_ok A' s' ∧ same_kernel s s' ∧ dint s' = dint s ∧
    armed A' = timer_insert (remaining s') x (armed A) ∧
    remaining s' x = timeout ∧ clbck (timer_at s' x) = cb ∧ param (timer_at s' x) = pa ∧
    ticks_reload (timer_at s' x) = reload ∧ ∀ y, y ≠ x → remaining s' y = remaining s y.
Proof.
  intros HR HT Ht Hr Hm Hf.
  destruct (os_timer_create_run A s fuel x cb pa timeout reload HR HT Ht Hm Hf) as (h & Hrun & HR' & _).
  pose proof (timers_ok_create A s x cb pa timeout reload h HT Ht Hm Hr) as HT'.
  set (s' := set_timers _ _) in *.
  assert (∀ y, timer_at s' y = if decide (y = x) then
    Timer (timeout + timer_tick_unsynch s) reload cb pa OS_TIMER_MAGIC1 else timer_at s y) as Hat
    by (intros y; by apply timer_at_insert).
  eexists _, s'. split; [exact Hrun |]. split_and!; try done.
  - rewrite armed_set_armed. apply timer_insert_mono. intros y z. unfold remaining. lia.
  - unfold remaining, rem. rewrite Hat, decide_True by done. cbn. lia.
  - by rewrite Hat, decide_True.
  - by rewrite Hat, decide_True.
  - by rewrite Hat, decide_True.
  - intros y Hy. unfold remaining, rem. by rewrite Hat, decide_False.
Qed.

(** A rejected [os_timer_create] changes nothing but to halt: a timeout of 0
    or of [OS_TIMER_TICKSREM_MAX] ticks and more, or a timer that is still
    active, ends in [os_halt] before the timer is touched. *)
Theorem os_timer_create_rejects fuel x cb pa timeout reload s :
  timeout ≤ 0 ∨ OS_TIMER_TICKSREM_MAX ≤ timeout ∨ magic (timer_at s x) = OS_TIMER_MAGIC1 →
  os_timer_create fuel x cb pa timeout reload s = os_halt s.
Proof.
  intros Hbad. unfold os_timer_create. apply bind_Halted. unfold os_timer_create_init, OS_ASSERT.
  destruct (Z.gtb_spec timeout 0); [| by erewrite bind_Halted]. erewrite bind_Done by done.
  destruct (Z.ltb_spec timeout OS_TIMER_TICKSREM_MAX); [| by erewrite bind_Halted].
  do 2 erewrite bind_Done by done. cbn beta. change (default timer_zero (timers s !! x)) with (timer_at s x).
  destruct (Z.eqb_spec (magic (timer_at s x)) OS_TIMER_MAGIC1); [by erewrite bind_Halted |]. lia.
Qed.

(** C32: Disarming a timer. [os_timer_destroy] of a timer that was created takes
    it off the list if it was armed and leaves it marked as destroyed, every
    other timer keeping its remaining time; the count of unaccounted ticks is
    reset when no timer is left. Destroying it again changes nothing. *)
Theorem os_timer_destroy_disarms A s x :
  repr (links s) A → timers_ok A s →
  magic (timer_at s x) = OS_TIMER_MAGIC1 ∨ magic (timer_at s x) = OS_TIMER_MAGIC2 →
  ∃ A' s', os_timer_destroy x s = Done tt s' ∧
    repr (links s') A' ∧ timers_ok A' s' ∧ same_kernel s s' ∧ dint s' = dint s ∧
    armed A' = filter (.≠ x) (armed A) ∧ magic (timer_at s' x) = OS_TIMER_MAGIC2 ∧
    (∀ y, y ∈ armed A' → remaining s' y = remaining s y) ∧
    ∃ s'', os_timer_destroy x s' = Done tt s'' ∧ (∀ y, timer_at s'' y = timer_at s' y) ∧
      ∃ A'', repr (links s'') A'' ∧ armed A'' = armed A' ∧ timer_tick_unsynch s'' = timer_tick_unsynch s'.
Proof.
  intros HR HT Hm.
  destruct (os_timer_destroy_run A s x HR HT Hm) as (h & Hrun & HR' & _).
  pose proof (timers_ok_destroy A s x h HR HT) as HT'. cbn zeta in HT', Hrun.
  set (xs := filter _ _) in *. set (s' := set_unsynch _ _) in *.
  assert (∀ y, timer_at s' y = if decide (y = x) then destroyed (timer_at s x) else timer_at s y) as Hat
    by (intros y; by apply timer_at_insert).
  assert (magic (timer_at s' x) = OS_TIMER_MAGIC2) as Hm2 by (by rewrite Hat, decide_True).
  exists (set_armed (settled A x) xs), s'. split; [exact Hrun |]. split_and!; try done.
  - apply armed_set_armed.
  - rewrite armed_set_armed. intros y [Hne Hy]%list_elem_of_filter.
    unfold remaining, rem. rewrite Hat, decide_False by done. cbn.
    rewrite bool_decide_false; [done |]. intros Hx.
    assert (y ∈ xs) as Hin by (unfold xs; by rewrite list_elem_of_filter). rewrite Hx in Hin. by apply elem_of_nil in Hin.
  - destruct (os_timer_destroy_run (set_armed (settled A x) xs) s' x HR' HT' (or_intror Hm2)) as (h2 & Hrun2 & HR2 & _).
    cbn zeta in Hrun2. rewrite armed_set_armed in *.
    assert (filter (.≠ x) xs = xs) as Hxs.
    { apply filter_ne_id. unfold xs. rewrite list_elem_of_filter. tauto. }
    rewrite Hxs in *. eexists; split; [exact Hrun2 |]. split_and!.
    + intros y. rewrite (timer_at_insert _ (timers s') x y (destroyed (timer_at s' x))) by done.
      case_decide as Hy; [| done]. subst y.
      assert (rem s' x = 0) as Hr0 by (apply (idle_timer _ _ _ HT'); by rewrite Hm2).
      unfold destroyed. fold (rem s' x). rewrite Hr0. unfold set_magic; cbn. rewrite <- Hm2. by destruct (timer_at s' x).
    + eexists; split_and!; [exact HR2 | by rewrite !armed_set_armed |]. cbn.
      case_bool_decide; [| done]. done.
Qed.

(** The tick counter is a clock modulo 2^16. On the ports with 16-bit ticks,
    for a start value and the counter value [d] ticks later, [d] below 2^16,
    [os_ticks_diff] gives [d], also when the counter wrapped around between. *)
Theorem os_ticks_diff_modular start d :
  arch_ticks_bits = 16 → 0 ≤ start ≤ OS_TICKS_MAX → 0 ≤ d ≤ OS_TICKS_MAX →
  os_ticks_diff start (ticks_wrap (start + d)) = d.
Proof.
  intros Hb. unfold os_ticks_diff, ticks_wrap. rewrite ticks_max_val, Hb. change (2 ^ 16) with 65536.
  intros Hs Hd. destruct (Z.gtb_spec start ((start + d) mod 65536)); Z.div_mod_to_equations; lia.
Qed.
End properties.

(** ** The properties at concrete timers *)

Section demo.
#[local] Existing Instance avr_port.
#[local] Existing Instance avr_port_ok.

(** An empty timer list. *)
Definition demo_no_timers : kstate :=
  set_links {[L_timer_list := ListT (Some L_timer_list) (Some L_timer_list)]} kstate_reset.
(** Timer 7 armed for 3 ticks, reloading to 5, with user callback 1. *)
Definition demo_timer : os_timer_t := Timer 3 5 (P_user 1) (Param_user 9) OS_TIMER_MAGIC1.
Definition demo_one_timer : kstate :=
  set_timers {[TmUser 7 := demo_timer]} (set_links (list_to_map
    [(L_timer_list, ListT (Some (L_timer (TmUser 7))) (Some (L_timer (TmUser 7))));
     (L_timer (TmUser 7), ListT (Some L_timer_list) (Some L_timer_list))]) kstate_reset).
Definition demo_no_list : list (laddr * list laddr) := [(L_timer_list, [])].
Definition demo_one_list : list (laddr * list laddr) := [(L_timer_list, [L_timer (TmUser 7)])].

Lemma demo_no_timers_ok : repr (links demo_no_timers) (list_to_map demo_no_list) ∧
  timers_ok (list_to_map demo_no_list) demo_no_timers.
Proof.
  split; [by apply repr_b_ok |]. split; try done.
  - constructor.
  - intros x []%not_elem_of_nil.
  - intros x _. left. split; [done |]. apply unlinked_b. done.
Qed.

Lemma demo_one_timer_ok : repr (links demo_one_timer) (list_to_map demo_one_list) ∧
  timers_ok (list_to_map demo_one_list) demo_one_timer.
Proof.
  split; [by apply repr_b_ok |].
  assert (∀ x, timer_at demo_one_timer x = if decide (x = TmUser 7) then demo_timer else timer_zero) as Hat.
  { intros x. unfold timer_at, demo_one_timer. cbn [timers set_timers].
    case_decide; subst; [done | by rewrite lookup_singleton_ne]. }
  split; try done.
  - repeat constructor.
  - intros x [-> | []%not_elem_of_nil]%elem_of_cons. unfold rem. by rewrite Hat.
  - intros x Hx. left. change (x ∉ [TmUser 7]) in Hx. rewrite list_elem_of_singleton in Hx.
    unfold rem. rewrite Hat, decide_False by done. split; [done |].
    apply unlinked_b, bool_decide_eq_true. cbn. rewrite !not_elem_of_cons.
    split_and!; [done | by intros [=] | apply not_elem_of_nil].
  - intros x. rewrite Hat. by case_decide.
Qed.

Lemma os_timer_create_arms_witness : ∃ A' s',
  os_timer_create 5 (TmUser 3) (P_user 0) Param_null 3 0 demo_one_timer = Done tt s' ∧
  armed A' = [TmUser 7; TmUser 3] ∧ remaining s' (TmUser 3) = 3.
Proof.
  destruct (os_timer_create_arms (list_to_map demo_one_list) demo_one_timer 5 (TmUser 3) (P_user 0) Param_null 3 0)
    as (A' & s' & Hrun & _ & _ & _ & _ & Ha & Hr & _ & _ & _ & Ho);
    [by apply demo_one_timer_ok.. | done | done | done | by vm_compute; lia |].
  exists A', s'. split_and!; [done | | done]. rewrite Ha.
  change (armed (list_to_map demo_one_list)) with [TmUser 7]. cbn [timer_insert].
  by rewrite Hr, (Ho (TmUser 7)).
Defined.

Lemma os_timer_create_rejects_witness :
  os_timer_create 5 (TmUser 7) (P_user 0) Param_null 3 0 demo_one_timer = os_halt demo_one_timer.
Proof. apply (os_timer_create_rejects 5 (TmUser 7)). by right; right. Defined.

Lemma os_timer_destroy_disarms_witness : ∃ A' s',
  os_timer_destroy (TmUser 7) demo_one_timer = Done tt s' ∧ armed A' = [].
Proof.
  destruct (os_timer_destroy_disarms (list_to_map demo_one_list) demo_one_timer (TmUser 7))
    as (A' & s' & Hrun & _ & _ & _ & _ & Ha & _); [by apply demo_one_timer_ok.. | by left |].
  exists A', s'. split; [done |]. rewrite Ha. done.
Defined.

(** Started at 65530, read 10 ticks later at 4. *)
Lemma os_ticks_diff_modular_witness : os_ticks_diff 65530 4 = 10.
Proof. change 4 with (ticks_wrap (65530 + 10)). by apply os_ticks_diff_modular. Defined.
End demo.
