(* ===== verification/Sched.v ===== *)
(** * The scheduler (source/os_sched.c, source/os_private.h)

    Scheduling decision ([os_schedule]), blocking ([os_task_block_switch]),
    scheduler lock, system start, task creation and the tick. Code that may
    hand the CPU to another task does so through [arch_context_switch]. *)

From stdpp Require Import base decidable list countable gmap.
From Stdlib Require Import ZArith Lia Sorted.
From S2P Require Import Prelude Arch LinkedList Kernel TaskQueue Timer.

Local Open Scope Z_scope.

Section sched.
Context {AP : ArchPort}.

(** *** os_private.h *)

Definition os_task_makeready (t : tid) : K unit :=
  mod_task t (set_state TASKSTATE_READY);;
  os_taskqueue_enqueue Q_ready t.

Definition os_task_makewait (q : qid) (bt : os_taskblock_t) : K unit :=
  c ← current;
  mod_task c (set_state TASKSTATE_WAIT);;
  mod_task c (set_block_type bt);;
  os_taskqueue_enqueue q c.

(** *** Scheduling *)

(** Priorities are [uint_fast8_t]. *)
Definition u8 (x : Z) : Z := x mod 256.

Definition os_schedule (higher_prio : Z) : K unit :=
  di ← arch_is_dint;
  OS_SELFCHECK_ASSERT di;;
  nesting ← gets isr_nesting;
  lock ← gets sched_lock;
  if (nesting <=? 1) && (lock =? 0) then
    c ← current;
    task ← get_task c;
    new_task ← os_taskqueue_dequeue_prio Q_ready (u8 (prio_current task + higher_prio));
    match new_task with
    | None => mret tt
    | Some new =>
        os_task_makeready c;;
        nesting ← gets isr_nesting;
        (if nesting =? 0 then arch_context_switch (Some new)
         else modify (set_task_current (Some new)));;
        c ← current;
        mod_task c (set_state TASKSTATE_RUNNING)
    end
  else mret tt.

Definition os_task_block_switch (q : qid) (bt : os_taskblock_t) : K unit :=
  os_task_makewait q bt;;
  new ← os_taskqueue_dequeue Q_ready;
  arch_context_switch new;;
  c ← current;
  mod_task c (set_state TASKSTATE_RUNNING).

(** [OS_ASSERT(!waitqueue_current)], [OS_ASSERT(0 == isr_nesting)],
    [OS_ASSERT(task_current != &task_idle)] *)
Definition assert_not_prepared : K unit :=
  w ← gets waitqueue_current; OS_ASSERT (bool_decide (w = None)).
Definition assert_not_isr : K unit :=
  n ← gets isr_nesting; OS_ASSERT (0 =? n).
Definition assert_not_idle : K unit :=
  c ← gets task_current; OS_ASSERT (negb (bool_decide (c = Some task_idle))).

(** [os_atomic_inc(&sched_lock)], [os_atomic_dec_load(&sched_lock)]; an operand
    size the port does not support ends in [arch_halt]. *)
Definition sched_lock_inc : K unit :=
  v ← gets sched_lock;
  match os_atomic_inc v with Some v' => modify (set_sched_lock v') | None => os_halt end.
Definition sched_lock_dec_load : K Z :=
  v ← gets sched_lock;
  match os_atomic_dec_load v with
  | Some v' => modify (set_sched_lock v');; mret v'
  | None => os_halt
  end.

Definition os_scheduler_lock : K unit :=
  assert_not_isr;;
  assert_not_prepared;;
  sched_lock_inc.

(** A critical section around the scheduler. *)
Definition schedule_critical (higher_prio : Z) : K unit :=
  cristate ← arch_critical_enter;
  os_schedule higher_prio;;
  arch_critical_exit cristate.

(** [os_scheduler_unlock]: giving the lock back, and the critical section if there
    is one; interrupts may come in between. *)
Definition os_scheduler_unlock_dec : K Z :=
  assert_not_isr;;
  assert_not_prepared;;
  sched_lock_dec_load.
Definition unlock_schedules (sync : bool) (lock_curr : Z) : bool := negb sync && (0 =? lock_curr).
Definition os_scheduler_unlock (sync : bool) : K unit :=
  lock_curr ← os_scheduler_unlock_dec;
  when (unlock_schedules sync lock_curr) (schedule_critical 1).

(** *** Tasks *)

Definition os_task_init (t : tid) (prio : Z) : K unit :=
  modify (λ s, set_tasks (<[t := task_zero]> (tasks s)) s);;
  null_links [L_task t; L_mtx_list t];;
  on_links (list_init (Some (L_task t)));;
  mod_task t (λ _, Task prio prio TASKSTATE_READY None OS_TASKBLOCK_INVALID None None 0 0 0);;
  on_links (list_init (Some (L_mtx_list t))).

Definition os_init : K unit :=
  arch_dint;;
  os_taskqueue_init Q_ready;;
  os_timers_init;;
  os_task_init task_idle 0;;
  mod_task task_idle (set_state TASKSTATE_RUNNING);;
  modify (set_task_current (Some task_idle));;
  modify (set_sched_lock 1).

(** [os_start] up to the idle loop, whose body is application code; interrupts are
    enabled, and may come, before its critical section. *)
Definition os_start_enable : K unit :=
  c ← gets task_current;
  OS_ASSERT (bool_decide (c = Some task_idle));;
  di ← arch_is_dint;
  OS_ASSERT di;;
  modify (set_sched_lock 0);;
  arch_eint.
Definition os_start : K unit := os_start_enable;; schedule_critical 0.

(** *** The stack check *)

Definition OS_STACK_FILLPATERN : Z := 171.   (* 0xAB *)

Fixpoint memset (a v : Z) (n : nat) (m : gmap Z Z) : gmap Z Z :=
  match n with O => m | S n => memset (a + 1) v n (<[a := v]> m) end.

Definition os_task_check_init (t : tid) (stack size : Z) : K unit :=
  modify (λ s, set_stacks (memset stack OS_STACK_FILLPATERN (Z.to_nat size) (stacks s)) s);;
  mod_task t (set_stack (if OS_STACK_DESCENDING then stack else stack + size - 1) size).

Definition os_task_check (t : tid) : K unit :=
  task ← get_task t;
  byte ← gets (λ s, byte_at s (stack_end task));
  if negb (OS_STACK_FILLPATERN =? byte) then os_halt else mret tt.

(** [os_task_create] up to its critical section, where interrupts may still come,
    the critical section, and the whole. [stack] is an address, 0 being NULL;
    [arch_task_init], the function of the port that writes the start context, gets
    the task, the stack, its size, [proc] and [param]. *)
Definition os_task_create_init (arch_task_init : tid → Z → Z → Z → Z → K unit)
    (t : tid) (prio stack size proc param : Z) : K unit :=
  assert_not_isr;;
  assert_not_prepared;;
  OS_ASSERT (prio <? OS_CONFIG_PRIOCNT);;
  OS_ASSERT (prio >? 0);;
  OS_ASSERT (negb (stack =? 0));;
  OS_ASSERT (size >=? OS_STACK_MINSIZE);;
  os_task_init t prio;;
  os_task_check_init t stack size;;
  arch_task_init t stack size proc param.
Definition os_task_create_enqueue (t : tid) : K unit :=
  cristate ← arch_critical_enter;
  os_taskqueue_enqueue Q_ready t;;
  os_schedule 1;;
  arch_critical_exit cristate.
Definition os_task_create (arch_task_init : tid → Z → Z → Z → Z → K unit)
    (t : tid) (prio stack size proc param : Z) : K unit :=
  os_task_create_init arch_task_init t prio stack size proc param;;
  os_task_create_enqueue t.

(** What is relied on of a port's [arch_task_init]: it writes stack memory (and the
    context, which the kernel does not read) and returns, or an assertion in it
    halts the system, as on the MSP430 (MspContext.v). *)
Definition stack_writer (arch_task_init : tid → Z → Z → Z → Z → K unit) : Prop :=
  ∀ t stack size proc param s,
    (∃ m, arch_task_init t stack size proc param s = Done tt (set_stacks m s)) ∨
    ∃ s', arch_task_init t stack size proc param s = Halted s'.

Definition os_yield : K unit :=
  assert_not_isr;;
  assert_not_idle;;
  assert_not_prepared;;
  cristate ← arch_critical_enter;
  os_schedule 0;;
  arch_critical_exit cristate.

(** *** The tick (os_tick of source/os_timer.c) *)

Definition os_tick (call_clbck : timer_proc_t → timer_param_t → K unit) (fuel : nat) : K unit :=
  nesting ← gets isr_nesting;
  OS_ASSERT (nesting >? 0);;
  cristate ← arch_critical_enter;
  modify (λ s, set_ticks_cnt (ticks_wrap (ticks_cnt s + 1)) s);;
  empty ← read_links (list_is_empty (Some L_timer_list));
  when (negb empty)
    (modify (λ s, set_unsynch (ticks_wrap (timer_tick_unsynch s + 1)) s);;
     head ← read_links (list_peekfirst (Some L_timer_list));
     head_timer ← timer_of_link head;
     tm ← get_timer head_timer;
     unsynch ← gets timer_tick_unsynch;
     when ((unsynch >=? ticks_rem tm) || (unsynch >? OS_TIMER_UNSYNCH_MAX))
       (timer_trigger call_clbck fuel));;
  os_schedule 0;;
  arch_critical_exit cristate.

End sched.

(** ** Steps of the scheduler's callees *)

Section facts.
Context {AP : ArchPort} {APOK : ArchPortOk AP}.
Implicit Types (A : gmap laddr (list laddr)) (s : kstate) (q : qid) (t c : tid) (tk : os_task_t).

Lemma OS_ASSERT_true {B} (b : bool) (k : K B) s : b = true → (OS_ASSERT b;; k) s = k s.
Proof. by intros ->. Qed.
Lemma OS_ASSERT_false {B} (b : bool) (k : K B) s : b = false → (OS_ASSERT b;; k) s = os_halt s.
Proof. by intros ->. Qed.

Lemma bind_halt {B C} (k : B → K C) s : (os_halt ≫= k) s = os_halt s.
Proof. done. Qed.

(** The guards of the API functions. *)
Lemma not_isr_ok {B} (k : K B) s : isr_nesting s = 0 → (assert_not_isr;; k) s = k s.
Proof. intros H. unfold assert_not_isr, mbind, K_bind, gets. cbn. by rewrite H. Qed.
Lemma not_isr_bad {B} (k : K B) s : isr_nesting s ≠ 0 → (assert_not_isr;; k) s = os_halt s.
Proof.
  intros H. unfold assert_not_isr, mbind, K_bind, gets. cbn.
  by destruct (isr_nesting s).
Qed.
Lemma not_prepared_ok {B} (k : K B) s : waitqueue_current s = None → (assert_not_prepared;; k) s = k s.
Proof. intros H. unfold assert_not_prepared, mbind, K_bind, gets. cbn. by rewrite H. Qed.
Lemma not_prepared_bad {B} (k : K B) s : waitqueue_current s ≠ None → (assert_not_prepared;; k) s = os_halt s.
Proof.
  intros H. unfold assert_not_prepared, mbind, K_bind, gets. cbn. by rewrite bool_decide_false.
Qed.
Lemma not_idle_ok {B} (k : K B) s : task_current s ≠ Some task_idle → (assert_not_idle;; k) s = k s.
Proof. intros H. unfold assert_not_idle, mbind, K_bind, gets. cbn. by rewrite bool_decide_false. Qed.
Lemma not_idle_bad {B} (k : K B) s : task_current s = Some task_idle → (assert_not_idle;; k) s = os_halt s.
Proof. intros H. unfold assert_not_idle, mbind, K_bind, gets. cbn. by rewrite bool_decide_true. Qed.

Lemma unlock_dec_run s v : isr_nesting s = 0 → waitqueue_current s = None → os_atomic_dec_load (sched_lock s) = Some v →
  os_scheduler_unlock_dec s = Done v (set_sched_lock v s).
Proof.
  intros Hn Hw Hv. unfold os_scheduler_unlock_dec. rewrite not_isr_ok, not_prepared_ok by done.
  unfold sched_lock_dec_load, mbind, K_bind, gets. cbn. by rewrite Hv.
Qed.

Section tick.
Context (call_clbck : timer_proc_t → timer_param_t → K unit) (P : tmid → Prop)
  (Inv : list tmid → gmap laddr (list laddr) → kstate → Prop)
  {HC : TimerClient call_clbck P Inv}.

(** The invariant of the callbacks' owner does not see the counters. *)
Lemma client_counters f A s s' : Inv f A s → repr (links s) A → timers_ok A s → unlinked A L_autoreload →
  same_kernel s s' → links s' = links s → timers s' = timers s → Inv f A s'.
Proof.
  intros HI HR HT Hu Hk Hl Ht. eapply client_frame; [exact HI | done | by apply same_counts_refl | by rewrite Hl | by rewrite Hl | done |].
  intros hd xs [-> | ->] Hx; [rewrite (to_list _ _ HT) in Hx; injection Hx as <-; eauto |].
  exfalso. by apply (Hu _ _ Hx), list_elem_of_here.
Qed.

(** Counting a tick without looking at the list. *)
Definition tick_state (s : kstate) : kstate :=
  set_unsynch (timer_tick_unsynch s + 1)
    (set_ticks_cnt (ticks_wrap (ticks_cnt s + 1)) (set_dint true s)).

Lemma timers_due A s : timers_ok A s → armed A ≠ [] → timers_wf (d := 0) A (tick_state s).
Proof.
  intros HT Hne. pose proof (to_unsynch _ _ HT) as Hu. split.
  - apply (to_list _ _ HT).
  - apply (to_sorted _ _ HT).
  - intros x Hx. destruct (to_armed _ _ HT x Hx) as [? ?]. split; [| done].
    change (timer_tick_unsynch s + 1 + 0 ≤ rem s x ≤ OS_TICKS_MAX). lia.
  - apply (to_idle _ _ HT).
  - apply (to_reload _ _ HT).
  - cbn. lia.
  - done.
Qed.

Lemma timers_not_due A s : timers_ok A s → armed A ≠ [] → timer_tick_unsynch s + 1 ≤ OS_TIMER_UNSYNCH_MAX →
  (∀ x, x ∈ armed A → timer_tick_unsynch s + 1 < rem s x) → timers_ok A (tick_state s).
Proof.
  intros HT Hne Hm Hx. pose proof (timers_due _ _ HT Hne) as H0. pose proof (to_unsynch _ _ HT).
  split; try apply H0.
  - intros x Hin. destruct (to_armed _ _ H0 x Hin) as [? ?]. split; [| done].
    specialize (Hx x Hin). change (rem (tick_state s) x) with (rem s x) in *.
    change (timer_tick_unsynch (tick_state s)) with (timer_tick_unsynch s + 1) in *. lia.
  - change (timer_tick_unsynch (tick_state s)) with (timer_tick_unsynch s + 1). lia.
Qed.

Lemma sorted_head_le (r : tmid → Z) x xs y : StronglySorted (λ x y, r x ≤ r y) (x :: xs) →
  y ∈ x :: xs → r x ≤ r y.
Proof.
  intros Hs [-> | Hy]%elem_of_cons; [lia |]. apply StronglySorted_inv in Hs as [_ Hs].
  rewrite Forall_forall in Hs. by apply Hs.
Qed.

(** The decision to walk the timer list. *)
Lemma tick_head A s fuel hd xs : repr (links s) A → timers_ok A s → armed A = hd :: xs →
  (head ← read_links (list_peekfirst (Some L_timer_list));
   head_timer ← timer_of_link head;
   tm ← get_timer head_timer;
   unsynch ← gets timer_tick_unsynch;
   when ((unsynch >=? ticks_rem tm) || (unsynch >? OS_TIMER_UNSYNCH_MAX))
     (timer_trigger call_clbck fuel)) (tick_state s) =
  when ((timer_tick_unsynch s + 1 >=? rem s hd) || (timer_tick_unsynch s + 1 >? OS_TIMER_UNSYNCH_MAX))
     (timer_trigger call_clbck fuel) (tick_state s).
Proof.
  intros HR HT Ha.
  erewrite bind_Done.
  2:{ apply read_links_Some. eapply list_peekfirst_repr; [exact HR | apply (to_list _ _ HT)]. }
  rewrite Ha. cbn [fmap list_fmap head timer_of_link].
  by do 3 erewrite bind_Done by done.
Qed.

(** What a tick leaves alone: the timers that are not armed. *)
Definition idle_kept A s A' s' : Prop :=
  (∀ x, x ∉ armed A → timer_at s' x = timer_at s x) ∧ ∀ x, A' !! L_timer x = A !! L_timer x.
(** What a tick does before its call of the scheduler. *)
Definition ticked A s A' s' : Prop :=
  Inv (filter (λ x, remaining s x = 1) (armed A)) A' s' ∧
  repr (links s') A' ∧ timers_ok A' s' ∧ unlinked A' L_autoreload ∧ dint s' = true ∧
  ticks_cnt s' = ticks_wrap (ticks_cnt s + 1) ∧
  (∀ x, x ∈ armed A' ↔ x ∈ armed A ∧ (remaining s x ≠ 1 ∨ ticks_reload (timer_at s x) > 0)) ∧
  (∀ x, x ∈ armed A' →
    remaining s' x = if decide (remaining s x = 1) then ticks_reload (timer_at s x) else remaining s x - 1) ∧
  idle_kept A s A' s'.

Section ticks.
Context A s (HI : Inv [] A s) (HR : repr (links s) A) (HT : timers_ok A s) (Hua : unlinked A L_autoreload).
Context hd xs (Ea : armed A = hd :: xs).

(** The ticks counted are taken off the timers: the first one has expired, or the
    counter is full. *)
Lemma tick_triggers fuel : (∀ x, x ∈ armed A → P x) → (2 * length (armed A) < fuel)%nat →
  rem s hd ≤ timer_tick_unsynch s + 1 ∨ OS_TIMER_UNSYNCH_MAX < timer_tick_unsynch s + 1 →
  ∃ A' s', timer_trigger call_clbck fuel (tick_state s) = Done tt s' ∧ ticked A s A' s'.
Proof using All.
  intros HP Hf Hc. assert (armed A ≠ []) as Hemp by (by rewrite Ea).
  assert (Inv [] A (tick_state s)) as HI1 by (by eapply client_counters).
  assert (∀ x, remaining s x = 1 ↔ rem (tick_state s) x = timer_tick_unsynch (tick_state s)) as Hrem.
  { intros x. unfold remaining. cbn. change (rem (tick_state s) x) with (rem s x). lia. }
  destruct (timer_trigger_spec call_clbck P Inv fuel A (tick_state s))
    as (A' & s' & Hrun & HI' & HR' & HT' & Hua' & Ha' & Hu' & Hc' & Hd' & Hr' & Ht' & Hid' & Hh'); try done; [by apply timers_due |].
  assert (∀ x, x ∈ armed A' ↔ x ∈ armed A ∧ (remaining s x ≠ 1 ∨ ticks_reload (timer_at s x) > 0)) as Hin.
  { intros x. rewrite Ha', elem_of_armed_after. by rewrite <- (not_iff_compat (Hrem x)). }
  exists A', s'. split; [done |]. unfold ticked. split_and!; try done.
  - unfold expired in HI'. by rewrite (list_filter_iff _ _ (armed A) Hrem).
  - intros x Hx. unfold remaining at 1. rewrite Hu', Z.sub_0_r, Hr' by done.
    unfold count_after. case_decide as Hc1; rewrite <- Hrem in Hc1;
      [by rewrite decide_True | rewrite decide_False by done].
    unfold remaining. change (rem (tick_state s) x) with (rem s x). cbn. lia.
Qed.

(** The tick is only counted. *)
Lemma tick_counted : timer_tick_unsynch s + 1 < rem s hd → timer_tick_unsynch s + 1 ≤ OS_TIMER_UNSYNCH_MAX →
  ticked A s A (tick_state s).
Proof using All.
  intros Hlt Hmax. pose proof (to_sorted _ _ HT) as Hs. rewrite Ea in Hs.
  assert (∀ y, y ∈ armed A → rem s hd ≤ rem s y) as Hhd by (rewrite Ea; intros y; by apply sorted_head_le).
  assert (∀ x, x ∈ armed A → remaining s x ≠ 1) as Hno.
  { intros x Hx. specialize (Hhd x Hx). unfold remaining. lia. }
  unfold ticked. rewrite (filter_none (λ x, remaining s x = 1) (armed A)) by done. split_and!; try done.
  - by eapply client_counters.
  - apply timers_not_due; [done | by rewrite Ea | done |].
    intros x Hx. specialize (Hhd x Hx). lia.
  - intros x. pose proof (Hno x). tauto.
  - intros x Hx. rewrite decide_False by auto. unfold remaining. change (rem (tick_state s) x) with (rem s x). cbn. lia.
Qed.
End ticks.

(** The part of [os_tick] before its call of the scheduler. *)
Lemma os_tick_run A s fuel :
  Inv [] A s → repr (links s) A → timers_ok A s → unlinked A L_autoreload →
  0 < isr_nesting s → (∀ x, x ∈ armed A → P x) → (2 * length (armed A) < fuel)%nat →
  ∃ A' s', os_tick call_clbck fuel s = (os_schedule 0;; arch_critical_exit (dint s)) s' ∧ ticked A s A' s'.
Proof.
  intros HI HR HT Hua Hn HP Hf. pose proof (to_unsynch _ _ HT) as Hu.
  unfold os_tick. erewrite bind_Done by done. cbn beta.
  rewrite OS_ASSERT_true by (by apply Z.gtb_lt).
  do 2 erewrite bind_Done by done. cbn beta.
  erewrite bind_Done.
  2:{ apply read_links_Some. eapply list_is_empty_repr; [exact HR | apply (to_list _ _ HT)]. }
  rewrite (bool_decide_ext (L_timer <$> armed A = []) (armed A = [])) by (by destruct (armed A)).
  set (s0 := set_ticks_cnt _ _). destruct (armed A) as [| hd xs] eqn:Ea.
  - rewrite bool_decide_true by done. cbn [negb when]. erewrite bind_Done by done. exists A, s0.
    split; [done |]. unfold ticked. rewrite Ea. split_and!; try done.
    + by eapply client_counters.
    + destruct HT. split; try done.
    + intros x. rewrite elem_of_nil. tauto.
    + intros x []%not_elem_of_nil.
  - rewrite bool_decide_false by done. cbn [negb when].
    assert (modify (λ s, set_unsynch (ticks_wrap (timer_tick_unsynch s + 1)) s) s0 = Done tt (tick_state s)) as Hmod.
    { unfold modify. cbn. rewrite ticks_wrap_id; [done |]. unfold OS_TIMER_UNSYNCH_MAX in Hu. lia. }
    destruct ((timer_tick_unsynch s + 1 >=? rem s hd) || (timer_tick_unsynch s + 1 >? OS_TIMER_UNSYNCH_MAX)) eqn:Ec.
    + destruct (tick_triggers A s HI HR HT Hua hd xs Ea fuel) as (A' & s' & Hrun & Hs'); [by rewrite Ea | by rewrite Ea | |].
      { rewrite orb_true_iff, Z.geb_le, Z.gtb_lt in Ec. done. }
      exists A', s'. split; [| done].
      erewrite bind_Done; [done |]. erewrite bind_Done by exact Hmod. erewrite tick_head, Ec by eauto. exact Hrun.
    + exists A, (tick_state s). split.
      * rewrite (bind_Done _ _ _ tt (tick_state s)); [done |]. erewrite bind_Done by exact Hmod.
        apply orb_false_iff in Ec as [Ec1 Ec2]. rewrite (tick_head A s fuel hd xs HR HT Ea). by rewrite Ec1, Ec2.
      * apply orb_false_iff in Ec as [Ec1 Ec2]. rewrite Z.gtb_ltb, Z.ltb_ge in Ec2. rewrite Z.geb_leb, Z.leb_gt in Ec1.
        by apply (tick_counted A s HI HR HT Hua hd xs).
Qed.
End tick.

(** *** Readying, blocking, switching *)

(** TCBs as [os_task_makeready] and [os_task_makewait] leave them. *)
Definition ready_task (tk : os_task_t) : os_task_t :=
  set_task_queue (Some Q_ready) (set_state TASKSTATE_READY tk).
Definition waiting_task (q : qid) (bt : os_taskblock_t) (tk : os_task_t) : os_task_t :=
  set_task_queue (Some q) (set_block_type bt (set_state TASKSTATE_WAIT tk)).

(** What a task does first when it is switched to inside the kernel. *)
Definition resume_running : K unit := c ← current; mod_task c (set_state TASKSTATE_RUNNING).

(** Kernel code runs for the task [c] with the TCB [tk], which is on no queue. *)
Record sched_ok A s c tk : Prop := {
  so_queues : queues_ok A s;
  so_ready : live A Q_ready;
  so_current : task_current s = Some c;
  so_task : tasks s !! c = Some tk;
  so_free : task_queue tk = None;
  so_prio : 0 ≤ prio_current tk < OS_CONFIG_PRIOCNT
}.

(** [q] with [t] at the tail of the bucket of its priority. *)
Definition push A q t p := set_bucket A q p (qtasks A q p ++ [t]).

(** [s'] differs from [s] in the TCBs [T], the lists and the masks. *)
Definition queues_step s (T : gmap tid os_task_t) s' : Prop :=
  ∃ h mk, s' = set_masks mk (set_tasks T (set_links h s)) ∧ same_dom h (links s).

Lemma queue_step_step s t tk' s' : queue_step s t tk' s' → queues_step s (<[t := tk']> (tasks s)) s'.
Proof. done. Qed.

Lemma queues_step_trans s T s' T' s'' :
  queues_step s T s' → queues_step s' T' s'' → queues_step s T' s''.
Proof.
  intros (h & mk & -> & Hd) (h' & mk' & -> & Hd'). exists h', mk'. split; [done | by transitivity h].
Qed.

Lemma queues_step_tasks s T s' : queues_step s T s' → tasks s' = T.
Proof. by intros (h & mk & -> & _). Qed.

Lemma makeready_spec A s t tk :
  queues_ok A s → live A Q_ready → tasks s !! t = Some tk → task_queue tk = None →
  0 ≤ prio_current tk < OS_CONFIG_PRIOCNT →
  ∃ s', os_task_makeready t s = Done tt s' ∧ queues_step s (<[t := ready_task tk]> (tasks s)) s' ∧
    queues_ok (push A Q_ready t (prio_current tk)) s'.
Proof.
  intros HQ Hl Ht Hq Hp. unfold os_task_makeready.
  erewrite bind_Done by (by apply mod_task_Some).
  pose proof (queues_ok_mod_task A s t tk (set_state TASKSTATE_READY tk) Ht ltac:(done) ltac:(done) HQ) as HQ1.
  destruct (enqueue_spec A _ Q_ready t (set_state TASKSTATE_READY tk) HQ1 Hl) as (s' & He & Hst & HQ');
    [apply lookup_insert_eq | done | done |].
  exists s'. split_and!; [done | | done].
  destruct Hst as (h & mk & -> & Hd). exists h, mk. cbn. by rewrite insert_insert_eq.
Qed.

Lemma makewait_spec A s c tk q bt :
  sched_ok A s c tk → live A q →
  ∃ s', os_task_makewait q bt s = Done tt s' ∧
    queues_step s (<[c := waiting_task q bt tk]> (tasks s)) s' ∧
    queues_ok (push A q c (prio_current tk)) s'.
Proof.
  intros [HQ _ Hc Ht Hq Hp] Hl. unfold os_task_makewait.
  erewrite bind_Done by (by apply current_Some).
  erewrite bind_Done by (by apply mod_task_Some).
  erewrite bind_Done by (apply mod_task_Some; cbn; apply lookup_insert_eq). cbn. rewrite insert_insert_eq.
  set (tk1 := set_block_type bt (set_state TASKSTATE_WAIT tk)).
  pose proof (queues_ok_mod_task A s c tk tk1 Ht ltac:(done) ltac:(done) HQ) as HQ1.
  destruct (enqueue_spec A _ q c tk1 HQ1 Hl) as (s' & He & Hst & HQ');
    [apply lookup_insert_eq | done | done |].
  exists s'. split_and!; [exact He | | done].
  destruct Hst as (h & mk & -> & Hd). exists h, mk. cbn. by rewrite insert_insert_eq.
Qed.

(** The state in which [os_schedule] hands over from [c] to [new]. *)
Record handover A s c tk new A' s' : Prop := {
  ho_new : ∃ tkn ts, tasks s !! new = Some tkn ∧ pq_top (qtasks A Q_ready) (prio_current tkn) new ∧
    qtasks A Q_ready (prio_current tkn) = new :: ts ∧ new ≠ c ∧ task_queue tkn = Some Q_ready ∧
    queues_step s (<[c := ready_task tk]> (<[new := set_task_queue None tkn]> (tasks s))) s' ∧
    A' = push (set_bucket A Q_ready (prio_current tkn) ts) Q_ready c (prio_current tk);
  ho_queues : queues_ok A' s'
}.

Lemma context_switch_eq {B} s c new (k : unit → K B) : task_current s = Some c →
  (arch_context_switch (Some new) ≫= k) s = Switch c (set_task_current (Some new) s) (λ s', k tt s').
Proof.
  intros Hc. unfold arch_context_switch, current, gets, mbind, K_bind. cbn. by rewrite Hc.
Qed.

Lemma u8_id x : 0 ≤ x < 256 → u8 x = x.
Proof. apply Z.mod_small. Qed.

Lemma os_schedule_spec A s c tk hp :
  sched_ok A s c tk → dint s = true → 0 ≤ hp ≤ 1 →
  ((1 < isr_nesting s ∨ sched_lock s ≠ 0) ∧ os_schedule hp s = Done tt s) ∨
  (isr_nesting s ≤ 1 ∧ sched_lock s = 0 ∧ (∀ i, prio_current tk + hp ≤ i → qtasks A Q_ready i = []) ∧
    os_schedule hp s = Done tt s) ∨
  (isr_nesting s ≤ 1 ∧ sched_lock s = 0 ∧ ∃ new A' s', handover A s c tk new A' s' ∧
    (∃ tkn, tasks s !! new = Some tkn ∧ prio_current tk + hp ≤ prio_current tkn) ∧
    os_schedule hp s =
      if isr_nesting s =? 0
      then Switch c (set_task_current (Some new) s') (λ s2, resume_running s2)
      else resume_running (set_task_current (Some new) s')).
Proof.
  intros Hok Hdi Hhp. pose proof Hok as [HQ Hl Hc Ht Hq Hp]. unfold os_schedule.
  erewrite bind_Done by done. cbn beta. unfold OS_SELFCHECK_ASSERT. rewrite Hdi, OS_ASSERT_true by done.
  do 2 erewrite bind_Done by done. cbn beta.
  destruct (Z.leb_spec (isr_nesting s) 1) as [Hn | Hn]; [| left; split; [lia | done]].
  destruct (Z.eqb_spec (sched_lock s) 0) as [Hk | Hk]; [| left; split; [lia | done]].
  right. cbn [andb].
  erewrite bind_Done by (by apply current_Some).
  erewrite bind_Done by (by apply get_task_Some).
  rewrite u8_id by (unfold OS_CONFIG_PRIOCNT in *; lia).
  destruct (dequeue_prio_spec A s Q_ready (prio_current tk + hp) HQ Hl)
    as [[He Hd] | (s1 & new & tkn & ts & Hd & Htn & Hqn & Hge & Htop & Hts & Hst & HQ1)].
  - left. erewrite bind_Done by exact Hd. done.
  - right. split_and!; [done.. |]. erewrite bind_Done by exact Hd. cbn beta iota.
    assert (new ≠ c) as Hne by congruence.
    destruct Hst as (h1 & mk1 & -> & Hd1).
    destruct (makeready_spec (set_bucket A Q_ready (prio_current tkn) ts) _ c tk HQ1)
      as (s2 & Hm & Hst2 & HQ2); [by apply live_set_bucket | cbn; by rewrite lookup_insert_ne | done.. |].
    exists new, (push (set_bucket A Q_ready (prio_current tkn) ts) Q_ready c (prio_current tk)), s2.
    assert (queues_step s (<[c := ready_task tk]> (<[new := set_task_queue None tkn]> (tasks s))) s2) as Hst'.
    { eapply queues_step_trans; [| exact Hst2]. by exists h1, mk1. }
    split_and!; [split; [by exists tkn, ts | done] | by eauto |].
    erewrite bind_Done by exact Hm. erewrite bind_Done by done. cbn beta.
    destruct Hst' as (h2 & mk2 & -> & _). cbn.
    destruct (isr_nesting s =? 0); [| done].
    by rewrite (context_switch_eq _ c) by done.
Qed.

(** The scheduler's decision in terms of the sequence of ready tasks alone. *)
Lemma handover_ready A s c tk new A' s' : sched_ok A s c tk → handover A s c tk new A' s' →
  ∀ i, qtasks A' Q_ready i =
    (if decide (head (qtasks A Q_ready i) = Some new) then tail (qtasks A Q_ready i)
     else qtasks A Q_ready i) ++ (if decide (i = prio_current tk) then [c] else []).
Proof.
  intros Hok [(tkn & ts & Htn & Htop & Hts & Hne & Hqn & Hst & ->) HQ'] i.
  pose proof (so_queues _ _ _ _ Hok) as HQ.
  unfold push. rewrite !qtasks_set_bucket.
  assert (∀ j, head (qtasks A Q_ready j) = Some new ↔ j = prio_current tkn) as Hj.
  { intros j. split; [| intros ->; by rewrite Hts]. intros Hh.
    assert (new ∈ qtasks A Q_ready j) as Hin.
    { destruct (qtasks A Q_ready j); [done |]. injection Hh as ->. apply list_elem_of_here. }
    assert (new ∈ qtasks A Q_ready (prio_current tkn)) as Hin' by (rewrite Hts; apply list_elem_of_here).
    by destruct (member_unique _ _ HQ _ _ _ _ _ Hin Hin'). }
  destruct (decide (i = prio_current tk)) as [-> | Hi].
  - rewrite decide_True by done.
    destruct (decide (prio_current tk = prio_current tkn)) as [-> | Hn].
    + rewrite !decide_True by (done || by apply Hj). by rewrite Hts.
    + rewrite !decide_False by (naive_solver || by rewrite Hj). done.
  - rewrite decide_False by (by intros [_ ?]). rewrite app_nil_r.
    destruct (decide (i = prio_current tkn)) as [-> | Hn].
    + rewrite !decide_True by (done || by apply Hj). by rewrite Hts.
    + rewrite !decide_False by (naive_solver || by rewrite Hj). done.
Qed.

Lemma qtasks_push A q t p q' i :
  qtasks (push A q t p) q' i = qtasks A q' i ++ (if decide (q' = q ∧ i = p) then [t] else []).
Proof. unfold push. rewrite qtasks_set_bucket. decide_all; naive_solver (by rewrite ?app_nil_r). Qed.

Lemma live_push A q t p q' : live A q' → live (push A q t p) q'.
Proof. apply live_set_bucket. Qed.

(** Blocking the current task: the CPU goes to the first task of the highest
    ready priority. *)
Lemma block_switch_spec A s c tk q bt :
  sched_ok A s c tk → live A q → q ≠ Q_ready → ¬ pq_empty (qtasks A Q_ready) →
  ∃ new tkn ts s', tasks s !! new = Some tkn ∧ pq_top (qtasks A Q_ready) (prio_current tkn) new ∧
    qtasks A Q_ready (prio_current tkn) = new :: ts ∧ new ≠ c ∧
    queues_step s (<[new := set_task_queue None tkn]> (<[c := waiting_task q bt tk]> (tasks s))) s' ∧
    queues_ok (set_bucket (push A q c (prio_current tk)) Q_ready (prio_current tkn) ts) s' ∧
    os_task_block_switch q bt s = Switch c (set_task_current (Some new) s') (λ s2, resume_running s2).
Proof.
  intros Hok Hl Hq Hne. pose proof Hok as [HQ Hlr Hc Ht Hqn Hp]. unfold os_task_block_switch.
  destruct (makewait_spec A s c tk q bt Hok Hl) as (s1 & Hm & Hst1 & HQ1).
  erewrite bind_Done by exact Hm.
  assert (∀ i, qtasks (push A q c (prio_current tk)) Q_ready i = qtasks A Q_ready i) as Hready.
  { intros i. rewrite qtasks_push, decide_False by (by intros [? _]). apply app_nil_r. }
  destruct (dequeue_spec _ s1 Q_ready HQ1) as [[He _] | (s2 & new & tkn & ts & Hd & Htn & Hqn' & Htop & Hts & Hst2 & HQ2)];
    [by apply live_push | exfalso; apply Hne; intros i; by rewrite <- Hready, He |].
  erewrite bind_Done by exact Hd. rewrite Hready in Hts.
  assert (new ≠ c) as Hnc.
  { intros ->. rewrite (queues_step_tasks _ _ _ Hst1), lookup_insert_eq in Htn. injection Htn as <-.
    cbn in Hqn'. congruence. }
  rewrite (queues_step_tasks _ _ _ Hst1), lookup_insert_ne in Htn by done.
  exists new, tkn, ts, s2. split_and!; try done.
  - destruct Htop as [Hh Ht']. split; [by rewrite Hts |]. intros i Hi. by rewrite <- Hready, Ht'.
  - eapply queues_step_trans; [exact Hst1 |]. rewrite <- (queues_step_tasks _ _ _ Hst1).
    by apply queue_step_step.
  - apply context_switch_eq. destruct Hst2 as (h2 & mk2 & -> & _), Hst1 as (h1 & mk1 & -> & _). done.
Qed.
End facts.

(** ** Properties of the scheduler *)

Section properties.
Context {AP : ArchPort} {APOK : ArchPortOk AP}.
Implicit Types (A : gmap laddr (list laddr)) (s : kstate).

(** C5: The scheduling decision. Called by a task inside a critical section,
    [os_schedule] leaves everything as it is when an interrupt is nested, the
    scheduler is locked, or no ready task has the priority asked for (that of
    the current task, one more with [higher_prio]); otherwise the first task of
    the highest ready priority becomes [task_current] - at once through a
    context switch, or at the end of the interrupt - and the old task is READY
    at the tail of the bucket of its priority, all other tasks keeping their
    order. *)
Theorem os_schedule_decision A s c tk hp :
  sched_ok A s c tk → dint s = true → 0 ≤ hp ≤ 1 →
  ((1 < isr_nesting s ∨ sched_lock s ≠ 0 ∨ ∀ i, prio_current tk + hp ≤ i → qtasks A Q_ready i = []) ∧
    os_schedule hp s = Done tt s) ∨
  (isr_nesting s ≤ 1 ∧ sched_lock s = 0 ∧ ∃ new tkn A' s',
    tasks s !! new = Some tkn ∧ prio_current tk + hp ≤ prio_current tkn ∧
    pq_top (qtasks A Q_ready) (prio_current tkn) new ∧
    tasks s' = <[c := ready_task tk]> (<[new := set_task_queue None tkn]> (tasks s)) ∧
    queues_ok A' s' ∧
    (∀ i, qtasks A' Q_ready i =
      (if decide (i = prio_current tkn) then tail (qtasks A Q_ready i) else qtasks A Q_ready i) ++
      (if decide (i = prio_current tk) then [c] else [])) ∧
    os_schedule hp s =
      if isr_nesting s =? 0
      then Switch c (set_task_current (Some new) s') (λ s2, resume_running s2)
      else resume_running (set_task_current (Some new) s')).
Proof.
  intros Hok Hd Hhp.
  destruct (os_schedule_spec A s c tk hp Hok Hd Hhp) as
    [[[?|?] ?] | [(? & ? & ? & ?) | (? & ? & new & A' & s' & Hho & (tkn & Htn & Hge) & Hrun)]];
    [left; auto.. |].
  right. split_and!; [done.. |].
  pose proof (handover_ready _ _ _ _ _ _ _ Hok Hho) as Hr.
  pose proof (so_queues _ _ _ _ Hok) as HQ.
  destruct Hho as [(tkn' & ts & Htn' & Htop & Hts & Hne & Hqn & Hst & HA') HQ'].
  assert (tkn' = tkn) as -> by congruence.
  exists new, tkn, A', s'. split_and!; try done; [by eapply queues_step_tasks |].
  intros i. rewrite Hr. f_equal.
  destruct (decide (i = prio_current tkn)) as [-> | Hi]; [by rewrite Hts, decide_True |].
  rewrite decide_False; [done |]. intros Hh.
  assert (new ∈ qtasks A Q_ready i) as Hin.
  { destruct (qtasks A Q_ready i); [done |]. injection Hh as ->. apply list_elem_of_here. }
  assert (new ∈ qtasks A Q_ready (prio_current tkn)) as Hin' by (rewrite Hts; apply list_elem_of_here).
  by destruct (member_unique _ _ HQ _ _ _ _ _ Hin Hin').
Qed.

(** C30: Blocking always finds a task to run. While the idle task is in the ready
    queue, [os_task_block_switch] of another task never passes NULL to
    [arch_context_switch]: the caller goes to the tail of its priority in the
    queue it waits on, marked as waiting for that kind of object, and the CPU
    goes to the first ready task of the highest priority, which is at least
    that of the idle task. *)
Theorem block_switch_finds_task A s c tk q bt idle :
  sched_ok A s c tk → live A q → q ≠ Q_ready → idle ∈ qtasks A Q_ready 0 →
  ∃ new tkn A' s', tasks s !! new = Some tkn ∧ 0 ≤ prio_current tkn ∧
    pq_top (qtasks A Q_ready) (prio_current tkn) new ∧ queues_ok A' s' ∧
    tasks s' = <[new := set_task_queue None tkn]> (<[c := waiting_task q bt tk]> (tasks s)) ∧
    (∀ i, qtasks A' q i = qtasks A q i ++ (if decide (i = prio_current tk) then [c] else [])) ∧
    (∀ i, qtasks A' Q_ready i = if decide (i = prio_current tkn) then tail (qtasks A Q_ready i) else qtasks A Q_ready i) ∧
    os_task_block_switch q bt s = Switch c (set_task_current (Some new) s') (λ s2, resume_running s2).
Proof.
  intros Hok Hl Hq Hidle.
  destruct (block_switch_spec A s c tk q bt Hok Hl Hq) as (new & tkn & ts & s' & Htn & Htop & Hts & Hne & Hst & HQ' & Hrun).
  { intros He. rewrite He in Hidle. by apply elem_of_nil in Hidle. }
  exists new, tkn. eexists _, s'. split_and!; [done | | done | exact HQ' | by eapply queues_step_tasks | | | done].
  - assert (new ∈ qtasks A Q_ready (prio_current tkn)) as Hin by (rewrite Hts; apply list_elem_of_here).
    by destruct (qtasks_live _ _ (so_queues _ _ _ _ Hok) _ _ _ Hin) as (_ & [? _] & _).
  - intros i. rewrite qtasks_set_bucket, decide_False, qtasks_push by (by intros [? _]).
    f_equal. decide_all; naive_solver.
  - intros i. rewrite qtasks_set_bucket. destruct (decide (i = prio_current tkn)) as [-> | Hi].
    + rewrite decide_True by done. by rewrite Hts.
    + rewrite decide_False, qtasks_push, decide_False by (by intros [? ?]). apply app_nil_r.
Qed.

(** C7: A tick counts down every timer by exactly one. Whether or not the tick
    walks the list, after the timer part of [os_tick] (what follows is the call
    of the scheduler) every armed timer has one tick less to go; exactly the
    timers that had one tick to go have had their callbacks called, soonest
    first; of those the auto-reloading ones are armed again with their reload
    value and the others are no longer armed; the list is sorted and the tick
    counter is one more. Callbacks are any code that leaves the timers alone
    ([TimerClient]). *)
Theorem os_tick_counts call P Inv `{!TimerClient call P Inv} A s fuel :
  Inv [] A s → repr (links s) A → timers_ok A s → unlinked A L_autoreload →
  0 < isr_nesting s → (∀ x, x ∈ armed A → P x) → (2 * length (armed A) < fuel)%nat →
  ∃ A' s', os_tick call fuel s = (os_schedule 0;; arch_critical_exit (dint s)) s' ∧
    Inv (filter (λ x, remaining s x = 1) (armed A)) A' s' ∧ repr (links s') A' ∧ timers_ok A' s' ∧
    ticks_cnt s' = ticks_wrap (ticks_cnt s + 1) ∧ dint s' = true ∧
    (∀ x, x ∈ armed A' ↔ x ∈ armed A ∧ (remaining s x ≠ 1 ∨ ticks_reload (timer_at s x) > 0)) ∧
    ∀ x, x ∈ armed A' →
      remaining s' x = if decide (remaining s x = 1) then ticks_reload (timer_at s x) else remaining s x - 1.
Proof.
  intros HI HR HT Hu Hn HP Hf.
  destruct (os_tick_run call P Inv A s fuel HI HR HT Hu Hn HP Hf) as (A' & s' & ? & ? & ? & ? & _ & ? & ? & ? & ? & _).
  exists A', s'. by split_and!.
Qed.
End properties.

(** *** The scheduler lock *)

Section lock.
Context {AP : ArchPort} {APOK : ArchPortOk AP}.

Fixpoint times (n : nat) (m : K unit) : K unit :=
  match n with O => mret tt | S n => m;; times n m end.

Lemma times_Done n k m s s' : times n m s = Done tt s' → times (n + k) m s = times k m s'.
Proof.
  revert s. induction n as [| n IH]; intros s; cbn [times Nat.add].
  - by intros [= ->].
  - intros (a & s1 & Hm & Hr)%bind_Done_inv. erewrite bind_Done by exact Hm. by apply IH.
Qed.

Lemma scheduler_lock_run s : isr_nesting s = 0 → waitqueue_current s = None →
  0 ≤ sched_lock s < ARCH_ATOMIC_MAX →
  os_scheduler_lock s = Done tt (set_sched_lock (sched_lock s + 1) s).
Proof.
  intros Hn Hw Hl. unfold os_scheduler_lock. rewrite not_isr_ok, not_prepared_ok by done.
  unfold sched_lock_inc, mbind, K_bind, gets. cbn. by rewrite (atomic_inc_ok (sched_lock s)).
Qed.

Lemma scheduler_unlock_run s sync : isr_nesting s = 0 → waitqueue_current s = None →
  1 < sched_lock s ≤ ARCH_ATOMIC_MAX →
  os_scheduler_unlock sync s = Done tt (set_sched_lock (sched_lock s - 1) s).
Proof.
  intros Hn Hw Hl. unfold os_scheduler_unlock.
  erewrite bind_Done by (apply unlock_dec_run; [done | done |]; by apply atomic_dec_ok; lia).
  unfold unlock_schedules. rewrite (proj2 (Z.eqb_neq 0 _)) by lia. by rewrite andb_false_r.
Qed.

Lemma times_lock n s : isr_nesting s = 0 → waitqueue_current s = None →
  0 ≤ sched_lock s → sched_lock s + Z.of_nat n ≤ ARCH_ATOMIC_MAX →
  times n os_scheduler_lock s = Done tt (set_sched_lock (sched_lock s + Z.of_nat n) s).
Proof.
  revert s. induction n as [| n IH]; intros s Hn Hw H0 Hl; cbn [times].
  - rewrite Z.add_0_r. by destruct s.
  - erewrite bind_Done by (apply scheduler_lock_run; [done | done | lia]).
    rewrite IH by (cbn [isr_nesting waitqueue_current sched_lock set_sched_lock]; (done || lia)).
    f_equal. destruct s; unfold set_sched_lock; cbn. f_equal. lia.
Qed.

Lemma times_unlock n sync s : isr_nesting s = 0 → waitqueue_current s = None →
  Z.of_nat n < sched_lock s ≤ ARCH_ATOMIC_MAX →
  times n (os_scheduler_unlock sync) s = Done tt (set_sched_lock (sched_lock s - Z.of_nat n) s).
Proof.
  revert s. induction n as [| n IH]; intros s Hn Hw Hl; cbn [times].
  - rewrite Z.sub_0_r. by destruct s.
  - erewrite bind_Done by (apply scheduler_unlock_run; [done | done | lia]).
    rewrite IH by (cbn [isr_nesting waitqueue_current sched_lock set_sched_lock]; (done || lia)).
    f_equal. destruct s; unfold set_sched_lock; cbn. f_equal. lia.
Qed.

(** The scheduler lock nests. From a task that is not prepared on a wait
    queue, [n] further [os_scheduler_lock] calls, as long as the counter fits
    [arch_atomic_t], keep the scheduler locked until as many unlocks have been
    made: every scheduling request before that leaves the state unchanged, and
    the [n] unlocks restore the lock without a context switch. *)
Theorem scheduler_lock_nests n sync hp s :
  isr_nesting s = 0 → waitqueue_current s = None → dint s = true →
  0 < sched_lock s → sched_lock s + Z.of_nat n ≤ ARCH_ATOMIC_MAX →
  ∃ s1, times n os_scheduler_lock s = Done tt s1 ∧ os_schedule hp s1 = Done tt s1 ∧
    times n (os_scheduler_unlock sync) s1 = Done tt s.
Proof.
  intros Hn Hw Hd H0 Hl. eexists; split; [apply times_lock; (done || lia) |]. split.
  - unfold os_schedule, mbind, K_bind, arch_is_dint, gets, OS_SELFCHECK_ASSERT, OS_ASSERT. cbn.
    rewrite Hd. cbn. rewrite (proj2 (Z.eqb_neq _ 0)) by lia. by rewrite andb_false_r.
  - rewrite times_unlock; cbn; [| done | done | lia]. rewrite Z.add_simpl_r. by destruct s.
Qed.
End lock.

(** The scheduler lock is eight bits wide on AVR: the 256th nested
    [os_scheduler_lock] wraps the counter to 0, and the scheduler is unlocked
    although no unlock was called. *)
Theorem scheduler_lock_wraps_avr s :
  let _ := avr_port in
  isr_nesting s = 0 → waitqueue_current s = None → sched_lock s = 0 →
  times 256 os_scheduler_lock s = Done tt s.
Proof.
  intros AP Hn Hw Hl. change 256%nat with (255 + 1)%nat.
  rewrite (times_Done 255 1 os_scheduler_lock s (set_sched_lock 255 s)).
  - cbn [times]. erewrite bind_Done.
    2:{ unfold os_scheduler_lock. by rewrite not_isr_ok, not_prepared_ok by done. }
    destruct s; cbn in *. by subst.
  - rewrite times_lock; [by rewrite Hl | done | done | lia | by rewrite Hl].
Qed.

(** *** The properties at concrete states *)

Section demo.
#[local] Existing Instance avr_port.
#[local] Existing Instance avr_port_ok.

(** Task 1 (priority 2) runs, task 2 (priority 3) and the idle task are ready,
    a wait queue 9 is initialised; interrupts are disabled. *)
Definition demo_setup : K unit :=
  os_init;;
  os_task_init 1 2;; os_task_init 2 3;;
  os_task_makeready 2%nat;; os_task_makeready task_idle;;
  mod_task 1%nat (set_state TASKSTATE_RUNNING);;
  modify (set_task_current (Some 1%nat));;
  taskqueue_memset (Q_wq 9);; os_taskqueue_init (Q_wq 9);;
  modify (set_sched_lock 0).
Definition run_state (m : K unit) (s : kstate) : kstate :=
  match m s with Done _ s' => s' | _ => s end.
Definition demo_sched : kstate := run_state demo_setup kstate_reset.
Definition demo_sched_list : list (laddr * list laddr) :=
  (L_timer_list, []) :: ((λ p, (L_bucket Q_ready p, if p =? 0 then [L_task task_idle] else if p =? 3 then [L_task 2%nat] else [])) <$> seqZ 0 OS_CONFIG_PRIOCNT)
  ++ ((λ p, (L_bucket (Q_wq 9) p, [])) <$> seqZ 0 OS_CONFIG_PRIOCNT).
Definition demo_running : os_task_t := set_state TASKSTATE_RUNNING (demo_task 2).

Lemma demo_sched_ok : sched_ok (list_to_map demo_sched_list) demo_sched 1 demo_running.
Proof.
  split; [apply queues_ok_b_ok | apply live_b_ok | | | | by cbn]; by vm_compute.
Qed.

Lemma os_schedule_decision_witness : ∃ new s', os_schedule 1 demo_sched =
  Switch 1%nat (set_task_current (Some new) s') (λ s2, resume_running s2).
Proof.
  destruct (os_schedule_decision (list_to_map demo_sched_list) demo_sched 1 demo_running 1 demo_sched_ok)
    as [[[Hn | [Hl | He]] _] | (_ & _ & new & tkn & A' & s' & _ & _ & _ & _ & _ & _ & Hrun)].
  - by vm_compute.
  - done.
  - exfalso. by vm_compute in Hn.
  - exfalso. by vm_compute in Hl.
  - exfalso. specialize (He 3 ltac:(done)). by vm_compute in He.
  - exists new, s'. assert (isr_nesting demo_sched = 0) as Hi by (by vm_compute).
    by rewrite Hi in Hrun.
Defined.

Lemma block_switch_finds_task_witness : ∃ new s',
  os_task_block_switch (Q_wq 9) OS_TASKBLOCK_WAITQUEUE demo_sched =
  Switch 1%nat (set_task_current (Some new) s') (λ s2, resume_running s2).
Proof.
  destruct (block_switch_finds_task (list_to_map demo_sched_list) demo_sched 1 demo_running (Q_wq 9)
    OS_TASKBLOCK_WAITQUEUE task_idle demo_sched_ok) as (new & tkn & A' & s' & _ & _ & _ & _ & _ & _ & _ & Hrun).
  - apply live_b_ok. by vm_compute.
  - done.
  - apply (bool_decide_unpack _). by vm_compute.
  - by exists new, s'.
Defined.

(** Callbacks that do nothing. *)
Definition no_clbck (p : timer_proc_t) (pa : timer_param_t) : K unit := mret tt.
#[local] Instance no_client : TimerClient no_clbck (λ _, True) (λ _ _ _, True).
Proof. split; [done |]. intros f A s x _ _ _ HR Hu. exists A, s. by split_and!. Qed.

(** A tick on the timer with three ticks to go. *)
Lemma os_tick_counts_witness : ∃ A' s',
  os_tick no_clbck 3 (set_isr_nesting 1 demo_one_timer) = (os_schedule 0;; arch_critical_exit false) s' ∧
  (∀ x, x ∈ armed A' ↔ x = TmUser 7) ∧ remaining s' (TmUser 7) = 2.
Proof.
  assert (repr (links demo_one_timer) (list_to_map demo_one_list) ∧
    timers_ok (list_to_map demo_one_list) demo_one_timer) as [HR HT] by apply demo_one_timer_ok.
  destruct (os_tick_counts no_clbck _ _ (list_to_map demo_one_list) (set_isr_nesting 1 demo_one_timer) 3)
    as (A' & s' & Hrun & _ & _ & _ & _ & _ & Hin & Hrem).
  - done.
  - done.
  - by destruct HT.
  - apply unlinked_b. by vm_compute.
  - done.
  - done.
  - by vm_compute; lia.
  - assert (∀ x, x ∈ armed A' ↔ x = TmUser 7) as Ha.
    { intros x. rewrite Hin. change (armed (list_to_map demo_one_list)) with [TmUser 7].
      rewrite list_elem_of_singleton. split; [tauto |]. intros ->. split; [done | by left]. }
    exists A', s'. split_and!; [done.. |]. rewrite Hrem by (by apply Ha). done.
Defined.

Lemma scheduler_lock_nests_witness : ∃ s1,
  times 3 os_scheduler_lock (set_sched_lock 1 demo_sched) = Done tt s1 ∧ os_schedule 1 s1 = Done tt s1 ∧
  times 3 (os_scheduler_unlock false) s1 = Done tt (set_sched_lock 1 demo_sched).
Proof. apply (scheduler_lock_nests 3 false 1 (set_sched_lock 1 demo_sched)); by vm_compute. Defined.

Lemma scheduler_lock_wraps_avr_witness : times 256 os_scheduler_lock kstate_reset = Done tt kstate_reset.
Proof. by apply scheduler_lock_wraps_avr. Defined.
End demo.
