(* ===== verification/Invariant.v ===== *)
(** * The kernel invariant and waking of tasks

    [kernel_ok] joins the invariants of the task queues and of the timers; the
    steps that the synchronisation objects share - taking the first waiter of a
    queue, cancelling its guard timer and making it ready - are specified here
    once, for os_sem.c, os_mtx.c and os_waitqueue.c. *)

From stdpp Require Import base decidable list countable gmap.
From Stdlib Require Import ZArith Lia Sorted.
From S2P Require Import Prelude Arch LinkedList Kernel TaskQueue Timer Sched.

Local Open Scope Z_scope.

Record kernel_ok {AP : ArchPort} (A : gmap laddr (list laddr)) (s : kstate) : Prop := {
  ko_queues : queues_ok A s;
  ko_timers : timers_ok A s;
  ko_prio : ∀ t tk, tasks s !! t = Some tk → 0 ≤ prio_current tk < OS_CONFIG_PRIOCNT;
  ko_guard : ∀ t tk x, tasks s !! t = Some tk → timer tk = Some x →
    x = TmBlock t ∧ (magic (timer_at s x) = OS_TIMER_MAGIC1 ∨ magic (timer_at s x) = OS_TIMER_MAGIC2);
  ko_auto : unlinked A L_autoreload
}.

(** The lists that are neither buckets nor the timer list, and which queues exist. *)
Definition same_lists (A A' : gmap laddr (list laddr)) : Prop :=
  (∀ hd, hd ≠ L_timer_list → (∀ q p, hd ≠ L_bucket q p) → A' !! hd = A !! hd) ∧
  ∀ q, live A q ↔ live A' q.
(** The synchronisation objects and the state of the CPU. *)
Definition same_objects (s s' : kstate) : Prop :=
  sems s' = sems s ∧ mtxs s' = mtxs s ∧ task_current s' = task_current s ∧
  isr_nesting s' = isr_nesting s ∧ sched_lock s' = sched_lock s ∧
  waitqueue_current s' = waitqueue_current s ∧ dint s' = dint s ∧ ticks_cnt s' = ticks_cnt s.

(** The timers [L] were destroyed; the others keep everything but the counts of armed
    ones, and no timer was armed. *)
Record timers_kept {AP : ArchPort} (L : list tmid) (A : gmap laddr (list laddr)) (s : kstate)
    (A' : gmap laddr (list laddr)) (s' : kstate) : Prop := {
  tk_armed : ∀ y, y ∈ armed A' → y ∈ armed A ∧ y ∉ L;
  tk_same : ∀ y, y ∉ L → ∃ n, timer_at s' y = set_ticks_rem n (timer_at s y);
  tk_idle : ∀ y, y ∉ L → y ∉ armed A → timer_at s' y = timer_at s y;
  tk_gone : ∀ y, y ∈ L → magic (timer_at s' y) ≠ OS_TIMER_MAGIC1
}.

#[export] Instance same_objects_preorder : PreOrder same_objects.
Proof.
  split; [by intros s |]. unfold same_objects. intros s1 s2 s3 H12 H23. decompose_hyps.
  split_and!; congruence.
Qed.
#[export] Instance same_lists_preorder : PreOrder same_lists.
Proof.
  split; [by intros A; split |]. intros A1 A2 A3 [H1 L1] [H2 L2]. split; [| by intros q; rewrite L1].
  intros hd Ht Hhd. rewrite H2, H1; auto.
Qed.

Section facts.
Context {AP : ArchPort} {APOK : ArchPortOk AP}.
Implicit Types (A : gmap laddr (list laddr)) (s : kstate) (q : qid) (t c : tid) (tk : os_task_t).

Lemma armed_same A A' : A' !! L_timer_list = A !! L_timer_list → armed A' = armed A.
Proof. unfold armed. by intros ->. Qed.

Lemma timers_kept_same A s A' s' : A' !! L_timer_list = A !! L_timer_list → timers s' = timers s →
  timers_kept [] A s A' s'.
Proof.
  intros HL Ht. split.
  - intros y. rewrite (armed_same _ _ HL). split; [done | apply not_elem_of_nil].
  - intros y _. exists (ticks_rem (timer_at s y)). unfold timer_at. rewrite Ht. by destruct (default _ _).
  - intros y _ _. unfold timer_at. by rewrite Ht.
  - intros y []%not_elem_of_nil.
Qed.

Lemma timers_kept_trans L1 L2 A s A1 s1 A2 s2 :
  timers_kept L1 A s A1 s1 → timers_kept L2 A1 s1 A2 s2 → timers_kept (L1 ++ L2) A s A2 s2.
Proof.
  intros [Ha1 Hs1 Hi1 Hg1] [Ha2 Hs2 Hi2 Hg2]. split.
  - intros y [[? ?]%Ha1 ?]%Ha2. rewrite elem_of_app. tauto.
  - intros y. rewrite elem_of_app. intros Hy. destruct (Hs1 y) as [n1 H1]; [tauto |].
    destruct (Hs2 y) as [n2 H2]; [tauto |]. exists n2. by rewrite H2, H1.
  - intros y. rewrite elem_of_app. intros Hy Hya. rewrite Hi2, Hi1; [done | tauto | done | tauto |]. by intros [? _]%Ha1.
  - intros y Hy. destruct (decide (y ∈ L2)) as [| Hn]; [by apply Hg2 |].
    destruct (Hs2 y Hn) as [n ->]. apply Hg1. rewrite elem_of_app in Hy. tauto.
Qed.

(** Steps that leave the timers alone, before and after. *)
Lemma timers_kept_l L A s A1 s1 A' s' : A1 !! L_timer_list = A !! L_timer_list → timers s1 = timers s →
  timers_kept L A1 s1 A' s' → timers_kept L A s A' s'.
Proof. intros HL Ht. apply (timers_kept_trans []). by apply timers_kept_same. Qed.

Lemma timers_kept_r L A s A1 s1 A' s' : A' !! L_timer_list = A1 !! L_timer_list → timers s' = timers s1 →
  timers_kept L A s A1 s1 → timers_kept L A s A' s'.
Proof.
  intros HL Ht HG. rewrite <- (app_nil_r L). eapply timers_kept_trans; [exact HG |]. by apply timers_kept_same.
Qed.

Lemma same_lists_bucket A q p ts : live A q → 0 ≤ p < OS_CONFIG_PRIOCNT → same_lists A (set_bucket A q p ts).
Proof.
  intros Hl Hp. split; [intros hd _; apply set_bucket_other |]. intros q'. split; [apply live_set_bucket |].
  intros H. apply (live_insert_inv _ _ _ _ H). by apply Hl.
Qed.

Lemma same_lists_timers A xs : is_Some (A !! L_timer_list) → same_lists A (set_armed A xs).
Proof.
  intros HA. split; [intros hd Hhd _; by apply lookup_insert_ne |]. intros q. split; [apply live_insert |].
  intros H. by apply (live_insert_inv _ _ _ _ H).
Qed.

Lemma unlinked_bucket A q p ts a : (∀ t, a ≠ L_task t) → (∀ q p, a ≠ L_bucket q p) →
  unlinked A a → unlinked (set_bucket A q p ts) a.
Proof.
  intros Ht Hb Hu. apply unlinked_insert_ne; [done |]. rewrite not_elem_of_cons. split; [apply Hb |].
  intros (t & -> & _)%list_elem_of_fmap. by eapply Ht.
Qed.

(** The timer invariant does not see the task queues. *)
Lemma timers_ok_bucket A s q p ts s' : timers_ok A s → timers s' = timers s →
  timer_tick_unsynch s' = timer_tick_unsynch s → timers_ok (set_bucket A q p ts) s'.
Proof.
  intros [H1 H2 H3 H4 H5 H6 H7] Ht Hu.
  assert (armed (set_bucket A q p ts) = armed A) as Ha by (by apply armed_same, set_bucket_other).
  assert (∀ x, timer_at s' x = timer_at s x) as Hat by (intros x; unfold timer_at; by rewrite Ht).
  assert (∀ x, rem s' x = rem s x) as Hr by (intros x; unfold rem; by rewrite Hat).
  split; rewrite ?Ha, ?Hu.
  - rewrite set_bucket_other by done. done.
  - apply (StronglySorted_ext (rem s)); [by intros; apply Hr | done].
  - intros x. rewrite Hr, Hat. apply H3.
  - intros x Hx. destruct (H4 x Hx) as [[? ?] | [? ?]]; [left | right]; unfold pending; rewrite Hr, ?Hat.
    + split; [done |]. by apply unlinked_bucket.
    + split; [by rewrite set_bucket_other | done].
  - intros x. rewrite Hat. apply H5.
  - done.
  - done.
Qed.

(** Reading the invariant off after a step of the task queues. *)
Lemma kernel_ok_bucket A s T s' q p ts : kernel_ok A s → queues_step s T s' →
  queues_ok (set_bucket A q p ts) s' →
  (∀ t tk', T !! t = Some tk' → ∃ tk, tasks s !! t = Some tk ∧ timer tk' = timer tk ∧
    prio_current tk' = prio_current tk) →
  kernel_ok (set_bucket A q p ts) s'.
Proof.
  intros [HQ HT HP HG HA] Hst HQ' Hall. pose proof (queues_step_tasks _ _ _ Hst) as HtT.
  destruct Hst as (h & mk & -> & Hd). split; [done | by eapply timers_ok_bucket | | |].
  - rewrite HtT. intros t tk' (tk & Ht & _ & ->)%Hall. by eapply HP.
  - rewrite HtT. intros t tk' x (tk & Ht & -> & _)%Hall Hx. by eapply (HG t tk).
  - by apply unlinked_bucket.
Qed.

(** Updating members of a TCB that the invariant does not constrain. *)
Lemma kernel_ok_put_task A s t tk tk' : kernel_ok A s → tasks s !! t = Some tk →
  task_queue tk' = task_queue tk → prio_current tk' = prio_current tk →
  (∀ x, timer tk' = Some x → x = TmBlock t ∧
     (magic (timer_at s x) = OS_TIMER_MAGIC1 ∨ magic (timer_at s x) = OS_TIMER_MAGIC2)) →
  kernel_ok A (set_tasks (<[t := tk']> (tasks s)) s).
Proof.
  intros [HQ HT HP HG HA] Ht Hq Hp Htm. split; [by eapply queues_ok_mod_task | by destruct HT | | |done]; cbn.
  - intros t2 tk2. rewrite lookup_insert. case_decide; [intros [= <-]; rewrite Hp; by eapply HP | apply HP].
  - intros t2 tk2 x. rewrite lookup_insert. case_decide as E; [intros [= <-]; rewrite <- E; apply Htm | apply HG].
Qed.

Lemma kernel_ok_mod_task A s t tk tk' : kernel_ok A s → tasks s !! t = Some tk →
  task_queue tk' = task_queue tk → prio_current tk' = prio_current tk →
  timer tk' = timer tk ∨ timer tk' = None →
  kernel_ok A (set_tasks (<[t := tk']> (tasks s)) s).
Proof.
  intros HK Ht Hq Hp Htm. eapply kernel_ok_put_task; [done.. |].
  intros x Hx. eapply (ko_guard _ _ HK t tk); [done |]. destruct Htm; congruence.
Qed.

Lemma kernel_ok_globals A s s' : kernel_ok A s → links s' = links s → masks s' = masks s →
  tasks s' = tasks s → timers s' = timers s → timer_tick_unsynch s' = timer_tick_unsynch s →
  kernel_ok A s'.
Proof.
  intros [HQ HT HP HG HA] Hl Hm Ht Htm Hu.
  assert (∀ x, timer_at s' x = timer_at s x) as Hat by (intros x; unfold timer_at; by rewrite Htm).
  assert (∀ x, rem s' x = rem s x) as Hr by (intros x; unfold rem; by rewrite Hat).
  split; [by eapply queues_ok_ext | | | | done].
  - destruct HT. split; rewrite ?Hu; try done.
    + apply (StronglySorted_ext (rem s)); [by intros; apply Hr | done].
    + intros x. rewrite Hr, Hat. auto.
    + intros x. unfold pending. rewrite Hr, Hat. auto.
    + intros x. rewrite Hat. auto.
  - by rewrite Ht.
  - rewrite Ht. intros t tk x. rewrite Hat. apply HG.
Qed.

(** *** Arming and disarming timers *)

Lemma queues_ok_set_armed A s xs h s' : queues_ok A s → repr h (set_armed A xs) →
  (∀ a, is_Some (links s !! a) → is_Some (h !! a)) → links s' = h → masks s' = masks s → tasks s' = tasks s →
  queues_ok (set_armed A xs) s'.
Proof.
  intros HQ HR' Hd Hl Hm Ht. apply (queues_ok_ext _ (set_links h s)); [done.. |].
  apply queues_ok_other; [done | | done | intros t0 ?; by apply Hd | done].
  intros t0. rewrite not_elem_of_cons. split; [done |]. by intros (? & ? & _)%list_elem_of_fmap.
Qed.

Lemma timer_create_kernel A s fuel x cb pa timeout reload :
  kernel_ok A s → magic (timer_at s x) ≠ OS_TIMER_MAGIC1 → 0 < timeout < OS_TIMER_TICKSREM_MAX →
  0 ≤ reload ≤ OS_TICKS_MAX → (length (armed A) < fuel)%nat →
  ∃ A' s', os_timer_create fuel x cb pa timeout reload s = Done tt s' ∧ kernel_ok A' s' ∧
    (∀ q p, A' !! L_bucket q p = A !! L_bucket q p) ∧ same_lists A A' ∧
    tasks s' = tasks s ∧ same_objects s s' ∧
    (∀ y, y ∈ armed A' ↔ y = x ∨ y ∈ armed A) ∧ timer_tick_unsynch s' = timer_tick_unsynch s ∧
    timer_at s' x = Timer (timeout + timer_tick_unsynch s) reload cb pa OS_TIMER_MAGIC1 ∧
    ∀ y, y ≠ x → timer_at s' y = timer_at s y.
Proof.
  intros HK Hm Hto Hrl Hf. pose proof HK as [HQ HT HP HG HA].
  destruct (os_timer_create_run A s fuel x cb pa timeout reload (qo_repr _ _ HQ) HT Hto Hm Hf) as (h & Hrun & HR' & Hd).
  pose proof (timers_ok_create A s x cb pa timeout reload h HT Hto Hm Hrl) as HT'. cbn zeta in *.
  set (s1 := set_timers _ _) in *. set (xs := timer_insert _ _ _) in *.
  assert (∀ y, timer_at s1 y = if decide (y = x) then
    Timer (timeout + timer_tick_unsynch s) reload cb pa OS_TIMER_MAGIC1 else timer_at s y) as Hat
    by (intros y; by apply timer_at_insert).
  exists (set_armed A xs), s1. split_and!; try done.
  - split; [by eapply queues_ok_set_armed | done | done | | by apply unlinked_set_armed].
    intros t tk y Ht Hy. destruct (HG t tk y Ht Hy) as [? ?]. split; [done |]. rewrite Hat. case_decide; [by left | done].
  - intros q p. by apply lookup_insert_ne.
  - apply same_lists_timers. by rewrite (to_list _ _ HT).
  - intros y. rewrite armed_set_armed. apply elem_of_timer_insert.
  - by rewrite Hat, decide_True.
  - intros y Hy. by rewrite Hat, decide_False.
Qed.

Lemma timer_destroy_kernel A s x : kernel_ok A s → A !! L_timer x = None →
  magic (timer_at s x) = OS_TIMER_MAGIC1 ∨ magic (timer_at s x) = OS_TIMER_MAGIC2 →
  ∃ A' s', os_timer_destroy x s = Done tt s' ∧ kernel_ok A' s' ∧
    (∀ q p, A' !! L_bucket q p = A !! L_bucket q p) ∧ same_lists A A' ∧
    tasks s' = tasks s ∧ masks s' = masks s ∧ same_objects s s' ∧ timers_kept [x] A s A' s' ∧
    ∀ y, y ≠ x → timer_at s' y = timer_at s y.
Proof.
  intros HK Hx Hm. pose proof HK as [HQ HT HP HG HA].
  destruct (os_timer_destroy_run A s x (qo_repr _ _ HQ) HT Hm) as (h & Hrun & HR' & Hd).
  pose proof (timers_ok_destroy A s x h (qo_repr _ _ HQ) HT) as HT'. cbn zeta in *. rewrite settled_id in * by done.
  set (xs := filter _ _) in *. set (s1 := set_unsynch _ _) in *.
  assert (∀ y, timer_at s1 y = if decide (y = x) then destroyed (timer_at s x) else timer_at s y) as Hat
    by (intros y; by apply timer_at_insert).
  exists (set_armed A xs), s1. split_and!; try done.
  - split; [eapply queues_ok_set_armed; [done | exact HR' | intros a; apply Hd | done..] | done | done | | by apply unlinked_set_armed].
    intros t tk y Ht Hy. destruct (HG t tk y Ht Hy) as [? ?]. split; [done |]. rewrite Hat. case_decide; [right; unfold destroyed; by destruct (_ >? 0) | done].
  - intros q p. by apply lookup_insert_ne.
  - apply same_lists_timers. by rewrite (to_list _ _ HT).
  - split.
    + intros y. rewrite armed_set_armed. unfold xs. rewrite list_elem_of_filter.
      intros [? ?]. split; [done |]. apply not_elem_of_cons. split; [done | apply not_elem_of_nil].
    + intros y [Hy _]%not_elem_of_cons. exists (ticks_rem (timer_at s y)). rewrite Hat, decide_False by done.
      by destruct (timer_at s y).
    + intros y [Hy _]%not_elem_of_cons _. by rewrite Hat, decide_False.
    + intros y ->%list_elem_of_singleton. by rewrite Hat, decide_True.
  - intros y Hy. by rewrite Hat, decide_False.
Qed.

(** *** Guard timers *)

(** A guard timer is created inside a critical section. *)
Lemma guard_settled A s x : kernel_ok A s → (∃ t, x = TmBlock t) → A !! L_timer x = None.
Proof.
  intros HK [t ->]. eapply not_head; [apply (qo_repr _ _ (ko_queues _ _ HK)) | apply HK |]. by intros (_ & [n ?] & _).
Qed.

Lemma blocktimer_destroy_spec A s t tk : kernel_ok A s → tasks s !! t = Some tk →
  ∃ A' s', os_blocktimer_destroy t s = Done tt s' ∧ kernel_ok A' s' ∧
    (∀ q p, A' !! L_bucket q p = A !! L_bucket q p) ∧
    same_lists A A' ∧
    tasks s' = <[t := set_timer None tk]> (tasks s) ∧ masks s' = masks s ∧ same_objects s s' ∧
    timers_kept (option_list (timer tk)) A s A' s'.
Proof.
  intros HK Ht. unfold os_blocktimer_destroy. erewrite bind_Done by (by apply get_task_Some).
  destruct (timer tk) as [x |] eqn:Ex.
  - destruct (ko_guard _ _ HK _ _ _ Ht Ex) as [Hg Hmx].
    destruct (timer_destroy_kernel A s x HK (guard_settled A s x HK ltac:(eauto)) Hmx) as
      (A' & s1 & Hrun & HK1 & Hb & HL & Ht1 & Hm1 & Ho & HG & _).
    erewrite bind_Done by exact Hrun. rewrite <- Ht1 in Ht.
    rewrite (mod_task_Some t (set_timer None) tk) by done.
    exists A'. eexists; split; [done |]. split_and!; try done; [| by rewrite <- Ht1 | by eapply (timers_kept_r _ A s A' s1)].
    eapply kernel_ok_mod_task; [done | exact Ht | done | done | by right].
  - exists A, s. split_and!; try done; [| by apply timers_kept_same].
    rewrite insert_id; [done |]. rewrite Ht. by destruct tk; cbn in *; subst.
Qed.

(** The timer in the stack frame of [os_sem_down] and [os_waitqueue_wait]. *)
Lemma local_timer_spec A s c tk junk : kernel_ok A s → tasks s !! c = Some tk → timer tk = None →
  TmBlock c ∉ armed A →
  ∃ s', local_timer (TmBlock c) junk s = Done tt s' ∧ kernel_ok A s' ∧
    s' = set_timers (timers s') s ∧ magic (timer_at s' (TmBlock c)) = junk ∧
    ∀ y, y ≠ TmBlock c → timer_at s' y = timer_at s y.
Proof.
  intros [HQ [H1 H2 H3 H4 H5 H6 H7] HP HG HA] Ht Htm Hc. eexists; split; [done |].
  set (s' := set_timers _ s).
  assert (∀ y, timer_at s' y = if decide (y = TmBlock c) then
    Timer (ticks_rem (timer_at s y)) (ticks_reload (timer_at s y)) (clbck (timer_at s y)) (param (timer_at s y)) junk
    else timer_at s y) as Hat.
  { intros y. unfold s'. erewrite timer_at_insert by done. by case_decide; subst. }
  assert (∀ y, rem s' y = rem s y) as Hr by (intros y; unfold rem; rewrite Hat; by case_decide).
  split_and!; [| done | by rewrite Hat, decide_True | intros y Hy; by rewrite Hat, decide_False].
  split; [by apply (queues_ok_ext A s) | | done | | done].
  - split; try done.
    + apply (StronglySorted_ext (rem s)); [by intros; apply Hr | done].
    + intros x Hx. rewrite Hr, Hat, decide_False by (by intros ->). by apply H3.
    + intros x Hx. destruct (H4 x Hx) as [[? ?] | (? & [n ->] & ?)]; [left | right]; unfold pending.
      * by rewrite Hr.
      * rewrite Hr, Hat, decide_False by done. eauto.
    + intros x. rewrite Hat. by case_decide; cbn.
  - intros t tk2 x Ht2 Hx. destruct (HG t tk2 x Ht2 Hx) as [-> ?]. rewrite Hat, decide_False; [done |].
    intros [= ->]. change (tasks s') with (tasks s) in Ht2. congruence.
Qed.

Lemma blocktimer_create_spec A s c tk fuel cb timeout :
  kernel_ok A s → task_current s = Some c → tasks s !! c = Some tk → timer tk = None →
  magic (timer_at s (TmBlock c)) ≠ OS_TIMER_MAGIC1 → 0 < timeout < OS_TIMER_TICKSREM_MAX →
  (length (armed A) < fuel)%nat →
  ∃ A' s', os_blocktimer_create fuel (TmBlock c) cb timeout s = Done tt s' ∧ kernel_ok A' s' ∧
    (∀ q p, A' !! L_bucket q p = A !! L_bucket q p) ∧ same_lists A A' ∧
    tasks s' = <[c := set_timer (Some (TmBlock c)) tk]> (tasks s) ∧ same_objects s s' ∧
    TmBlock c ∈ armed A' ∧ remaining s' (TmBlock c) = timeout ∧ clbck (timer_at s' (TmBlock c)) = cb ∧
    param (timer_at s' (TmBlock c)) = Param_task c ∧ ticks_reload (timer_at s' (TmBlock c)) = 0 ∧
    (∀ y, y ∈ armed A' → y = TmBlock c ∨ y ∈ armed A) ∧ (∀ y, y ≠ TmBlock c → timer_at s' y = timer_at s y).
Proof.
  intros HK Hc Ht Htm Hm Hto Hf. unfold os_blocktimer_create.
  erewrite bind_Done by (by apply current_Some). erewrite bind_Done by (by apply get_task_Some).
  unfold OS_SELFCHECK_ASSERT. rewrite OS_ASSERT_true by (by apply bool_decide_eq_true).
  pose proof ticks_max_val.
  destruct (timer_create_kernel A s fuel (TmBlock c) cb (Param_task c) timeout 0 HK Hm Hto ltac:(lia) Hf) as
    (A' & s1 & Hrun & HK1 & Hb & HL & Ht1 & Ho & Harm & Hu & Hat & Hoth).
  erewrite bind_Done by exact Hrun. rewrite <- Ht1 in Ht.
  rewrite (mod_task_Some c (set_timer (Some (TmBlock c))) tk) by done.
  assert (∀ T y, timer_at (set_tasks T s1) y = timer_at s1 y) as Hsame by done.
  exists A'. eexists; split; [done |]. unfold remaining, rem. rewrite !Hsame, Hat. cbn.
  split_and!; try done; [| by rewrite <- Ht1 | apply Harm; by left | lia | intros y; apply Harm].
  eapply kernel_ok_put_task; [done | exact Ht | done | done |]. intros y [= <-]. split; [done |]. left. by rewrite Hat.
Qed.

(** *** Waking the first waiter *)

(** The TCB of a task woken with return code [code]. *)
Definition woken (code : Z) (tk : os_task_t) : os_task_t :=
  ready_task (set_block_code code (set_timer None (set_task_queue None tk))).

(** The queues after the first waiter of priority [p] moved from [q] to the
    ready queue. *)
Definition wake_queues (Q Q' : qid → Z → list tid) (q : qid) (p : Z) (t : tid) : Prop :=
  ∀ q' i, Q' q' i =
    (if decide (q' = q ∧ i = p) then tail (Q q i) else Q q' i) ++
    (if decide (q' = Q_ready ∧ i = p) then [t] else []).

Definition wake_task (timed : bool) (code : Z) (t : tid) : K unit :=
  when timed (os_blocktimer_destroy t);;
  mod_task t (set_block_code code);;
  os_task_makeready t.

Lemma qtasks_lookup A A' q i : A' !! L_bucket q i = A !! L_bucket q i → qtasks A' q i = qtasks A q i.
Proof. unfold qtasks. by intros ->. Qed.

Lemma dequeue_kernel A s q : kernel_ok A s → live A q →
  (pq_empty (qtasks A q) ∧ os_taskqueue_dequeue q s = Done None s) ∨
  ∃ s' t tk ts, os_taskqueue_dequeue q s = Done (Some t) s' ∧ tasks s !! t = Some tk ∧
    task_queue tk = Some q ∧ pq_top (qtasks A q) (prio_current tk) t ∧
    qtasks A q (prio_current tk) = t :: ts ∧
    queues_step s (<[t := set_task_queue None tk]> (tasks s)) s' ∧
    kernel_ok (set_bucket A q (prio_current tk) ts) s'.
Proof.
  intros HK Hl. destruct (dequeue_spec A s q (ko_queues _ _ HK) Hl) as
    [? | (s' & t & tk & ts & Hd & Ht & Hq & Htop & Hts & Hst & HQ')]; [by left | right].
  exists s', t, tk, ts. split_and!; try done.
  eapply kernel_ok_bucket; [done | exact Hst | done |].
  intros t2 tk2. rewrite lookup_insert. case_decide; [intros [= <-]; subst; eauto | eauto].
Qed.

Lemma queues_step_objects s T s' : queues_step s T s' → same_objects s s'.
Proof. by intros (h & mk & -> & _). Qed.

Lemma wake_task_spec A s timed code t tk :
  kernel_ok A s → live A Q_ready → tasks s !! t = Some tk → task_queue tk = None →
  (timed = false → timer tk = None) →
  ∃ A' s', wake_task timed code t s = Done tt s' ∧ kernel_ok A' s' ∧
    tasks s' = <[t := ready_task (set_block_code code (set_timer None tk))]> (tasks s) ∧
    same_lists A A' ∧ same_objects s s' ∧ timers_kept (option_list (timer tk)) A s A' s' ∧
    ∀ q i, qtasks A' q i = qtasks A q i ++ (if decide (q = Q_ready ∧ i = prio_current tk) then [t] else []).
Proof.
  intros HK Hl Ht Hq Htm. unfold wake_task.
  assert (∃ A1 s1, when timed (os_blocktimer_destroy t) s = Done tt s1 ∧ kernel_ok A1 s1 ∧
    (∀ q p, A1 !! L_bucket q p = A !! L_bucket q p) ∧ same_lists A A1 ∧
    tasks s1 = <[t := set_timer None tk]> (tasks s) ∧ same_objects s s1 ∧
    timers_kept (option_list (timer tk)) A s A1 s1)
    as (A1 & s1 & Hrun1 & HK1 & Hb1 & HL1 & Ht1 & Ho1 & HG1).
  { destruct timed; cbn [when].
    - destruct (blocktimer_destroy_spec A s t tk HK Ht) as (A1 & s1 & ? & ? & ? & ? & ? & _ & ? & ?). eauto 10.
    - specialize (Htm eq_refl). exists A, s. split_and!; try done.
      + rewrite insert_id; [done |]. rewrite Ht. by destruct tk; cbn in *; subst.
      + rewrite Htm. by apply timers_kept_same. }
  erewrite bind_Done by exact Hrun1.
  erewrite bind_Done by (apply mod_task_Some; rewrite Ht1; apply lookup_insert_eq).
  rewrite Ht1, insert_insert_eq.
  set (tk2 := set_block_code code (set_timer None tk)).
  assert (kernel_ok A1 (set_tasks (<[t := tk2]> (tasks s1)) s1)) as HK2.
  { apply (kernel_ok_mod_task A1 s1 t (set_timer None tk));
      [done | rewrite Ht1; apply lookup_insert_eq | done | done | by left]. }
  rewrite Ht1, insert_insert_eq in HK2. set (s2 := set_tasks _ s1) in *.
  destruct (makeready_spec A1 s2 t tk2 (ko_queues _ _ HK2)) as (s3 & Hm & Hst & HQ3);
    [by apply HL1 | cbn; apply lookup_insert_eq | done | by apply (ko_prio _ _ HK t tk) |].
  exists (push A1 Q_ready t (prio_current tk)), s3. split_and!.
  - exact Hm.
  - eapply kernel_ok_bucket; [done | exact Hst | done |].
    intros t' tk'. cbn. rewrite insert_insert_eq, !lookup_insert. case_decide; [intros [= <-]; eauto | eauto].
  - rewrite (queues_step_tasks _ _ _ Hst). cbn. by rewrite insert_insert_eq.
  - transitivity A1; [done |]. apply same_lists_bucket; [by apply HL1 | by apply (ko_prio _ _ HK t tk)].
  - transitivity s1; [done |]. transitivity s2; [done | by eapply queues_step_objects].
  - eapply timers_kept_r; [| | exact HG1]; [by apply set_bucket_other | by destruct Hst as (h & mk & -> & _)].
  - intros q i. rewrite qtasks_push. f_equal. by apply qtasks_lookup.
Qed.

(** Waking the first waiter of [q]: the three destroy functions, [os_sem_up_sync]
    and [os_waitqueue_wakeup_sync] all do this. *)
Lemma wake_first_spec A s q timed code :
  kernel_ok A s → live A q → live A Q_ready → q ≠ Q_ready →
  (∀ t tk, tasks s !! t = Some tk → task_queue tk = Some q → timed = false → timer tk = None) →
  (pq_empty (qtasks A q) ∧ os_taskqueue_dequeue q s = Done None s) ∨
  ∃ t tk s1 A' s', os_taskqueue_dequeue q s = Done (Some t) s1 ∧ wake_task timed code t s1 = Done tt s' ∧
    tasks s !! t = Some tk ∧ task_queue tk = Some q ∧ pq_top (qtasks A q) (prio_current tk) t ∧
    kernel_ok A' s' ∧ tasks s' = <[t := woken code tk]> (tasks s) ∧
    same_lists A A' ∧ same_objects s s' ∧ timers_kept (option_list (timer tk)) A s A' s' ∧
    wake_queues (qtasks A) (qtasks A') q (prio_current tk) t.
Proof.
  intros HK Hl Hlr Hq Htm.
  destruct (dequeue_kernel A s q HK Hl) as [? | (s1 & t & tk & ts & Hd & Ht & Hqt & Htop & Hts & Hst & HK1)];
    [by left | right].
  pose proof (queues_step_tasks _ _ _ Hst) as Ht1.
  destruct (wake_task_spec _ s1 timed code t (set_task_queue None tk) HK1) as (A' & s' & Hw & HK' & Ht' & HL' & Ho' & HG' & Hqs);
    [by apply live_set_bucket | rewrite Ht1; apply lookup_insert_eq | done | exact (Htm t tk Ht Hqt) |].
  exists t, tk, s1, A', s'. split_and!; try done.
  - rewrite Ht', Ht1. by rewrite insert_insert_eq.
  - transitivity (set_bucket A q (prio_current tk) ts); [apply same_lists_bucket; [done | by apply (ko_prio _ _ HK t tk)] | done].
  - transitivity s1; [by eapply queues_step_objects | done].
  - eapply timers_kept_l; [| | exact HG']; [by apply set_bucket_other | by destruct Hst as (h & mk & -> & _)].
  - intros q' i. rewrite Hqs, qtasks_set_bucket. cbn. f_equal.
    destruct (decide (q' = q ∧ i = prio_current tk)) as [[-> ->] |]; [by rewrite Hts | done].
Qed.

Lemma wake_task_then {B} timed code t s s' (k : K B) : wake_task timed code t s = Done tt s' →
  (when timed (os_blocktimer_destroy t);; mod_task t (set_block_code code);; os_task_makeready t;; k) s = k s'.
Proof.
  unfold wake_task. intros ([] & s1 & H1 & ([] & s2 & H2 & H3)%bind_Done_inv)%bind_Done_inv.
  by erewrite bind_Done, bind_Done, bind_Done by eassumption.
Qed.

(** *** Waking several waiters, in service order *)

(** The waiters [ws] of [q], in service order, were woken with [code]. *)
Record woken_seq (code : Z) q (ws : list (tid * Z)) A s A' s' : Prop := {
  ws_kernel : kernel_ok A' s';
  ws_lists : same_lists A A';
  ws_objects : same_objects s s';
  ws_queue : absq A q = ws ++ absq A' q;
  ws_tasks : ∀ t, tasks s' !! t = if decide (t ∈ ws.*1) then woken code <$> tasks s !! t else tasks s !! t;
  ws_queues : ∀ q' i, q' ≠ q → qtasks A' q' i = qtasks A q' i ++
    if decide (q' = Q_ready) then (filter (λ x, x.2 = i) ws).*1 else [];
  ws_timers : timers_kept (omap (λ w, tasks s !! w.1 ≫= timer) ws) A s A' s'
}.

(** The guard timers of the woken tasks are disarmed. *)
Lemma woken_disarmed code q ws A s A' s' : woken_seq code q ws A s A' s' →
  ∀ y, y ∈ armed A' → y ∈ armed A ∧ ∀ t tk, t ∈ ws.*1 → tasks s !! t = Some tk → timer tk ≠ Some y.
Proof.
  intros H y Hy. destruct (tk_armed _ _ _ _ _ (ws_timers _ _ _ _ _ _ _ H) y Hy) as [? Hno]. split; [done |].
  intros t tk (w & -> & Hw)%list_elem_of_fmap Ht Htm. apply Hno, list_elem_of_omap. exists w. by rewrite Ht.
Qed.

Lemma woken_nil code q A s : kernel_ok A s → woken_seq code q [] A s A s.
Proof.
  intros HK. split; try done.
  - intros q' i _. case_decide; by rewrite app_nil_r.
  - by apply timers_kept_same.
Qed.

Lemma absq_head A A' s q t tk : queues_ok A s → pq_top (qtasks A q) (prio_current tk) t →
  (∀ i, qtasks A' q i = if decide (i = prio_current tk) then tail (qtasks A q i) else qtasks A q i) →
  absq A q = (t, prio_current tk) :: absq A' q.
Proof.
  intros HQ [Hh Htop] Hq. destruct (qtasks A q (prio_current tk)) as [| t' ts] eqn:Hts; [done |]. injection Hh as ->.
  assert (t ∈ qtasks A q (prio_current tk)) as Hin by (rewrite Hts; apply list_elem_of_here).
  destruct (qtasks_live _ _ HQ _ _ _ Hin) as (_ & Hp & _).
  unfold absq. erewrite absq_from_top; [| | exact Hts | exact Htop]; [| cbn in *; lia].
  f_equal. apply absq_from_ext. intros i _. rewrite Hq. case_decide; subst; by rewrite ?Hts.
Qed.

Lemma woken_cons code q t tk ws A s A1 s1 A2 s2 :
  queues_ok A s → q ≠ Q_ready → tasks s !! t = Some tk → pq_top (qtasks A q) (prio_current tk) t →
  kernel_ok A1 s1 → tasks s1 = <[t := woken code tk]> (tasks s) → same_lists A A1 → same_objects s s1 →
  timers_kept (option_list (timer tk)) A s A1 s1 → wake_queues (qtasks A) (qtasks A1) q (prio_current tk) t →
  woken_seq code q ws A1 s1 A2 s2 → woken_seq code q ((t, prio_current tk) :: ws) A s A2 s2.
Proof.
  intros HQ Hq Ht Htop HK1 Ht1 HL1 Ho1 HG1 Hw [HK2 HL2 Ho2 Hq2 Ht2 Hqs2 HG2].
  assert (absq A q = (t, prio_current tk) :: absq A1 q) as Habs.
  { eapply absq_head; [done | done |]. intros i. rewrite Hw.
    rewrite (decide_False (P := q = Q_ready ∧ _)) by (by intros [? _]). rewrite app_nil_r.
    destruct (decide (i = prio_current tk)) as [-> |]; [by rewrite decide_True | by rewrite decide_False by (by intros [_ ?])]. }
  assert (t ∉ ws.*1) as Hnt.
  { intros ([t' p] & -> & Hin)%list_elem_of_fmap. cbn in *.
    assert ((t', p) ∈ absq A1 q) as Hin1 by (rewrite Hq2, elem_of_app; auto).
    rewrite (absq_elem _ _ _ _ _ (ko_queues _ _ HK1)) in Hin1.
    apply (qo_member _ _ (ko_queues _ _ HK1)) in Hin1 as (tk1 & Htk1 & Hq1 & _).
    rewrite Ht1, lookup_insert_eq in Htk1. injection Htk1 as <-. cbn in Hq1. congruence. }
  split.
  - done.
  - by transitivity A1.
  - by transitivity s1.
  - by rewrite Habs, Hq2.
  - intros t'. rewrite Ht2, Ht1, fmap_cons. cbn [fst]. rewrite lookup_insert.
    destruct (decide (t = t')) as [<- | Hne].
    + rewrite decide_False by done. rewrite decide_True by apply list_elem_of_here. by rewrite Ht.
    + destruct (decide (t' ∈ ws.*1)).
      * rewrite decide_True; [done | by apply list_elem_of_further].
      * rewrite decide_False; [done |]. rewrite elem_of_cons. intros [? | ?]; congruence.
  - intros q' i Hq'. rewrite Hqs2, Hw by done. rewrite (decide_False (P := q' = q ∧ _)) by (by intros [? _]).
    rewrite <- app_assoc. f_equal. destruct (decide (q' = Q_ready)) as [-> |].
    + rewrite filter_cons. cbn [snd]. destruct (decide (i = prio_current tk)) as [-> | Hi].
      * rewrite decide_True by done. rewrite decide_True by done. done.
      * rewrite decide_False by (by intros [_ ?]). rewrite decide_False by congruence. done.
    + rewrite decide_False by (by intros [? _]). done.
  - assert (omap (λ w, tasks s !! w.1 ≫= timer) ((t, prio_current tk) :: ws) =
      option_list (timer tk) ++ omap (λ w, tasks s1 !! w.1 ≫= timer) ws) as ->; [| by eapply timers_kept_trans].
    cbn. rewrite Ht. cbn. rewrite Ht1.
    assert (omap (λ w, tasks s !! w.1 ≫= timer) ws =
      omap (λ w, <[t:=woken code tk]> (tasks s) !! w.1 ≫= timer) ws) as <-; [| by destruct (timer tk)].
    clear - Hnt. induction ws as [| w ws IH]; [done |]. rewrite fmap_cons, not_elem_of_cons in Hnt.
    destruct Hnt as [H1 H2]. cbn. rewrite lookup_insert_ne by done. by rewrite IH.
Qed.

(** The tasks of one priority, read off the service order. *)
Lemma qtasks_absq A s q i : queues_ok A s → qtasks A q i = (filter (λ x, x.2 = i) (absq A q)).*1.
Proof.
  intros HQ. unfold absq. assert (∀ n f, (filter (λ x : tid * Z, x.2 = i) (absq_from n f)).*1 =
    if decide (0 ≤ i < Z.of_nat n) then f i else []) as Hf.
  { clear. induction n as [| n IH]; intros f; cbn [absq_from].
    - by rewrite decide_False by lia.
    - rewrite filter_app, fmap_app, IH.
      assert ((filter (λ x : tid * Z, x.2 = i) ((λ t, (t, Z.of_nat n)) <$> f (Z.of_nat n))).*1 =
        if decide (i = Z.of_nat n) then f i else []) as ->.
      { destruct (decide (i = Z.of_nat n)) as [Hi | Hi].
        - rewrite Hi. generalize (f (Z.of_nat n)). induction l as [| t l IHl]; [done |].
          rewrite fmap_cons, filter_cons, decide_True by done. rewrite fmap_cons. cbn [fst]. by rewrite IHl.
        - generalize (f (Z.of_nat n)). induction l as [| t l IHl]; [done |].
          rewrite fmap_cons, filter_cons, decide_False by (cbn; congruence). done. }
      destruct (decide (i = Z.of_nat n)) as [Hi | Hi].
      + rewrite (decide_False (P := 0 ≤ i < Z.of_nat n)), decide_True by lia. apply app_nil_r.
      + destruct (decide (0 ≤ i < Z.of_nat n)); [rewrite decide_True by lia; done |].
        rewrite decide_False by lia. done. }
  rewrite Hf. destruct (decide (0 ≤ i < Z.of_nat (Z.to_nat OS_CONFIG_PRIOCNT))) as [| Hi]; [reflexivity |].
  destruct (qtasks A q i) eqn:E; [done |].
  destruct (qtasks_range _ _ HQ q i) as [_ ?]; [by rewrite E |]. cbn in *. lia.
Qed.

(** *** The invariant across a hand-over of the CPU *)

Lemma kernel_ok_bucket2 A s T s' q1 p1 ts1 q2 p2 ts2 : kernel_ok A s → queues_step s T s' →
  queues_ok (set_bucket (set_bucket A q1 p1 ts1) q2 p2 ts2) s' →
  (∀ t tk', T !! t = Some tk' → ∃ tk, tasks s !! t = Some tk ∧ timer tk' = timer tk ∧
    prio_current tk' = prio_current tk) →
  kernel_ok (set_bucket (set_bucket A q1 p1 ts1) q2 p2 ts2) s'.
Proof.
  intros [HQ HT HP HG HA] Hst HQ' Hall. pose proof (queues_step_tasks _ _ _ Hst) as HtT.
  destruct Hst as (h & mk & -> & Hd). split; [done | | | |].
  - eapply (timers_ok_bucket _ s); [by eapply (timers_ok_bucket _ s) | done..].
  - rewrite HtT. intros t tk' (tk & Ht & _ & ->)%Hall. by eapply HP.
  - rewrite HtT. intros t tk' x (tk & Ht & -> & _)%Hall Hx. by eapply (HG t tk).
  - by do 2 (apply unlinked_bucket; [done.. |]).
Qed.

Lemma tasks_two (T : gmap tid os_task_t) c tk tk' (n : tid) tkn tkn' :
  T !! c = Some tk → T !! n = Some tkn → timer tk' = timer tk → prio_current tk' = prio_current tk →
  timer tkn' = timer tkn → prio_current tkn' = prio_current tkn →
  ∀ t tk2, <[c := tk']> (<[n := tkn']> T) !! t = Some tk2 →
    ∃ tk0, T !! t = Some tk0 ∧ timer tk2 = timer tk0 ∧ prio_current tk2 = prio_current tk0.
Proof. intros ? ? ? ? ? ? t tk2. rewrite !lookup_insert. repeat case_decide; intros; simplify_eq; eauto. Qed.

Lemma kernel_ok_handover A s c tk new A' s' :
  kernel_ok A s → sched_ok A s c tk → handover A s c tk new A' s' → kernel_ok A' s'.
Proof.
  intros HK Hok [(tkn & ts & Htn & _ & _ & _ & _ & Hst & ->) HQ'].
  eapply kernel_ok_bucket2; [exact HK | exact Hst | exact HQ' |].
  eapply tasks_two; [apply Hok | exact Htn | done..].
Qed.

Lemma kernel_ok_current A s c : kernel_ok A s → kernel_ok A (set_task_current (Some c) s).
Proof. intros HK. by eapply kernel_ok_globals. Qed.

Lemma kernel_ok_dint A s b : kernel_ok A s → kernel_ok A (set_dint b s).
Proof. intros HK. by eapply kernel_ok_globals. Qed.

Lemma sched_ok_dint A s b c tk : sched_ok A s c tk → sched_ok A (set_dint b s) c tk.
Proof. intros []. split; try done. by apply (queues_ok_ext A s). Qed.

(** A task that kernel code was switched back to. *)
Lemma resume_running_spec A s c tk : kernel_ok A s → task_current s = Some c → tasks s !! c = Some tk →
  resume_running s = Done tt (set_tasks (<[c := set_state TASKSTATE_RUNNING tk]> (tasks s)) s) ∧
  kernel_ok A (set_tasks (<[c := set_state TASKSTATE_RUNNING tk]> (tasks s)) s).
Proof.
  intros HK Hc Ht. split.
  - unfold resume_running. erewrite bind_Done by (by apply current_Some). by apply mod_task_Some.
  - eapply kernel_ok_mod_task; eauto.
Qed.

(** *** Blocking with a guard timer *)

Lemma sched_ok_kernel A s c tk : kernel_ok A s → live A Q_ready → task_current s = Some c →
  tasks s !! c = Some tk → task_queue tk = None → sched_ok A s c tk.
Proof. intros HK Hl Hc Ht Hq. split; try done; [apply HK | by apply (ko_prio _ _ HK c)]. Qed.

(** The guard timer of a timed wait: its frame holds [junk] where [os_timer_create]
    looks for the mark of an armed timer. *)
Definition guard_timer (timed : bool) (fuel : nat) (cb : timer_proc_t) (timeout junk : Z) : K unit :=
  when timed (c ← current; local_timer (TmBlock c) junk;; os_blocktimer_create fuel (TmBlock c) cb timeout).

Definition guard_pre A (c : tid) (timed : bool) (fuel : nat) (timeout junk : Z) : Prop :=
  timed = true → junk ≠ OS_TIMER_MAGIC1 ∧ TmBlock c ∉ armed A ∧ 0 < timeout < OS_TIMER_TICKSREM_MAX ∧
    (length (armed A) < fuel)%nat.

Lemma guard_timer_spec A s c tk timed fuel cb timeout junk :
  kernel_ok A s → sched_ok A s c tk → timer tk = None → guard_pre A c timed fuel timeout junk →
  ∃ A' s', guard_timer timed fuel cb timeout junk s = Done tt s' ∧
    kernel_ok A' s' ∧ (∀ q p, A' !! L_bucket q p = A !! L_bucket q p) ∧ same_lists A A' ∧
    tasks s' = <[c := set_timer (if timed then Some (TmBlock c) else None) tk]> (tasks s) ∧ same_objects s s' ∧
    (timed = true → TmBlock c ∈ armed A' ∧ remaining s' (TmBlock c) = timeout ∧
      clbck (timer_at s' (TmBlock c)) = cb ∧ param (timer_at s' (TmBlock c)) = Param_task c ∧
      ticks_reload (timer_at s' (TmBlock c)) = 0) ∧
    (∀ y, y ∈ armed A' → timed = true ∧ y = TmBlock c ∨ y ∈ armed A) ∧
    (∀ y, y ≠ TmBlock c → timer_at s' y = timer_at s y).
Proof.
  intros HK Hok Htm Hto. unfold guard_timer. destruct timed; cbn [when].
  - destruct (Hto eq_refl) as (Hj & Hna & Ht & Hf).
    destruct (local_timer_spec A s c tk junk HK (so_task _ _ _ _ Hok) Htm Hna) as (s1 & Hl & HK1 & E1 & Hm & Hoth1).
    destruct (blocktimer_create_spec A s1 c tk fuel cb timeout HK1) as
      (A' & s' & Hrun & ? & ? & ? & Ht' & Ho & ? & ? & ? & ? & ? & Ha & Hoth);
      [by rewrite E1; apply Hok | by rewrite E1; apply Hok | done | congruence | done | done |].
    rewrite E1 in Ht', Ho. exists A', s'. erewrite bind_Done by (by apply current_Some, Hok). erewrite bind_Done by exact Hl.
    split_and!; try done; [intros y [-> |]%Ha; auto |]. intros y Hy. by rewrite Hoth, Hoth1.
  - exists A, s. split_and!; try done; [| by right]. rewrite insert_id; [done |].
    rewrite (so_task _ _ _ _ Hok). by destruct tk; cbn in *; subst.
Qed.

Lemma sched_ok_guard A s c tk A' s' x : sched_ok A s c tk → kernel_ok A' s' → same_lists A A' →
  same_objects s s' → tasks s' = <[c := set_timer x tk]> (tasks s) → sched_ok A' s' c (set_timer x tk).
Proof.
  intros Hok HK' HL Ho Ht. destruct Ho as (_ & _ & Hc & _).
  apply sched_ok_kernel; [done | by apply HL, Hok | by rewrite Hc; apply Hok | by rewrite Ht, lookup_insert_eq | apply Hok].
Qed.

Lemma block_kernel_spec A s c tk q bt :
  kernel_ok A s → sched_ok A s c tk → live A q → q ≠ Q_ready → ¬ pq_empty (qtasks A Q_ready) →
  ∃ new tkn A' s', os_task_block_switch q bt s = Switch c (set_task_current (Some new) s') (λ s2, resume_running s2) ∧
    kernel_ok A' s' ∧ same_lists A A' ∧ same_objects s s' ∧
    tasks s !! new = Some tkn ∧ pq_top (qtasks A Q_ready) (prio_current tkn) new ∧ new ≠ c ∧
    tasks s' = <[new := set_task_queue None tkn]> (<[c := waiting_task q bt tk]> (tasks s)) ∧
    absq A' q = pq_insert c (prio_current tk) (absq A q) ∧
    (∀ i, qtasks A' Q_ready i = if decide (i = prio_current tkn) then tail (qtasks A Q_ready i) else qtasks A Q_ready i) ∧
    (∀ q' i, q' ≠ q → q' ≠ Q_ready → qtasks A' q' i = qtasks A q' i) ∧
    A' !! L_timer_list = A !! L_timer_list ∧ timers s' = timers s ∧ timer_tick_unsynch s' = timer_tick_unsynch s.
Proof.
  intros HK Hok Hl Hq Hne.
  destruct (block_switch_spec A s c tk q bt Hok Hl Hq Hne) as (new & tkn & ts & s' & Htn & Htop & Hts & Hnc & Hst & HQ' & Hrun).
  pose proof (so_prio _ _ _ _ Hok) as Hp.
  assert (kernel_ok (set_bucket (push A q c (prio_current tk)) Q_ready (prio_current tkn) ts) s') as HK'.
  { eapply kernel_ok_bucket2; [exact HK | exact Hst | exact HQ' |].
    rewrite insert_insert_ne by done. eapply tasks_two; [apply Hok | exact Htn | done..]. }
  exists new, tkn. eexists _, s'. split_and!; [exact Hrun | exact HK' | | | done | done | done | | | | | | |].
  - transitivity (push A q c (prio_current tk)); apply same_lists_bucket; [done | done | by apply live_push, Hok |].
    by apply (ko_prio _ _ HK new tkn).
  - by eapply queues_step_objects.
  - by eapply queues_step_tasks.
  - rewrite <- (absq_enqueue A q (prio_current tk) c) by done. apply absq_from_ext. intros i _.
    rewrite qtasks_set_bucket, decide_False by (by intros [? _]). done.
  - intros i. rewrite qtasks_set_bucket. destruct (decide (i = prio_current tkn)) as [-> | Hi].
    + rewrite decide_True by done. by rewrite Hts.
    + rewrite decide_False, qtasks_push, decide_False by (by intros [? ?]). apply app_nil_r.
  - intros q' i H1 H2. rewrite qtasks_set_bucket, decide_False, qtasks_push, decide_False by (by intros [? _]). apply app_nil_r.
  - unfold push. rewrite !set_bucket_other by done. done.
  - by destruct Hst as (h & mk & -> & _).
  - by destruct Hst as (h & mk & -> & _).
Qed.

(** What blocking [c] in [q] does, after its guard timer was armed if [timed]. *)
Record blocked_step A s c tk q bt (timed : bool) cb timeout new A' s' : Prop := {
  bl_kernel : kernel_ok A' s';
  bl_lists : same_lists A A';
  bl_objects : sems s' = sems s ∧ waitqueue_current s' = None ∧ dint s' = dint s ∧ isr_nesting s' = isr_nesting s ∧
    sched_lock s' = sched_lock s;
  bl_tasks : ∃ tkn, tasks s !! new = Some tkn ∧ new ≠ c ∧ task_queue tkn = Some Q_ready ∧
    pq_top (qtasks A Q_ready) (prio_current tkn) new ∧ tasks s' = <[new := set_task_queue None tkn]>
      (<[c := waiting_task q bt (set_timer (if timed then Some (TmBlock c) else None) tk)]> (tasks s));
  bl_waiter : absq A' q = pq_insert c (prio_current tk) (absq A q);
  bl_queues : ∀ q' i, q' ≠ q → q' ≠ Q_ready → qtasks A' q' i = qtasks A q' i;
  bl_guard : timed = true → clbck (timer_at s' (TmBlock c)) = cb ∧ param (timer_at s' (TmBlock c)) = Param_task c ∧
    ticks_reload (timer_at s' (TmBlock c)) = 0 ∧ TmBlock c ∈ armed A' ∧ remaining s' (TmBlock c) = timeout;
  bl_unguarded : timed = false → timer_at s' (TmBlock c) = timer_at s (TmBlock c);
  bl_armed : ∀ y, y ∈ armed A' → timed = true ∧ y = TmBlock c ∨ y ∈ armed A;
  bl_timers : ∀ y, y ≠ TmBlock c → timer_at s' y = timer_at s y
}.

Lemma guard_block_spec A s c tk q bt timed fuel cb timeout junk :
  kernel_ok A s → sched_ok A s c tk → timer tk = None → live A q → q ≠ Q_ready → ¬ pq_empty (qtasks A Q_ready) →
  guard_pre A c timed fuel timeout junk →
  ∃ s1 new A' s', guard_timer timed fuel cb timeout junk s = Done tt s1 ∧
    task_current s1 = Some c ∧ waitqueue_current s1 = waitqueue_current s ∧
    os_task_block_switch q bt (set_waitqueue_current None s1) =
      Switch c (set_task_current (Some new) s') (λ s2, resume_running s2) ∧
    blocked_step A s c tk q bt timed cb timeout new A' s'.
Proof.
  intros HK Hok Htm Hlq Hqr Hne Hto.
  destruct (guard_timer_spec A s c tk timed fuel cb timeout junk HK Hok Htm Hto)
    as (A1 & s1 & Hg & HK1 & Hb1 & HL1 & Ht1 & Ho1 & Harm & Harm1 & Hoth1).
  assert (∀ q i, qtasks A1 q i = qtasks A q i) as Hq1 by (intros; by apply qtasks_lookup).
  pose proof (sched_ok_guard _ _ _ _ _ _ _ Hok HK1 HL1 Ho1 Ht1) as Hok1.
  destruct Ho1 as (Hse1 & _ & Hc1 & Hn1 & Hlk1 & Hw1 & Hd1 & _).
  set (s2 := set_waitqueue_current None s1).
  assert (kernel_ok A1 s2) as HK2 by (by eapply kernel_ok_globals).
  set (tk1 := set_timer (if timed then Some (TmBlock c) else None) tk) in *.
  assert (sched_ok A1 s2 c tk1) as Hok2 by (apply sched_ok_kernel; [done | apply Hok1..]).
  destruct (block_kernel_spec A1 s2 c tk1 q bt HK2 Hok2)
    as (new & tkn & A3 & s3 & Hblk & HK3 & HL3 & (Hse3 & _ & _ & Hn3 & Hlk3 & Hw3 & Hd3 & _) & Htn & [Hh Htop] & Hnc & Ht3 & Habs & _ & Hothq & Htl & Htmr & Hun);
    [by apply HL1 | done | intros He; apply Hne; intros i; by rewrite <- Hq1 |].
  change (tasks s2) with (tasks s1) in Htn, Ht3. change (timers s2) with (timers s1) in Htmr.
  rewrite Ht1, lookup_insert_ne in Htn by done.
  assert (∀ y, timer_at s3 y = timer_at s1 y) as Hat by (by apply timer_at_eq).
  rewrite Hq1 in Hh. exists s1, new, A3, s3. split_and!; [done | by rewrite Hc1; apply Hok | done | done |]. split.
  - done.
  - by transitivity A1.
  - by rewrite Hse3, Hw3, Hd3, Hn3, Hlk3.
  - exists tkn. rewrite Ht3, Ht1, insert_insert_eq. split_and!; try done.
    + destruct (qtasks A Q_ready (prio_current tkn)) as [| n' l] eqn:E; [done |]. injection Hh as ->.
      destruct (qo_member _ _ (ko_queues _ _ HK) Q_ready (prio_current tkn) new) as (tk2 & ? & ? & _);
        [rewrite E; apply list_elem_of_here | congruence].
    + split; [done |]. intros i ?. rewrite <- Hq1. auto.
  - rewrite Habs. f_equal. apply absq_from_ext. auto.
  - intros q' i Hqn Hqr'. by rewrite Hothq, Hq1.
  - rewrite Hat. intros Htd. destruct (Harm Htd) as (? & ? & ? & ? & ?). rewrite (armed_same A1 A3) by done.
    unfold remaining, rem. rewrite Hat, Hun. by split_and!.
  - rewrite Hat. intros ->. by injection Hg as <-.
  - intros y. rewrite (armed_same A1 A3) by done. apply Harm1.
  - intros y Hy. by rewrite Hat, Hoth1.
Qed.

(** Whether a wait is [timed]. *)
Lemma timed_iff timeout : negb (OS_TIMEOUT_INFINITE =? timeout) = true ↔ timeout ≠ OS_TIMEOUT_INFINITE.
Proof. destruct (Z.eqb_spec OS_TIMEOUT_INFINITE timeout); cbn; split; congruence. Qed.

(** What a task blocked with a guard timer does when it is switched to. *)
Lemma resume_guard_spec A s c tk : kernel_ok A s → task_current s = Some c → tasks s !! c = Some tk →
  ∃ A' s', (resume_running;; c ← current; os_blocktimer_destroy c) s = Done tt s' ∧
    (∀ B (k : tid → K B), (resume_running;; c ← current; os_blocktimer_destroy c;; k c) s = k c s') ∧ kernel_ok A' s' ∧
    tasks s' = <[c := set_timer None (set_state TASKSTATE_RUNNING tk)]> (tasks s) ∧ same_objects s s' ∧
    (∀ q i, qtasks A' q i = qtasks A q i) ∧ same_lists A A' ∧ timers_kept (option_list (timer tk)) A s A' s'.
Proof.
  intros HK Hc Ht. destruct (resume_running_spec A s c tk HK Hc Ht) as [Hr HK1].
  set (s1 := set_tasks _ _) in *.
  destruct (blocktimer_destroy_spec A s1 c (set_state TASKSTATE_RUNNING tk) HK1) as (A' & s' & Hd & HK' & Hb & HL & Ht' & _ & Ho & HG);
    [cbn; apply lookup_insert_eq |].
  exists A', s'. split_and!; try done.
  - erewrite bind_Done by exact Hr. by erewrite bind_Done by (by apply current_Some).
  - intros B k. erewrite bind_Done by exact Hr. erewrite bind_Done by (by apply current_Some).
    by erewrite bind_Done by exact Hd.
  - rewrite Ht'. cbn. by rewrite insert_insert_eq.
  - intros q i. by apply qtasks_lookup.
  - by eapply (timers_kept_l _ A s A s1).
Qed.
End facts.
