(* ===== verification/QueueLife.v ===== *)
(** * Creation and destruction of task queues

    The objects that own a task queue are created over memory of any content
    ([memset] followed by [os_taskqueue_init]) and destroyed by zeroing them.
    Both steps keep the kernel invariant, for the lists that exist before and
    after. *)

From stdpp Require Import base decidable list countable gmap.
From Stdlib Require Import ZArith Lia.
From S2P Require Import Prelude Arch LinkedList Kernel TaskQueue Timer Sched Invariant.

Local Open Scope Z_scope.

(** The lists [A] without, and with, the buckets of [q]. *)
Definition drop_queue (A : gmap laddr (list laddr)) (q : qid) : gmap laddr (list laddr) :=
  foldr (λ p A, delete (L_bucket q p) A) A (seqZ 0 OS_CONFIG_PRIOCNT).
Definition add_buckets (A : gmap laddr (list laddr)) (q : qid) (prios : list Z) : gmap laddr (list laddr) :=
  foldr (λ p A, <[L_bucket q p := []]> A) A prios.
Definition add_queue (A : gmap laddr (list laddr)) (q : qid) : gmap laddr (list laddr) :=
  add_buckets A q (seqZ 0 OS_CONFIG_PRIOCNT).

(** No task waits on [q], or [q] is memory that is on no list. *)
Definition idle_queue (A : gmap laddr (list laddr)) (q : qid) : Prop :=
  ∀ p, 0 ≤ p < OS_CONFIG_PRIOCNT → A !! L_bucket q p = Some [] ∨ unlinked A (L_bucket q p).
(** The memory of [q] is on no list, and holds [list_t] objects. *)
Definition fresh_queue (A : gmap laddr (list laddr)) (s : kstate) (q : qid) : Prop :=
  ∀ p, 0 ≤ p < OS_CONFIG_PRIOCNT → unlinked A (L_bucket q p) ∧ is_Some (links s !! L_bucket q p).
(** The memory of [q] is all zero. *)
Definition zeroed_queue (s : kstate) (q : qid) : Prop :=
  (∀ p, 0 ≤ p < OS_CONFIG_PRIOCNT → links s !! L_bucket q p = Some (ListT None None)) ∧ masks s !! q = Some 0.

Section facts.
Context {AP : ArchPort} {APOK : ArchPortOk AP}.
Implicit Types (A : gmap laddr (list laddr)) (s : kstate) (q : qid) (t c : tid) (tk : os_task_t).

Lemma lookup_drop_queue A q hd : drop_queue A q !! hd =
  if decide (hd ∈ L_bucket q <$> seqZ 0 OS_CONFIG_PRIOCNT) then None else A !! hd.
Proof.
  unfold drop_queue. induction (seqZ 0 OS_CONFIG_PRIOCNT) as [| p ps IH]; [done |]. cbn.
  rewrite lookup_delete, IH.
  destruct (decide (L_bucket q p = hd)) as [<- | H1]; [by rewrite decide_True by apply list_elem_of_here |].
  destruct (decide (hd ∈ L_bucket q <$> ps)).
  - rewrite decide_True; [done | by apply list_elem_of_further].
  - rewrite decide_False; [done |]. rewrite elem_of_cons. intros [-> |]; done.
Qed.

Lemma lookup_add_buckets A q ps hd : add_buckets A q ps !! hd =
  if decide (hd ∈ L_bucket q <$> ps) then Some [] else A !! hd.
Proof.
  unfold add_buckets. induction ps as [| p ps IH]; [done |]. cbn.
  rewrite lookup_insert, IH.
  destruct (decide (L_bucket q p = hd)) as [<- | H1]; [by rewrite decide_True by apply list_elem_of_here |].
  destruct (decide (hd ∈ L_bucket q <$> ps)).
  - rewrite decide_True; [done | by apply list_elem_of_further].
  - rewrite decide_False; [done |]. rewrite elem_of_cons. intros [-> |]; done.
Qed.

Lemma elem_of_buckets q' p q : L_bucket q' p ∈ L_bucket q <$> seqZ 0 OS_CONFIG_PRIOCNT ↔
  q' = q ∧ 0 ≤ p < OS_CONFIG_PRIOCNT.
Proof.
  rewrite list_elem_of_fmap. setoid_rewrite elem_of_seqZ. split.
  - intros (p' & [= -> ->] & ?). split; [done | lia].
  - intros [-> ?]. exists p. split; [done | lia].
Qed.

Lemma not_bucket_elem hd q (ps : list Z) : (∀ q p, hd ≠ L_bucket q p) → hd ∉ L_bucket q <$> ps.
Proof. intros Hhd (p & -> & _)%list_elem_of_fmap. by eapply Hhd. Qed.

Lemma drop_queue_subseteq A q : drop_queue A q ⊆ A.
Proof.
  apply map_subseteq_spec. intros hd xs. rewrite lookup_drop_queue. by case_decide.
Qed.

Lemma repr_subseteq (h : gmap laddr (list_t laddr)) A A' : A' ⊆ A → repr h A → repr h A'.
Proof. intros Hs [HC HN HD]. rewrite map_subseteq_spec in Hs. split; eauto. Qed.

Lemma unlinked_add A q ps x : unlinked A x → x ∉ L_bucket q <$> ps → unlinked (add_buckets A q ps) x.
Proof.
  intros Hu Hx hd xs. rewrite lookup_add_buckets. case_decide; [| apply Hu].
  intros [= <-]. rewrite list_elem_of_singleton. congruence.
Qed.

(** Every bucket of an idle queue is off all lists once the queue is dropped. *)
Lemma drop_unlinked A s q p : queues_ok A s → idle_queue A q → 0 ≤ p < OS_CONFIG_PRIOCNT →
  unlinked (drop_queue A q) (L_bucket q p).
Proof.
  intros HQ Hi Hp. destruct (Hi p Hp) as [HA | Hu]; [| eapply unlinked_subseteq; [apply drop_queue_subseteq | done]].
  intros hd xs. rewrite lookup_drop_queue. case_decide as H1; [done |]. intros Hx Hin.
  apply H1. pose proof (repr_disj _ _ (qo_repr _ _ HQ) _ _ _ _ _ Hx HA Hin (list_elem_of_here _ _)) as ->.
  by apply elem_of_buckets.
Qed.

Lemma lookup_null (h : gmap laddr (list_t laddr)) xs a :
  foldr (λ x h, <[x := ListT None None]> h) h xs !! a = if decide (a ∈ xs) then Some (ListT None None) else h !! a.
Proof.
  induction xs as [| x xs IH]; [done |]. cbn. rewrite lookup_insert, IH.
  destruct (decide (x = a)) as [<- | H1]; [by rewrite decide_True by apply list_elem_of_here |].
  destruct (decide (a ∈ xs)).
  - rewrite decide_True; [done | by apply list_elem_of_further].
  - rewrite decide_False; [done |]. rewrite elem_of_cons. intros [-> |]; done.
Qed.

Lemma repr_null (h : gmap laddr (list_t laddr)) A xs : repr h A → (∀ x, x ∈ xs → unlinked A x) →
  repr (foldr (λ x h, <[x := ListT None None]> h) h xs) A.
Proof.
  intros HR. induction xs as [| x xs IH]; intros Hu; cbn; [done |].
  apply repr_store; [| apply Hu, list_elem_of_here]. apply IH. intros y Hy. by apply Hu, list_elem_of_further.
Qed.

(** The timers, under a change of the lists of task queues. *)
Lemma timers_ok_lists A A' s s' : timers_ok A s → A' !! L_timer_list = A !! L_timer_list →
  (∀ x, unlinked A (L_timer x) → unlinked A' (L_timer x)) → (∀ x, A' !! L_timer x = A !! L_timer x) →
  timers s' = timers s → timer_tick_unsynch s' = timer_tick_unsynch s → timers_ok A' s'.
Proof.
  intros [H1 H2 H3 H4 H5 H6 H7] Hl Hu Hh Ht Hs.
  assert (armed A' = armed A) as Ha by (by apply armed_same).
  assert (∀ x, timer_at s' x = timer_at s x) as Hat by (intros x; unfold timer_at; by rewrite Ht).
  assert (∀ x, rem s' x = rem s x) as Hr by (intros x; unfold rem; by rewrite Hat).
  split; rewrite ?Ha, ?Hs; [by rewrite Hl | | | | | done..].
  - apply (StronglySorted_ext (rem s)); [by intros; apply Hr | done].
  - intros x. rewrite Hr, Hat. apply H3.
  - intros x Hx. unfold pending. rewrite Hr, Hat, Hh. destruct (H4 x Hx) as [[? ?] | ?]; auto.
  - intros x. rewrite Hat. apply H5.
Qed.

(** [links] and [masks] are all that queue creation and destruction touch. *)
Definition lists_step s s' : Prop := ∃ h mk, s' = set_masks mk (set_links h s).

Lemma kernel_ok_lists A A' s s' : kernel_ok A s → lists_step s s' → queues_ok A' s' →
  A' !! L_timer_list = A !! L_timer_list → (∀ x, unlinked A (L_timer x) → unlinked A' (L_timer x)) →
  (∀ x, A' !! L_timer x = A !! L_timer x) → unlinked A' L_autoreload → kernel_ok A' s'.
Proof.
  intros [HQ HT HP HG HA] (h & mk & ->) HQ' Hl Hu Hh Hau.
  split; [done | by eapply timers_ok_lists | done..].
Qed.

Lemma qtasks_drop A q q' p : qtasks (drop_queue A q) q' p = if decide (q' = q) then
  (if decide (0 ≤ p < OS_CONFIG_PRIOCNT) then [] else qtasks A q' p) else qtasks A q' p.
Proof.
  unfold qtasks. rewrite lookup_drop_queue. destruct (decide (L_bucket q' p ∈ _)) as [[-> Hp]%elem_of_buckets | H1].
  - rewrite decide_True by done. by rewrite decide_True.
  - rewrite elem_of_buckets in H1. destruct (decide (q' = q)); [| done]. by rewrite decide_False by tauto.
Qed.

Lemma drop_armed A q : armed (drop_queue A q) = armed A.
Proof. apply armed_same. rewrite lookup_drop_queue, decide_False; [done |]. by intros (? & ? & _)%list_elem_of_fmap. Qed.

Lemma live_drop A q q' : live (drop_queue A q) q' ↔ q' ≠ q ∧ live A q'.
Proof.
  unfold live. setoid_rewrite lookup_drop_queue. split.
  - intros Hl. assert (q' ≠ q) as Hne.
    { intros ->. specialize (Hl 0 ltac:(unfold OS_CONFIG_PRIOCNT; lia)). rewrite decide_True in Hl; [by destruct Hl |].
      apply elem_of_buckets. unfold OS_CONFIG_PRIOCNT. split; [done | lia]. }
    split; [done |]. intros p Hp. specialize (Hl p Hp). by rewrite decide_False in Hl by (by rewrite elem_of_buckets; intros [? _]).
  - intros [Hne Hl] p Hp. rewrite decide_False by (by rewrite elem_of_buckets; intros [? _]). auto.
Qed.

Lemma idle_qtasks A s q i : queues_ok A s → idle_queue A q → qtasks A q i = [].
Proof.
  intros HQ Hi. destruct (qtasks A q i) as [| t ts] eqn:E; [done |]. exfalso.
  destruct (qtasks_range _ _ HQ q i) as [Hl Hp]; [by rewrite E |].
  destruct (Hi i Hp) as [HA | Hu].
  - unfold qtasks in E. by rewrite HA in E.
  - destruct (Hl i Hp) as [xs Hx]. by apply (Hu _ _ Hx), list_elem_of_here.
Qed.

Lemma memset_spec A s q : kernel_ok A s → idle_queue A q →
  ∃ s', taskqueue_memset q s = Done tt s' ∧ kernel_ok (drop_queue A q) s' ∧
    lists_step s s' ∧ fresh_queue (drop_queue A q) s' q ∧ zeroed_queue s' q.
Proof.
  intros HK Hi. pose proof (ko_queues _ _ HK) as HQ. unfold taskqueue_memset, null_links.
  erewrite bind_Done by done. eexists; split; [done |].
  set (h' := foldr _ _ _). set (s' := set_masks _ _).
  assert (lists_step s s') as Hst by (by eexists _, _).
  assert (∀ a, is_Some (links s !! a) → is_Some (h' !! a)) as Hdom.
  { intros a Ha. unfold h'. rewrite lookup_null. by case_decide. }
  assert (queues_ok (drop_queue A q) s') as HQ'.
  { split; cbn.
    - unfold h'. apply repr_null; [eapply repr_subseteq; [apply drop_queue_subseteq | apply HQ] |].
      intros x (p & -> & Hp%elem_of_seqZ)%list_elem_of_fmap. eapply drop_unlinked; [done.. | lia].
    - intros q' p xs. rewrite lookup_drop_queue. case_decide as Hb; [done |]. intros Hx.
      destruct (qo_bucket _ _ HQ _ _ _ Hx) as (Hp & Hl & Hm & Hxs).
      assert (q' ≠ q) as Hne by (intros ->; apply Hb; by apply elem_of_buckets).
      rewrite live_drop, qtasks_drop, decide_False, lookup_insert_ne by done. done.
    - intros q' p t. rewrite qtasks_drop. repeat case_decide; [by rewrite elem_of_nil | apply (qo_member _ _ HQ)..].
    - intros q' m. rewrite live_drop. intros Hm [Hne Hl]. rewrite lookup_insert_ne in Hm by done.
      destruct (qo_mask _ _ HQ q' m Hm Hl) as [? Hb]. split; [done |]. intros i Hi'.
      rewrite qtasks_drop, decide_False by done. by apply Hb.
    - intros t tk Ht. destruct (qo_task _ _ HQ t tk Ht) as [Hs Hm]. split; [by apply Hdom |].
      destruct (task_queue tk) as [q' |] eqn:Eq.
      + assert (q' ≠ q) as Hne by (intros ->; by rewrite (idle_qtasks _ _ _ _ HQ Hi), elem_of_nil in Hm).
        by rewrite qtasks_drop, decide_False.
      + eapply unlinked_subseteq; [apply drop_queue_subseteq | done]. }
  assert (∀ p, 0 ≤ p < OS_CONFIG_PRIOCNT → links s' !! L_bucket q p = Some (ListT None None)) as Hz.
  { intros p Hp. cbn. unfold h'. rewrite lookup_null, decide_True; [done |]. by apply elem_of_buckets. }
  split_and!; [| done | | split; [exact Hz | apply lookup_insert_eq]].
  - eapply (kernel_ok_lists A); [done | done | done | | | |].
    + rewrite lookup_drop_queue. by rewrite decide_False by (by apply not_bucket_elem).
    + intros x. apply unlinked_subseteq, drop_queue_subseteq.
    + intros x. rewrite lookup_drop_queue. by rewrite decide_False by (by apply not_bucket_elem).
    + eapply unlinked_subseteq; [apply drop_queue_subseteq | by apply (ko_auto _ _ HK)].
  - intros p Hp. split; [by eapply drop_unlinked | by rewrite Hz].
Qed.

Lemma init_from_spec q prios : ∀ A s, NoDup prios → repr (links s) A →
  (∀ p, p ∈ prios → unlinked A (L_bucket q p) ∧ is_Some (links s !! L_bucket q p)) →
  ∃ h', os_taskqueue_init_from q prios s = Done tt (set_links h' s) ∧
    repr h' (add_buckets A q prios) ∧ same_dom h' (links s).
Proof.
  induction prios as [| p ps IH]; intros A s Hn HR Hf; cbn [os_taskqueue_init_from foldr].
  { exists (links s). split_and!; [by destruct s | done | done]. }
  apply NoDup_cons in Hn as [Hp Hn].
  destruct (Hf p (list_elem_of_here _ _)) as [Hu Hs].
  destruct (list_init_repr (links s) A (L_bucket q p) HR Hs) as (h1 & Hi & HR1 & Hd1);
    [intros ? ? _; apply Hu |].
  destruct (IH (<[L_bucket q p := []]> A) (set_links h1 s) Hn HR1) as (h' & Hrun & HR' & Hd').
  - intros p' Hp'. destruct (Hf p' (list_elem_of_further _ _ _ Hp')) as [Hu' Hs']. split.
    + apply unlinked_insert_ne; [done |]. rewrite list_elem_of_singleton. intros [= ->]. done.
    + by apply Hd1.
  - exists h'. split_and!.
    + erewrite bind_Done by (unfold on_links; rewrite Hi; done). exact Hrun.
    + replace (add_buckets A q (p :: ps)) with (add_buckets (<[L_bucket q p := []]> A) q ps); [done |].
      apply map_eq. intros hd. rewrite !lookup_add_buckets, lookup_insert, fmap_cons.
      destruct (decide (hd ∈ L_bucket q <$> ps)); [rewrite decide_True by (by apply list_elem_of_further); done |].
      destruct (decide (L_bucket q p = hd)) as [<- |].
      * by rewrite decide_True by apply list_elem_of_here.
      * rewrite decide_False; [done |]. rewrite elem_of_cons. intros [-> |]; done.
    + by transitivity h1.
Qed.

Lemma qtasks_add A q q' p : (∀ i, qtasks A q i = []) → qtasks (add_queue A q) q' p = qtasks A q' p.
Proof.
  intros Hi. unfold qtasks, add_queue. rewrite lookup_add_buckets.
  destruct (decide (L_bucket q' p ∈ _)) as [[-> Hp]%elem_of_buckets | H1]; [| done].
  specialize (Hi p). unfold qtasks in Hi. by rewrite Hi.
Qed.

Lemma live_add A q q' : live (add_queue A q) q' ↔ q' = q ∨ live A q'.
Proof.
  unfold live, add_queue. setoid_rewrite lookup_add_buckets. split.
  - destruct (decide (q' = q)); [by left |]. intros Hl. right. intros p Hp. specialize (Hl p Hp).
    by rewrite decide_False in Hl by (by rewrite elem_of_buckets; intros [? _]).
  - intros Hl p Hp. case_decide as Hb; [done |]. rewrite elem_of_buckets in Hb. destruct Hl as [-> | Hl]; [tauto | auto].
Qed.

Lemma init_spec A s q : kernel_ok A s → fresh_queue A s q →
  ∃ s', os_taskqueue_init q s = Done tt s' ∧ kernel_ok (add_queue A q) s' ∧ lists_step s s'.
Proof.
  intros HK Hf. pose proof (ko_queues _ _ HK) as HQ. unfold os_taskqueue_init.
  destruct (init_from_spec q (seqZ 0 OS_CONFIG_PRIOCNT) A s) as (h' & Hrun & HR' & Hd'); [apply NoDup_seqZ | apply HQ | |].
  { intros p Hp%elem_of_seqZ. apply Hf. lia. }
  erewrite bind_Done by exact Hrun. eexists; split; [done |].
  assert (∀ i, qtasks A q i = []) as He.
  { intros i. eapply idle_qtasks; [done |]. intros p Hp. right. by apply Hf. }
  set (s' := set_masks _ _). assert (lists_step s s') as Hst by (by eexists _, _). split; [| done].
  eapply (kernel_ok_lists A); [done | done | | | | |].
  - split; cbn; [done | | | |].
    + intros q' p xs. rewrite qtasks_add, live_add by done. unfold add_queue at 1. rewrite lookup_add_buckets.
      case_decide as Hb.
      * apply elem_of_buckets in Hb as [-> Hp]. intros [= <-]. rewrite He, lookup_insert_eq. split_and!; [lia.. | by left | done | done].
      * intros Hx. destruct (qo_bucket _ _ HQ _ _ _ Hx) as (Hp & Hl & Hm & Hxs).
        split_and!; [lia.. | by right | | done]. rewrite lookup_insert. by case_decide.
    + intros q' p t. rewrite qtasks_add by done. apply (qo_member _ _ HQ).
    + intros q' m. rewrite live_add, lookup_insert. case_decide as Hq.
      * subst q'. intros [= <-] _. split; [lia |]. intros i Hi. rewrite qtasks_add, He, Z.testbit_0_l by done. done.
      * intros Hm [-> | Hl]; [done |]. destruct (qo_mask _ _ HQ q' m Hm Hl) as [? Hb]. split; [done |].
        intros i Hi. rewrite qtasks_add by done. by apply Hb.
    + intros t tk Ht. destruct (qo_task _ _ HQ t tk Ht) as [Hs Hm]. split; [by apply Hd' |].
      destruct (task_queue tk); [by rewrite qtasks_add by done |].
      apply unlinked_add; [done |]. by apply not_bucket_elem.
  - unfold add_queue. rewrite lookup_add_buckets. by rewrite decide_False by (by apply not_bucket_elem).
  - intros x Hu. apply unlinked_add; [done |]. by apply not_bucket_elem.
  - intros x. unfold add_queue. rewrite lookup_add_buckets. by rewrite decide_False by (by apply not_bucket_elem).
  - apply unlinked_add; [by apply (ko_auto _ _ HK) |]. by apply not_bucket_elem.
Qed.

Lemma lists_step_objects s s' : lists_step s s' → same_objects s s'.
Proof. by intros (h & mk & ->). Qed.
Lemma lists_step_tasks s s' : lists_step s s' → tasks s' = tasks s.
Proof. by intros (h & mk & ->). Qed.

#[export] Instance lists_step_preorder : PreOrder lists_step.
Proof.
  split; [intros s; exists (links s), (masks s); by destruct s |].
  intros s1 s2 s3 (h1 & m1 & ->) (h2 & m2 & ->). by exists h2, m2.
Qed.

Lemma absq_other A A' q : (∀ i, qtasks A' q i = qtasks A q i) → absq A' q = absq A q.
Proof. intros Hq. apply absq_from_ext. intros i _. by apply Hq. Qed.

Lemma idle_live A s q : queues_ok A s → live A q → pq_empty (qtasks A q) → idle_queue A q.
Proof.
  intros HQ Hl He p Hp. left. destruct (Hl p Hp) as [xs Hx]. rewrite Hx.
  destruct (qo_bucket _ _ HQ _ _ _ Hx) as (_ & _ & _ & ->). by rewrite He.
Qed.

(** The lists after the creation of an object with the task queue [q]. *)
Definition new_queue A q := add_queue (drop_queue A q) q.

Lemma new_queue_live A q q' : live (new_queue A q) q' ↔ q' = q ∨ live A q'.
Proof.
  unfold new_queue. rewrite live_add, live_drop. destruct (decide (q' = q)); tauto.
Qed.

Lemma new_queue_qtasks A s q q' i : queues_ok A s → idle_queue A q → qtasks (new_queue A q) q' i = qtasks A q' i.
Proof.
  intros HQ Hi. unfold new_queue. pose proof (λ j, idle_qtasks A s q j HQ Hi) as He.
  assert (∀ q' i, qtasks (drop_queue A q) q' i = qtasks A q' i) as Hd.
  { intros q2 j. rewrite qtasks_drop. case_decide as Hq; [subst; rewrite He; by case_decide | done]. }
  rewrite qtasks_add; [apply Hd |]. intros j. by rewrite Hd.
Qed.
End facts.
