(* ===== verification/TimerLife.v ===== *)
(** * A timer between the two steps of its creation

    [os_timer_create] initialises the timer with interrupts enabled and links it
    into the timer list in a critical section. Both steps keep the kernel
    invariant; in between the timer is [pending]: marked as armed, its link an
    empty list of its own. *)

From stdpp Require Import base decidable list countable gmap.
From Stdlib Require Import ZArith Lia Sorted.
From S2P Require Import Prelude Arch LinkedList Kernel TaskQueue Timer Sched Invariant QueueLife.

Local Open Scope Z_scope.

Section facts.
Context {AP : ArchPort} {APOK : ArchPortOk AP}.
Implicit Types (A : gmap laddr (list laddr)) (s : kstate) (x y : tmid).

(** Dropping or adding lists that have nothing to do with tasks. *)
Lemma queues_ok_heads A s A' s' : queues_ok A s → masks s' = masks s → tasks s' = tasks s → repr (links s') A' →
  (∀ a, is_Some (links s !! a) → is_Some (links s' !! a)) →
  (∀ q p, A' !! L_bucket q p = A !! L_bucket q p) → (∀ t, unlinked A (L_task t) → unlinked A' (L_task t)) →
  queues_ok A' s'.
Proof.
  intros [HR HB HM HK HT] Hm Ht HR' Hdom Hb Hu.
  assert (∀ q i, qtasks A' q i = qtasks A q i) as Hq by (intros; by apply qtasks_lookup).
  assert (∀ q, live A' q ↔ live A q) as Hl.
  { intros q. unfold live. split; intros Hl p Hp; specialize (Hl p Hp); by rewrite Hb in *. }
  split; [done | | | |].
  - intros q p xs. rewrite Hb, Hl, Hq, Hm. apply HB.
  - intros q p t. rewrite Hq, Ht. apply HM.
  - intros q m. rewrite Hl, Hm. intros H1 H2. destruct (HK q m H1 H2) as [? Hbt]. split; [done |].
    intros i. rewrite Hq. apply Hbt.
  - intros t tk. rewrite Ht. intros Htk. destruct (HT t tk Htk) as [Hs Hin]. split; [by apply Hdom |].
    destruct (task_queue tk); [by rewrite Hq | by apply Hu].
Qed.

(** The first step. *)
Lemma timer_init_kernel A s n cb pa timeout reload : kernel_ok A s → magic (timer_at s (TmUser n)) ≠ OS_TIMER_MAGIC1 →
  0 < timeout < OS_TIMER_TICKSREM_MAX → 0 ≤ reload ≤ OS_TICKS_MAX →
  let x := TmUser n in let A' := <[L_timer x := []]> A in
  ∃ s', os_timer_create_init x cb pa timeout reload s = Done tt s' ∧ kernel_ok A' s' ∧ pending A' s' x ∧
    tasks s' = tasks s ∧ same_objects s s' ∧ timer_tick_unsynch s' = timer_tick_unsynch s ∧
    timer_at s' x = Timer timeout reload cb pa OS_TIMER_MAGIC1 ∧ ∀ y, y ≠ x → timer_at s' y = timer_at s y.
Proof.
  intros HK Hm Hto Hrl x A'. pose proof HK as [HQ HT HP HG HA]. destruct (idle_timer _ _ _ HT Hm) as [_ Hu].
  eexists. split; [by apply timer_create_init_run |]. set (s' := set_timers _ _).
  assert (∀ y, timer_at s' y = if decide (y = x) then Timer timeout reload cb pa OS_TIMER_MAGIC1 else timer_at s y) as Hat
    by (intros y; by apply timer_at_insert).
  assert (armed A' = armed A) as Harm by (by apply armed_same, lookup_insert_ne).
  assert (repr (links s') A') as HR'.
  { set (v := ListT (Some (L_timer x)) (Some (L_timer x))).
    destruct (list_init_repr (<[L_timer x := v]> (links s)) A (L_timer x)) as (h & Hi & HR & _);
      [by apply repr_store; [apply HQ |] | rewrite lookup_insert_eq; eauto | intros ? ? _; apply Hu |].
    rewrite list_init_eq in Hi by (rewrite lookup_insert_eq; eauto). injection Hi as <-. cbn. fold v.
    by rewrite insert_insert_eq in HR. }
  assert (pending A' s' x) as Hpe.
  { unfold pending, rem. rewrite Hat, decide_True by done. split_and!; [apply lookup_insert_eq | eauto | done | cbn; lia..]. }
  split_and!; try done; [| by rewrite Hat, decide_True | intros y Hy; by rewrite Hat, decide_False].
  split.
  - apply (queues_ok_ext _ (set_links (links s') s)); [done.. |].
    apply queues_ok_other; [done | intros t; by rewrite list_elem_of_singleton | done | | done].
    intros t Ht. cbn. by rewrite lookup_insert_ne.
  - destruct HT as [H1 H2 H3 H4 H5 H6 H7]. assert (x ∉ armed A) as Hx by (intros Hin; by apply H3 in Hin as [_ ?]).
    split; rewrite ?Harm; try done.
    + unfold A'. by rewrite lookup_insert_ne.
    + apply (StronglySorted_ext (rem s)); [| done]. intros y Hy. unfold rem. rewrite Hat, decide_False; [done |]. by intros ->.
    + intros y Hy. unfold rem. rewrite Hat, decide_False by (by intros ->). by apply H3.
    + intros y Hy. destruct (decide (y = x)) as [-> | Hne]; [by right |].
      unfold pending, rem. rewrite Hat, decide_False by done. destruct (H4 y Hy) as [[? ?] | (Hh & ? & ?)]; [left | right].
      * split; [done |]. apply unlinked_insert_ne; [done |]. rewrite list_elem_of_singleton. congruence.
      * split; [| done]. unfold A'. by rewrite lookup_insert_ne by congruence.
    + intros y. rewrite Hat. case_decide; [done | apply H5].
  - done.
  - intros t tk y Ht Hy. destruct (HG t tk y Ht Hy) as [-> ?]. by rewrite Hat, decide_False.
  - apply unlinked_insert_ne; [done |]. by rewrite list_elem_of_singleton.
Qed.

(** The state before the first step, for a pending timer. *)
Definition unset (s : kstate) (x : tmid) : kstate :=
  set_timers (<[x := Timer 0 0 P_null Param_null OS_TIMER_MAGIC2]> (timers s)) s.

Lemma unset_kernel A s x : kernel_ok A s → pending A s x → kernel_ok (settled A x) (unset s x).
Proof.
  intros [HQ HT HP HG HA] (Hh & [n ->] & Hm & Hr). pose proof (qo_repr _ _ HQ) as HR.
  set (x := TmUser n) in *. assert (settled A x ⊆ A) as Hs by apply delete_subseteq.
  assert (x ∉ armed A) as Hx by (intros Hin; by rewrite (armed_no_head _ _ _ HR (to_list _ _ HT) Hin) in Hh).
  assert (∀ y, timer_at (unset s x) y = if decide (y = x) then Timer 0 0 P_null Param_null OS_TIMER_MAGIC2 else timer_at s y) as Hat
    by (intros y; by apply timer_at_insert).
  split.
  - eapply queues_ok_heads; [exact HQ | done | done | by eapply repr_subseteq | done | | intros t; by apply unlinked_subseteq].
    intros q p. unfold settled. by rewrite lookup_delete_ne.
  - pose proof (settled_unlinked A s x HR Hx HT) as Hux. pose proof HT as [H1 H2 H3 H4 H5 H6 H7].
    split; rewrite ?armed_settled; try done.
    + unfold settled. by rewrite lookup_delete_ne.
    + apply (StronglySorted_ext (rem s)); [| done]. intros y Hy. unfold rem. rewrite Hat, decide_False; [done |]. by intros ->.
    + intros y Hy. unfold rem. rewrite Hat, decide_False by (by intros ->). by apply H3.
    + intros y Hy. unfold pending, rem. rewrite Hat. case_decide as Hyx; [subst; left; by split |].
      destruct (H4 y Hy) as [[? ?] | (Hy2 & ? & ?)]; [left | right].
      * split; [done |]. by eapply unlinked_subseteq.
      * split; [| done]. unfold settled. by rewrite lookup_delete_ne by congruence.
    + intros y. rewrite Hat. case_decide; [cbn; pose proof ticks_max_val; lia | apply H5].
  - done.
  - intros t tk y Ht Hy. destruct (HG t tk y Ht Hy) as [-> ?]. by rewrite Hat, decide_False.
  - by eapply unlinked_subseteq.
Qed.

(** A list head with an empty list points to itself. *)
Lemma empty_head h A hd : repr h A → A !! hd = Some [] → h !! hd = Some (ListT (Some hd) (Some hd)).
Proof.
  intros HR HA. destruct (repr_chain _ _ HR _ _ HA) as [Hn Hp]. unfold nx, pv in *.
  destruct (h !! hd) as [[n p] |]; [| done]. cbn in *. by subst.
Qed.

(** The second step is what [os_timer_create] does from there. *)
Lemma timer_add_unset A s x fuel : kernel_ok A s → pending A s x →
  os_timer_create_add fuel x s = os_timer_create fuel x (clbck (timer_at s x)) (param (timer_at s x)) (rem s x)
    (ticks_reload (timer_at s x)) (unset s x).
Proof.
  intros HK (Hh & _ & Hm & Hr). pose proof (qo_repr _ _ (ko_queues _ _ HK)) as HR.
  unfold os_timer_create. symmetry. rewrite (bind_Done _ _ _ tt s); [done |].
  rewrite timer_create_init_run; [| done |].
  2:{ unfold unset. erewrite timer_at_insert by done. by rewrite decide_True. }
  f_equal. cbn. rewrite (insert_id (links s)) by (by eapply empty_head). rewrite insert_insert_eq.
  rewrite insert_id; [by destruct s |]. unfold timer_at, rem, timer_at in *.
  destruct (timers s !! x) as [tm |] eqn:E; cbn in *; [| done]. f_equal. destruct tm; cbn in *. by subst.
Qed.

Lemma timer_add_kernel A s x fuel : kernel_ok A s → pending A s x → (length (armed A) < fuel)%nat →
  ∃ A' s', os_timer_create_add fuel x s = Done tt s' ∧ kernel_ok A' s' ∧
    (∀ q p, A' !! L_bucket q p = A !! L_bucket q p) ∧ same_lists (settled A x) A' ∧
    tasks s' = tasks s ∧ same_objects s s' ∧
    (∀ y, y ∈ armed A' ↔ y = x ∨ y ∈ armed A) ∧ timer_tick_unsynch s' = timer_tick_unsynch s ∧
    timer_at s' x = set_ticks_rem (rem s x + timer_tick_unsynch s) (timer_at s x) ∧
    ∀ y, y ≠ x → timer_at s' y = timer_at s y.
Proof.
  intros HK Hpe Hf. pose proof (unset_kernel _ _ _ HK Hpe) as HK0. rewrite (timer_add_unset A) by done.
  pose proof Hpe as (_ & _ & Hm & Hr).
  assert (∀ y, timer_at (unset s x) y = if decide (y = x) then Timer 0 0 P_null Param_null OS_TIMER_MAGIC2 else timer_at s y) as Hat
    by (intros y; by apply timer_at_insert).
  destruct (timer_create_kernel (settled A x) (unset s x) fuel x (clbck (timer_at s x)) (param (timer_at s x)) (rem s x)
    (ticks_reload (timer_at s x)) HK0) as (A' & s' & Hrun & HK' & Hb & HL & Ht & Ho & Harm & Hu & Hx & Hoth);
    [by rewrite Hat, decide_True | done | apply (to_reload _ _ (ko_timers _ _ HK)) | by rewrite armed_settled |].
  exists A', s'. rewrite armed_settled in Harm. split_and!; try done.
  - intros q p. rewrite Hb. unfold settled. by rewrite lookup_delete_ne.
  - rewrite Hx. destruct (timer_at s x); cbn in *. by subst.
  - intros y Hy. by rewrite Hoth, Hat, decide_False.
Qed.
End facts.
