(* ===== verification/Decide.v ===== *)
(** * Deciding the kernel invariant on concrete states

    [kernel_ok_b] is a sound test of [kernel_ok]; with it the theorems are
    applied to states that the modelled code itself has built. *)

From stdpp Require Import base decidable list countable gmap sorting.
From Stdlib Require Import ZArith Lia.
From S2P Require Import Prelude Arch LinkedList Kernel TaskQueue Timer Sched Invariant QueueLife.

Local Open Scope Z_scope.

Section decide.
Context {AP : ArchPort} {APOK : ArchPortOk AP}.
Implicit Types (l : list (laddr * list laddr)) (s : kstate).

Definition is_timer (a : laddr) : bool := match a with L_timer _ => true | _ => false end.

Definition timers_ok_b l s : bool :=
  let A := list_to_map l in
  bool_decide (A !! L_timer_list = Some (L_timer <$> armed A)) &&
  bool_decide (StronglySorted (λ x y, rem s x ≤ rem s y) (armed A)) &&
  forallb (λ x, (timer_tick_unsynch s + 1 <=? rem s x) && (rem s x <=? OS_TICKS_MAX)
    && (magic (timer_at s x) =? OS_TIMER_MAGIC1)) (armed A) &&
  forallb (λ '(x, tm), bool_decide (x ∈ armed A) || (ticks_rem tm =? 0)) (map_to_list (timers s)) &&
  forallb (λ '(hd, xs), negb (is_timer hd) && (bool_decide (hd = L_timer_list) || forallb (λ a, negb (is_timer a)) xs)) l &&
  forallb (λ '(x, tm), (0 <=? ticks_reload tm) && (ticks_reload tm <=? OS_TICKS_MAX)) (map_to_list (timers s)) &&
  (0 <=? timer_tick_unsynch s) && (timer_tick_unsynch s <=? OS_TIMER_UNSYNCH_MAX) &&
  (negb (bool_decide (armed A = [])) || (timer_tick_unsynch s =? 0)).

Definition kernel_ok_b l s : bool :=
  queues_ok_b l s && timers_ok_b l s &&
  forallb (λ '(t, tk), (0 <=? prio_current tk) && (prio_current tk <? OS_CONFIG_PRIOCNT) &&
    match timer tk with
    | None => true
    | Some x => bool_decide (x = TmBlock t) && ((magic (timer_at s x) =? OS_TIMER_MAGIC1) || (magic (timer_at s x) =? OS_TIMER_MAGIC2))
    end) (map_to_list (tasks s)) &&
  bool_decide (L_autoreload ∉ concat ((λ '(hd, xs), hd :: xs) <$> l)).

Lemma timer_at_test s x (P : os_timer_t → Prop) : P timer_zero →
  (∀ tm, timers s !! x = Some tm → P tm) → P (timer_at s x).
Proof. unfold timer_at. intros H0 H. destruct (timers s !! x); cbn; auto. Qed.

Lemma timers_ok_b_ok l s : timers_ok_b l s = true → timers_ok (list_to_map l) s.
Proof.
  unfold timers_ok_b. rewrite !andb_true_iff, !bool_decide_eq_true.
  intros ((((((((H1 & H2) & H3) & H4) & H5) & H6) & H7) & H8) & H9). pose proof ticks_max_val.
  rewrite forallb_forall in H3, H5. split; try done.
  - intros x Hx%list_elem_of_In%H3. rewrite !andb_true_iff in Hx. lia.
  - intros x Hx. left. split.
    + unfold rem. apply timer_at_test; [done |]. intros tm Htm.
      apply (map_forallb _ _ _ _ H4) in Htm. rewrite bool_decide_false in Htm by done. cbn in Htm. lia.
    + intros hd xs HA Hin. pose proof (elem_of_list_to_map_2 _ _ _ HA) as Hl%list_elem_of_In%H5.
      apply andb_true_iff in Hl as [Hhd Hxs].
      apply elem_of_cons in Hin as [<- | Hin]; [done |].
      apply orb_true_iff in Hxs as [->%bool_decide_eq_true | Hxs].
      * rewrite H1 in HA. injection HA as <-. by apply elem_of_L_timer in Hin.
      * rewrite forallb_forall in Hxs. by apply list_elem_of_In, Hxs in Hin.
  - intros x. apply timer_at_test; [cbn; lia |]. intros tm Htm.
    apply (map_forallb _ _ _ _ H6) in Htm. cbn in Htm. lia.
  - lia.
  - intros He. rewrite He, bool_decide_true in H9 by done. cbn in H9. lia.
Qed.

Lemma kernel_ok_b_ok l s : kernel_ok_b l s = true → kernel_ok (list_to_map l) s.
Proof.
  unfold kernel_ok_b. rewrite !andb_true_iff. intros [[[HQ HT] HP] HA].
  split; [by apply queues_ok_b_ok | by apply timers_ok_b_ok | | | by apply unlinked_b].
  - intros t tk Ht. apply (map_forallb _ _ _ _ HP) in Ht. cbn in Ht. lia.
  - intros t tk x Ht Hx. apply (map_forallb _ _ _ _ HP) in Ht. cbn in Ht. rewrite Hx in Ht.
    apply andb_true_iff in Ht as [_ [?%bool_decide_eq_true ?]%andb_true_iff]. split; [done | lia].
Qed.

(** The lists of a state, read off its memory: the queues that were initialised,
    the timer list and the mutexes held by tasks. *)
Fixpoint walk (fuel : nat) (h : gmap laddr (list_t laddr)) (hd a : laddr) : list laddr :=
  match fuel with
  | O => []
  | S fuel => match nx h a with
              | Some b => if decide (b = hd) then [] else b :: walk fuel h hd b
              | None => []
              end
  end.
Definition heads s : list laddr :=
  L_timer_list :: (q ← (map_to_list (masks s)).*1; L_bucket q <$> seqZ 0 OS_CONFIG_PRIOCNT) ++
  (L_mtx_list <$> (map_to_list (tasks s)).*1).
Definition lists_of s : list (laddr * list laddr) :=
  (λ hd, (hd, walk 10 (links s) hd hd)) <$> filter (λ hd, nx (links s) hd ≠ None) (heads s).

(** The memory of [q] is on no list. *)
Definition idle_queue_b l (q : qid) : bool :=
  forallb (λ p, bool_decide (L_bucket q p ∉ concat ((λ '(hd, xs), hd :: xs) <$> l))) (seqZ 0 OS_CONFIG_PRIOCNT).

Lemma idle_queue_b_ok l q : idle_queue_b l q = true → idle_queue (list_to_map l) q.
Proof.
  unfold idle_queue_b. rewrite forallb_forall. intros Hb p Hp. right. apply unlinked_b, Hb, list_elem_of_In, elem_of_seqZ. lia.
Qed.
End decide.
