(* ===== verification/Sem.v ===== *)
(** * Semaphores and task termination (source/os_sem.c, os_task_join and
    os_task_exit of source/os_sched.c)

    A semaphore has a value and a queue of waiters; [sem_ok] says that it has
    waiters only at value 0 and a value within [arch_atomic_t]. The operations,
    the timeout callback and the two functions that join tasks by semaphores are
    defined here; the theorems are about semaphores, those about tasks are in
    Tasks.v and Join.v. *)

From stdpp Require Import base decidable list countable gmap.
From Stdlib Require Import ZArith Lia.
From S2P Require Import Prelude Arch LinkedList Kernel TaskQueue Timer Sched Invariant QueueLife Decide.

Local Open Scope Z_scope.

Section sem.
Context {AP : ArchPort}.

Definition os_sem_create (x : semid) (init_value : Z) : K unit :=
  OS_ASSERT (init_value <? ARCH_ATOMIC_MAX);;
  assert_not_prepared;;
  taskqueue_memset (Q_sem x);;
  put_sem x 0;;
  os_taskqueue_init (Q_sem x);;
  put_sem x init_value.

(** The wake-up loop of the three destroy functions; semaphores and wait queues
    also destroy the guard timer of the task ([timed]). *)
Fixpoint wake_destroyed (fuel : nat) (timed : bool) (q : qid) : K unit :=
  match fuel with
  | O => nofuel
  | S fuel =>
      task ← os_taskqueue_dequeue q;
      match task with
      | None => mret tt
      | Some t =>
          when timed (os_blocktimer_destroy t);;
          mod_task t (set_block_code OS_DESTROYED);;
          os_task_makeready t;;
          wake_destroyed fuel timed q
      end
  end.

Definition os_sem_destroy (fuel : nat) (x : semid) : K unit :=
  assert_not_isr;;
  assert_not_prepared;;
  cristate ← arch_critical_enter;
  wake_destroyed fuel true (Q_sem x);;
  taskqueue_memset (Q_sem x);;
  put_sem x 0;;
  os_schedule 1;;
  arch_critical_exit cristate.

(** [OS_ASSERT(list_is_empty(&task_current->mtx_list))] *)
Definition assert_no_mtx : K unit :=
  c ← current;
  empty ← read_links (list_is_empty (Some (L_mtx_list c)));
  OS_ASSERT empty.

(** [os_sem_down]; the local [timer] is that of the calling task, and [junk] what
    its memory holds. *)
Definition os_sem_down (fuel : nat) (x : semid) (timeout_ticks junk : Z) : K Z :=
  assert_not_isr;;
  assert_not_idle;;
  assert_not_prepared;;
  assert_no_mtx;;
  cristate ← arch_critical_enter;
  value ← get_sem x;
  ret ←
    (if value >? 0 then
       put_sem x (arch_atomic_wrap (value - 1));;
       mret OS_OK
     else if OS_TIMEOUT_TRY =? timeout_ticks then mret OS_WOULDBLOCK
     else
       when (negb (OS_TIMEOUT_INFINITE =? timeout_ticks))
         (c ← current;
          local_timer (TmBlock c) junk;;
          os_blocktimer_create fuel (TmBlock c) P_os_sem_timerclbck timeout_ticks);;
       os_task_block_switch (Q_sem x) OS_TASKBLOCK_SEM;;
       c ← current;
       os_blocktimer_destroy c;;
       task ← get_task c;
       mret (block_code task));
  arch_critical_exit cristate;;
  mret ret.

Definition os_sem_up_sync (x : semid) (sync : bool) : K unit :=
  nesting ← gets isr_nesting;
  OS_ASSERT ((nesting =? 0) || negb sync);;
  w ← gets waitqueue_current;
  OS_ASSERT ((nesting >? 0) || bool_decide (w = None));;
  cristate ← arch_critical_enter;
  value ← get_sem x;
  OS_ASSERT (value <? ARCH_ATOMIC_MAX - 1);;
  task ← os_taskqueue_dequeue (Q_sem x);
  match task with
  | None => put_sem x (arch_atomic_wrap (value + 1))
  | Some t =>
      os_blocktimer_destroy t;;
      mod_task t (set_block_code OS_OK);;
      os_task_makeready t;;
      when (negb sync) (os_schedule 1)
  end;;
  arch_critical_exit cristate.

(** [os_sem_up] of os_sem.h *)
Definition os_sem_up (x : semid) : K unit := os_sem_up_sync x false.

(** [os_sem_timerclbck], called from [timer_trigger] with the blocked task. *)
Definition os_sem_timerclbck (pa : timer_param_t) : K unit :=
  match pa with
  | Param_task t =>
      task ← get_task t;
      OS_SELFCHECK_ASSERT (bool_decide (state task = TASKSTATE_WAIT));;
      os_taskqueue_unlink t;;
      mod_task t (set_block_code OS_TIMEOUT);;
      os_task_makeready t
  | _ => undefined
  end.

(** *** Task termination *)

(** [os_task_join]; [join_sem] lives on the stack of the caller. *)
Definition os_task_join (fuel : nat) (t : tid) : K Z :=
  assert_not_isr;;
  assert_not_idle;;
  assert_not_prepared;;
  cristate ← arch_critical_enter;
  task ← get_task t;
  OS_ASSERT (bool_decide (join_sem task = None));;
  OS_ASSERT (negb (bool_decide (state task = TASKSTATE_INVALID)));;
  when (taskstate_val (state task) <? taskstate_val TASKSTATE_DESTROYED)
    (c ← current;
     os_sem_create (SemJoin c) 0;;
     mod_task t (set_join_sem (Some (SemJoin c)));;
     ret ← os_sem_down fuel (SemJoin c) OS_TIMEOUT_INFINITE 0;
     OS_ASSERT (OS_OK =? ret);;
     os_sem_destroy fuel (SemJoin c));;
  task ← get_task t;
  OS_SELFCHECK_ASSERT (bool_decide (state task = TASKSTATE_DESTROYED));;
  mod_task t (set_state TASKSTATE_INVALID);;
  mod_task t (set_join_sem None);;
  task ← get_task t;
  arch_critical_exit cristate;;
  mret (ret_value task).

(** [os_task_exit]: never returns; code after the switch is an assertion. *)
Definition os_task_exit (retv : Z) : K unit :=
  cristate ← arch_critical_enter;
  c ← current;
  mod_task c (set_ret_value retv);;
  mod_task c (set_state TASKSTATE_DESTROYED);;
  task ← get_task c;
  match join_sem task with
  | Some x => os_sem_up_sync x true
  | None => mret tt
  end;;
  new ← os_taskqueue_dequeue Q_ready;
  arch_context_switch new;;
  OS_ASSERT false.

End sem.

(** ** Steps of semaphore code *)

Section facts.
Context {AP : ArchPort} {APOK : ArchPortOk AP}.
Implicit Types (A : gmap laddr (list laddr)) (s : kstate) (q : qid) (t c : tid) (tk : os_task_t).

(** The wake-up loop of the destroy functions empties the queue. *)
Lemma wake_destroyed_spec fuel timed q A s :
  kernel_ok A s → live A q → live A Q_ready → q ≠ Q_ready →
  (∀ t tk, tasks s !! t = Some tk → task_queue tk = Some q → timed = false → timer tk = None) →
  (length (absq A q) < fuel)%nat →
  ∃ A' s', wake_destroyed fuel timed q s = Done tt s' ∧
    woken_seq OS_DESTROYED q (absq A q) A s A' s' ∧ pq_empty (qtasks A' q).
Proof.
  revert A s. induction fuel as [| fuel IH]; intros A s HK Hl Hlr Hq Htm Hf; [lia |]. cbn [wake_destroyed].
  destruct (wake_first_spec A s q timed OS_DESTROYED HK Hl Hlr Hq Htm) as
    [[He Hd] | (t & tk & s1 & A1 & s2 & Hd & Hw & Ht & Hqt & Htop & HK2 & Ht2 & HL2 & Ho2 & HG2 & Hwq)].
  - erewrite bind_Done by exact Hd. exists A, s.
    assert (absq A q = []) as -> by (by apply absq_from_empty). split_and!; [done | by apply woken_nil | done].
  - erewrite bind_Done by exact Hd. cbn beta iota. rewrite (wake_task_then _ _ _ _ _ _ Hw).
    pose proof (woken_cons OS_DESTROYED q t tk [] A s A1 s2 A1 s2 (ko_queues _ _ HK) Hq Ht Htop HK2 Ht2 HL2 Ho2 HG2 Hwq
      (woken_nil _ _ _ _ HK2)) as Habs. apply ws_queue in Habs. cbn [app] in Habs.
    destruct (IH A1 s2) as (A' & s' & Hrun & Hseq & He); try done; [by apply HL2 | by apply HL2 | | |].
    + intros t' tk'. rewrite Ht2, lookup_insert. case_decide; [intros [= <-]; cbn; congruence | apply Htm].
    + rewrite Habs in Hf. cbn in Hf. lia.
    + exists A', s'. split_and!; [done | | done]. rewrite Habs. by eapply (woken_cons _ _ _ _ _ A s A1 s2 _ _ (ko_queues _ _ HK)).
Qed.

Lemma sem_up_run A s x sync v :
  kernel_ok A s → live A (Q_sem x) → live A Q_ready → sems s !! x = Some v →
  0 ≤ v < ARCH_ATOMIC_MAX - 1 → isr_nesting s = 0 ∨ sync = false →
  0 < isr_nesting s ∨ waitqueue_current s = None →
  (pq_empty (qtasks A (Q_sem x)) ∧
    os_sem_up_sync x sync s = Done tt (set_sems (<[x := v + 1]> (sems s)) s)) ∨
  ∃ t tk A' s', tasks s !! t = Some tk ∧ task_queue tk = Some (Q_sem x) ∧
    pq_top (qtasks A (Q_sem x)) (prio_current tk) t ∧
    os_sem_up_sync x sync s = (when (negb sync) (os_schedule 1);; arch_critical_exit (dint s)) s' ∧
    kernel_ok A' s' ∧ tasks s' = <[t := woken OS_OK tk]> (tasks s) ∧ same_lists A A' ∧
    same_objects (set_dint true s) s' ∧ timers_kept (option_list (timer tk)) A s A' s' ∧
    wake_queues (qtasks A) (qtasks A') (Q_sem x) (prio_current tk) t.
Proof.
  intros HK Hl Hlr Hx Hv Hi Hw. unfold os_sem_up_sync.
  erewrite bind_Done by done. cbn beta.
  rewrite OS_ASSERT_true by (destruct Hi as [-> | ->]; [done | by rewrite orb_true_r]).
  erewrite bind_Done by done. cbn beta.
  rewrite OS_ASSERT_true.
  2:{ destruct Hw as [Hw | ->]; [by rewrite (proj2 (Z.gtb_lt _ 0)) by done | by rewrite orb_true_r]. }
  erewrite bind_Done by done. cbn beta.
  erewrite bind_Done by (by apply get_sem_Some). cbn beta.
  rewrite OS_ASSERT_true by (apply Z.ltb_lt; lia).
  destruct (wake_first_spec A (set_dint true s) (Q_sem x) true OS_OK) as
    [[He Hd] | (t & tk & s1 & A1 & s2 & Hd & Hwk & Ht & Hqt & Htop & HK2 & Ht2 & HL2 & Ho2 & HG2 & Hwq)];
    [by apply kernel_ok_dint | done | done | done | done | left | right].
  - split; [done |]. erewrite bind_Done by exact Hd. cbn beta iota.
    rewrite atomic_wrap_id by lia. by destruct s.
  - exists t, tk, A1, s2. split_and!; try done.
    + erewrite bind_Done by exact Hd. cbn beta iota.
      apply (bind_rewrite _ _ _ _ _ (wake_task_then _ _ _ _ _ _ Hwk)).
    + by eapply (timers_kept_l _ A s A (set_dint true s)).
Qed.

(** Semaphore [x] has the value [v] and the waiters [ws], in the order in which
    they will be served; tasks wait only for a semaphore of value 0. *)
Record sem_ok A s (x : semid) (v : Z) (ws : list (tid * Z)) : Prop := {
  sem_value : sems s !! x = Some v;
  sem_live : live A (Q_sem x);
  sem_waiters : absq A (Q_sem x) = ws;
  sem_range : 0 ≤ v < ARCH_ATOMIC_MAX;
  sem_excl : 0 < v → ws = []
}.

Lemma sem_ok_frame A s A' s' x v ws : sem_ok A s x v ws → sems s' !! x = sems s !! x →
  (live A (Q_sem x) → live A' (Q_sem x)) → (∀ i, qtasks A' (Q_sem x) i = qtasks A (Q_sem x) i) →
  sem_ok A' s' x v ws.
Proof.
  intros [Hv Hl Hw Hr He] Hs Hl' Hq. split; [by rewrite Hs | auto | | done..].
  rewrite <- Hw. by apply absq_other.
Qed.

Lemma absq_nil A s q : queues_ok A s → absq A q = [] ↔ pq_empty (qtasks A q).
Proof.
  intros HQ. split; [| apply absq_from_empty]. intros He i. rewrite (qtasks_absq A s) by done. by rewrite He.
Qed.

Lemma kernel_ok_sems A s f : kernel_ok A s → kernel_ok A (set_sems f s).
Proof. intros HK. by eapply kernel_ok_globals. Qed.

(** Creating a semaphore over memory that no list uses. *)
Lemma sem_create_run A s x v : kernel_ok A s → waitqueue_current s = None → idle_queue A (Q_sem x) →
  v < ARCH_ATOMIC_MAX → ∃ h mk s', os_sem_create x v s = Done tt s' ∧ kernel_ok (new_queue A (Q_sem x)) s' ∧
    s' = set_sems (<[x := v]> (sems s)) (set_masks mk (set_links h s)).
Proof.
  intros HK Hw Hi Hv. unfold os_sem_create.
  rewrite OS_ASSERT_true, not_prepared_ok by (done || by apply Z.ltb_lt).
  destruct (memset_spec A s (Q_sem x) HK Hi) as (s1 & Hm & HK1 & (h1 & mk1 & ->) & Hf & _).
  erewrite bind_Done by exact Hm. erewrite bind_Done by done. set (s2 := set_sems _ _).
  destruct (init_spec _ s2 (Q_sem x) (kernel_ok_sems _ _ _ HK1) Hf) as (s3 & Hin & HK3 & (h3 & mk3 & ->)).
  erewrite bind_Done by exact Hin. exists h3, mk3. eexists. split_and!; [done | by apply kernel_ok_sems |].
  cbn. by rewrite insert_insert_eq.
Qed.

Lemma wake_queues_absq A A' s q t tk : queues_ok A s → q ≠ Q_ready → pq_top (qtasks A q) (prio_current tk) t →
  wake_queues (qtasks A) (qtasks A') q (prio_current tk) t → absq A q = (t, prio_current tk) :: absq A' q.
Proof.
  intros HQ Hq Htop Hw. eapply absq_head; [done.. |]. intros i. rewrite Hw.
  rewrite (decide_False (P := q = Q_ready ∧ _)) by (by intros [? _]). rewrite app_nil_r.
  destruct (decide (i = prio_current tk)) as [-> |]; [by rewrite decide_True | by rewrite decide_False by (by intros [_ ?])].
Qed.

Lemma wake_queues_other Q Q' q p t : wake_queues Q Q' q p t → ∀ q' i, q' ≠ q → q' ≠ Q_ready → Q' q' i = Q q' i.
Proof.
  intros Hw q' i H1 H2. rewrite Hw, !decide_False by (by intros [? _]). apply app_nil_r.
Qed.

Lemma wake_queues_ready Q Q' q p t : wake_queues Q Q' q p t → q ≠ Q_ready →
  ∀ i, Q' Q_ready i = Q Q_ready i ++ (if decide (i = p) then [t] else []).
Proof.
  intros Hw Hq i. rewrite Hw, decide_False by (intros [? _]; by apply Hq). f_equal.
  destruct (decide (i = p)); [by rewrite decide_True | by rewrite decide_False by (by intros [_ ?])].
Qed.

(** What the kernel checks before [os_sem_down] and the other blocking calls. *)
Lemma no_mtx_ok {B} A s c (k : K B) : repr (links s) A → task_current s = Some c →
  A !! L_mtx_list c = Some [] → (assert_no_mtx;; k) s = k s.
Proof.
  intros HR Hc Hm. unfold assert_no_mtx.
  rewrite (bind_Done _ _ _ tt s); [done |].
  erewrite bind_Done by (by apply current_Some).
  erewrite bind_Done by (apply read_links_Some; by eapply list_is_empty_repr).
  by rewrite bool_decide_true.
Qed.

Lemma no_mtx_bad {B} A s c y ys (k : K B) : repr (links s) A → task_current s = Some c →
  A !! L_mtx_list c = Some (y :: ys) → (assert_no_mtx;; k) s = os_halt s.
Proof.
  intros HR Hc Hm. unfold assert_no_mtx, mbind, K_bind.
  unfold current, gets, mbind, K_bind, deref. cbn. rewrite Hc. cbn.
  unfold read_links. erewrite list_is_empty_repr by done. done.
Qed.
End facts.

(** ** Properties of the semaphores *)

Section properties.
Context {AP : ArchPort} {APOK : ArchPortOk AP}.
Implicit Types (A : gmap laddr (list laddr)) (s : kstate) (q : qid) (t c : tid) (tk : os_task_t).


(** Decrementing a semaphore without blocking. From a task that is neither
    the idle task nor prepared on a wait queue and holds no mutex, a positive
    value is decremented and OS_OK returned; at value 0 a timeout of
    OS_TIMEOUT_TRY returns OS_WOULDBLOCK. Nothing else changes: no task, no
    queue and no timer, and the interrupt state is restored. *)
Theorem os_sem_down_immediate A s c x timeout junk fuel v ws :
  kernel_ok A s → task_current s = Some c → c ≠ task_idle → A !! L_mtx_list c = Some [] →
  isr_nesting s = 0 → waitqueue_current s = None → sem_ok A s x v ws → 0 < v ∨ timeout = OS_TIMEOUT_TRY →
  ∃ s', os_sem_down fuel x timeout junk s = Done (if decide (0 < v) then OS_OK else OS_WOULDBLOCK) s' ∧
    s' = set_sems (<[x := if decide (0 < v) then v - 1 else v]> (sems s)) s ∧
    sem_ok A s' x (if decide (0 < v) then v - 1 else v) ws.
Proof.
  intros HK Hc Hid Hm Hn Hw HS Hv. pose proof HS as [Hx Hl Hws Hr He].
  unfold os_sem_down. rewrite not_isr_ok, not_idle_ok, not_prepared_ok by (congruence || done).
  rewrite (no_mtx_ok A s c) by (done || apply HK).
  erewrite bind_Done by done. erewrite bind_Done by (by apply get_sem_Some).
  rewrite Z.gtb_ltb. destruct (decide (0 < v)) as [H0 | H0].
  - rewrite (proj2 (Z.ltb_lt _ _)) by done. eexists. split_and!; [| reflexivity |].
    + rewrite atomic_wrap_id by lia. by destruct s.
    + split; [apply lookup_insert_eq | done | done | lia | auto].
  - assert (v = 0) as -> by lia. destruct Hv as [? | ->]; [lia |].
    eexists. split_and!; [| reflexivity |].
    + cbn. destruct s; cbn in *. by rewrite insert_id.
    + split; [apply lookup_insert_eq | done | done | lia | auto].
Qed.


(** The guards of [os_sem_down]. Called from an interrupt, from the idle task,
    from a task prepared on a wait queue or from a task that holds a mutex, it
    halts the system before it has changed anything. *)
Theorem os_sem_down_halts A s c x timeout junk fuel :
  repr (links s) A → task_current s = Some c →
  (isr_nesting s ≠ 0 ∨ c = task_idle ∨ waitqueue_current s ≠ None ∨
    ∃ y ys, A !! L_mtx_list c = Some (y :: ys)) →
  is_Some (A !! L_mtx_list c) →
  os_sem_down fuel x timeout junk s = os_halt s.
Proof.
  intros HR Hc Hbad [ms Hms]. unfold os_sem_down.
  destruct (decide (isr_nesting s = 0)) as [Hn |]; [| by apply not_isr_bad].
  rewrite not_isr_ok by done.
  destruct (decide (c = task_idle)) as [-> | Hi]; [by apply not_idle_bad |].
  rewrite not_idle_ok by congruence.
  destruct (decide (waitqueue_current s = None)) as [Hw |]; [| by apply not_prepared_bad].
  rewrite not_prepared_ok by done.
  destruct Hbad as [? | [? | [? | (y & ys & Hy)]]]; [done.. |].
  by apply (no_mtx_bad A s c y ys).
Qed.

(** Creating a semaphore over memory that is on no list, or over a semaphore
    nobody waits for, yields a semaphore of the given value without waiters and
    leaves every other semaphore and every task as it was; an initial value
    beyond the range of the atomic type halts the system. *)
Theorem os_sem_create_ok A s x v :
  kernel_ok A s → waitqueue_current s = None → idle_queue A (Q_sem x) → 0 ≤ v →
  if decide (v < ARCH_ATOMIC_MAX) then
    ∃ A' s', os_sem_create x v s = Done tt s' ∧ kernel_ok A' s' ∧ sem_ok A' s' x v [] ∧
      (∀ y vy wsy, y ≠ x → sem_ok A s y vy wsy → sem_ok A' s' y vy wsy) ∧
      (∀ i, qtasks A' Q_ready i = qtasks A Q_ready i) ∧ tasks s' = tasks s
  else os_sem_create x v s = os_halt s.
Proof.
  intros HK Hw Hi H0. pose proof (ko_queues _ _ HK) as HQ.
  case_decide as Hv; [| unfold os_sem_create; rewrite OS_ASSERT_false; [done | by apply Z.ltb_ge; lia]].
  destruct (sem_create_run A s x v HK Hw Hi Hv) as (h & mk & s' & Hrun & HK' & ->).
  assert (∀ q i, qtasks (new_queue A (Q_sem x)) q i = qtasks A q i) as Hq by (intros; by eapply new_queue_qtasks).
  exists (new_queue A (Q_sem x)). eexists. split_and!; [exact Hrun | done | | | by intros | done].
  - split; [cbn; apply lookup_insert_eq | by apply new_queue_live; left | | lia | done].
    apply absq_from_empty. intros i. rewrite Hq. by eapply idle_qtasks.
  - intros y vy wsy Hne Hy. eapply sem_ok_frame; [done | cbn | by intros; apply new_queue_live; right | by intros].
    by rewrite lookup_insert_ne.
Qed.

(** C33: Destroying a semaphore. All its waiters, whatever their number, leave it
    with OS_DESTROYED in service order: each goes, with its guard timer
    disarmed, to the tail of its priority in the ready queue. No other task
    changes, the other semaphores keep value and waiters, and the whole object
    - value, mask and every list head of its task queue - is zeroed memory on no
    list; then the scheduler is called. *)
Theorem os_sem_destroy_wakes_all A s x v ws fuel :
  kernel_ok A s → live A Q_ready → isr_nesting s = 0 → waitqueue_current s = None →
  sem_ok A s x v ws → (length ws < fuel)%nat →
  ∃ A' s', os_sem_destroy fuel x s = (os_schedule 1;; arch_critical_exit (dint s)) s' ∧
    kernel_ok A' s' ∧ ¬ live A' (Q_sem x) ∧ sems s' !! x = Some 0 ∧
    zeroed_queue s' (Q_sem x) ∧ (∀ p, 0 ≤ p < OS_CONFIG_PRIOCNT → unlinked A' (L_bucket (Q_sem x) p)) ∧
    (∀ y vy wsy, y ≠ x → sem_ok A s y vy wsy → sem_ok A' s' y vy wsy) ∧
    (∀ t, tasks s' !! t = if decide (t ∈ ws.*1) then woken OS_DESTROYED <$> tasks s !! t else tasks s !! t) ∧
    (∀ y, y ∈ armed A' → y ∈ armed A ∧ ∀ t tk, t ∈ ws.*1 → tasks s !! t = Some tk → timer tk ≠ Some y) ∧
    ∀ i, qtasks A' Q_ready i = qtasks A Q_ready i ++ (filter (λ w, w.2 = i) ws).*1.
Proof.
  intros HK Hlr Hn Hw [Hx Hl Hws Hr He] Hf. unfold os_sem_destroy.
  rewrite not_isr_ok, not_prepared_ok by done. erewrite bind_Done by done. cbn beta.
  set (s0 := set_dint true s).
  destruct (wake_destroyed_spec fuel true (Q_sem x) A s0 (kernel_ok_dint _ _ _ HK) Hl Hlr)
    as (A1 & s1 & Hrun & Hseq & Hemp); [done | done | by rewrite Hws |].
  rewrite Hws in Hseq. pose proof (woken_disarmed _ _ _ _ _ _ _ Hseq) as Harm. destruct Hseq as [HK1 HL1 Ho1 _ Ht1 Hq1 _].
  pose proof (ko_queues _ _ HK1) as HQ1. assert (live A1 (Q_sem x)) as Hl1 by (by apply HL1).
  erewrite bind_Done by exact Hrun.
  destruct (memset_spec A1 s1 (Q_sem x) HK1) as (s2 & Hm & HK2 & Hs2 & Hf2 & Hz); [by eapply idle_live |].
  erewrite bind_Done by exact Hm. erewrite bind_Done by done.
  assert (sems s2 = sems s) as Hse.
  { destruct Ho1 as (Hse1 & _). by destruct Hs2 as (? & ? & ->). }
  exists (drop_queue A1 (Q_sem x)). eexists. split_and!; [reflexivity | by apply kernel_ok_sems | | | exact Hz | | | | |].
  - rewrite live_drop. tauto.
  - cbn. apply lookup_insert_eq.
  - intros p Hp. by apply Hf2.
  - intros y vy wsy Hne Hy. eapply sem_ok_frame; [done | cbn | |].
    + by rewrite lookup_insert_ne, Hse by done.
    + intros Hly. apply live_drop. split; [congruence | by apply HL1].
    + intros i. rewrite qtasks_drop, decide_False by congruence. rewrite Hq1 by congruence.
      rewrite decide_False by done. apply app_nil_r.
  - intros t. cbn. rewrite (lists_step_tasks _ _ Hs2). apply Ht1.
  - rewrite drop_armed. exact Harm.
  - intros i. rewrite qtasks_drop, decide_False by done. by rewrite Hq1.
Qed.
End properties.

(** *** The properties at a concrete state *)

Section demo.
#[local] Existing Instance avr_port.
#[local] Existing Instance avr_port_ok.

(** Semaphore 5 has the value 0 and two waiters: task 2 (priority 3) with a guard
    timer of 3 ticks, and before it task 3 (priority 2) without. Semaphore 6 has
    the value 1. Task 1 (priority 2) runs, the idle task is ready. *)
Definition demo_sems_setup : K unit :=
  os_init;;
  os_task_init 1 2;; os_task_init 2 3;; os_task_init 3 2;;
  os_sem_create (SemUser 5) 0;; os_sem_create (SemUser 6) 1;;
  modify (set_task_current (Some 3%nat));;
  os_task_makewait (Q_sem (SemUser 5)) OS_TASKBLOCK_SEM;;
  modify (set_task_current (Some 2%nat));;
  os_blocktimer_create 3 (TmBlock 2) P_os_sem_timerclbck 3;;
  os_task_makewait (Q_sem (SemUser 5)) OS_TASKBLOCK_SEM;;
  os_task_makeready task_idle;;
  mod_task 1%nat (set_state TASKSTATE_RUNNING);;
  modify (set_task_current (Some 1%nat));;
  modify (set_sched_lock 0);;
  arch_eint.
Definition demo_sems : kstate := run_state demo_sems_setup kstate_reset.
Definition demo_sems_lists : gmap laddr (list laddr) := list_to_map (lists_of demo_sems).

#[local] Opaque demo_sems demo_sems_lists.

Lemma demo_sems_ok : kernel_ok demo_sems_lists demo_sems.
Proof. apply (kernel_ok_b_ok (lists_of demo_sems)). by vm_compute. Qed.

Lemma demo_sems_live q : q ∈ [Q_ready; Q_sem (SemUser 5); Q_sem (SemUser 6)] → live demo_sems_lists q.
Proof.
  intros Hq. apply (live_b_ok (lists_of demo_sems)). repeat (apply elem_of_cons in Hq as [-> | Hq]; [by vm_compute |]).
  by apply elem_of_nil in Hq.
Qed.

Definition demo_waiters : list (tid * Z) := [(2%nat, 3); (3%nat, 2)].
Lemma demo_sem5 : sem_ok demo_sems_lists demo_sems (SemUser 5) 0 demo_waiters.
Proof.
  split; [by vm_compute | apply demo_sems_live; set_solver | by vm_compute | by vm_compute | done].
Qed.
Lemma demo_sem6 : sem_ok demo_sems_lists demo_sems (SemUser 6) 1 [].
Proof.
  split; [by vm_compute | apply demo_sems_live; set_solver | by vm_compute | by vm_compute | done].
Qed.

Lemma demo_sems_running : sched_ok demo_sems_lists demo_sems 1 (set_state TASKSTATE_RUNNING (demo_task 2)).
Proof.
  apply sched_ok_kernel; [apply demo_sems_ok | apply demo_sems_live; set_solver | by vm_compute..].
Qed.


Lemma os_sem_down_immediate_witness : ∃ s', os_sem_down 3 (SemUser 6) 7 0 demo_sems = Done OS_OK s' ∧
  sem_ok demo_sems_lists s' (SemUser 6) 0 [].
Proof.
  destruct (os_sem_down_immediate demo_sems_lists demo_sems 1 (SemUser 6) 7 0 3 1 []) as (s' & Hrun & _ & HS);
    [apply demo_sems_ok | by vm_compute | done | by vm_compute | by vm_compute | by vm_compute | apply demo_sem6 | by left |].
  exists s'. by split.
Defined.


Lemma os_sem_down_halts_witness :
  os_sem_down 5 (SemUser 6) 2 0 (set_waitqueue_current (Some 9%nat) demo_sems) =
  os_halt (set_waitqueue_current (Some 9%nat) demo_sems).
Proof.
  apply (os_sem_down_halts demo_sems_lists (set_waitqueue_current (Some 9%nat) demo_sems) 1).
  - apply demo_sems_ok.
  - by vm_compute.
  - by right; right; left.
  - apply (bool_decide_unpack _). by vm_compute.
Defined.

Lemma os_sem_create_ok_witness : ∃ A' s', os_sem_create (SemUser 7) 4 demo_sems = Done tt s' ∧
  sem_ok A' s' (SemUser 7) 4 [].
Proof.
  destruct (os_sem_create_ok demo_sems_lists demo_sems (SemUser 7) 4 demo_sems_ok) as (A' & s' & Hrun & _ & HS & _);
    [by vm_compute | apply (idle_queue_b_ok (lists_of demo_sems)); by vm_compute | done |].
  exists A', s'. split; [exact Hrun | exact HS].
Defined.

Lemma os_sem_destroy_wakes_all_witness : ∃ A' s',
  os_sem_destroy 5 (SemUser 5) demo_sems = (os_schedule 1;; arch_critical_exit false) s' ∧
  ¬ live A' (Q_sem (SemUser 5)) ∧ qtasks A' Q_ready 3 = [2%nat] ∧ qtasks A' Q_ready 2 = [3%nat].
Proof.
  destruct (os_sem_destroy_wakes_all demo_sems_lists demo_sems (SemUser 5) 0 demo_waiters 5 demo_sems_ok
    (demo_sems_live Q_ready ltac:(set_solver))) as (A' & s' & Hrun & _ & Hl & _ & _ & _ & _ & _ & _ & Hq);
    [by vm_compute | by vm_compute | apply demo_sem5 | cbn; lia |].
  assert (dint demo_sems = false) as Hd by (vm_compute; reflexivity). rewrite Hd in Hrun.
  exists A', s'. split_and!; [exact Hrun | exact Hl | rewrite Hq; vm_compute; reflexivity..].
Defined.
End demo.
