(* ===== verification/Tasks.v ===== *)
(** * The life of a task (os_task_init, os_task_create, os_task_exit, os_init of source/os_sched.c)

    Creation puts a fresh TCB into the ready queue, termination drops the running
    one from all queues after signalling the semaphore of the task that joins it.
    The operations are defined in Sched.v and Sem.v; here they are related to the
    kernel invariant, which [os_init] establishes. *)

From stdpp Require Import base decidable list countable gmap.
From Stdlib Require Import ZArith Lia.
From S2P Require Import Prelude Arch LinkedList Kernel TaskQueue Timer Sched Invariant QueueLife Decide Sem.

Local Open Scope Z_scope.

(** Memory of a TCB that is in no list, its own list of mutexes being empty. *)
Definition fresh_task (A : gmap laddr (list laddr)) (t : tid) : Prop :=
  unlinked A (L_task t) ∧ (A !! L_mtx_list t = Some [] ∨ unlinked A (L_mtx_list t)).
Definition new_task (prio : Z) : os_task_t :=
  Task prio prio TASKSTATE_READY None OS_TASKBLOCK_INVALID None None 0 0 0.
(** The TCB that [os_task_create] puts into the ready queue. *)
Definition created_task {AP : ArchPort} (prio stack size : Z) : os_task_t :=
  set_stack (if OS_STACK_DESCENDING then stack else stack + size - 1) size (new_task prio).
Definition dead_task (retv : Z) (tk : os_task_t) : os_task_t :=
  set_state TASKSTATE_DESTROYED (set_ret_value retv tk).

(** What [os_init] leaves: the idle task runs, its TCB is the only one, nothing is
    ready or armed, the scheduler is locked and interrupts are masked. *)
Definition booted (AP : ArchPort) : Prop :=
  ∃ A s, os_init kstate_reset = Done tt s ∧ kernel_ok A s ∧ live A Q_ready ∧ pq_empty (qtasks A Q_ready) ∧
    task_current s = Some task_idle ∧ tasks s = {[task_idle := set_state TASKSTATE_RUNNING (new_task 0)]} ∧
    armed A = [] ∧ sched_lock s = 1 ∧ dint s = true ∧ isr_nesting s = 0 ∧ waitqueue_current s = None.

Section facts.
Context {AP : ArchPort} {APOK : ArchPortOk AP}.
Implicit Types (A : gmap laddr (list laddr)) (s : kstate) (q : qid) (t c : tid) (tk : os_task_t).

Lemma mtx_list_unlinked A s t : repr (links s) A → A !! L_mtx_list t = Some [] ∨ unlinked A (L_mtx_list t) →
  unlinked (delete (L_mtx_list t) A) (L_mtx_list t).
Proof.
  intros HR Hm hd xs Hx Hin. apply lookup_delete_Some in Hx as [Hne Hx].
  destruct Hm as [Hm | Hu]; [| by eapply Hu].
  apply Hne. symmetry. by eapply (repr_disj _ _ HR _ _ _ _ _ Hx Hm Hin), list_elem_of_here.
Qed.

(** A TCB in no queue is initialised; its list of mutexes becomes empty. *)
Lemma queues_ok_task_init A s t prio h : queues_ok A s → unlinked A (L_task t) →
  let A' := <[L_mtx_list t := []]> A in
  repr h A' → (∀ a, is_Some (links s !! a) → is_Some (h !! a)) → is_Some (h !! L_task t) →
  (∀ x, unlinked A x → x ≠ L_mtx_list t → unlinked A' x) →
  queues_ok A' (set_tasks (<[t := new_task prio]> (tasks s)) (set_links h s)).
Proof.
  intros HQ Hut A' HR Hd Hdt Hu'.
  assert (∀ q i, qtasks A' q i = qtasks A q i) as Hq by (intros; by apply qtasks_lookup, lookup_insert_ne).
  split; cbn; [done | | | |].
  - intros q p xs. unfold A'. rewrite lookup_insert_ne by done. intros Hx.
    destruct (qo_bucket _ _ HQ _ _ _ Hx) as (? & Hl & ? & ->). split_and!; try done; try lia; [by apply live_insert |].
    f_equal. symmetry. apply Hq.
  - intros q p t'. rewrite Hq. intros Hin. destruct (qo_member _ _ HQ _ _ _ Hin) as (tk & Ht & ? & ?).
    exists tk. split; [| done]. rewrite lookup_insert_ne; [done |]. intros <-.
    destruct (qtasks_live _ _ HQ _ _ _ Hin) as (_ & _ & Hb).
    apply (Hut _ _ Hb). apply list_elem_of_further. by apply list_elem_of_fmap_2.
  - intros q m Hm' Hl. destruct (qo_mask _ _ HQ q m Hm') as [? Hb].
    { intros p Hp'. specialize (Hl p Hp'). unfold A' in Hl. by rewrite lookup_insert_ne in Hl by done. }
    split; [done |]. intros i Hi. rewrite Hq. by apply Hb.
  - intros t' tk. rewrite lookup_insert. case_decide as Ht'.
    + subst t'. intros [= <-]. split; [done | by apply Hu'].
    + intros Ht. destruct (qo_task _ _ HQ t' tk Ht) as [? Hb]. split; [by apply Hd |].
      destruct (task_queue tk); [by rewrite Hq | by apply Hu'].
Qed.

(** [os_task_init] on a fresh TCB. *)
Lemma task_init_spec A s t prio :
  kernel_ok A s → fresh_task A t → 0 ≤ prio < OS_CONFIG_PRIOCNT →
  let A' := <[L_mtx_list t := []]> A in
  ∃ s', os_task_init t prio s = Done tt s' ∧ kernel_ok A' s' ∧
    tasks s' = <[t := new_task prio]> (tasks s) ∧ same_objects s s' ∧ timers s' = timers s ∧
    timer_tick_unsynch s' = timer_tick_unsynch s ∧ stacks s' = stacks s.
Proof.
  intros HK [Hut Hm] Hp A'. pose proof HK as [HQ HT HP HG HA]. pose proof (qo_repr _ _ HQ) as HR.
  pose proof (mtx_list_unlinked A s t HR Hm) as Hum.
  set (B := delete (L_mtx_list t) A) in *.
  assert (B ⊆ A) as HB by apply delete_subseteq.
  pose proof (unlinked_subseteq A B (L_task t) HB Hut) as Hut'.
  set (h1 := foldr (λ x h, <[x := ListT None None]> h) (links s) [L_task t; L_mtx_list t]).
  assert (repr h1 B) as HR1.
  { apply repr_null; [by eapply repr_subseteq |]. intros x Hx. repeat apply elem_of_cons in Hx as [-> | Hx]; try done.
    by apply elem_of_nil in Hx. }
  assert (∀ a, is_Some (links s !! a) → is_Some (h1 !! a)) as Hd1.
  { intros a Ha. unfold h1. rewrite lookup_null. by case_decide. }
  assert (is_Some (h1 !! L_task t) ∧ is_Some (h1 !! L_mtx_list t)) as [Hs1 Hs2].
  { unfold h1. rewrite !lookup_null. split; rewrite decide_True; [done | apply list_elem_of_here | done |].
    apply list_elem_of_further, list_elem_of_here. }
  set (h2 := <[L_task t := ListT (Some (L_task t)) (Some (L_task t))]> h1).
  destruct (list_init_repr h2 B (L_mtx_list t)) as (h3 & Hi3 & HR3 & Hd3);
    [by apply repr_store | unfold h2; by rewrite lookup_insert_ne | intros hd2 xs2 _; apply Hum |].
  replace (<[L_mtx_list t := []]> B) with A' in HR3 by (unfold A', B; by rewrite insert_delete_eq).
  set (s1 := set_tasks (<[t := task_zero]> (tasks s)) s). set (s2 := set_links h1 s1).
  assert (∀ a, is_Some (links s !! a) → is_Some (h3 !! a)) as Hd.
  { intros a Ha. apply Hd3. unfold h2. rewrite lookup_insert. case_decide; [done | by apply Hd1]. }
  assert (∀ x, unlinked A x → x ≠ L_mtx_list t → unlinked A' x) as Hu'.
  { intros x Hx Hne. apply unlinked_insert_ne; [done |]. by rewrite list_elem_of_singleton. }
  exists (set_tasks (<[t := new_task prio]> (tasks s)) (set_links h3 s)). split_and!; try done.
  - unfold os_task_init. erewrite bind_Done by done. fold s1. erewrite bind_Done by done.
    change (set_links _ s1) with s2.
    erewrite bind_Done by (unfold on_links; rewrite list_init_eq by done; reflexivity).
    erewrite bind_Done by (apply mod_task_Some; cbn; apply lookup_insert_eq).
    unfold on_links. match goal with |- context [links (set_tasks ?T ?x)] => change (links (set_tasks T x)) with h2 end.
    rewrite Hi3. cbn. by rewrite !insert_insert_eq.
  - split; [| | | | by apply Hu'].
    + apply queues_ok_task_init; try done. apply Hd3. unfold h2. by rewrite lookup_insert_eq.
    + eapply (timers_ok_lists A A' s); [done | by apply lookup_insert_ne | intros x ?; by apply Hu' | intros x; by apply lookup_insert_ne | done..].
    + intros t' tk. cbn. rewrite lookup_insert. case_decide; [by intros [= <-] | apply HP].
    + intros t' tk x. cbn. rewrite lookup_insert. case_decide; [by intros [= <-] | apply HG].
Qed.

(** The lists after the creation of task [t] with priority [prio]. *)
Definition new_lists A t (prio : Z) : gmap laddr (list laddr) :=
  set_bucket (<[L_mtx_list t := []]> A) Q_ready prio (qtasks A Q_ready prio ++ [t]).

Lemma new_lists_qtasks A t prio q i :
  qtasks (new_lists A t prio) q i = qtasks A q i ++ (if decide (q = Q_ready ∧ i = prio) then [t] else []).
Proof.
  assert (∀ q i, qtasks (<[L_mtx_list t := []]> A) q i = qtasks A q i) as Hq1 by (intros; by apply qtasks_lookup, lookup_insert_ne).
  unfold new_lists. rewrite qtasks_set_bucket.
  destruct (decide (q = Q_ready ∧ i = prio)) as [[-> ->] |]; [done | by rewrite Hq1, app_nil_r].
Qed.

Lemma kernel_ok_stacks A s m : kernel_ok A s → kernel_ok A (set_stacks m s).
Proof. intros HK. by eapply kernel_ok_globals. Qed.

(** [os_task_create] before its critical section. *)
Lemma task_create_init_run A s t prio stack size proc param ati :
  kernel_ok A s → isr_nesting s = 0 → waitqueue_current s = None → fresh_task A t →
  0 < prio < OS_CONFIG_PRIOCNT → stack ≠ 0 → OS_STACK_MINSIZE ≤ size →
  ∃ s', os_task_create_init ati t prio stack size proc param s = ati t stack size proc param s' ∧
    kernel_ok (<[L_mtx_list t := []]> A) s' ∧ tasks s' = <[t := created_task prio stack size]> (tasks s) ∧
    same_objects s s' ∧ timers s' = timers s ∧ timer_tick_unsynch s' = timer_tick_unsynch s ∧
    stacks s' = memset stack OS_STACK_FILLPATERN (Z.to_nat size) (stacks s).
Proof.
  intros HK Hn Hw Hf Hp Hst Hsz. unfold os_task_create_init. rewrite not_isr_ok, not_prepared_ok by done.
  rewrite OS_ASSERT_true by (apply Z.ltb_lt; lia). rewrite OS_ASSERT_true by (apply Z.gtb_lt; lia).
  rewrite OS_ASSERT_true by (by apply negb_true_iff, Z.eqb_neq). rewrite OS_ASSERT_true by (by apply Z.geb_le).
  destruct (task_init_spec A s t prio HK Hf) as (s1 & Hi & HK1 & Ht1 & Ho1 & Htm1 & Hu1 & Hs1); [lia |].
  erewrite bind_Done by exact Hi.
  set (s2 := set_stacks (memset stack OS_STACK_FILLPATERN (Z.to_nat size) (stacks s1)) s1).
  assert (tasks s2 !! t = Some (new_task prio)) as Ht2 by (cbn; rewrite Ht1; apply lookup_insert_eq).
  erewrite bind_Done by (unfold os_task_check_init; erewrite bind_Done by done; by apply (mod_task_Some t _ (new_task prio) s2)).
  eexists; split; [reflexivity |]. split_and!; [| | done..|].
  - eapply kernel_ok_mod_task; [by apply kernel_ok_stacks | exact Ht2 | done | done | by left].
  - cbn. rewrite Ht1. apply insert_insert_eq.
  - cbn. by rewrite Hs1.
Qed.

(** The critical section of [os_task_create]. *)
Lemma task_create_enqueue_run A s t tk :
  kernel_ok A s → live A Q_ready → tasks s !! t = Some tk → task_queue tk = None →
  let A' := set_bucket A Q_ready (prio_current tk) (qtasks A Q_ready (prio_current tk) ++ [t]) in
  ∃ s', os_task_create_enqueue t s = (os_schedule 1;; arch_critical_exit (dint s)) s' ∧
    kernel_ok A' s' ∧ tasks s' = <[t := set_task_queue (Some Q_ready) tk]> (tasks s) ∧
    same_objects (set_dint true s) s' ∧ timers s' = timers s ∧ timer_tick_unsynch s' = timer_tick_unsynch s ∧
    stacks s' = stacks s.
Proof.
  intros HK Hl Ht Hq A'. unfold os_task_create_enqueue. erewrite bind_Done by done. cbn beta.
  destruct (enqueue_spec A (set_dint true s) Q_ready t tk) as (s2 & He & Hst & HQ2);
    [by apply kernel_ok_dint | done | done | done | by apply (ko_prio _ _ HK t) |].
  erewrite bind_Done by exact He.
  exists s2. split_and!; [done | | | by eapply queues_step_objects | by destruct Hst as (h & mk & -> & _)..].
  - eapply kernel_ok_bucket; [by apply (kernel_ok_dint _ _ true HK) | exact Hst | done |].
    intros t' tk'. cbn. rewrite lookup_insert. case_decide; [| eauto]. intros [= <-]. subst t'. by exists tk.
  - apply (queues_step_tasks _ _ _ Hst).
Qed.

(** The running task loses the CPU for good. *)
Lemma exit_switch A s c tk :
  kernel_ok A s → task_current s = Some c → tasks s !! c = Some tk → task_queue tk = None → live A Q_ready →
  ¬ pq_empty (qtasks A Q_ready) →
  ∃ new tkn A' s' k, (new ← os_taskqueue_dequeue Q_ready; arch_context_switch new;; OS_ASSERT false) s
      = Switch c (set_task_current (Some new) s') k ∧
    (∀ s2, k s2 = os_halt s2) ∧ kernel_ok A' s' ∧
    tasks s !! new = Some tkn ∧ new ≠ c ∧ pq_top (qtasks A Q_ready) (prio_current tkn) new ∧
    tasks s' = <[new := set_task_queue None tkn]> (tasks s) ∧
    (∀ q i, qtasks A' q i = if decide (q = Q_ready ∧ i = prio_current tkn) then tail (qtasks A q i) else qtasks A q i) ∧
    (∀ q i, c ∉ qtasks A' q i) ∧ task_queue tkn = Some Q_ready ∧ same_lists A A' ∧ same_objects s s' ∧
    timers_kept [] A s A' s'.
Proof.
  intros HK Hc Ht Hq Hl Hne.
  destruct (dequeue_kernel A s Q_ready HK Hl) as
    [[He _] | (s' & new & tkn & ts & Hd & Htn & Hqn & Htop & Hts & Hst & HK')]; [done |].
  assert (new ≠ c) as Hnc by congruence.
  pose proof (queues_step_tasks _ _ _ Hst) as Ht'.
  eexists new, tkn, _, s', _. split_and!; try done.
  - erewrite bind_Done by exact Hd. apply context_switch_eq. by destruct Hst as (h & mk & -> & _).
  - intros q i. rewrite qtasks_set_bucket. destruct (decide (q = Q_ready ∧ i = prio_current tkn)) as [[-> ->] |]; [| done].
    by rewrite Hts.
  - intros q i Hin. destruct (qo_member _ _ (ko_queues _ _ HK') _ _ _ Hin) as (tk' & Htk' & Hq' & _).
    rewrite Ht', lookup_insert_ne in Htk' by done. congruence.
  - apply same_lists_bucket; [done | by apply (ko_prio _ _ HK new)].
  - by eapply queues_step_objects.
  - apply timers_kept_same; [by apply set_bucket_other | by destruct Hst as (h & mk & -> & _)].
Qed.

(** Signalling the task that joins [c], before the CPU is given away. *)
Definition joined (joiner : option (semid * (tid * Z))) (o : option os_task_t) t : option os_task_t :=
  if joiner is Some (_, (j, _)) then if decide (t = j) then woken OS_OK <$> o else o else o.
Definition ready_after A (joiner : option (semid * (tid * Z))) (i : Z) : list tid :=
  qtasks A Q_ready i ++ (if joiner is Some (_, (j, p)) then if decide (i = p) then [j] else [] else []).

Lemma exit_signal A s c tk joiner :
  kernel_ok A s → live A Q_ready → task_current s = Some c → tasks s !! c = Some tk → task_queue tk = None →
  isr_nesting s = 0 → waitqueue_current s = None →
  match joiner with
  | None => join_sem tk = None
  | Some (x, (j, p)) => join_sem tk = Some x ∧ sem_ok A s x 0 [(j, p)]
  end →
  ∃ A' s', (match join_sem tk with Some x => os_sem_up_sync x true | None => mret tt end) s = Done tt s' ∧
    kernel_ok A' s' ∧ live A' Q_ready ∧ task_current s' = Some c ∧
    (∀ t, tasks s' !! t = joined joiner (tasks s !! t) t) ∧
    (if joiner is Some (x, (j, _)) then j ≠ c ∧ is_Some (tasks s !! j) ∧ sem_ok A' s' x 0 [] else True) ∧
    ∀ i, qtasks A' Q_ready i = ready_after A joiner i.
Proof.
  intros HK Hl Hc Ht Hq Hn Hw Hj. unfold ready_after. destruct joiner as [(x & j & p) |].
  - destruct Hj as [-> HS]. pose proof HS as [Hx Hlx Hws Hr He].
    pose proof (ko_queues _ _ HK) as HQ. pose proof atomic_wide as Hmax.
    destruct (sem_up_run A s x true 0 HK Hlx Hl Hx) as
      [[Hemp _] | (t & tkt & A' & s' & Htt & Hqt & Htop & Hrun & HK' & Ht' & HL' & Ho' & _ & Hwq)];
      [lia | by left | by right | |].
    { apply (absq_nil A s) in Hemp; [| done]. congruence. }
    pose proof (wake_queues_absq A A' s (Q_sem x) t tkt HQ ltac:(done) Htop Hwq) as Habs.
    rewrite Hws in Habs. injection Habs as <- Hp' Habs.
    exists A', (set_dint (dint s) s'). cbn in Hrun. split_and!.
    + rewrite Hrun. done.
    + by apply kernel_ok_dint.
    + by apply HL'.
    + cbn. destruct Ho' as (_ & _ & -> & _). done.
    + intros t. cbn. rewrite Ht', lookup_insert. unfold joined.
      destruct (decide (j = t)) as [<- | Hne]; [by rewrite decide_True, Htt | by rewrite decide_False].
    + congruence.
    + done.
    + destruct Ho' as (Hse & _). split; [cbn; by rewrite Hse | by apply HL' | done | lia | done].
    + intros i. erewrite wake_queues_ready by (exact Hwq || done). by rewrite Hp'.
  - rewrite Hj. exists A, s. split_and!; try done. intros i. by rewrite app_nil_r.
Qed.
End facts.

(** ** Properties *)

Section properties.
Context {AP : ArchPort} {APOK : ArchPortOk AP}.
Implicit Types (A : gmap laddr (list laddr)) (s : kstate) (q : qid) (t c : tid) (tk : os_task_t).

(** C28: Creating a task. On a TCB that is in no list, with a priority from 1 below
    OS_CONFIG_PRIOCNT, a stack that is not NULL and has at least
    OS_STACK_MINSIZE bytes, [os_task_create] fills the stack with the pattern of
    the stack check and calls [arch_task_init]. When that returns, the new task
    is READY, with both priorities equal to the given one, the end and the size
    of its stack and without mutexes, at the tail of its priority in the ready
    queue, all other tasks and queues are as they were, and the scheduler is
    called in a critical section; when an assertion in [arch_task_init] fails,
    as it always does on the MSP430, the system halts there. Any other priority,
    a NULL stack or one that is too small halts the system at once. The
    [arch_task_init] of the port is assumed to write only the stack and the
    context of the task if it returns. *)
Theorem os_task_create_ready A s t prio stack size proc param ati :
  kernel_ok A s → live A Q_ready → isr_nesting s = 0 → waitqueue_current s = None → fresh_task A t →
  stack_writer ati →
  if decide (0 < prio < OS_CONFIG_PRIOCNT ∧ stack ≠ 0 ∧ OS_STACK_MINSIZE ≤ size) then
    ∃ s1, tasks s1 = <[t := created_task prio stack size]> (tasks s) ∧
      stacks s1 = memset stack OS_STACK_FILLPATERN (Z.to_nat size) (stacks s) ∧
      match ati t stack size proc param s1 with
      | Done _ s2 => ∃ A' s',
          os_task_create ati t prio stack size proc param s = (os_schedule 1;; arch_critical_exit (dint s)) s' ∧
          kernel_ok A' s' ∧ dint s' = true ∧ A' !! L_mtx_list t = Some [] ∧
          tasks s' = <[t := set_task_queue (Some Q_ready) (created_task prio stack size)]> (tasks s) ∧
          stacks s' = stacks s2 ∧
          ∀ q i, qtasks A' q i = qtasks A q i ++ (if decide (q = Q_ready ∧ i = prio) then [t] else [])
      | r => os_task_create ati t prio stack size proc param s = r
      end
  else os_task_create ati t prio stack size proc param s = os_halt s.
Proof.
  intros HK Hl Hn Hw Hf Hati. unfold os_task_create. case_decide as Hp.
  - destruct Hp as (Hp & Hst & Hsz).
    destruct (task_create_init_run A s t prio stack size proc param ati HK Hn Hw Hf Hp Hst Hsz)
      as (s1 & Hrun & HK1 & Ht1 & (_ & _ & _ & _ & _ & _ & Hd1 & _) & _ & _ & Hs1).
    exists s1. split_and!; [done | done |].
    destruct (Hati t stack size proc param s1) as [[m Hm] | [s2 Hh]]; [rewrite Hm in * | rewrite Hh in *];
      [| by apply bind_Halted].
    rewrite (bind_Done _ _ _ _ _ Hrun).
    destruct (task_create_enqueue_run _ (set_stacks m s1) t (created_task prio stack size) (kernel_ok_stacks _ _ m HK1))
      as (s3 & Hrun3 & HK3 & Ht3 & (_ & _ & _ & _ & _ & _ & Hd3 & _) & _ & _ & Hs3);
      [by apply live_insert | cbn; rewrite Ht1; apply lookup_insert_eq | done |].
    change (prio_current _) with prio in HK3. replace (qtasks (<[_:=_]> A) Q_ready prio) with (qtasks A Q_ready prio) in HK3
      by (symmetry; by apply qtasks_lookup, lookup_insert_ne).
    rewrite Hrun3. exists (new_lists A t prio), s3. split_and!; [by rewrite <- Hd1 | done | done | | | done | apply new_lists_qtasks].
    + unfold new_lists. rewrite set_bucket_other by done. apply lookup_insert_eq.
    + rewrite Ht3. cbn. by rewrite Ht1, insert_insert_eq.
  - apply bind_Halted. unfold os_task_create_init. rewrite not_isr_ok, not_prepared_ok by done.
    destruct (Z.ltb_spec prio OS_CONFIG_PRIOCNT); [| by rewrite OS_ASSERT_false]. rewrite OS_ASSERT_true by done.
    destruct (Z.gtb_spec prio 0); [| by rewrite OS_ASSERT_false]. rewrite OS_ASSERT_true by done.
    destruct (Z.eqb_spec stack 0); [by rewrite OS_ASSERT_false |]. rewrite OS_ASSERT_true by done.
    destruct (Z.geb_spec size OS_STACK_MINSIZE); [| by rewrite OS_ASSERT_false]. by destruct Hp.
Qed.

(** C26: A task that ends. [os_task_exit] marks the running task DESTROYED with its
    return value, makes the task that joins it READY with OS_OK, if there is
    one, and gives the CPU to the first task of the highest ready priority,
    the joining task included; the ended task is in no queue any more, and
    should it ever be switched to again, the system halts. *)
Theorem os_task_exit_hands_over A s c tk retv idle joiner :
  kernel_ok A s → sched_ok A s c tk → isr_nesting s = 0 → waitqueue_current s = None →
  idle ∈ qtasks A Q_ready 0 →
  match joiner with
  | None => join_sem tk = None
  | Some (x, (j, p)) => join_sem tk = Some x ∧ sem_ok A s x 0 [(j, p)]
  end →
  ∃ new p A' s' k, os_task_exit retv s = Switch c (set_task_current (Some new) s') k ∧
    (∀ s2, k s2 = os_halt s2) ∧ kernel_ok A' s' ∧ pq_top (ready_after A joiner) p new ∧
    tasks s' !! c = Some (dead_task retv tk) ∧ (∀ q i, c ∉ qtasks A' q i) ∧
    (∀ t, t ≠ c → t ≠ new → tasks s' !! t = joined joiner (tasks s !! t) t) ∧
    (if joiner is Some (x, (j, _)) then sem_ok A' s' x 0 [] ∧ block_code <$> tasks s' !! j = Some OS_OK else True) ∧
    ∀ i, qtasks A' Q_ready i = if decide (i = p) then tail (ready_after A joiner i) else ready_after A joiner i.
Proof.
  intros HK Hok Hn Hw Hidle Hj. pose proof (so_current _ _ _ _ Hok) as Hc. pose proof (so_task _ _ _ _ Hok) as Ht.
  pose proof (so_free _ _ _ _ Hok) as Hfree.
  set (s0 := set_dint true s). set (s1 := set_tasks (<[c := dead_task retv tk]> (tasks s)) s0).
  assert (kernel_ok A s1) as HK1 by (by eapply (kernel_ok_mod_task A s0 c tk); [apply kernel_ok_dint | ..| left]).
  unfold os_task_exit. erewrite bind_Done by done. cbn beta. fold s0.
  erewrite bind_Done by (by apply current_Some).
  erewrite bind_Done by (by apply mod_task_Some).
  erewrite bind_Done by (apply mod_task_Some; cbn; apply lookup_insert_eq). cbn [tasks set_tasks]. rewrite insert_insert_eq.
  change (set_tasks _ (set_tasks _ s0)) with s1.
  erewrite bind_Done by (apply get_task_Some; cbn; apply lookup_insert_eq).
  destruct (exit_signal A s1 c (dead_task retv tk) joiner) as (A2 & s2 & Hrun & HK2 & Hl2 & Hc2 & Ht2 & Hj2 & Hq2); try done.
  { apply Hok. }
  { cbn. apply lookup_insert_eq. }
  { destruct joiner as [(x & j & p) |]; [| done]. destruct Hj as [? HS]. split; [done |]. by eapply sem_ok_frame. }
  erewrite bind_Done by exact Hrun.
  assert (tasks s2 !! c = Some (dead_task retv tk)) as Hdead.
  { rewrite Ht2. cbn. rewrite lookup_insert_eq. unfold joined. destruct joiner as [(x & j & p) |]; [| done].
    destruct Hj2 as [Hne _]. by rewrite decide_False. }
  destruct (exit_switch A2 s2 c (dead_task retv tk)) as
    (new & tkn & A3 & s3 & k & Hsw & Hk & HK3 & Htn & Hnc & Htop & Ht3 & Hq3 & Hout & _ & Hl3 & (Hse3 & _) & _); try done.
  { intros He. specialize (He 0). rewrite Hq2 in He. unfold ready_after in He. by apply app_nil in He as [He _]; rewrite He, elem_of_nil in Hidle. }
  exists new, (prio_current tkn), A3, s3, k. split_and!; try done.
  - destruct Htop as [Hh Hi]. split; [by rewrite <- Hq2 |]. intros i ?. rewrite <- Hq2. auto.
  - by rewrite Ht3, lookup_insert_ne.
  - intros t Htc Htnw. rewrite Ht3, lookup_insert_ne, Ht2 by done. cbn. by rewrite lookup_insert_ne.
  - destruct joiner as [(x & j & p) |]; [| done]. destruct Hj2 as (Hjc & [tkj Htj] & HS). split.
    + eapply sem_ok_frame; [exact HS | by rewrite Hse3 | apply Hl3 |].
      intros i. rewrite Hq3. by rewrite decide_False by (by intros [? _]).
    + rewrite Ht3, lookup_insert. destruct (decide (new = j)) as [-> |].
      * rewrite Ht2 in Htn. unfold joined in Htn. rewrite decide_True, Htj in Htn by done. by injection Htn as <-.
      * rewrite Ht2. unfold joined. by rewrite decide_True, Htj.
  - intros i. rewrite Hq3, Hq2. destruct (decide (i = prio_current tkn)) as [-> |];
      [by rewrite decide_True | by rewrite decide_False by (by intros [_ ?])].
Qed.
End properties.

Definition booted_b (AP : ArchPort) : bool :=
  match os_init kstate_reset with
  | Done _ s =>
      let l := lists_of s in
      kernel_ok_b l s && live_b l Q_ready && bool_decide (absq (list_to_map l) Q_ready = []) &&
      bool_decide (task_current s = Some task_idle) &&
      bool_decide (armed (list_to_map l) = []) && (sched_lock s =? 1) && dint s && (isr_nesting s =? 0) &&
      bool_decide (waitqueue_current s = None)
  | _ => false
  end.

Lemma booted_b_ok (AP : ArchPort) {APOK : ArchPortOk AP} : booted_b AP = true →
  tasks (run_state os_init kstate_reset) = {[task_idle := set_state TASKSTATE_RUNNING (new_task 0)]} → booted AP.
Proof.
  unfold booted_b, booted, run_state. destruct (os_init kstate_reset) as [[] s | | | |]; try done.
  rewrite !andb_true_iff, !bool_decide_eq_true, !Z.eqb_eq.
  intros ((((((((HK & Hl) & Hq) & ?) & ?) & ?) & ?) & ?) & ?) ?. apply kernel_ok_b_ok in HK.
  exists (list_to_map (lists_of s)), s. split_and!; try done; [by apply live_b_ok |].
  by apply (absq_nil _ s); [apply HK |].
Qed.

(** C29: Start-up establishes the kernel invariant. From the memory a program
    starts with, [os_init] succeeds on each of the three ports and leaves the
    invariant of all queues and timers, with an empty ready queue and timer
    list, the idle task as the running and only task, the scheduler locked and
    interrupts masked. *)
Theorem os_init_establishes_kernel : booted avr_port ∧ booted msp430_port ∧ ∀ n, booted (linux_port n).
Proof.
  split; [| split].
  - refine (booted_b_ok avr_port _ _); vm_compute; reflexivity.
  - refine (booted_b_ok msp430_port _ _); vm_compute; reflexivity.
  - intros n. refine (booted_b_ok (linux_port n) _ _); vm_compute; reflexivity.
Qed.

(** *** The properties at a concrete state *)

Section demo.
#[local] Existing Instance avr_port.
#[local] Existing Instance avr_port_ok.

(** Task 1 (priority 2) runs and task 2 (priority 3) waits to join it; the idle
    task is ready. *)
Definition demo_join_setup : K unit :=
  os_init;;
  os_task_init 1 2;; os_task_init 2 3;;
  os_sem_create (SemJoin 2) 0;;
  modify (set_task_current (Some 2%nat));;
  os_task_makewait (Q_sem (SemJoin 2)) OS_TASKBLOCK_SEM;;
  mod_task 1%nat (set_join_sem (Some (SemJoin 2)));;
  os_task_makeready task_idle;;
  mod_task 1%nat (set_state TASKSTATE_RUNNING);;
  modify (set_task_current (Some 1%nat));;
  modify (set_sched_lock 0);;
  arch_eint.
Definition demo_join : kstate := run_state demo_join_setup kstate_reset.
Definition demo_join_lists : gmap laddr (list laddr) := list_to_map (lists_of demo_join).
Definition demo_ending : os_task_t :=
  Task 2 2 TASKSTATE_RUNNING None OS_TASKBLOCK_INVALID None (Some (SemJoin 2)) 0 0 0.

(** An [arch_task_init] that puts the two bytes of [proc] on top of the stack. *)
Definition demo_context (t : tid) (stack size proc param : Z) : K unit :=
  modify (λ s, set_stacks (<[stack + size - 1 := proc mod 256]> (<[stack + size - 2 := proc / 256]> (stacks s))) s).

#[local] Opaque demo_join demo_join_lists.

Lemma demo_join_ok : kernel_ok demo_join_lists demo_join.
Proof. apply (kernel_ok_b_ok (lists_of demo_join)). by vm_compute. Qed.
Lemma demo_join_live : live demo_join_lists Q_ready.
Proof. apply (live_b_ok (lists_of demo_join)). by vm_compute. Qed.
Lemma demo_join_sem : sem_ok demo_join_lists demo_join (SemJoin 2) 0 [(2%nat, 3)].
Proof.
  split; [by vm_compute | apply (live_b_ok (lists_of demo_join)); by vm_compute | by vm_compute | by vm_compute | done].
Qed.
Lemma demo_join_running : sched_ok demo_join_lists demo_join 1 demo_ending.
Proof. apply sched_ok_kernel; [apply demo_join_ok | apply demo_join_live | by vm_compute..]. Qed.
Lemma demo_join_fresh : fresh_task demo_join_lists 7.
Proof.
  split; [| right]; refine (unlinked_b (lists_of demo_join) _ _); vm_compute; reflexivity.
Qed.

Lemma os_task_create_ready_witness : ∃ A' s',
  os_task_create demo_context 7 3 1000 200 300 0 demo_join = (os_schedule 1;; arch_critical_exit false) s' ∧
  kernel_ok A' s' ∧ qtasks A' Q_ready 3 = [7%nat] ∧ qtasks A' Q_ready 0 = [task_idle].
Proof.
  pose proof (os_task_create_ready demo_join_lists demo_join 7 3 1000 200 300 0 demo_context demo_join_ok demo_join_live
    ltac:(vm_compute; reflexivity) ltac:(vm_compute; reflexivity) demo_join_fresh
    (λ t stack size proc param s, or_introl (ex_intro _ _ eq_refl))) as H.
  rewrite decide_True in H by (vm_compute; split; [split; reflexivity | split; discriminate]).
  destruct H as (s1 & _ & _ & A' & s' & Hrun & HK & _ & _ & _ & _ & Hq).
  assert (dint demo_join = false) as Hd by (vm_compute; reflexivity). rewrite Hd in Hrun.
  exists A', s'. split; [exact Hrun |]. split; [exact HK |]. split; rewrite Hq; vm_compute; reflexivity.
Defined.

(** Task 1 ends with 42 and task 2 has its OS_OK. *)
Lemma os_task_exit_hands_over_witness : ∃ new A' s' k,
  os_task_exit 42 demo_join = Switch 1%nat (set_task_current (Some new) s') k ∧ kernel_ok A' s' ∧
  (∀ s2, k s2 = os_halt s2) ∧ ret_value <$> tasks s' !! 1%nat = Some 42 ∧ block_code <$> tasks s' !! 2%nat = Some OS_OK.
Proof.
  destruct (os_task_exit_hands_over demo_join_lists demo_join 1 demo_ending 42 task_idle (Some (SemJoin 2, (2%nat, 3)))
    demo_join_ok demo_join_running) as (new & p & A' & s' & k & Hrun & Hk & HK & _ & Hdead & _ & _ & [_ Hj] & _).
  - vm_compute; reflexivity.
  - vm_compute; reflexivity.
  - apply (bool_decide_unpack _). vm_compute. exact I.
  - split; [reflexivity | apply demo_join_sem].
  - exists new, A', s', k. split; [exact Hrun |]. split; [exact HK |]. split; [exact Hk |]. split; [| exact Hj].
    rewrite Hdead. reflexivity.
Defined.
End demo.
