(* ===== verification/Stack.v ===== *)
(** * Stack overflow check (os_task_check of source/os_sched.c)

    [os_task_create] fills the stack of a new task with a pattern and remembers
    its last byte, [os_task_check] halts when this byte has changed (both are
    defined in Sched.v). Together with the initial context that the AVR port puts
    on the same stack (AvrContext.v): a new task passes the check. *)

From stdpp Require Import base decidable list gmap.
From Stdlib Require Import ZArith Lia.
From S2P Require Import Prelude Arch AvrContext Kernel Sched.

Local Open Scope Z_scope.

Section stack.
#[local] Existing Instance avr_port.

Lemma memset_lookup v n : ∀ a m x,
  memset a v n m !! x = if bool_decide (a ≤ x < a + Z.of_nat n) then Some v else m !! x.
Proof.
  induction n as [| n IH]; intros a m x; cbn [memset].
  - by rewrite bool_decide_false by lia.
  - rewrite IH, lookup_insert. repeat (case_bool_decide || case_decide); try done; lia.
Qed.

(** Stack check. A task that [os_task_create] makes on the AVR passes the check, all of its
    stack below the initial context holds the pattern, and from then on the
    check halts exactly when the last byte of the stack has another content. *)
Theorem new_stack_checked have_rampz start context stack size proc param s t tk :
  0 ≤ start < 65536 → 0 ≤ proc < 65536 → 0 ≤ param < 65536 →
  OS_STACK_MINSIZE ≤ size → 0 ≤ stack → stack + size ≤ 65536 → apart context 2 stack size →
  tasks s !! t = Some tk →
  ∃ s1, os_task_check_init t stack size s = Done tt s1 ∧
    ∀ s2, tasks s2 = tasks s1 →
      (∀ x, byte_at s2 x = arch_task_init have_rampz start context stack size proc param (byte_at s1) x) →
      os_task_check t s2 = Done tt s2 ∧
      (∀ x, stack ≤ x < stack + size - frame_size have_rampz → byte_at s2 x = OS_STACK_FILLPATERN) ∧
      ∀ s3, stack_end <$> tasks s3 !! t = stack_end <$> tasks s2 !! t →
        os_task_check t s3 = os_halt s3 ↔ byte_at s3 stack ≠ OS_STACK_FILLPATERN.
Proof.
  intros H1 H2 H3 Hs H0 Hw Ht Htk. cbn in Hs. unfold apart in Ht.
  assert (35 ≤ frame_size have_rampz ≤ 36) as Hf by (unfold frame_size; destruct have_rampz; lia).
  set (m := memset stack OS_STACK_FILLPATERN (Z.to_nat size) (stacks s)).
  exists (set_tasks (<[t := set_stack stack size tk]> (tasks s)) (set_stacks m s)). split.
  { unfold os_task_check_init. erewrite bind_Done by done. by apply (mod_task_Some t _ tk (set_stacks m s)). }
  intros s2 Ht2 Hb.
  assert (∀ x, stack ≤ x < stack + size - frame_size have_rampz → byte_at s2 x = OS_STACK_FILLPATERN) as Hx.
  { intros x Hx. rewrite Hb.
    destruct (arch_task_init_spec have_rampz start context stack size proc param
      (byte_at (set_tasks (<[t := set_stack stack size tk]> (tasks s)) (set_stacks m s)))) as (_ & _ & Hout);
      try done; [lia | unfold apart; lia |].
    rewrite Hout by (unfold apart; lia). unfold byte_at. cbn. unfold m. by rewrite memset_lookup, bool_decide_true by lia. }
  cbn in Ht2.
  assert (∀ s3, stack_end <$> tasks s3 !! t = Some stack → os_task_check t s3 =
    if negb (OS_STACK_FILLPATERN =? byte_at s3 stack) then os_halt s3 else Done tt s3) as Hchk.
  { intros s3 Hend. destruct (tasks s3 !! t) as [tk3 |] eqn:Et; [| done]. injection Hend as Hend.
    unfold os_task_check. erewrite bind_Done by (by apply get_task_Some). erewrite bind_Done by done.
    rewrite Hend. by destruct (negb _). }
  assert (stack_end <$> tasks s2 !! t = Some stack) as He by (by rewrite Ht2, lookup_insert_eq).
  split_and!; [| exact Hx |].
  - by rewrite Hchk, Hx by (done || lia).
  - rewrite He. intros s3 Hend. rewrite Hchk by done.
    destruct (Z.eqb_spec OS_STACK_FILLPATERN (byte_at s3 stack)) as [E | Hne]; cbn; [| split; [congruence | done]].
    split; [done | by intros []].
Qed.

(** The bytes of [f] at the addresses [l] as a memory. *)
Definition memory (f : Z → Z) (l : list Z) : gmap Z Z := foldr (λ x M, <[x := f x]> M) ∅ l.
Lemma memory_lookup f l x : memory f l !! x = if decide (x ∈ l) then Some (f x) else None.
Proof.
  induction l as [| y l IH]; [done |]. unfold memory. cbn [foldr]. rewrite lookup_insert. fold (memory f l). rewrite IH.
  destruct (decide (y = x)) as [-> | Hne]; [by rewrite decide_True by apply list_elem_of_here |].
  destruct (decide (x ∈ l)); [by rewrite decide_True by by apply list_elem_of_further |].
  rewrite decide_False; [done |]. by intros [-> | ?]%elem_of_cons.
Qed.

(** The stack of task 1 with the context that [arch_task_init] writes. *)
Definition demo_state : kstate := set_tasks {[1%nat := task_zero]} kstate_reset.
Definition demo_filled : kstate := run_state (os_task_check_init 1 1000 200) demo_state.
Definition demo_stacked : kstate :=
  set_stacks (memory (arch_task_init false 4096 500 1000 200 3 4 (byte_at demo_filled)) (seqZ 500 2 ++ seqZ 1000 200)) demo_filled.

Lemma new_stack_checked_witness : os_task_check 1 demo_stacked = Done tt demo_stacked.
Proof.
  destruct (new_stack_checked false 4096 500 1000 200 3 4 demo_state 1 task_zero) as (s1 & Hrun & Hs2);
    [lia | lia | lia | cbn; lia | lia | lia | unfold apart; lia | reflexivity |].
  assert (s1 = demo_filled) as -> by (unfold demo_filled, run_state; by rewrite Hrun).
  apply (Hs2 demo_stacked); [done |]. intros x. unfold demo_stacked, byte_at at 1. cbn [stacks set_stacks].
  rewrite memory_lookup. case_decide as Hx; [done |]. transitivity (byte_at demo_filled x).
  all: rewrite elem_of_app, !elem_of_seqZ in Hx.
  - change (0 = default 0 (memset 1000 OS_STACK_FILLPATERN 200 ∅ !! x)). by rewrite memset_lookup, bool_decide_false by lia.
  - symmetry. apply (arch_task_init_spec false 4096 500 1000 200 3 4 (byte_at demo_filled));
      unfold apart, frame_size; lia.
Defined.
End stack.
