(* ===== verification/Join.v ===== *)
(** * Joining a task (os_task_join of source/os_sched.c)

    [os_task_join] composes the semaphore functions: it waits for the end of a
    task on a semaphore of its own, which [os_task_exit] signals (Tasks.v). The
    steps that are not calls of the scheduler are specified here as runs of the
    semaphore functions, and the theorems follow the call from its guards to
    the value it returns. *)

From stdpp Require Import base decidable list countable gmap.
From Stdlib Require Import ZArith Lia.
From S2P Require Import Prelude Arch LinkedList Kernel TaskQueue Timer Sched Invariant QueueLife Decide Sem Tasks.

Local Open Scope Z_scope.

(** The TCB of a task that was joined: it may be created again. *)
Definition joined_task (tk : os_task_t) : os_task_t := set_join_sem None (set_state TASKSTATE_INVALID tk).

Section facts.
Context {AP : ArchPort} {APOK : ArchPortOk AP}.
Implicit Types (A : gmap laddr (list laddr)) (s : kstate) (q : qid) (t c : tid) (tk : os_task_t).

(** [os_sem_down] from its guards to the switch to another task, and from there to
    its end. *)
Lemma sem_down_blocks A s c x fuel junk s' : repr (links s) A → task_current s = Some c → c ≠ task_idle →
  A !! L_mtx_list c = Some [] → isr_nesting s = 0 → waitqueue_current s = None → sems s !! x = Some 0 →
  os_task_block_switch (Q_sem x) OS_TASKBLOCK_SEM (set_dint true s) = Switch c s' (λ s2, resume_running s2) →
  ∃ k, os_sem_down fuel x OS_TIMEOUT_INFINITE junk s = Switch c s' k ∧
    ∀ s2 s3 tk, (∀ B (kont : tid → K B), (resume_running;; c ← current; os_blocktimer_destroy c;; kont c) s2 = kont c s3) →
      tasks s3 !! c = Some tk → k s2 = Done (block_code tk) (set_dint (dint s) s3).
Proof.
  intros HR Hc Hid Hm Hn Hw Hx Hblk. unfold os_sem_down. rewrite not_isr_ok, not_idle_ok, not_prepared_ok by (congruence || done).
  rewrite (no_mtx_ok A s c) by done.
  erewrite bind_Done by done. erewrite bind_Done by (by apply get_sem_Some). cbn [Z.gtb Z.compare].
  rewrite (proj2 (Z.eqb_neq OS_TIMEOUT_TRY OS_TIMEOUT_INFINITE))
    by (pose proof ticks_max_val; unfold OS_TIMEOUT_TRY, OS_TIMEOUT_INFINITE; lia).
  rewrite Z.eqb_refl. cbn [negb when].
  erewrite bind_Switch; [| erewrite bind_Done by done; erewrite bind_Switch by exact Hblk; reflexivity].
  eexists. split; [reflexivity |]. intros s2 s3 tk Hrun Ht. rewrite (bind_rewrite _ _ _ _ _ (Hrun _ _)).
  erewrite (bind_Done _ _ s3); [reflexivity |].
  erewrite bind_Done by (by apply get_task_Some). reflexivity.
Qed.

(** Waiting without a timeout on a semaphore of value 0. *)
Lemma sem_down_waits A s c tk x fuel junk : kernel_ok A s → sched_ok A s c tk → c ≠ task_idle →
  A !! L_mtx_list c = Some [] → isr_nesting s = 0 → waitqueue_current s = None →
  live A (Q_sem x) → sems s !! x = Some 0 → ¬ pq_empty (qtasks A Q_ready) →
  ∃ new tkn A' s' k, os_sem_down fuel x OS_TIMEOUT_INFINITE junk s = Switch c (set_task_current (Some new) s') k ∧
    kernel_ok A' s' ∧ same_lists A A' ∧ same_objects (set_dint true s) s' ∧ tasks s !! new = Some tkn ∧
    pq_top (qtasks A Q_ready) (prio_current tkn) new ∧ new ≠ c ∧
    tasks s' = <[new := set_task_queue None tkn]> (<[c := waiting_task (Q_sem x) OS_TASKBLOCK_SEM tk]> (tasks s)) ∧
    absq A' (Q_sem x) = pq_insert c (prio_current tk) (absq A (Q_sem x)) ∧
    ∀ A2 s2 tk2, kernel_ok A2 s2 → task_current s2 = Some c → tasks s2 !! c = Some tk2 →
      ∃ A3 s3, k s2 = Done (block_code tk2) (set_dint (dint s) s3) ∧ kernel_ok A3 s3 ∧ same_lists A2 A3 ∧
        tasks s3 = <[c := set_timer None (set_state TASKSTATE_RUNNING tk2)]> (tasks s2) ∧
        same_objects s2 s3 ∧ ∀ q i, qtasks A3 q i = qtasks A2 q i.
Proof.
  intros HK Hok Hid Hm Hn Hw Hl Hx Hne. pose proof (so_current _ _ _ _ Hok) as Hc.
  destruct (block_kernel_spec A (set_dint true s) c tk (Q_sem x) OS_TASKBLOCK_SEM)
    as (new & tkn & A2 & s2 & Hblk & HK2 & HL2 & Ho2 & Htn & Htop & Hnc & Ht2 & Habs & _);
    [by apply kernel_ok_dint | by apply sched_ok_dint | done..|].
  destruct (sem_down_blocks A s c x fuel junk _ (qo_repr _ _ (ko_queues _ _ HK)) Hc Hid Hm Hn Hw Hx Hblk) as (k & Hrun & Hk).
  exists new, tkn, A2, s2, k. split_and!; [done..|].
  intros A3 s3 tk3 HK3 Hc3 Ht3.
  destruct (resume_guard_spec A3 s3 c tk3 HK3 Hc3 Ht3) as (A4 & s4 & _ & Hres & HK4 & Ht4 & Ho4 & Hq4 & HL4 & _).
  exists A4, s4. split_and!; try done. rewrite (Hk s3 s4 (set_timer None (set_state TASKSTATE_RUNNING tk3)) Hres); [by destruct tk3 |].
  rewrite Ht4. apply lookup_insert_eq.
Qed.

(** Destroying a semaphore nobody waits for, while no ready task outranks the
    caller. *)
Lemma sem_destroy_empty A s c tk x v fuel : kernel_ok A s → sched_ok A s c tk → isr_nesting s = 0 →
  waitqueue_current s = None → sem_ok A s x v [] → (0 < fuel)%nat →
  (∀ i, prio_current tk < i → qtasks A Q_ready i = []) →
  ∃ h mk, os_sem_destroy fuel x s = Done tt (set_sems (<[x := 0]> (sems s)) (set_masks mk (set_links h s))) ∧
    kernel_ok (drop_queue A (Q_sem x)) (set_sems (<[x := 0]> (sems s)) (set_masks mk (set_links h s))).
Proof.
  intros HK Hok Hn Hw [Hx Hl Hws _ _] Hf Htop. unfold os_sem_destroy. rewrite not_isr_ok, not_prepared_ok by done.
  erewrite bind_Done by done. cbn beta. set (s0 := set_dint true s).
  assert (kernel_ok A s0) as HK0 by by apply kernel_ok_dint. pose proof (ko_queues _ _ HK0) as HQ.
  assert (pq_empty (qtasks A (Q_sem x))) as He by (by apply (absq_nil A s0)).
  destruct (wake_first_spec A s0 (Q_sem x) true OS_DESTROYED HK0 Hl (so_ready _ _ _ _ Hok)) as
    [[_ Hd] | (t & tkt & s1 & A1 & s2 & _ & _ & _ & _ & [Hh _] & _)]; [done | done | |].
  2:{ by rewrite He in Hh. }
  destruct fuel as [| fuel]; [lia |]. cbn [wake_destroyed].
  erewrite (bind_Done _ _ s0 tt s0); [| by erewrite bind_Done by exact Hd].
  destruct (memset_spec A s0 (Q_sem x) HK0) as (s2 & Hm & HK2 & (h & mk & ->) & _ & _); [by eapply idle_live |].
  erewrite bind_Done by exact Hm. erewrite bind_Done by done. set (s3 := set_sems _ _).
  assert (kernel_ok (drop_queue A (Q_sem x)) s3) as HK3 by by apply kernel_ok_sems.
  assert (sched_ok (drop_queue A (Q_sem x)) s3 c tk) as Hok3.
  { apply sched_ok_kernel; [done | apply live_drop; split; [done | apply Hok] | apply Hok..]. }
  exists h, mk. split; [| by eapply kernel_ok_globals].
  destruct (os_schedule_spec _ s3 c tk 1 Hok3) as [[_ Hrun] | [(_ & _ & _ & Hrun) | (_ & _ & new & A' & s' & Hh & (tkn & Htn & Hge) & _)]];
    [done | lia | by erewrite bind_Done by exact Hrun.. |].
  exfalso. destruct Hh as [(tkn' & ts & Htn' & _ & Hq & _) _]. rewrite Htn in Htn'. injection Htn' as <-.
  rewrite qtasks_drop, decide_False, Htop in Hq by (done || lia). done.
Qed.
End facts.

Section properties.
Context {AP : ArchPort} {APOK : ArchPortOk AP}.
Implicit Types (A : gmap laddr (list laddr)) (s : kstate) (t c : tid) (tk : os_task_t).

(** What follows the wait of [os_task_join], from the end of the joined task on. *)
Lemma join_end A s c tk t tkt fuel cristate : kernel_ok A s → sched_ok A s c tk → t ≠ c → isr_nesting s = 0 →
  waitqueue_current s = None → sem_ok A s (SemJoin c) 0 [] → (0 < fuel)%nat →
  (∀ i, prio_current tk < i → qtasks A Q_ready i = []) → tasks s !! t = Some tkt → state tkt = TASKSTATE_DESTROYED →
  ∃ A' s', (os_sem_destroy fuel (SemJoin c);; task ← get_task t;
      OS_SELFCHECK_ASSERT (bool_decide (state task = TASKSTATE_DESTROYED));; mod_task t (set_state TASKSTATE_INVALID);;
      mod_task t (set_join_sem None);; task ← get_task t; arch_critical_exit cristate;; mret (ret_value task)) s =
    Done (ret_value tkt) s' ∧ kernel_ok A' s' ∧ tasks s' = <[t := joined_task tkt]> (tasks s) ∧
    ¬ live A' (Q_sem (SemJoin c)) ∧ dint s' = cristate.
Proof.
  intros HK Hok Htc Hn Hw HS Hf Htop Ht Hst.
  destruct (sem_destroy_empty A s c tk (SemJoin c) 0 fuel HK Hok Hn Hw HS Hf Htop) as (h & mk & Hd & HK').
  erewrite bind_Done by exact Hd. set (s1 := set_sems _ _) in *. assert (tasks s1 !! t = Some tkt) as Ht1 by done.
  erewrite bind_Done by (by apply get_task_Some). rewrite Hst. erewrite bind_Done by done.
  erewrite bind_Done by (by apply mod_task_Some).
  erewrite bind_Done by (apply mod_task_Some; cbn; apply lookup_insert_eq). cbn [tasks set_tasks]. rewrite insert_insert_eq.
  erewrite bind_Done by (apply get_task_Some; cbn; apply lookup_insert_eq).
  eexists (drop_queue A (Q_sem (SemJoin c))), _. split_and!; [reflexivity | | done | | done].
  - apply kernel_ok_dint. apply (kernel_ok_mod_task _ _ t tkt (joined_task tkt) HK' Ht1); by try left.
  - intros [? _]%live_drop. done.
Qed.

(** Before the wait: the caller's semaphore is created and left in the TCB of the
    task to be joined. *)
Lemma join_announced A s c tk t tkt : kernel_ok A s → sched_ok A s c tk → t ≠ c → waitqueue_current s = None →
  A !! L_mtx_list c = Some [] → idle_queue A (Q_sem (SemJoin c)) → tasks s !! t = Some tkt →
  ∃ A1 s2, (∀ B (k : K B), (os_sem_create (SemJoin c) 0;; mod_task t (set_join_sem (Some (SemJoin c)));; k) s = k s2) ∧
    kernel_ok A1 s2 ∧ sched_ok A1 s2 c tk ∧ (∀ q i, qtasks A1 q i = qtasks A q i) ∧ absq A1 (Q_sem (SemJoin c)) = [] ∧
    live A1 (Q_sem (SemJoin c)) ∧ A1 !! L_mtx_list c = Some [] ∧ sems s2 !! SemJoin c = Some 0 ∧
    tasks s2 = <[t := set_join_sem (Some (SemJoin c)) tkt]> (tasks s) ∧ isr_nesting s2 = isr_nesting s ∧
    waitqueue_current s2 = None ∧ dint s2 = dint s.
Proof.
  intros HK Hok Htc Hw Hm Hi Ht.
  destruct (sem_create_run A s (SemJoin c) 0 HK Hw Hi) as (h & mk & s1 & Hcr & HK1 & ->); [pose proof atomic_wide; lia |].
  set (s1 := set_sems _ _) in *. set (tkt1 := set_join_sem (Some (SemJoin c)) tkt).
  set (s2 := set_tasks (<[t := tkt1]> (tasks s1)) s1). set (A1 := new_queue A (Q_sem (SemJoin c))) in *.
  assert (kernel_ok A1 s2) as HK2 by (apply (kernel_ok_mod_task A1 s1 t tkt tkt1); by try left).
  assert (∀ q i, qtasks A1 q i = qtasks A q i) as Hq by (intros; by apply (new_queue_qtasks A s), Hi; apply HK).
  exists A1, s2. split_and!; try done.
  - intros B k. erewrite bind_Done by exact Hcr. by erewrite bind_Done by (by apply mod_task_Some).
  - apply sched_ok_kernel; [done | apply new_queue_live; right; apply Hok | apply Hok | | apply Hok].
    cbn. rewrite lookup_insert_ne by done. apply Hok.
  - apply absq_from_empty. intros i. rewrite Hq. by eapply (idle_qtasks A s); [apply HK |].
  - apply new_queue_live. by left.
  - unfold A1, new_queue, add_queue. rewrite lookup_add_buckets, lookup_drop_queue, !decide_False; [done | by apply not_bucket_elem..].
  - cbn. apply lookup_insert_eq.
Qed.

(** The wait for a task that still lives. *)
Lemma join_waits A s c tk t tkt fuel :
  kernel_ok A s → sched_ok A s c tk → c ≠ task_idle → t ≠ c → isr_nesting s = 0 → waitqueue_current s = None →
  A !! L_mtx_list c = Some [] → idle_queue A (Q_sem (SemJoin c)) → ¬ pq_empty (qtasks A Q_ready) →
  tasks s !! t = Some tkt → (0 < fuel)%nat → join_sem tkt = None → state tkt ≠ TASKSTATE_INVALID →
  state tkt ≠ TASKSTATE_DESTROYED →
    ∃ new tkn A' s' k, os_task_join fuel t s = Switch c (set_task_current (Some new) s') k ∧ kernel_ok A' s' ∧
      tasks s !! new = Some tkn ∧ pq_top (qtasks A Q_ready) (prio_current tkn) new ∧
      sem_ok A' s' (SemJoin c) 0 [(c, prio_current tk)] ∧ join_sem <$> tasks s' !! t = Some (Some (SemJoin c)) ∧
      ∀ A2 s2 tk2 tkt2, kernel_ok A2 s2 → sched_ok A2 s2 c tk2 → isr_nesting s2 = 0 → waitqueue_current s2 = None →
        sem_ok A2 s2 (SemJoin c) 0 [] → block_code tk2 = OS_OK →
        tasks s2 !! t = Some tkt2 → state tkt2 = TASKSTATE_DESTROYED →
        (∀ i, prio_current tk2 < i → qtasks A2 Q_ready i = []) →
        ∃ A3 s3, k s2 = Done (ret_value tkt2) s3 ∧ kernel_ok A3 s3 ∧ tasks s3 !! t = Some (joined_task tkt2) ∧
          ¬ live A3 (Q_sem (SemJoin c)) ∧ dint s3 = dint s.
Proof.
  intros HK Hok Hid Htc Hn Hw Hm Hi Hne Ht Hf Hj Hinv Hdead. pose proof (so_current _ _ _ _ Hok) as Hc.
  unfold os_task_join. rewrite not_isr_ok, not_idle_ok, not_prepared_ok by (congruence || done).
  erewrite bind_Done by done. cbn beta. set (s0 := set_dint true s).
  erewrite (bind_Done (get_task t)) by (by apply get_task_Some).
  rewrite Hj, OS_ASSERT_true by done. rewrite OS_ASSERT_true by (by rewrite bool_decide_false).
  rewrite (proj2 (Z.ltb_lt _ _)) by (by destruct (state tkt)).
  destruct (join_announced A s0 c tk t tkt (kernel_ok_dint _ _ true HK) (sched_ok_dint _ _ true _ _ Hok) Htc Hw Hm Hi Ht)
    as (A1 & s2 & Hann & HK2 & Hok2 & Hq & He & Hl1 & Hm1 & Hv & Hts & Hn2 & Hw2 & Hd2). cbn in Hts.
  destruct (sem_down_waits A1 s2 c tk (SemJoin c) fuel 0 HK2 Hok2 Hid Hm1) as
    (new & tkn & A' & s' & k & Hrun & HK' & HL' & (Hse & _) & Htn & Htop & Hnc & Ht' & Habs & Hk);
    [by rewrite Hn2 | done | done | done | intros Hemp; apply Hne; intros i; by rewrite <- Hq |].
  cbn [when].
  erewrite bind_Switch; [| erewrite bind_Done by (by apply current_Some); rewrite Hann; erewrite bind_Switch by exact Hrun; reflexivity].
  rewrite Hts in Htn, Ht'. rewrite He in Habs. cbn in Habs.
  assert (∃ tkn0, tasks s !! new = Some tkn0 ∧ prio_current tkn0 = prio_current tkn) as (tkn0 & Htn0 & Hpn).
  { rewrite lookup_insert in Htn. case_decide; [injection Htn as <-; subst; by exists tkt | by exists tkn]. }
  exists new, tkn0, A', s'. eexists. split_and!; [reflexivity | done | done | | | |].
  - rewrite Hpn. destruct Htop as [Hh Hi']. rewrite Hq in Hh. split; [done |]. intros i ?. rewrite <- Hq. auto.
  - split; [by rewrite Hse | by apply HL' | done | pose proof atomic_wide; lia | lia].
  - rewrite Ht', !lookup_insert. destruct (decide (new = t)) as [-> |].
    + rewrite lookup_insert_eq in Htn. by injection Htn as <-.
    + rewrite decide_False by done. by rewrite decide_True by done.
  - intros A2 sr tk2 tkt2 HKr Hokr Hnr Hwr HSr Hcode Htr Hst2 Htopr.
    destruct (Hk A2 sr tk2 HKr) as (A3 & s3 & Hk3 & HK3 & HL3 & Ht3 & Ho3 & Hq3); [apply Hokr..|].
    rewrite Hcode, Hd2 in Hk3.
    destruct Ho3 as (Hse3 & _ & Hc3 & Hn3 & _ & Hw3 & _).
    set (s4 := set_dint (dint s0) s3) in *. set (tk4 := set_timer None (set_state TASKSTATE_RUNNING tk2)).
    destruct (join_end A3 s4 c tk4 t tkt2 fuel (dint s)) as (A4 & s5 & Hend & HK5 & Ht5 & Hl5 & Hd5); try done.
    + by apply kernel_ok_dint.
    + apply sched_ok_kernel; [by apply kernel_ok_dint | by apply HL3, Hokr | cbn; rewrite Hc3; apply Hokr | cbn; rewrite Ht3; apply lookup_insert_eq | apply Hokr].
    + cbn. by rewrite Hn3.
    + cbn. by rewrite Hw3.
    + eapply sem_ok_frame; [exact HSr | cbn; by rewrite Hse3 | apply HL3 | done].
    + intros i Hp. rewrite Hq3. by apply Htopr.
    + cbn. by rewrite Ht3, lookup_insert_ne.
    + exists A4, s5. split_and!; [| done | by rewrite Ht5, lookup_insert_eq | done | done].
      rewrite <- Hend. apply bind_rewrite. erewrite bind_Done by exact Hk3. by rewrite OS_ASSERT_true.
Qed.

(** C27: Joining a task. A task that another one joins already, or that was joined
    before, may not be joined: the system halts. A task that has ended gives its
    exit value at once, and its TCB becomes INVALID. For a task that still lives
    the caller creates its semaphore, leaves it in the TCB, where
    [os_task_exit] finds it, and waits there as the only waiter while the CPU
    goes to the highest ready task; when it is resumed with OS_OK after the end
    of the task, and no ready task has a higher priority (which is so when the
    scheduler resumes it), it returns the exit value, the TCB is INVALID, the semaphore is
    gone and the interrupt state is that of the call. *)
Theorem os_task_join_outcome A s c tk t tkt fuel :
  kernel_ok A s → sched_ok A s c tk → c ≠ task_idle → t ≠ c → isr_nesting s = 0 → waitqueue_current s = None →
  A !! L_mtx_list c = Some [] → idle_queue A (Q_sem (SemJoin c)) → ¬ pq_empty (qtasks A Q_ready) →
  tasks s !! t = Some tkt → (0 < fuel)%nat →
  if decide (join_sem tkt ≠ None ∨ state tkt = TASKSTATE_INVALID) then
    os_task_join fuel t s = os_halt (set_dint true s)
  else if decide (state tkt = TASKSTATE_DESTROYED) then
    os_task_join fuel t s = Done (ret_value tkt) (set_tasks (<[t := joined_task tkt]> (tasks s)) s)
  else
    ∃ new tkn A' s' k, os_task_join fuel t s = Switch c (set_task_current (Some new) s') k ∧ kernel_ok A' s' ∧
      tasks s !! new = Some tkn ∧ pq_top (qtasks A Q_ready) (prio_current tkn) new ∧
      sem_ok A' s' (SemJoin c) 0 [(c, prio_current tk)] ∧ join_sem <$> tasks s' !! t = Some (Some (SemJoin c)) ∧
      ∀ A2 s2 tk2 tkt2, kernel_ok A2 s2 → sched_ok A2 s2 c tk2 → isr_nesting s2 = 0 → waitqueue_current s2 = None →
        sem_ok A2 s2 (SemJoin c) 0 [] → block_code tk2 = OS_OK →
        tasks s2 !! t = Some tkt2 → state tkt2 = TASKSTATE_DESTROYED →
        (∀ i, prio_current tk2 < i → qtasks A2 Q_ready i = []) →
        ∃ A3 s3, k s2 = Done (ret_value tkt2) s3 ∧ kernel_ok A3 s3 ∧ tasks s3 !! t = Some (joined_task tkt2) ∧
          ¬ live A3 (Q_sem (SemJoin c)) ∧ dint s3 = dint s.
Proof.
  intros HK Hok Hid Htc Hn Hw Hm Hi Hne Ht Hf. case_decide as Hbad; [| case_decide as Hdead].
  3:{ apply (join_waits A s c tk t tkt); try done; [destruct (join_sem tkt) eqn:E; [destruct Hbad; by left | done] | tauto]. }
  all: unfold os_task_join; rewrite not_isr_ok, not_idle_ok, not_prepared_ok by (by rewrite ?(so_current _ _ _ _ Hok); congruence);
    erewrite bind_Done by done; cbn beta; erewrite (bind_Done (get_task t)) by (by apply get_task_Some).
  { destruct (join_sem tkt) eqn:E; [by rewrite OS_ASSERT_false |]. destruct Hbad as [? | ->]; [done |].
    by rewrite OS_ASSERT_true, OS_ASSERT_false. }
  rewrite OS_ASSERT_true by (destruct (join_sem tkt) eqn:E; [destruct Hbad; by left | done]).
  rewrite Hdead, OS_ASSERT_true by done. cbn [taskstate_val Z.ltb Z.compare when]. erewrite bind_Done by done.
  erewrite bind_Done by (by apply get_task_Some). rewrite Hdead. erewrite bind_Done by done.
  erewrite bind_Done by (by apply mod_task_Some).
  erewrite bind_Done by (apply mod_task_Some; cbn; apply lookup_insert_eq). cbn [tasks set_tasks]. rewrite insert_insert_eq.
  erewrite bind_Done by (apply get_task_Some; cbn; apply lookup_insert_eq). by destruct s.
Qed.
End properties.

(** *** The property at a concrete state *)

Section demo.
#[local] Existing Instance avr_port.
#[local] Existing Instance avr_port_ok.
#[local] Opaque demo_join demo_join_lists.

(** Task 1 joins task 2, which waits for a semaphore. *)
Lemma os_task_join_outcome_witness : ∃ new A' s' k,
  os_task_join 5 2 demo_join = Switch 1%nat (set_task_current (Some new) s') k ∧ kernel_ok A' s' ∧
  sem_ok A' s' (SemJoin 1) 0 [(1%nat, 2)] ∧ join_sem <$> tasks s' !! 2%nat = Some (Some (SemJoin 1)).
Proof.
  assert (∃ tkt, tasks demo_join !! 2%nat = Some tkt ∧ join_sem tkt = None ∧ state tkt = TASKSTATE_WAIT) as (tkt & Ht & Hj & Hst).
  { eexists. split; [vm_compute; reflexivity | split; reflexivity]. }
  pose proof (os_task_join_outcome demo_join_lists demo_join 1 demo_ending 2 tkt 5 demo_join_ok demo_join_running
    ltac:(done) ltac:(done) ltac:(vm_compute; reflexivity) ltac:(vm_compute; reflexivity) ltac:(vm_compute; reflexivity)
    (idle_queue_b_ok (lists_of demo_join) (Q_sem (SemJoin 1)) ltac:(vm_compute; reflexivity))) as H.
  rewrite decide_False in H by (rewrite Hj, Hst; intros [Hne | Hne]; [by apply Hne | discriminate Hne]).
  rewrite decide_False in H by (rewrite Hst; intros Hne; discriminate Hne).
  destruct H as (new & tkn & A' & s' & k & Hrun & HK & _ & _ & HS & Hjs & _).
  - intros He. specialize (He 0). vm_compute in He. discriminate He.
  - exact Ht.
  - lia.
  - exists new, A', s', k. split; [exact Hrun |]. split; [exact HK |]. split; [exact HS | exact Hjs].
Defined.
End demo.
