(* ===== verification/Mtx.v ===== *)
(** * Mutexes with priority inheritance (source/os_mtx.c)

    A mutex has an owner, a recursion counter and a queue of waiters; a task has
    the list of the mutexes it holds. The file defines all operations of os_mtx.c
    and relates owners, lists and waiters by the invariant [mutexes_ok]. The
    theorems here are about locking a free or an own mutex, unlocking with the
    hand-over to the first waiter and the reset of the caller's priority, creation
    and destruction; those about blocking on a mutex are in Boost.v. *)

From stdpp Require Import base decidable list countable gmap.
From Stdlib Require Import ZArith Lia.
From S2P Require Import Prelude Arch LinkedList Kernel TaskQueue Timer Sched Invariant QueueLife Decide Sem.

Local Open Scope Z_scope.

Section mtx.
Context {AP : ArchPort}.

Definition set_owner x m := Mtx x (recur m).
Definition set_recur x m := Mtx (owner m) x.
Definition mod_mtx (m : mid) (f : os_mtx_t → os_mtx_t) : K unit :=
  mtx ← get_mtx m; put_mtx m (f mtx).

Definition os_mtx_set_owner (m : mid) (t : tid) : K unit :=
  mod_mtx m (set_owner (Some t));;
  on_links (list_append (Some (L_mtx_list t)) (Some (L_mtx m)));;
  mod_mtx m (set_recur 1).

Definition os_mtx_clear_owner (m : mid) : K unit :=
  mod_mtx m (set_owner None);;
  on_links (list_unlink (Some (L_mtx m))).

(** [os_container_of(task->task_queue, os_mtx_t, task_queue)] *)
Definition mtx_of_queue (q : option qid) : K mid :=
  match q with Some (Q_mtx m) => mret m | _ => undefined end.
(** [os_container_of(itr, os_mtx_t, listh)] *)
Definition mtx_of_link (p : option laddr) : K mid :=
  match p with Some (L_mtx m) => mret m | _ => undefined end.

Definition os_max (x y : Z) : Z := if x >? y then x else y.

(** The [while (1)] loop of [os_mtx_lock_prio_boost]. *)
Fixpoint prio_boost_loop (fuel : nat) (task_current_prio : Z) (t : tid) : K unit :=
  match fuel with
  | O => nofuel
  | S fuel =>
      c ← current;
      ctask ← get_task c;
      let prio_new := os_max (prio_current ctask) task_current_prio in
      os_taskqueue_reprio t prio_new;;
      task ← get_task t;
      if negb (bool_decide (state task = TASKSTATE_WAIT))
         || negb (bool_decide (block_type task = OS_TASKBLOCK_MTX))
      then mret tt else
      m ← mtx_of_queue (task_queue task);
      mtx ← get_mtx m;
      t' ← deref (owner mtx);
      prio_boost_loop fuel task_current_prio t'
  end.

Definition os_mtx_lock_prio_boost (fuel : nat) (m : mid) : K unit :=
  mtx ← get_mtx m;
  t ← deref (owner mtx);
  c ← current;
  ctask ← get_task c;
  task ← get_task t;
  when (prio_current task <? prio_current ctask)
    (prio_boost_loop fuel (prio_current ctask) t).

(** The loop of [os_mtx_unlock_prio_reset] over the mutexes held. *)
Fixpoint prio_reset_loop (fuel : nat) (c : tid) (itr : option laddr) (prio_new : Z) : K Z :=
  match fuel with
  | O => nofuel
  | S fuel =>
      if list_itr_end (Some (L_mtx_list c)) itr then mret prio_new else
      itr_mtx ← mtx_of_link itr;
      task ← os_taskqueue_peek (Q_mtx itr_mtx);
      prio_new ←
        match task with
        | Some t => tk ← get_task t; mret (os_max prio_new (prio_current tk))
        | None => mret prio_new
        end;
      itr ← read_links (get_next itr);
      prio_reset_loop fuel c itr prio_new
  end.

Definition os_mtx_unlock_prio_reset (fuel : nat) : K unit :=
  c ← current;
  task ← get_task c;
  when (negb (prio_current task =? prio_base task))
    (itr ← read_links (list_itr_begin (Some (L_mtx_list c)));
     prio_new ← prio_reset_loop fuel c itr (prio_base task);
     mod_task c (set_prio_current prio_new)).

(** [memset(mtx, 0, sizeof(os_mtx_t))] *)
Definition mtx_memset (m : mid) : K unit :=
  null_links [L_mtx m];;
  taskqueue_memset (Q_mtx m);;
  put_mtx m (Mtx None 0).

Definition os_mtx_create (m : mid) : K unit :=
  assert_not_isr;;
  assert_not_prepared;;
  mtx_memset m;;
  os_taskqueue_init (Q_mtx m).

Definition os_mtx_destroy (fuel : nat) (m : mid) : K unit :=
  assert_not_isr;;
  assert_not_prepared;;
  cristate ← arch_critical_enter;
  mtx ← get_mtx m;
  match owner mtx with
  | Some o =>
      c ← gets task_current;
      OS_ASSERT (bool_decide (c = Some o));;
      os_mtx_clear_owner m;;
      os_mtx_unlock_prio_reset fuel;;
      wake_destroyed fuel false (Q_mtx m)
  | None => mret tt
  end;;
  mtx_memset m;;
  os_schedule 1;;
  arch_critical_exit cristate.

Definition os_mtx_lock (fuel : nat) (m : mid) : K Z :=
  assert_not_isr;;
  assert_not_idle;;
  assert_not_prepared;;
  cristate ← arch_critical_enter;
  mtx ← get_mtx m;
  c ← current;
  ret ←
    match owner mtx with
    | None => os_mtx_set_owner m c;; mret OS_OK
    | Some o =>
        if decide (o = c) then
          mod_mtx m (λ x, set_recur (u8 (recur x + 1)) x);;
          mret OS_OK
        else
          os_mtx_lock_prio_boost fuel m;;
          os_task_block_switch (Q_mtx m) OS_TASKBLOCK_MTX;;
          c ← current;
          task ← get_task c;
          mret (block_code task)
    end;
  arch_critical_exit cristate;;
  mret ret.

Definition os_mtx_unlock (fuel : nat) (m : mid) : K unit :=
  assert_not_isr;;
  mtx ← get_mtx m;
  c ← gets task_current;
  OS_ASSERT (bool_decide (owner mtx = c));;
  assert_not_prepared;;
  cristate ← arch_critical_enter;
  mod_mtx m (λ x, set_recur (u8 (recur x - 1)) x);;
  mtx ← get_mtx m;
  (if recur mtx >? 0 then mret tt else
   os_mtx_clear_owner m;;
   os_mtx_unlock_prio_reset fuel;;
   task ← os_taskqueue_dequeue (Q_mtx m);
   match task with
   | Some t =>
       os_mtx_set_owner m t;;
       mod_task t (set_block_code OS_OK);;
       os_task_makeready t;;
       os_schedule 1
   | None => mret tt
   end);;
  arch_critical_exit cristate.

End mtx.

(** ** Ownership *)

Definition mtx_of (a : laddr) : option mid := match a with L_mtx m => Some m | _ => None end.
(** The mutexes that task [t] owns, in the order in which it got them. *)
Definition held (A : gmap laddr (list laddr)) (t : tid) : list mid :=
  omap mtx_of (default [] (A !! L_mtx_list t)).
Definition set_held (A : gmap laddr (list laddr)) (t : tid) (ms : list mid) : gmap laddr (list laddr) :=
  <[L_mtx_list t := L_mtx <$> ms]> A.

(** The owner field of a mutex agrees with the lists of the tasks, and tasks
    wait only for owned mutexes. In the middle of an unlock the mutex [e] is
    exempt from the latter. *)
Record mutexes_wf (e : option mid) (A : gmap laddr (list laddr)) (s : kstate) : Prop := {
  mo_list : ∀ t xs, A !! L_mtx_list t = Some xs → xs = L_mtx <$> held A t;
  mo_held : ∀ t m, m ∈ held A t → ∃ mx, mtxs s !! m = Some mx ∧ owner mx = Some t ∧ live A (Q_mtx m);
  mo_mutex : ∀ m mx, mtxs s !! m = Some mx → live A (Q_mtx m) →
    is_Some (links s !! L_mtx m) ∧ 0 ≤ recur mx ≤ 255 ∧
    match owner mx with
    | Some o => m ∈ held A o
    | None => unlinked A (L_mtx m) ∧ (e ≠ Some m → pq_empty (qtasks A (Q_mtx m)))
    end;
  mo_task : ∀ t tk, tasks s !! t = Some tk → is_Some (A !! L_mtx_list t)
}.
Abbreviation mutexes_ok := (mutexes_wf None).

Section facts.
Context {AP : ArchPort} {APOK : ArchPortOk AP}.
Implicit Types (A : gmap laddr (list laddr)) (s : kstate) (q : qid) (t c o : tid) (tk : os_task_t) (m : mid) (mx : os_mtx_t).

Lemma omap_mtx_of (ms : list mid) : omap mtx_of (L_mtx <$> ms) = ms.
Proof. induction ms; cbn; [done | by f_equal]. Qed.

Lemma held_set A t ms t' : held (set_held A t ms) t' = if decide (t' = t) then ms else held A t'.
Proof.
  unfold held, set_held. destruct (decide (t' = t)) as [-> |].
  - rewrite lookup_insert_eq. apply omap_mtx_of.
  - by rewrite lookup_insert_ne by congruence.
Qed.

Lemma elem_of_L_mtx m (ms : list mid) : L_mtx m ∈ L_mtx <$> ms ↔ m ∈ ms.
Proof. rewrite list_elem_of_fmap. split; [by intros (? & [= ->] & ?) | eauto]. Qed.

Lemma live_set_held A t ms q : live (set_held A t ms) q ↔ live A q.
Proof. unfold live, set_held. split; intros Hl p Hp; specialize (Hl p Hp); by rewrite lookup_insert_ne in *. Qed.

Lemma qtasks_set_held A t ms q i : qtasks (set_held A t ms) q i = qtasks A q i.
Proof. apply qtasks_lookup. by apply lookup_insert_ne. Qed.

(** The kernel invariant does not see the mutexes. *)
Lemma kernel_ok_held A s t ms h : kernel_ok A s → repr h (set_held A t ms) → same_dom h (links s) →
  kernel_ok (set_held A t ms) (set_links h s).
Proof.
  intros HK HR Hd. assert (∀ a, (∀ m, a ≠ L_mtx m) → (∀ t, a ≠ L_mtx_list t) → unlinked A a → unlinked (set_held A t ms) a) as Hu.
  { intros a Ha Hb Hu. apply unlinked_insert_ne; [done |]. rewrite not_elem_of_cons. split; [apply Hb |].
    intros (m & -> & _)%list_elem_of_fmap. by eapply Ha. }
  eapply (kernel_ok_lists A); [done | by exists h, (masks s); destruct s | | by apply lookup_insert_ne | | by intros x; apply lookup_insert_ne | ].
  - apply queues_ok_other; [done | | done | intros t'; apply Hd | apply HK].
    intros t'. rewrite not_elem_of_cons. split; [done |]. by intros (? & ? & _)%list_elem_of_fmap.
  - intros x. by apply Hu.
  - by apply Hu, (ko_auto _ _ HK).
Qed.

Lemma kernel_ok_mtxs A s f : kernel_ok A s → kernel_ok A (set_mtxs f s).
Proof. intros HK. by eapply kernel_ok_globals. Qed.

Lemma mod_mtx_Some m f mx s : mtxs s !! m = Some mx →
  mod_mtx m f s = Done tt (set_mtxs (<[m := f mx]> (mtxs s)) s).
Proof. intros Hm. unfold mod_mtx. by erewrite bind_Done by (by apply get_mtx_Some). Qed.

(** Giving a free mutex to a task. *)
Lemma set_owner_spec e A s m mx t :
  kernel_ok A s → mutexes_wf e A s → e = None ∨ e = Some m → mtxs s !! m = Some mx → owner mx = None →
  live A (Q_mtx m) → is_Some (A !! L_mtx_list t) →
  ∃ h, let s' := set_links h (set_mtxs (<[m := Mtx (Some t) 1]> (mtxs s)) s) in
    os_mtx_set_owner m t s = Done tt s' ∧ same_dom h (links s) ∧
    kernel_ok (set_held A t (held A t ++ [m])) s' ∧ mutexes_ok (set_held A t (held A t ++ [m])) s'.
Proof.
  intros HK HM He Hm Ho Hl [xs Hxs].
  destruct (mo_mutex _ _ _ HM m mx Hm Hl) as (Hd & _ & Hfree). rewrite Ho in Hfree. destruct Hfree as [Hu _].
  pose proof (mo_list _ _ _ HM _ _ Hxs) as Hxs'.
  destruct (list_append_repr (links s) A _ xs (L_mtx m) (qo_repr _ _ (ko_queues _ _ HK)) Hxs Hu Hd) as (h & Ha & HR & Hdom).
  rewrite Hxs' in HR. change [L_mtx m] with (L_mtx <$> [m]) in HR. rewrite <- fmap_app in HR.
  exists h. intros s'. split_and!; [| done | |].
  - unfold os_mtx_set_owner. erewrite bind_Done by (by apply mod_mtx_Some).
    erewrite bind_Done by (by apply on_links_Some).
    erewrite mod_mtx_Some by (cbn; apply lookup_insert_eq). unfold s'. cbn. by rewrite insert_insert_eq.
  - by apply (kernel_ok_held A (set_mtxs _ s)); [apply kernel_ok_mtxs | |].
  - assert (∀ t', m ∉ held A t') as Hno.
    { intros t' Hin. destruct (mo_held _ _ _ HM _ _ Hin) as (? & ? & ? & _). congruence. }
    split.
    + intros t' ys. rewrite held_set. unfold set_held. rewrite lookup_insert.
      case_decide as H1; case_decide as H2; try congruence. apply (mo_list _ _ _ HM).
    + intros t' m'. rewrite held_set. setoid_rewrite live_set_held. cbn. rewrite lookup_insert. case_decide as H1.
      * subst t'. rewrite elem_of_app, list_elem_of_singleton. intros [Hin | ->]; [| rewrite decide_True by done; by eexists].
        rewrite decide_False by (intros ->; by apply (Hno t)). by apply (mo_held _ _ _ HM).
      * intros Hin. rewrite decide_False by (intros ->; by apply (Hno t')). by apply (mo_held _ _ _ HM).
    + intros m' mx'. rewrite live_set_held. cbn. rewrite lookup_insert. case_decide as H1.
      * subst m'. intros [= <-] _. split_and!; [by apply Hdom | cbn; lia.. |]. cbn. rewrite held_set, decide_True by done.
        rewrite elem_of_app. right. apply list_elem_of_here.
      * intros Hm' Hl'. destruct (mo_mutex _ _ _ HM m' mx' Hm' Hl') as (Hd' & Hr' & Hown).
        split_and!; [by apply Hdom | lia.. |]. destruct (owner mx') as [o |] eqn:Eo.
        -- rewrite held_set. case_decide; subst; [| done]. rewrite elem_of_app. by left.
        -- destruct Hown as [Hu' He']. split.
           ++ apply unlinked_insert_ne; [done |]. rewrite not_elem_of_cons. split; [done |].
              rewrite elem_of_L_mtx, elem_of_app, list_elem_of_singleton. intros [Hin | ->]; [| done].
              destruct (mo_held _ _ _ HM _ _ Hin) as (? & ? & ? & _). congruence.
           ++ intros _ i. rewrite qtasks_set_held. apply He'. destruct He as [-> | ->]; [done | by intros [= ?]].
    + intros t' tk Ht. unfold set_held. rewrite lookup_insert. case_decide; [done | by apply (mo_task _ _ _ HM t' tk)].
Qed.

(** Taking a mutex from its owner. *)
Lemma clear_owner_spec A s m o r :
  kernel_ok A s → mutexes_ok A s → mtxs s !! m = Some (Mtx (Some o) r) → live A (Q_mtx m) →
  ∃ h, let s' := set_links h (set_mtxs (<[m := Mtx None r]> (mtxs s)) s) in
    let A' := set_held A o (filter (.≠ m) (held A o)) in
    os_mtx_clear_owner m s = Done tt s' ∧ same_dom h (links s) ∧
    kernel_ok A' s' ∧ mutexes_wf (Some m) A' s'.
Proof.
  intros HK HM Hm Hl. pose proof (qo_repr _ _ (ko_queues _ _ HK)) as HR.
  destruct (mo_mutex _ _ _ HM m _ Hm Hl) as (Hd & Hr & Hin). cbn in Hin, Hr.
  assert (∃ xs, A !! L_mtx_list o = Some xs) as [xs Hxs].
  { unfold held in Hin. destruct (A !! L_mtx_list o); [eauto | by apply elem_of_nil in Hin]. }
  pose proof (mo_list _ _ _ HM _ _ Hxs) as Hxs'.
  pose proof Hin as (l & r' & Hlr)%list_elem_of_split. rewrite Hxs', Hlr, fmap_app, fmap_cons in Hxs.
  destruct (list_unlink_repr (links s) A _ _ _ _ HR Hxs) as (h & Hu & HR' & Hdom & Hun).
  assert (NoDup (held A o)) as Hnd.
  { pose proof (repr_nodup _ _ HR _ _ Hxs) as [_ Hn]%NoDup_cons. rewrite <- fmap_cons, <- fmap_app, <- Hlr in Hn.
    by apply NoDup_fmap_1 in Hn. }
  assert (filter (.≠ m) (held A o) = l ++ r') as Hfil by (rewrite Hlr in Hnd |- *; by apply filter_ne_split).
  exists h. intros s' A'. unfold A'. rewrite Hfil. rewrite <- fmap_app in HR', Hun.
  split_and!; [| done | |].
  - unfold os_mtx_clear_owner. erewrite bind_Done by (by apply mod_mtx_Some). by apply on_links_Some.
  - by apply (kernel_ok_held A (set_mtxs _ s)); [apply kernel_ok_mtxs | |].
  - assert (∀ m', m' ∈ l ++ r' ↔ m' ≠ m ∧ m' ∈ held A o) as Hmem by (intros; by rewrite <- Hfil, list_elem_of_filter).
    assert (∀ t, m ∈ held A t → t = o) as Hown.
    { intros t Ht. destruct (mo_held _ _ _ HM _ _ Ht) as (mx' & ? & ? & _). simplify_eq/=. done. }
    split.
    + intros t' ys. rewrite held_set. unfold set_held. rewrite lookup_insert.
      case_decide as H1; case_decide as H2; try congruence. apply (mo_list _ _ _ HM).
    + intros t' m'. rewrite held_set. setoid_rewrite live_set_held. cbn. rewrite lookup_insert. case_decide as H1.
      * subst t'. rewrite Hmem. intros [Hne Hm']. rewrite decide_False by done. by apply (mo_held _ _ _ HM).
      * intros Hm'. rewrite decide_False by (intros ->; by apply H1, Hown). by apply (mo_held _ _ _ HM).
    + intros m' mx'. rewrite live_set_held. cbn. rewrite lookup_insert. case_decide as H1.
      * subst m'. intros [= <-] _. split; [by apply Hdom |]. split; [done |]. cbn. split; [done | by intros []].
      * intros Hm' Hl'. destruct (mo_mutex _ _ _ HM m' mx' Hm' Hl') as (Hd' & Hr' & Ho').
        split_and!; [by apply Hdom | lia.. |]. destruct (owner mx') as [o' |] eqn:Eo.
        -- rewrite held_set. case_decide; subst; [| done]. by apply Hmem.
        -- destruct Ho' as [Hu' He']. split; [| intros _ i; rewrite qtasks_set_held; by apply He'].
           apply unlinked_insert_ne; [done |]. rewrite not_elem_of_cons. split; [done |].
           rewrite elem_of_L_mtx, Hmem. intros [_ Hin']. destruct (mo_held _ _ _ HM _ _ Hin') as (? & ? & ? & _). congruence.
    + intros t' tk Ht. unfold set_held. rewrite lookup_insert. case_decide; [done | by apply (mo_task _ _ _ HM t' tk)].
Qed.

(** *** The priority a task inherits *)

Lemma absq_top_head A s q t p : queues_ok A s → pq_top (qtasks A q) p t → head (absq A q) = Some (t, p).
Proof.
  intros HQ [Hh Htop]. destruct (qtasks A q p) as [| t' ts] eqn:Hts; [done |]. injection Hh as ->.
  assert (t ∈ qtasks A q p) as Hin by (rewrite Hts; apply list_elem_of_here).
  destruct (qtasks_live _ _ HQ _ _ _ Hin) as (_ & Hp & _).
  unfold absq. erewrite absq_from_top; [| | exact Hts | exact Htop]; [done | cbn in *; lia].
Qed.

(** The highest priority among [base] and the first waiters of the mutexes [ms]. *)
Definition inherited A (base : Z) (ms : list mid) : Z :=
  foldl (λ p m, match head (absq A (Q_mtx m)) with Some (_, pw) => Z.max p pw | None => p end) base ms.

Lemma os_max_max x y : os_max x y = Z.max x y.
Proof. unfold os_max. destruct (Z.gtb_spec x y); lia. Qed.

Lemma prio_reset_loop_spec A s c ms2 : queues_ok A s → ∀ fuel ms1 prio,
  A !! L_mtx_list c = Some (L_mtx <$> ms1 ++ ms2) → (∀ m, m ∈ ms2 → live A (Q_mtx m)) →
  (length ms2 < fuel)%nat →
  prio_reset_loop fuel c (Some (hdd (L_mtx <$> ms2) (L_mtx_list c))) prio s = Done (inherited A prio ms2) s.
Proof.
  intros HQ. induction ms2 as [| m ms2 IH]; intros fuel ms1 prio HA Hl Hf;
    (destruct fuel as [| fuel]; [lia |]); cbn [prio_reset_loop hdd fmap list_fmap]; unfold list_itr_end.
  - by rewrite bool_decide_true.
  - rewrite bool_decide_false by done. erewrite bind_Done by done.
    assert (get_next (Some (L_mtx m)) (links s) = Some (Some (hdd (L_mtx <$> ms2) (L_mtx_list c)))) as Hn.
    { eapply repr_next; [apply HQ |]. by rewrite fmap_app, fmap_cons in HA. }
    assert (A !! L_mtx_list c = Some (L_mtx <$> (ms1 ++ [m]) ++ ms2)) as HA' by (by rewrite <- app_assoc).
    cbn in Hf. assert (∀ m', m' ∈ ms2 → live A (Q_mtx m')) as Hl' by (intros; by apply Hl, list_elem_of_further).
    destruct (peek_spec A s (Q_mtx m) HQ) as [[He Hp] | (t & tk & Hp & Ht & _ & Htop)]; [by apply Hl, list_elem_of_here | |].
    + erewrite bind_Done by exact Hp. erewrite bind_Done by done.
      erewrite bind_Done by (by apply read_links_Some). rewrite (IH fuel (ms1 ++ [m])) by (done || lia).
      unfold inherited. cbn [foldl]. assert (absq A (Q_mtx m) = []) as -> by (by apply absq_from_empty). done.
    + erewrite bind_Done by exact Hp.
      erewrite bind_Done by (by erewrite bind_Done by (by apply get_task_Some)).
      erewrite bind_Done by (by apply read_links_Some). rewrite (IH fuel (ms1 ++ [m])) by (done || lia).
      unfold inherited. cbn [foldl]. by rewrite (absq_top_head A s _ t (prio_current tk)), os_max_max by done.
Qed.

(** What [os_mtx_unlock_prio_reset] makes of the priority of task [tk]. *)
Definition reset_prio A c tk : Z :=
  if prio_current tk =? prio_base tk then prio_current tk else inherited A (prio_base tk) (held A c).

Lemma prio_reset_spec e A s c tk fuel :
  kernel_ok A s → mutexes_wf e A s → task_current s = Some c → tasks s !! c = Some tk →
  (length (held A c) < fuel)%nat →
  os_mtx_unlock_prio_reset fuel s = Done tt (set_tasks (<[c := set_prio_current (reset_prio A c tk) tk]> (tasks s)) s).
Proof.
  intros HK HM Hc Ht Hf. unfold os_mtx_unlock_prio_reset, reset_prio.
  erewrite bind_Done by (by apply current_Some). erewrite bind_Done by (by apply get_task_Some).
  destruct (Z.eqb_spec (prio_current tk) (prio_base tk)) as [Heq |]; cbn [negb when].
  - rewrite insert_id; [by destruct s |]. rewrite Ht. by destruct tk.
  - destruct (mo_task _ _ _ HM _ _ Ht) as [xs Hxs]. pose proof (mo_list _ _ _ HM _ _ Hxs) as Heq. rewrite Heq in Hxs.
    erewrite bind_Done by (apply read_links_Some; eapply repr_begin; [apply HK | exact Hxs]).
    erewrite bind_Done.
    2:{ eapply (prio_reset_loop_spec A s c (held A c) (ko_queues _ _ HK) fuel []); [done | | done].
        intros m Hm. by destruct (mo_held _ _ _ HM _ _ Hm) as (? & _ & _ & ?). }
    by apply mod_task_Some.
Qed.

(** It is the least priority that is at least the base priority and that of
    every waiter. *)
Lemma inherited_ge A base ms : base ≤ inherited A base ms.
Proof.
  revert base. unfold inherited. induction ms as [| m ms IH]; intros base; cbn; [lia |].
  etransitivity; [| apply IH]. destruct (head (absq A (Q_mtx m))) as [[]|]; lia.
Qed.

Lemma absq_from_sorted n f t p ws : absq_from n f = (t, p) :: ws → ∀ t' p', (t', p') ∈ absq_from n f → p' ≤ p.
Proof.
  revert t p ws. induction n as [| n IH]; intros t p ws; cbn [absq_from]; [done |].
  intros Heq t' p' [Hin | Hin]%elem_of_app.
  - apply list_elem_of_fmap in Hin as (x & [= -> ->] & Hx). destruct (f (Z.of_nat n)) as [| y ys]; [by apply elem_of_nil in Hx |].
    cbn in Heq. injection Heq as _ <- _. lia.
  - destruct (f (Z.of_nat n)) as [| y ys]; [by eapply IH |]. cbn in Heq. injection Heq as _ <- _.
    apply absq_from_elem in Hin as [? _]. lia.
Qed.

Lemma inherited_waiters A base ms m t p : m ∈ ms → (t, p) ∈ absq A (Q_mtx m) → p ≤ inherited A base ms.
Proof.
  revert base. induction ms as [| m' ms IH]; intros base Hm Hw; [by apply elem_of_nil in Hm |].
  apply elem_of_cons in Hm as [<- | Hm]; [| by apply IH].
  unfold inherited. cbn [foldl]. etransitivity; [| apply inherited_ge].
  destruct (absq A (Q_mtx m)) as [| [t' p'] ws] eqn:E; [by apply elem_of_nil in Hw |]. cbn.
  rewrite <- E in Hw. pose proof (absq_from_sorted _ _ _ _ _ E _ _ Hw). lia.
Qed.

Lemma inherited_attained A base ms : inherited A base ms = base ∨
  ∃ m t, m ∈ ms ∧ (t, inherited A base ms) ∈ absq A (Q_mtx m).
Proof.
  revert base. induction ms as [| m ms IH]; intros base; [by left |].
  unfold inherited at 1 2. cbn [foldl]. fold (inherited A).
  set (b := match head _ with Some _ => _ | None => _ end). change (foldl _ b ms) with (inherited A b ms).
  destruct (IH b) as [-> | (m' & t & Hm & Hw)].
  - unfold b. destruct (absq A (Q_mtx m)) as [| [t p] ws] eqn:E; cbn; [by left |].
    destruct (decide (p ≤ base)); [left; lia | right]. exists m, t. split; [apply list_elem_of_here |].
    rewrite E, Z.max_r by lia. apply list_elem_of_here.
  - right. exists m', t. split; [by apply list_elem_of_further | done].
Qed.

Lemma inherited_range A s base ms : queues_ok A s → 0 ≤ base < OS_CONFIG_PRIOCNT →
  0 ≤ inherited A base ms < OS_CONFIG_PRIOCNT.
Proof.
  intros HQ Hb. destruct (inherited_attained A base ms) as [-> | (m & t & _ & Hw)]; [done |].
  unfold absq in Hw. apply absq_from_elem in Hw as [? _]. cbn in *. lia.
Qed.

(** *** Frames *)

Lemma mutexes_same e A s s' : mutexes_wf e A s → mtxs s' = mtxs s → links s' = links s →
  (∀ t, is_Some (tasks s' !! t) → is_Some (tasks s !! t)) → mutexes_wf e A s'.
Proof.
  intros [H1 H2 H3 H4] Hm Hl Ht. split; rewrite ?Hm, ?Hl; try done.
  intros t tk Htk. destruct (Ht t) as [tk' Htk']; [by rewrite Htk | by eapply H4].
Qed.

Lemma mutexes_recur e A s m o r r' : mutexes_wf e A s → mtxs s !! m = Some (Mtx (Some o) r) → 0 ≤ r' ≤ 255 →
  mutexes_wf e A (set_mtxs (<[m := Mtx (Some o) r']> (mtxs s)) s).
Proof.
  intros [H1 H2 H3 H4] Hm Hr. split; try done; cbn.
  - intros t m' Hin. destruct (H2 t m' Hin) as (mx & Hmx & Ho & Hl). rewrite lookup_insert.
    case_decide; subst; [| by exists mx]. simplify_eq/=. by eexists.
  - intros m' mx. rewrite lookup_insert. case_decide as Hm'; [| apply H3]. subst m'. intros [= <-] Hl.
    destruct (H3 m _ Hm Hl) as (? & _ & ?). split; [done | by split].
Qed.

Lemma mutexes_bucket e A s T s' q p ts :
  mutexes_wf e A s → queues_step s T s' → is_Some (A !! L_bucket q p) →
  (∀ t, is_Some (T !! t) → is_Some (tasks s !! t)) →
  (∀ m mx, q = Q_mtx m → mtxs s !! m = Some mx → owner mx = None → e ≠ Some m → ts = []) →
  mutexes_wf e (set_bucket A q p ts) s'.
Proof.
  intros [H1 H2 H3 H4] Hst Hb Ht Hts. pose proof (queues_step_tasks _ _ _ Hst) as HT. destruct Hst as (h & mk & -> & Hd).
  assert (∀ t, held (set_bucket A q p ts) t = held A t) as Hh by (intros; unfold held; by rewrite set_bucket_other).
  assert (∀ q', live (set_bucket A q p ts) q' ↔ live A q') as Hl.
  { intros q'. split; [intros Hl; by eapply live_insert_inv | apply live_set_bucket]. }
  split; cbn.
  - intros t xs. rewrite set_bucket_other, Hh by done. apply H1.
  - intros t m. rewrite Hh. setoid_rewrite Hl. apply H2.
  - intros m mx Hm. rewrite Hl. intros Hl'. destruct (H3 m mx Hm Hl') as (Hd' & Hr & Ho).
    split; [by apply Hd | split; [done |]]. destruct (owner mx) as [o |] eqn:Eo; [by rewrite Hh |].
    destruct Ho as [Hu He]. split; [by apply unlinked_bucket |]. intros Hne i. rewrite qtasks_set_bucket.
    case_decide as Hq; [| by apply He]. destruct Hq as [Hq _]. by eapply Hts.
  - intros t tk Htk. rewrite set_bucket_other by done. destruct (Ht t) as [tk' Htk']; [by cbn in Htk; rewrite Htk | by eapply H4].
Qed.

Lemma kernel_ok_mod_prio A s t tk p : kernel_ok A s → tasks s !! t = Some tk → task_queue tk = None →
  0 ≤ p < OS_CONFIG_PRIOCNT → kernel_ok A (set_tasks (<[t := set_prio_current p tk]> (tasks s)) s).
Proof.
  intros [HQ HT HP HG HA] Ht Hq Hp. split; [by eapply queues_ok_mod_task | by destruct HT | | |done]; cbn.
  - intros t2 tk2. rewrite lookup_insert. case_decide; [by intros [= <-] | apply HP].
  - intros t2 tk2 x. rewrite lookup_insert. case_decide as E; [intros [= <-]; rewrite <- E; apply (HG t tk x Ht) | apply HG].
Qed.

(** Giving up a mutex: no owner, and the priority of the task reset. *)
Lemma release_spec A s c tk m r fuel :
  kernel_ok A s → mutexes_ok A s → task_current s = Some c → tasks s !! c = Some tk → task_queue tk = None →
  0 ≤ prio_base tk < OS_CONFIG_PRIOCNT →
  mtxs s !! m = Some (Mtx (Some c) r) → live A (Q_mtx m) → (length (held A c) ≤ fuel)%nat →
  ∃ s', let A' := set_held A c (filter (.≠ m) (held A c)) in
    (∀ B (k : K B), (os_mtx_clear_owner m;; os_mtx_unlock_prio_reset fuel;; k) s = k s') ∧
    kernel_ok A' s' ∧ mutexes_wf (Some m) A' s' ∧ same_dom (links s') (links s) ∧
    ∃ h, s' = set_tasks (<[c := set_prio_current (reset_prio A' c tk) tk]> (tasks s))
      (set_links h (set_mtxs (<[m := Mtx None r]> (mtxs s)) s)).
Proof.
  intros HK HM Hc Ht Hq Hb Hm Hl Hf.
  destruct (clear_owner_spec A s m c r HK HM Hm Hl) as (h & Hrun & Hd & HK1 & HM1). cbn zeta in *.
  set (A' := set_held A c _) in *. set (s1 := set_links h _) in *.
  assert (length (held A' c) < fuel)%nat as Hlen.
  { unfold A'. rewrite held_set, decide_True by done.
    destruct (mo_mutex _ _ _ HM m _ Hm Hl) as (_ & _ & Hin). cbn in Hin. eapply Nat.lt_le_trans; [| exact Hf].
    apply (length_filter_lt _ _ m); [done | intros Hne; by apply Hne]. }
  pose proof (prio_reset_spec _ A' s1 c tk fuel HK1 HM1 Hc Ht Hlen) as Hrun2.
  eexists. split_and!; [| | | | by exists h].
  - intros B k. erewrite bind_Done by exact Hrun. by erewrite bind_Done by exact Hrun2.
  - apply (kernel_ok_mod_prio A' s1); [done.. |]. unfold reset_prio.
    case_match; [by apply (ko_prio _ _ HK c) | eapply inherited_range; [apply HK1 | done]].
  - eapply mutexes_same; [exact HM1 | done | done |]. intros t. cbn. rewrite lookup_insert.
    case_decide; subst; [by rewrite Ht | done].
  - done.
Qed.

Lemma live_bucket_lookup A s q t tk : queues_ok A s → tasks s !! t = Some tk → task_queue tk = Some q →
  is_Some (A !! L_bucket q (prio_current tk)).
Proof.
  intros HQ Ht Hq. pose proof (qo_task _ _ HQ t tk Ht) as [_ Hin]. rewrite Hq in Hin.
  destruct (qtasks_live _ _ HQ _ _ _ Hin) as (Hl & Hp & _). by apply Hl.
Qed.

(** A task that was taken out of the queue of a free mutex becomes its owner, and ready. *)
Lemma make_owner A s m t tk :
  kernel_ok A s → mutexes_wf (Some m) A s → live A Q_ready → mtxs s !! m = Some (Mtx None 0) → live A (Q_mtx m) →
  tasks s !! t = Some tk → task_queue tk = None →
  ∃ A' s', (∀ B (k : K B), (os_mtx_set_owner m t;; mod_task t (set_block_code OS_OK);; os_task_makeready t;; k) s = k s') ∧
    kernel_ok A' s' ∧ mutexes_ok A' s' ∧ mtxs s' = <[m := Mtx (Some t) 1]> (mtxs s) ∧
    tasks s' = <[t := ready_task (set_block_code OS_OK tk)]> (tasks s) ∧
    (∀ t', held A' t' = if decide (t' = t) then held A t ++ [m] else held A t') ∧
    (∀ q i, qtasks A' q i = qtasks A q i ++ (if decide (q = Q_ready ∧ i = prio_current tk) then [t] else [])) ∧
    live A' Q_ready ∧
    task_current s' = task_current s ∧ dint s' = dint s ∧ sched_lock s' = sched_lock s ∧ isr_nesting s' = isr_nesting s.
Proof.
  intros HK HM Hlr Hm Hl Ht Hq.
  destruct (set_owner_spec (Some m) A s m _ t HK HM (or_intror eq_refl) Hm eq_refl)
    as (h2 & Hso & Hd2 & HK2 & HM2); [done | by eapply (mo_task _ _ _ HM) |].
  cbn zeta in *. set (A2 := set_held A t _) in *. set (s2 := set_links h2 _) in *.
  set (tk3 := set_block_code OS_OK tk). set (s3 := set_tasks (<[t := tk3]> (tasks s2)) s2).
  assert (kernel_ok A2 s3) as HK3 by (apply (kernel_ok_mod_task A2 s2 t tk); [done | done | cbn; congruence | done | by left]).
  assert (live A2 Q_ready) as Hlr2 by (by apply live_set_held).
  assert (tasks s3 !! t = Some tk3) as Ht3 by apply lookup_insert_eq.
  destruct (makeready_spec A2 s3 t tk3 (ko_queues _ _ HK3) Hlr2 Ht3) as (s4 & Hmr & Hst4 & HQ4);
    [done | by apply (ko_prio _ _ HK3 t) |].
  change (prio_current tk3) with (prio_current tk) in HQ4.
  assert (∀ q i, qtasks A2 q i = qtasks A q i) as Hq2 by (intros; apply qtasks_set_held).
  exists (push A2 Q_ready t (prio_current tk)), s4. split_and!.
  - intros B k. erewrite bind_Done by exact Hso. erewrite bind_Done by (by apply mod_task_Some).
    by erewrite bind_Done by exact Hmr.
  - eapply kernel_ok_bucket; [exact HK3 | exact Hst4 | done |].
    intros t' tk'. rewrite lookup_insert. case_decide; [intros [= <-]; subst; eauto | eauto].
  - eapply mutexes_bucket; [| exact Hst4 | | | done].
    + eapply mutexes_same; [exact HM2 | done | done |]. intros t'. cbn. rewrite lookup_insert.
      case_decide; subst t' || idtac; [by rewrite Ht | done].
    + apply Hlr2, (ko_prio _ _ HK3 t tk3 Ht3).
    + intros t'. rewrite lookup_insert. case_decide; [by subst; rewrite Ht3 | done].
  - by destruct Hst4 as (? & ? & -> & _).
  - rewrite (queues_step_tasks _ _ _ Hst4). cbn. by rewrite insert_insert_eq.
  - intros t'. unfold push, held at 1. rewrite set_bucket_other by done. change (omap _ _) with (held A2 t').
    unfold A2. by rewrite held_set.
  - intros q i. by rewrite qtasks_push, Hq2.
  - by apply live_push.
  - by destruct Hst4 as (? & ? & -> & _).
  - by destruct Hst4 as (? & ? & -> & _).
  - by destruct Hst4 as (? & ? & -> & _).
  - by destruct Hst4 as (? & ? & -> & _).
Qed.

(** Handing a released mutex to its first waiter, if there is one. *)
Lemma handover_spec A s m :
  kernel_ok A s → mutexes_wf (Some m) A s → live A Q_ready → mtxs s !! m = Some (Mtx None 0) → live A (Q_mtx m) →
  (pq_empty (qtasks A (Q_mtx m)) ∧ os_taskqueue_dequeue (Q_mtx m) s = Done None s ∧ mutexes_ok A s) ∨
  ∃ t tk ws s1 A' s', absq A (Q_mtx m) = (t, prio_current tk) :: ws ∧ tasks s !! t = Some tk ∧
    task_queue tk = Some (Q_mtx m) ∧
    os_taskqueue_dequeue (Q_mtx m) s = Done (Some t) s1 ∧
    (∀ B (k : K B), (os_mtx_set_owner m t;; mod_task t (set_block_code OS_OK);; os_task_makeready t;; k) s1 = k s') ∧
    kernel_ok A' s' ∧ mutexes_ok A' s' ∧ absq A' (Q_mtx m) = ws ∧ mtxs s' = <[m := Mtx (Some t) 1]> (mtxs s) ∧
    tasks s' = <[t := ready_task (set_block_code OS_OK (set_task_queue None tk))]> (tasks s) ∧
    (∀ t', held A' t' = if decide (t' = t) then held A t ++ [m] else held A t') ∧
    (∀ i, qtasks A' Q_ready i = qtasks A Q_ready i ++ (if decide (i = prio_current tk) then [t] else [])) ∧
    live A' Q_ready ∧
    task_current s' = task_current s ∧ dint s' = dint s ∧ sched_lock s' = sched_lock s ∧ isr_nesting s' = isr_nesting s.
Proof.
  intros HK HM Hlr Hm Hl. pose proof (ko_queues _ _ HK) as HQ.
  destruct (dequeue_kernel A s (Q_mtx m) HK Hl) as [[He Hd] | (s1 & t & tk & ts & Hd & Ht & Hq & Htop & Hts & Hst & HK1)].
  - left. split_and!; [done | done |]. destruct HM as [H1 H2 H3 H4]. split; try done.
    intros m' mx Hm' Hl'. destruct (H3 m' mx Hm' Hl') as (? & ? & Ho). split; [done | split; [done |]].
    destruct (owner mx); [done |]. destruct Ho as [? Ho]. split; [done |]. intros _.
    destruct (decide (m = m')) as [<- |]; [done | apply Ho; congruence].
  - right. set (A1 := set_bucket A (Q_mtx m) (prio_current tk) ts) in *.
    pose proof (queues_step_tasks _ _ _ Hst) as Ht1. destruct Hst as (h1 & mk1 & Hs1 & Hd1).
    assert (mutexes_wf (Some m) A1 s1) as HM1.
    { eapply mutexes_bucket; [exact HM | by exists h1, mk1 | by eapply live_bucket_lookup | |].
      - intros t'. rewrite lookup_insert. case_decide; [by subst; rewrite Ht | done].
      - intros m' mx [= <-] Hm' _ Hne. congruence. }
    destruct (make_owner A1 s1 m t (set_task_queue None tk) HK1 HM1) as
      (A' & s' & Hrun & HK' & HM' & Hmx & Ht' & Hh & Hq' & Hlr' & Hc & Hdi & Hlk & Hn);
      [by apply live_set_bucket | by subst s1 | by apply live_set_bucket | rewrite Ht1; apply lookup_insert_eq | done |].
    assert (∀ t', held A1 t' = held A t') as Hh1 by (intros; unfold held, A1; by rewrite set_bucket_other).
    exists t, tk, (absq A1 (Q_mtx m)), s1, A', s'. split_and!; [| done | done | done | exact Hrun | done | done | | | | | | done | ..].
    + eapply absq_head; [done.. |]. intros i. unfold A1. rewrite qtasks_set_bucket.
      destruct (decide (i = prio_current tk)) as [-> |]; [by rewrite Hts, decide_True | by rewrite decide_False by (by intros [_ ?])].
    + apply absq_other. intros i. rewrite Hq', decide_False by (by intros [? _]). by rewrite app_nil_r.
    + rewrite Hmx. by subst s1.
    + by rewrite Ht', Ht1, insert_insert_eq.
    + intros t'. by rewrite Hh, !Hh1.
    + intros i. rewrite Hq'. unfold A1. rewrite qtasks_set_bucket, decide_False by (by intros [? _]). f_equal.
      cbn. destruct (decide (i = prio_current tk)); [by rewrite decide_True | by rewrite decide_False by (by intros [_ ?])].
    + rewrite Hc. by subst s1.
    + rewrite Hdi. by subst s1.
    + rewrite Hlk. by subst s1.
    + rewrite Hn. by subst s1.
Qed.

(** A further lock by the owner. *)
Lemma lock_again s c m r fuel : task_current s = Some c → c ≠ task_idle → isr_nesting s = 0 →
  waitqueue_current s = None → mtxs s !! m = Some (Mtx (Some c) r) →
  (os_mtx_lock fuel m;; mret tt) s = Done tt (set_mtxs (<[m := Mtx (Some c) (u8 (r + 1))]> (mtxs s)) s).
Proof.
  intros Hc Hid Hn Hw Hm. unfold os_mtx_lock.
  erewrite bind_Done; [done |]. rewrite not_isr_ok, not_idle_ok, not_prepared_ok by congruence.
  erewrite bind_Done by done. erewrite bind_Done by (by apply get_mtx_Some).
  erewrite bind_Done by (by apply current_Some). cbn [owner]. rewrite decide_True by done.
  erewrite bind_Done by (by erewrite bind_Done by (by apply mod_mtx_Some)).
  cbn. by destruct s.
Qed.

Lemma times_lock_again n s c m r fuel : task_current s = Some c → c ≠ task_idle → isr_nesting s = 0 →
  waitqueue_current s = None → mtxs s !! m = Some (Mtx (Some c) r) → 0 ≤ r ≤ 255 →
  times n (os_mtx_lock fuel m;; mret tt) s =
  Done tt (set_mtxs (<[m := Mtx (Some c) (u8 (r + Z.of_nat n))]> (mtxs s)) s).
Proof.
  revert s r. induction n as [| n IH]; intros s r Hc Hid Hn Hw Hm Hr; cbn [times].
  - rewrite Z.add_0_r, u8_id, insert_id by (done || lia). by destruct s.
  - erewrite bind_Done by (by apply (lock_again s c m r)).
    rewrite (IH _ (u8 (r + 1))); [| done | done | done | done | apply lookup_insert_eq | pose proof (Z.mod_pos_bound (r + 1) 256); unfold u8; lia].
    cbn. rewrite insert_insert_eq. unfold u8. rewrite Zplus_mod_idemp_l.
    by replace (r + 1 + Z.of_nat n) with (r + Z.of_nat (S n)) by lia.
Qed.

(** An unlock by the owner, up to the decision whether it is the last one. *)
Lemma unlock_run s c m r fuel : task_current s = Some c → isr_nesting s = 0 →
  waitqueue_current s = None → mtxs s !! m = Some (Mtx (Some c) r) → 1 ≤ r ≤ 255 →
  os_mtx_unlock fuel m s =
    ((if r - 1 >? 0 then mret tt else
      os_mtx_clear_owner m;; os_mtx_unlock_prio_reset fuel;;
      task ← os_taskqueue_dequeue (Q_mtx m);
      match task with
      | Some t => os_mtx_set_owner m t;; mod_task t (set_block_code OS_OK);; os_task_makeready t;; os_schedule 1
      | None => mret tt
      end);; arch_critical_exit (dint s)) (set_mtxs (<[m := Mtx (Some c) (r - 1)]> (mtxs s)) (set_dint true s)).
Proof.
  intros Hc Hn Hw Hm Hr. unfold os_mtx_unlock. rewrite not_isr_ok by done.
  erewrite bind_Done by (by apply get_mtx_Some). erewrite bind_Done by done.
  rewrite OS_ASSERT_true by (apply bool_decide_eq_true; by rewrite Hc).
  rewrite not_prepared_ok by done. erewrite bind_Done by done. erewrite bind_Done by (by apply mod_mtx_Some).
  erewrite bind_Done by (apply get_mtx_Some; cbn; apply lookup_insert_eq). cbn. by rewrite u8_id by lia.
Qed.

(** The reset priority: the least one that is not below the base priority and
    that of the waiters for the mutexes [ms] held. *)
Definition reset_to A c tk (ms : list mid) (prio : Z) : Prop :=
  (prio_current tk = prio_base tk → prio = prio_base tk) ∧
  (prio_current tk ≠ prio_base tk → prio_base tk ≤ prio ∧
    (∀ m t p, m ∈ ms → (t, p) ∈ absq A (Q_mtx m) → p ≤ prio) ∧
    (prio = prio_base tk ∨ ∃ m t, m ∈ ms ∧ (t, prio) ∈ absq A (Q_mtx m))).

Lemma reset_prio_to A c tk : reset_to A c tk (held A c) (reset_prio A c tk).
Proof.
  unfold reset_to, reset_prio. split; [intros ->; by rewrite Z.eqb_refl |].
  intros Hne. rewrite (proj2 (Z.eqb_neq _ _) Hne).
  split_and!; [apply inherited_ge | intros *; apply inherited_waiters | apply inherited_attained].
Qed.
End facts.

(** ** Properties of mutexes *)

Section properties.
Context {AP : ArchPort} {APOK : ArchPortOk AP}.
Implicit Types (A : gmap laddr (list laddr)) (s : kstate) (q : qid) (t c o : tid) (tk : os_task_t) (m : mid).

(** C35: Locking a free mutex makes the caller its owner, once, at the end of the
    caller's list of mutexes, and returns OS_OK without switching; no task, no
    queue and no other mutex changes, and the invariants of the kernel and of
    mutex ownership hold again. *)
Theorem os_mtx_lock_free A s c m r fuel :
  kernel_ok A s → mutexes_ok A s → task_current s = Some c → is_Some (tasks s !! c) → c ≠ task_idle →
  isr_nesting s = 0 → waitqueue_current s = None → mtxs s !! m = Some (Mtx None r) → live A (Q_mtx m) →
  ∃ A' s', os_mtx_lock fuel m s = Done OS_OK s' ∧ kernel_ok A' s' ∧ mutexes_ok A' s' ∧
    mtxs s' = <[m := Mtx (Some c) 1]> (mtxs s) ∧ tasks s' = tasks s ∧ dint s' = dint s ∧
    (∀ t, held A' t = if decide (t = c) then held A c ++ [m] else held A t) ∧
    ∀ q i, qtasks A' q i = qtasks A q i.
Proof.
  intros HK HM Hc [tk Ht] Hid Hn Hw Hm Hl. unfold os_mtx_lock.
  rewrite not_isr_ok, not_idle_ok, not_prepared_ok by congruence.
  erewrite bind_Done by done. erewrite bind_Done by (by apply get_mtx_Some).
  erewrite bind_Done by (by apply current_Some). cbn [owner].
  assert (mutexes_ok A (set_dint true s)) as HM0 by (by eapply mutexes_same).
  destruct (set_owner_spec None A (set_dint true s) m (Mtx None r) c (kernel_ok_dint _ _ _ HK) HM0
    (or_introl eq_refl) Hm eq_refl Hl (mo_task _ _ _ HM _ _ Ht)) as (h & Hrun & Hd & HK1 & HM1). cbn zeta in *.
  set (A' := set_held A c _) in *. set (s1 := set_links h _) in *.
  erewrite bind_Done by (by erewrite bind_Done by exact Hrun).
  exists A', (set_dint (dint s) s1). split_and!; [done | by apply kernel_ok_dint | by eapply mutexes_same | done.. | |].
  - intros t. unfold A'. by rewrite held_set.
  - intros q i. apply qtasks_set_held.
Qed.

(** A mutex is recursive within the eight bits of its counter: its owner can
    lock it [n] more times and unlock it [n] times, in any state in which the
    count stays below 256, and the state is the one before. *)
Theorem mutex_recursion_nests n s c m r fuel :
  task_current s = Some c → c ≠ task_idle → isr_nesting s = 0 → waitqueue_current s = None →
  mtxs s !! m = Some (Mtx (Some c) r) → 0 < r → r + Z.of_nat n ≤ 255 →
  ∃ s1, times n (os_mtx_lock fuel m;; mret tt) s = Done tt s1 ∧
    mtxs s1 !! m = Some (Mtx (Some c) (r + Z.of_nat n)) ∧ times n (os_mtx_unlock fuel m) s1 = Done tt s.
Proof.
  intros Hc Hid Hn Hw Hm Hr Hb. eexists. split_and!; [apply (times_lock_again n s c m r); done || lia | | ].
  - cbn. rewrite u8_id by lia. apply lookup_insert_eq.
  - rewrite u8_id by lia. revert Hb. induction n as [| n IH]; intros Hb; cbn [times].
    + rewrite Z.add_0_r, insert_id by done. by destruct s.
    + erewrite bind_Done.
      2:{ rewrite (unlock_run _ c m (r + Z.of_nat (S n))) by (done || lia || apply lookup_insert_eq).
          rewrite (proj2 (Z.gtb_lt _ 0)) by lia. reflexivity. }
      cbn. rewrite insert_insert_eq. replace (r + Z.of_nat (S n) - 1) with (r + Z.of_nat n) by lia.
      specialize (IH ltac:(lia)). by destruct s.
Qed.

(** C39: The recursion counter wraps at eight bits: 256 further locks of an owner
    leave no trace, so that the first of the 257 unlocks releases the mutex. *)
Theorem mutex_recursion_wraps s c m fuel :
  task_current s = Some c → c ≠ task_idle → isr_nesting s = 0 → waitqueue_current s = None →
  mtxs s !! m = Some (Mtx (Some c) 1) →
  times 256 (os_mtx_lock fuel m;; mret tt) s = Done tt s.
Proof.
  intros Hc Hid Hn Hw Hm. rewrite (times_lock_again 256 s c m 1) by (done || lia).
  change (u8 (1 + Z.of_nat 256)) with 1. rewrite insert_id by done. by destruct s.
Qed.

(** C8: Unlocking. A lock taken several times is given up one level. The last
    unlock releases the mutex and resets the caller's priority: if it was
    boosted, to the least priority not below its base priority and that of every
    task waiting for a mutex it still holds. A free mutex has no waiters; with
    waiters the first one in service order becomes the owner, ready with OS_OK,
    and the scheduler is called. The invariants of the kernel and of mutex
    ownership are kept. *)
Theorem os_mtx_unlock_hands_over A s c tk m r fuel :
  kernel_ok A s → mutexes_ok A s → sched_ok A s c tk → 0 ≤ prio_base tk < OS_CONFIG_PRIOCNT →
  isr_nesting s = 0 → waitqueue_current s = None → mtxs s !! m = Some (Mtx (Some c) r) → 1 ≤ r ≤ 255 →
  live A (Q_mtx m) → (length (held A c) ≤ fuel)%nat →
  if decide (1 < r) then os_mtx_unlock fuel m s = Done tt (set_mtxs (<[m := Mtx (Some c) (r - 1)]> (mtxs s)) s)
  else
  ∃ prio, let tk' := set_prio_current prio tk in
  reset_to A c tk (filter (.≠ m) (held A c)) prio ∧
  match absq A (Q_mtx m) with
  | [] => ∃ A' s', os_mtx_unlock fuel m s = Done tt s' ∧ kernel_ok A' s' ∧ mutexes_ok A' s' ∧
      mtxs s' = <[m := Mtx None 0]> (mtxs s) ∧ tasks s' = <[c := tk']> (tasks s) ∧ dint s' = dint s ∧
      held A' c = filter (.≠ m) (held A c)
  | (t, p) :: ws => ∃ A' s' tkt,
      os_mtx_unlock fuel m s = (os_schedule 1;; arch_critical_exit (dint s)) s' ∧
      kernel_ok A' s' ∧ mutexes_ok A' s' ∧ sched_ok A' s' c tk' ∧
      mtxs s' = <[m := Mtx (Some t) 1]> (mtxs s) ∧ absq A' (Q_mtx m) = ws ∧
      tasks s !! t = Some tkt ∧ prio_current tkt = p ∧
      tasks s' = <[t := ready_task (set_block_code OS_OK (set_task_queue None tkt))]> (<[c := tk']> (tasks s)) ∧
      held A' c = filter (.≠ m) (held A c) ∧ held A' t = held A t ++ [m] ∧
      ∀ i, qtasks A' Q_ready i = qtasks A Q_ready i ++ (if decide (i = p) then [t] else [])
  end.
Proof.
  intros HK HM Hok Hb Hn Hw Hm Hr Hl Hf. destruct Hok as [_ Hlr Hc Ht Hq _].
  set (s0 := set_mtxs (<[m := Mtx (Some c) (r - 1)]> (mtxs s)) (set_dint true s)).
  rewrite (unlock_run s c m r) by (done || lia). fold s0.
  case_decide as Hr1; [rewrite (proj2 (Z.gtb_lt _ 0)) by lia; by destruct s |].
  assert (r = 1) as -> by lia. change (1 - 1) with 0 in *. cbn [Z.gtb Z.compare].
  assert (mutexes_ok A s0) as HM0.
  { unfold s0. pose proof (mutexes_recur None A s m c 1 0 HM Hm ltac:(lia)) as HM'. by eapply (mutexes_same None A _ _ HM'). }
  destruct (release_spec A s0 c tk m 0 fuel (kernel_ok_mtxs _ _ _ (kernel_ok_dint _ _ _ HK)) HM0 Hc Ht Hq Hb)
    as (s1 & Hrel & HK1 & HM1 & Hd1 & h & Hs1); [apply lookup_insert_eq | done | done |]. cbn zeta in *.
  set (A1 := set_held A c (filter (.≠ m) (held A c))) in *.
  assert (∀ q, absq A1 q = absq A q) as Hq1 by (intros q; apply absq_other; intros; apply qtasks_set_held).
  assert (held A1 c = filter (.≠ m) (held A c)) as Hh1 by (unfold A1; by rewrite held_set, decide_True).
  exists (reset_prio A1 c tk). split.
  { pose proof (reset_prio_to A1 c tk) as Hp. rewrite Hh1 in Hp. unfold reset_to in *. by setoid_rewrite Hq1 in Hp. }
  assert (live A1 Q_ready ∧ live A1 (Q_mtx m)) as [Hlr1 Hl1] by (unfold A1; by rewrite !live_set_held).
  assert (mtxs s1 = <[m := Mtx None 0]> (mtxs s)) as Hm1 by (subst s1; cbn; by rewrite insert_insert_eq).
  destruct (handover_spec A1 s1 m HK1 HM1 Hlr1) as
    [(He & Hd & HM2) | (t & tkt & ws & s2 & A2 & s3 & Habs & Htt & Hqt & Hd & Hk & HK3 & HM3 & Hq3 & Hm3 & Ht3 & Hh3 & Hr3 & Hlr3 & Hc3 & Hd3 & _)];
    [by rewrite Hm1, lookup_insert_eq | done | |].
  - assert (absq A (Q_mtx m) = []) as -> by (rewrite <- Hq1; by apply absq_from_empty).
    exists A1, (set_dint (dint s) s1). split_and!; [| by apply kernel_ok_dint | by eapply mutexes_same | done | by subst s1 | done | done].
    rewrite (bind_rewrite _ _ _ _ _ (Hrel _ _)). erewrite bind_Done by (by erewrite bind_Done by exact Hd). done.
  - rewrite Hq1 in Habs. rewrite Habs. exists A2, s3, tkt.
    assert (t ≠ c) as Hne.
    { intros ->. subst s1. cbn in Htt. rewrite lookup_insert_eq in Htt. injection Htt as <-. cbn in Hqt. congruence. }
    assert (tasks s1 = <[c := set_prio_current (reset_prio A1 c tk) tk]> (tasks s)) as Ht1 by (by subst s1).
    rewrite Ht1 in Ht3, Htt. rewrite lookup_insert_ne in Htt by done.
    split_and!; [| done | done | | by rewrite Hm3, Hm1, insert_insert_eq | done | done | done | done | | |].
    + rewrite (bind_rewrite _ _ _ _ _ (Hrel _ _)).
      assert ((task ← os_taskqueue_dequeue (Q_mtx m);
        match task with
        | Some t => os_mtx_set_owner m t;; mod_task t (set_block_code OS_OK);; os_task_makeready t;; os_schedule 1
        | None => mret tt end) s1 = os_schedule 1 s3) as Hrest by (erewrite bind_Done by exact Hd; apply Hk).
      by rewrite (bind_rewrite _ _ _ _ _ Hrest).
    + apply sched_ok_kernel; [done | done | by rewrite Hc3; subst s1 | | done].
      by rewrite Ht3, lookup_insert_ne, lookup_insert_eq.
    + rewrite Hh3, decide_False by done. done.
    + rewrite Hh3, decide_True by done. unfold A1. rewrite held_set, decide_False by done. done.
    + intros i. rewrite Hr3. unfold A1. by rewrite qtasks_set_held.
Qed.
End properties.

(** ** Deciding the ownership invariant, and concrete states *)

Section decide.
Context {AP : ArchPort} {APOK : ArchPortOk AP}.
Implicit Types (l : list (laddr * list laddr)) (s : kstate).

Definition mutexes_ok_b l s : bool :=
  let A := list_to_map l in
  forallb (λ '(hd, xs), match hd with
    | L_mtx_list t => bool_decide (xs = L_mtx <$> omap mtx_of xs) &&
        forallb (λ m, match mtxs s !! m with
          | Some mx => bool_decide (owner mx = Some t) && live_b l (Q_mtx m) | None => false end) (omap mtx_of xs)
    | _ => true end) l &&
  forallb (λ '(m, mx), negb (live_b l (Q_mtx m)) ||
    (bool_decide (is_Some (links s !! L_mtx m)) && (0 <=? recur mx) && (recur mx <=? 255) &&
     match owner mx with
     | Some o => bool_decide (m ∈ held A o)
     | None => bool_decide (L_mtx m ∉ concat ((λ '(hd, xs), hd :: xs) <$> l)) && bool_decide (absq A (Q_mtx m) = [])
     end)) (map_to_list (mtxs s)) &&
  forallb (λ '(t, _), bool_decide (is_Some (A !! L_mtx_list t))) (map_to_list (tasks s)).

Lemma mutexes_ok_b_ok l s : queues_ok_b l s = true → mutexes_ok_b l s = true → mutexes_ok (list_to_map l) s.
Proof.
  intros HQ%queues_ok_b_ok. unfold mutexes_ok_b. rewrite !andb_true_iff. intros [[H1 H2] H3].
  assert (∀ t xs, (list_to_map l : gmap laddr (list laddr)) !! L_mtx_list t = Some xs →
    xs = L_mtx <$> omap mtx_of xs ∧ ∀ m, m ∈ omap mtx_of xs → ∃ mx, mtxs s !! m = Some mx ∧ owner mx = Some t ∧ live (list_to_map l) (Q_mtx m)) as Hl.
  { intros t xs Hx%elem_of_list_to_map_2%list_elem_of_In. rewrite forallb_forall in H1. specialize (H1 _ Hx). cbn in H1.
    apply andb_true_iff in H1 as [Hx1%bool_decide_eq_true Hx2]. split; [done |]. intros m Hm.
    rewrite forallb_forall in Hx2. apply list_elem_of_In, Hx2 in Hm. destruct (mtxs s !! m) as [mx |]; [| done].
    apply andb_true_iff in Hm as [Ho%bool_decide_eq_true Hlv]. exists mx. by rewrite <- live_b_ok. }
  split.
  - intros t xs Hx. unfold held. rewrite Hx. by apply Hl in Hx as [? _].
  - intros t m Hm. unfold held in Hm. destruct (_ !! L_mtx_list t) as [xs |] eqn:Hx; [| by apply elem_of_nil in Hm].
    apply Hl in Hx as [_ Hx]. by apply Hx.
  - intros m mx Hm Hlv. apply (map_forallb _ _ _ _ H2) in Hm. cbn in Hm. apply live_b_ok in Hlv. rewrite Hlv in Hm. cbn in Hm.
    rewrite !andb_true_iff, bool_decide_eq_true in Hm. destruct Hm as [[[Hd ?] ?] Ho]. split; [done | split; [lia |]].
    destruct (owner mx); [by apply bool_decide_eq_true in Ho |]. apply andb_true_iff in Ho as [Hu Hq].
    split; [by apply unlinked_b |]. intros _. apply bool_decide_eq_true in Hq. by eapply absq_nil.
  - intros t tk Ht. apply (map_forallb _ _ _ _ H3) in Ht. by apply bool_decide_eq_true in Ht.
Qed.
End decide.

Section demo.
#[local] Existing Instance avr_port.
#[local] Existing Instance avr_port_ok.

(** Task 1 (base priority 2) runs and owns mutex 4, for which task 3 (priority 3)
    waits: task 1 is boosted to 3. Mutex 5 is free. *)
Definition demo_mtx_setup : K unit :=
  os_init;;
  os_task_init 1 2;; os_task_init 3 3;;
  os_mtx_create 4;; os_mtx_create 5;;
  os_mtx_set_owner 4 1;;
  modify (set_task_current (Some 3%nat));;
  os_mtx_lock_prio_boost 5 4;;
  os_task_makewait (Q_mtx 4) OS_TASKBLOCK_MTX;;
  os_task_makeready task_idle;;
  mod_task 1%nat (set_state TASKSTATE_RUNNING);;
  modify (set_task_current (Some 1%nat));;
  modify (set_sched_lock 0);;
  arch_eint.
Definition demo_mtx : kstate := run_state demo_mtx_setup kstate_reset.
Definition demo_mtx_lists : gmap laddr (list laddr) := list_to_map (lists_of demo_mtx).
Definition demo_owner : os_task_t := set_prio_current 3 (set_state TASKSTATE_RUNNING (demo_task 2)).

#[local] Opaque demo_mtx demo_mtx_lists.

Lemma demo_mtx_ok : kernel_ok demo_mtx_lists demo_mtx.
Proof. apply (kernel_ok_b_ok (lists_of demo_mtx)). vm_compute; reflexivity. Qed.
Lemma demo_mtx_mutexes : mutexes_ok demo_mtx_lists demo_mtx.
Proof. apply (mutexes_ok_b_ok (lists_of demo_mtx)); vm_compute; reflexivity. Qed.
Lemma demo_mtx_live q : live_b (lists_of demo_mtx) q = true → live demo_mtx_lists q.
Proof. apply (live_b_ok (lists_of demo_mtx)). Qed.
Lemma demo_mtx_running : sched_ok demo_mtx_lists demo_mtx 1 demo_owner.
Proof.
  apply sched_ok_kernel; [apply demo_mtx_ok | apply demo_mtx_live; vm_compute; reflexivity | vm_compute; reflexivity..].
Qed.

Lemma os_mtx_lock_free_witness : ∃ A' s', os_mtx_lock 5 5 demo_mtx = Done OS_OK s' ∧
  held A' 1 = [4%nat; 5%nat] ∧ mtxs s' !! 5%nat = Some (Mtx (Some 1%nat) 1).
Proof.
  destruct (os_mtx_lock_free demo_mtx_lists demo_mtx 1 5 0 5 demo_mtx_ok demo_mtx_mutexes)
    as (A' & s' & Hrun & _ & _ & Hm & _ & _ & Hh & _).
  - vm_compute; reflexivity.
  - vm_compute. by eexists.
  - discriminate.
  - vm_compute; reflexivity.
  - vm_compute; reflexivity.
  - vm_compute; reflexivity.
  - apply demo_mtx_live. vm_compute; reflexivity.
  - exists A', s'. split_and!; [exact Hrun | rewrite Hh; vm_compute; reflexivity | rewrite Hm; apply lookup_insert_eq].
Defined.

Lemma mutex_recursion_nests_witness : ∃ s1, times 3 (os_mtx_lock 5 4;; mret tt) demo_mtx = Done tt s1 ∧
  mtxs s1 !! 4%nat = Some (Mtx (Some 1%nat) 4) ∧ times 3 (os_mtx_unlock 5 4) s1 = Done tt demo_mtx.
Proof.
  apply (mutex_recursion_nests 3 demo_mtx 1 4 1 5); [vm_compute; reflexivity | discriminate | vm_compute; reflexivity.. | lia | lia].
Defined.

Lemma mutex_recursion_wraps_witness : times 256 (os_mtx_lock 5 4;; mret tt) demo_mtx = Done tt demo_mtx.
Proof.
  apply (mutex_recursion_wraps demo_mtx 1 4 5); [vm_compute; reflexivity | discriminate | vm_compute; reflexivity..].
Defined.

(** Task 1 falls back to its base priority, task 3 gets the mutex. *)
Lemma os_mtx_unlock_hands_over_witness : ∃ A' s',
  os_mtx_unlock 5 4 demo_mtx = (os_schedule 1;; arch_critical_exit false) s' ∧
  mtxs s' !! 4%nat = Some (Mtx (Some 3%nat) 1) ∧ prio_current <$> tasks s' !! 1%nat = Some 2 ∧ held A' 3 = [4%nat].
Proof.
  pose proof (os_mtx_unlock_hands_over demo_mtx_lists demo_mtx 1 demo_owner 4 1 5 demo_mtx_ok demo_mtx_mutexes demo_mtx_running) as H.
  assert (absq demo_mtx_lists (Q_mtx 4) = [(3%nat, 3)]) as Hq by (vm_compute; reflexivity).
  assert (dint demo_mtx = false ∧ filter (.≠ 4%nat) (held demo_mtx_lists 1) = [] ∧ held demo_mtx_lists 3 = []) as (Hd & Hh1 & Hh3)
    by (vm_compute; by split_and!).
  rewrite decide_False, Hq, Hd, Hh1, Hh3 in H by lia.
  destruct H as (prio & Hp & A' & s' & tkt & Hrun & _ & _ & _ & Hm & _ & _ & _ & Ht & _ & Hh & _).
  - vm_compute. by split.
  - vm_compute; reflexivity.
  - vm_compute; reflexivity.
  - vm_compute; reflexivity.
  - lia.
  - apply demo_mtx_live. vm_compute; reflexivity.
  - vm_compute. lia.
  - exists A', s'. split_and!; [exact Hrun | rewrite Hm; apply lookup_insert_eq | | exact Hh].
    rewrite Ht, lookup_insert_ne, lookup_insert_eq by discriminate. cbn. f_equal.
    assert (prio_current demo_owner ≠ prio_base demo_owner) as Hne by (intros Hne; vm_compute in Hne; discriminate Hne).
    destruct Hp as [_ Hp]. destruct (Hp Hne) as (_ & _ & [-> | (m & t & Hin & _)]); [reflexivity | destruct (not_elem_of_nil _ Hin)].
Defined.
End demo.
