(* ===== verification/Boost.v ===== *)
(** * Priority inheritance (os_mtx_lock_prio_boost of source/os_mtx.c)

    Blocking on a mutex raises its owner to the priority of the caller, then the
    owner of the mutex that this owner waits for, and so on along the chain of
    blocked owners. *)

From stdpp Require Import base decidable list countable gmap.
From Stdlib Require Import ZArith Lia.
From S2P Require Import Prelude Arch LinkedList Kernel TaskQueue Timer Sched Invariant QueueLife Decide Sem Mtx.

Local Open Scope Z_scope.

(** The owner of the mutex on which [t] is blocked. *)
Definition blocked_on (s : kstate) (t : tid) (t' : tid) : Prop :=
  ∃ tk m mx, tasks s !! t = Some tk ∧ state tk = TASKSTATE_WAIT ∧ block_type tk = OS_TASKBLOCK_MTX ∧
    task_queue tk = Some (Q_mtx m) ∧ mtxs s !! m = Some mx ∧ owner mx = Some t'.
Definition not_blocked (s : kstate) (t : tid) : Prop :=
  ∃ tk, tasks s !! t = Some tk ∧ (state tk ≠ TASKSTATE_WAIT ∨ block_type tk ≠ OS_TASKBLOCK_MTX).

(** [ts]: the task [t], the owner it waits for, and so on to one that does not
    wait for a mutex. *)
Inductive boost_chain (s : kstate) : tid → list tid → Prop :=
| boost_chain_end t : not_blocked s t → boost_chain s t [t]
| boost_chain_next t t' ts : blocked_on s t t' → boost_chain s t' ts → boost_chain s t (t :: ts).

(** The state [s'] after the tasks [ts] were given the priority [p]. *)
Record boosted (p : Z) (ts : list tid) A s A' s' : Prop := {
  bo_tasks : ∀ t, tasks s' !! t = if decide (t ∈ ts) then set_prio_current p <$> tasks s !! t else tasks s !! t;
  bo_lists : same_lists A A';
  bo_objects : same_objects s s';
  bo_members : ∀ q, (absq A' q).*1 ≡ₚ (absq A q).*1;
  bo_others : ∀ q, filter (λ x, x.1 ∉ ts) (absq A' q) = filter (λ x, x.1 ∉ ts) (absq A q);
  bo_timers : A' !! L_timer_list = A !! L_timer_list ∧ timers s' = timers s ∧ timer_tick_unsynch s' = timer_tick_unsynch s
}.

Section facts.
Context {AP : ArchPort} {APOK : ArchPortOk AP}.
Implicit Types (A : gmap laddr (list laddr)) (s : kstate) (q : qid) (t c o : tid) (tk : os_task_t) (m : mid) (ts : list tid).

Lemma pq_insert_perm t p (l : list (tid * Z)) : pq_insert t p l ≡ₚ (t, p) :: l.
Proof.
  induction l as [| [x px] l IH]; cbn; [done |]. case_match; [| done]. rewrite IH. apply Permutation_swap.
Qed.

Lemma pq_delete_perm t p (l : list (tid * Z)) : (t, p) ∈ l → NoDup l.*1 → (t, p) :: pq_delete t l ≡ₚ l.
Proof.
  intros (l1 & l2 & ->)%list_elem_of_split. rewrite fmap_app, fmap_cons. cbn. intros Hn.
  unfold pq_delete. rewrite filter_app, filter_cons, decide_False by (by intros []).
  assert (∀ x, x ∈ l1 ++ l2 → x.1 ≠ t) as Hne.
  { intros x Hx <-. rewrite <- Permutation_middle in Hn. apply NoDup_cons in Hn as [Hn _]. apply Hn.
    rewrite <- fmap_app. by apply list_elem_of_fmap_2. }
  rewrite !filter_all_id; [apply Permutation_middle | |]; intros x Hx; apply Hne; rewrite elem_of_app; auto.
Qed.

Lemma filter_pq_insert t p (l : list (tid * Z)) ts : t ∈ ts → filter (λ x, x.1 ∉ ts) (pq_insert t p l) = filter (λ x, x.1 ∉ ts) l.
Proof.
  intros Ht. assert (filter (λ x : tid * Z, x.1 ∉ ts) [(t, p)] = []) as Hn.
  { rewrite filter_cons, decide_False by (cbn; tauto). done. }
  induction l as [| [x px] l IH]; cbn [pq_insert]; [done |]. case_match.
  - rewrite !filter_cons, IH. done.
  - rewrite (filter_cons _ (t, p)), decide_False by (cbn; tauto). done.
Qed.

Lemma filter_pq_delete t (l : list (tid * Z)) ts : t ∈ ts → filter (λ x, x.1 ∉ ts) (pq_delete t l) = filter (λ x, x.1 ∉ ts) l.
Proof.
  intros Ht. unfold pq_delete. rewrite list_filter_filter. apply list_filter_iff. intros [x px]. cbn.
  split; [tauto |]. intros Hx. split; [done |]. by intros ->.
Qed.

Lemma absq_from_NoDup n f : (∀ i, NoDup (f i)) → (∀ i j t, t ∈ f i → t ∈ f j → i = j) → NoDup (absq_from n f).*1.
Proof.
  intros Hn Hu. induction n as [| n IH]; cbn; [constructor |]. rewrite fmap_app. apply NoDup_app. split_and!; [| | done].
  - rewrite <- list_fmap_compose. unfold compose. cbn. by rewrite list_fmap_id.
  - intros t (x & -> & (y & -> & Hy)%list_elem_of_fmap)%list_elem_of_fmap ([t' p] & Heq & Hx)%list_elem_of_fmap.
    cbn in *. subst t'. apply absq_from_elem in Hx as [? Hx]. specialize (Hu _ _ _ Hy Hx). lia.
Qed.

Lemma absq_NoDup A s q : queues_ok A s → NoDup (absq A q).*1.
Proof.
  intros HQ. apply absq_from_NoDup; [intros; by eapply qtasks_NoDup |].
  intros i j t Hi Hj. by destruct (member_unique _ _ HQ _ _ _ _ _ Hi Hj).
Qed.

Lemma set_same_prio p t tk s : tasks s !! t = Some tk → prio_current tk = p →
  ∀ t', tasks s !! t' = if decide (t' ∈ [t]) then set_prio_current p <$> tasks s !! t' else tasks s !! t'.
Proof.
  intros Ht Hp t'. case_decide as H1; [| done]. apply list_elem_of_singleton in H1 as ->.
  rewrite Ht. cbn. f_equal. destruct tk; cbn in *. by subst.
Qed.

(** One step of the boost. *)
Lemma reprio_boost A s t tk p : kernel_ok A s → tasks s !! t = Some tk → 0 ≤ p < OS_CONFIG_PRIOCNT →
  ∃ A' s', os_taskqueue_reprio t p s = Done tt s' ∧ kernel_ok A' s' ∧ boosted p [t] A s A' s'.
Proof.
  intros HK Ht Hp. pose proof (ko_queues _ _ HK) as HQ.
  destruct (decide (prio_current tk = p)) as [<- | Hne].
  { exists A, s. split_and!; [by apply reprio_same_spec | done |]. split; try done. exact (set_same_prio _ t tk s Ht eq_refl). }
  destruct (task_queue tk) as [q |] eqn:Hq.
  - destruct (reprio_queued_spec A s q t tk p HQ Ht Hq Hne Hp) as (s' & ts1 & ts2 & Hrun & Hts & Hst & HQ').
    set (A1 := set_bucket A q (prio_current tk) (ts1 ++ ts2)) in *.
    pose proof (queues_step_tasks _ _ _ (queue_step_step _ _ _ _ Hst)) as Ht'.
    assert (qtasks A1 q p = qtasks A q p) as Hqp by (unfold A1; rewrite qtasks_set_bucket, decide_False; [done | by intros [_ ?]]).
    rewrite <- Hqp in HQ'. set (A2 := set_bucket A1 q p (qtasks A1 q p ++ [t])) in *.
    assert (absq A2 q = pq_insert t p (pq_delete t (absq A q))) as Habs.
    { unfold A2. rewrite absq_enqueue by done. unfold A1. by rewrite (absq_remove A s q _ t) by done. }
    assert (∀ q', q' ≠ q → absq A2 q' = absq A q') as Hoth.
    { intros q' Hq'. apply absq_other. intros i. unfold A2, A1. by rewrite !qtasks_set_bucket, !decide_False by (by intros [? _]). }
    assert ((t, prio_current tk) ∈ absq A q) as Hin.
    { rewrite (absq_elem A s) by done. rewrite Hts, elem_of_app, elem_of_cons. auto. }
    destruct Hst as (h & mk & Hs' & Hd).
    exists A2, s'. split_and!; [done | |].
    + destruct HK as [_ HT HP HG HA]. split; [done | | | |].
      * apply (timers_ok_lists A _ s); [done | unfold A2, A1; by rewrite !set_bucket_other by done | | intros x; unfold A2, A1; by rewrite !set_bucket_other by done | by subst s' | by subst s'].
        intros x Hu. by do 2 (apply unlinked_bucket; [done.. |]).
      * rewrite Ht'. intros t' tk'. rewrite lookup_insert. case_decide; [by intros [= <-] | apply HP].
      * rewrite Ht'. intros t' tk' x. rewrite lookup_insert. subst s'.
        case_decide as E; [intros [= <-]; rewrite <- E; apply (HG t tk x Ht) | apply HG].
      * by do 2 (apply unlinked_bucket; [done.. |]).
    + split.
      * intros t'. rewrite Ht', lookup_insert. case_decide as H1; case_decide as H2; rewrite list_elem_of_singleton in H2; try congruence.
        subst t'. by rewrite Ht.
      * assert (live A q) as Hlq by (eapply (qtasks_live A s HQ q (prio_current tk) t); rewrite Hts, elem_of_app, elem_of_cons; auto).
        transitivity A1; apply same_lists_bucket; [done | by apply (ko_prio _ _ HK t tk) | by apply live_set_bucket | done].
      * by subst s'.
      * intros q'. destruct (decide (q' = q)) as [-> |]; [| by rewrite Hoth]. rewrite Habs, pq_insert_perm. cbn.
        rewrite <- (pq_delete_perm t (prio_current tk) (absq A q)) at 2 by (done || by eapply absq_NoDup). done.
      * intros q'. destruct (decide (q' = q)) as [-> |]; [| by rewrite Hoth].
        rewrite Habs, filter_pq_insert, filter_pq_delete by apply list_elem_of_here. done.
      * subst s'. split_and!; [unfold A2, A1; by rewrite !set_bucket_other by done | done..].
  - exists A. eexists. split_and!; [by eapply reprio_unqueued_spec | by apply kernel_ok_mod_prio |].
    split; try done. intros t'. cbn. rewrite lookup_insert. case_decide as H1; case_decide as H2; rewrite list_elem_of_singleton in H2; try congruence.
    subst t'. by rewrite Ht.
Qed.

Lemma boosted_app p ts1 ts2 A s A1 s1 A2 s2 : boosted p ts1 A s A1 s1 → boosted p ts2 A1 s1 A2 s2 →
  boosted p (ts1 ++ ts2) A s A2 s2.
Proof.
  intros [T1 L1 O1 M1 F1 (B1 & B2 & B3)] [T2 L2 O2 M2 F2 (C1 & C2 & C3)]. split.
  - intros t. rewrite T2, T1. destruct (decide (t ∈ ts2)), (decide (t ∈ ts1));
      [rewrite decide_True by (rewrite elem_of_app; auto).. | rewrite decide_False by (rewrite elem_of_app; tauto); done]; [| done..].
    by destruct (tasks s !! t) as [[]|].
  - by transitivity A1.
  - by transitivity s1.
  - intros q. by rewrite M2.
  - intros q. assert (∀ l : list (tid * Z), filter (λ x, x.1 ∉ ts1 ++ ts2) l = filter (λ x, x.1 ∉ ts1) (filter (λ x, x.1 ∉ ts2) l)) as Hf.
    { intros l. rewrite list_filter_filter. apply list_filter_iff. intros x. rewrite elem_of_app. tauto. }
    assert (∀ l : list (tid * Z), filter (λ x, x.1 ∉ ts1 ++ ts2) l = filter (λ x, x.1 ∉ ts2) (filter (λ x, x.1 ∉ ts1) l)) as Hg.
    { intros l. rewrite list_filter_filter. apply list_filter_iff. intros x. rewrite elem_of_app. tauto. }
    by rewrite Hf, F2, <- Hf, Hg, F1, <- Hg.
  - split_and!; congruence.
Qed.

(** Boosting does not change who waits for whom. *)
Lemma boosted_chain p ts A s A' s' t us : boosted p ts A s A' s' → boost_chain s t us → boost_chain s' t us.
Proof.
  intros HB. assert (∀ t tk, tasks s !! t = Some tk → ∃ tk', tasks s' !! t = Some tk' ∧ state tk' = state tk ∧
    block_type tk' = block_type tk ∧ task_queue tk' = task_queue tk) as Hsame.
  { intros t' tk Ht. rewrite (bo_tasks _ _ _ _ _ _ HB), Ht. case_decide; by eexists. }
  destruct (bo_objects _ _ _ _ _ _ HB) as (_ & Hm & _).
  induction 1 as [t (tk & Ht & Hb) | t t' us (tk & m & mx & Ht & H1 & H2 & H3 & H4 & H5) _ IH].
  - apply boost_chain_end. destruct (Hsame _ _ Ht) as (tk' & ? & ? & ? & ?). exists tk'. split; [done |]. destruct Hb; [left | right]; congruence.
  - eapply boost_chain_next; [| done]. destruct (Hsame _ _ Ht) as (tk' & ? & ? & ? & ?). exists tk', m, mx. rewrite Hm. split_and!; congruence.
Qed.

(** The loop of [os_mtx_lock_prio_boost]. *)
Lemma prio_boost_loop_spec p c ts : ∀ A s t fuel ctk,
  kernel_ok A s → task_current s = Some c → tasks s !! c = Some ctk → prio_current ctk = p →
  boost_chain s t ts → (length ts ≤ fuel)%nat →
  ∃ A' s', prio_boost_loop fuel p t s = Done tt s' ∧ kernel_ok A' s' ∧ boosted p ts A s A' s'.
Proof.
  intros A s t fuel ctk HK Hc Hctk Hp Hch. revert A fuel HK Hc ctk Hctk Hp.
  induction ts as [| t0 ts IH] in t, s, Hch |- *; intros A fuel HK Hc ctk Hctk Hp Hf; [by inversion Hch |].
  assert (t0 = t) as -> by (by inversion Hch).
  destruct fuel as [| fuel]; [cbn in Hf; lia |]. cbn [prio_boost_loop].
  assert (∃ tk, tasks s !! t = Some tk) as [tk Ht].
  { inversion Hch; subst; unfold not_blocked, blocked_on in *; decompose_hyps; eauto. }
  assert (0 ≤ p < OS_CONFIG_PRIOCNT) as Hpr by (rewrite <- Hp; by apply (ko_prio _ _ HK c)).
  destruct (reprio_boost A s t tk p HK Ht Hpr) as (A1 & s1 & Hrun & HK1 & HB1).
  erewrite bind_Done by (by apply current_Some). erewrite bind_Done by (by apply get_task_Some).
  rewrite os_max_max, Hp, Z.max_id. erewrite bind_Done by exact Hrun.
  assert (tasks s1 !! t = Some (set_prio_current p tk)) as Ht1.
  { rewrite (bo_tasks _ _ _ _ _ _ HB1), decide_True by apply list_elem_of_here. by rewrite Ht. }
  erewrite bind_Done by (by apply get_task_Some). cbn [state block_type set_prio_current].
  inversion Hch as [? (tk' & Ht' & Hb) | ? t' ? (tk' & m & mx & Ht' & Hst & Hbt & Hq & Hm & Ho) Hch']; subst; simplify_eq.
  - exists A1, s1. split_and!; [| done | done]. destruct Hb as [Hb | Hb]; rewrite (bool_decide_false _ Hb); [done | by rewrite orb_true_r].
  - rewrite !bool_decide_true by done. cbn [negb orb task_queue set_prio_current]. rewrite Hq. cbn [mtx_of_queue].
    erewrite bind_Done by done.
    erewrite bind_Done by (apply get_mtx_Some; destruct (bo_objects _ _ _ _ _ _ HB1) as (_ & -> & _); exact Hm).
    rewrite Ho. erewrite bind_Done by done.
    destruct (bo_objects _ _ _ _ _ _ HB1) as (_ & _ & Hc1 & _).
    assert (∃ ctk1, tasks s1 !! c = Some ctk1 ∧ prio_current ctk1 = prio_current ctk) as (ctk1 & Hctk1 & Hp1).
    { rewrite (bo_tasks _ _ _ _ _ _ HB1), Hctk. case_decide; by eexists. }
    destruct (IH s1 t' (boosted_chain _ _ _ _ _ _ _ _ HB1 Hch') A1 fuel HK1 ltac:(congruence) ctk1 Hctk1 Hp1) as (A2 & s2 & Hrun2 & HK2 & HB2);
      [cbn in Hf; lia |].
    exists A2, s2. split_and!; [done | done |]. by apply (boosted_app _ [t] ts A s A1 s1).
Qed.

Lemma boosted_refl p A s : boosted p [] A s A s.
Proof. by split. Qed.

(** Of the chain [ts] of owners that starts at a task of TCB [tko], those that
    blocking at priority [p] boosts. *)
Definition boosts (p : Z) tko ts : list tid := if prio_current tko <? p then ts else [].

Lemma lock_prio_boost_spec A s c tk m o r tko ts fuel :
  kernel_ok A s → task_current s = Some c → tasks s !! c = Some tk →
  mtxs s !! m = Some (Mtx (Some o) r) → tasks s !! o = Some tko → boost_chain s o ts → (length ts ≤ fuel)%nat →
  ∃ A' s', os_mtx_lock_prio_boost fuel m s = Done tt s' ∧ kernel_ok A' s' ∧
    boosted (prio_current tk) (boosts (prio_current tk) tko ts) A s A' s'.
Proof.
  intros HK Hc Ht Hm Hto Hch Hf. unfold os_mtx_lock_prio_boost.
  erewrite bind_Done by (by apply get_mtx_Some). erewrite bind_Done by done.
  erewrite bind_Done by (by apply current_Some). do 2 erewrite bind_Done by (by apply get_task_Some).
  unfold boosts. destruct (_ <? _); cbn [when]; [by eapply prio_boost_loop_spec |].
  exists A, s. split_and!; [done | done | apply boosted_refl].
Qed.

(** Tasks that all wait for mutexes owned by one another. *)
Definition deadlocked s (X : list tid) : Prop := ∀ t, t ∈ X → ∃ t', t' ∈ X ∧ blocked_on s t t'.

Lemma boosted_blocked p ts A s A' s' t t' : boosted p ts A s A' s' → blocked_on s t t' → blocked_on s' t t'.
Proof.
  intros HB (tk & m & mx & Ht & H1 & H2 & H3 & H4 & H5). destruct (bo_objects _ _ _ _ _ _ HB) as (_ & Hm & _).
  unfold blocked_on. rewrite (bo_tasks _ _ _ _ _ _ HB), Ht, Hm. case_decide; by eexists _, m, mx.
Qed.

Lemma prio_boost_loop_diverges p c X fuel : ∀ A s t ctk,
  kernel_ok A s → task_current s = Some c → tasks s !! c = Some ctk → prio_current ctk = p →
  deadlocked s X → t ∈ X → prio_boost_loop fuel p t s = NoFuel.
Proof.
  induction fuel as [| fuel IH]; intros A s t ctk HK Hc Hctk Hp HX Ht; [done |]. cbn [prio_boost_loop].
  destruct (HX t Ht) as (t' & Ht' & tk & m & mx & Htk & Hst & Hbt & Hq & Hm & Ho).
  assert (0 ≤ p < OS_CONFIG_PRIOCNT) as Hpr by (rewrite <- Hp; by apply (ko_prio _ _ HK c)).
  destruct (reprio_boost A s t tk p HK Htk Hpr) as (A1 & s1 & Hrun & HK1 & HB1).
  erewrite bind_Done by (by apply current_Some). erewrite bind_Done by (by apply get_task_Some).
  rewrite os_max_max, Hp, Z.max_id. erewrite bind_Done by exact Hrun.
  assert (tasks s1 !! t = Some (set_prio_current p tk)) as Ht1.
  { rewrite (bo_tasks _ _ _ _ _ _ HB1), decide_True by apply list_elem_of_here. by rewrite Htk. }
  destruct (bo_objects _ _ _ _ _ _ HB1) as (_ & Hm1 & Hc1 & _).
  erewrite bind_Done by (by apply get_task_Some). cbn [state block_type set_prio_current].
  rewrite !bool_decide_true by done. cbn [negb orb task_queue set_prio_current]. rewrite Hq. cbn [mtx_of_queue].
  erewrite bind_Done by done. erewrite bind_Done by (apply get_mtx_Some; rewrite Hm1; exact Hm).
  rewrite Ho. erewrite bind_Done by done.
  assert (∃ ctk1, tasks s1 !! c = Some ctk1 ∧ prio_current ctk1 = p) as (ctk1 & Hctk1 & Hp1).
  { rewrite (bo_tasks _ _ _ _ _ _ HB1), Hctk. case_decide; by eexists. }
  eapply IH; [exact HK1 | congruence | exact Hctk1 | done | | done].
  intros t2 (t3 & ? & Hb)%HX. exists t3. split; [done | by eapply boosted_blocked].
Qed.
End facts.

(** ** Properties of priority inheritance *)

Section properties.
Context {AP : ArchPort} {APOK : ArchPortOk AP}.
Implicit Types (A : gmap laddr (list laddr)) (s : kstate) (q : qid) (t c o : tid) (tk : os_task_t) (m : mid) (ts : list tid).

(** C9: Blocking on a mutex. If the owner of the mutex has a lower priority than
    the caller, it and all owners on the chain of blocked owners get the
    caller's priority and stay in the queues they are in, where they move to the
    places of their new priority while the tasks that are not boosted keep their
    order; the loop over the chain ends as the chain does. Then the caller
    takes its place among the waiters, behind those of at least its priority,
    and the first task of the highest ready priority - with the boost taken into
    account - runs. Resumed, the call returns the code left in the TCB. *)
Theorem os_mtx_lock_inherits A s c tk m o r tko ts fuel :
  kernel_ok A s → sched_ok A s c tk → c ≠ task_idle → isr_nesting s = 0 → waitqueue_current s = None →
  mtxs s !! m = Some (Mtx (Some o) r) → o ≠ c → tasks s !! o = Some tko → live A (Q_mtx m) →
  boost_chain s o ts → (length ts ≤ fuel)%nat → ¬ pq_empty (qtasks A Q_ready) →
  let p := prio_current tk in
  ∃ A1 s1 new tkn A2 s2 k,
    boosted p (boosts p tko ts) A (set_dint true s) A1 s1 ∧
    os_mtx_lock fuel m s = Switch c (set_task_current (Some new) s2) k ∧ kernel_ok A2 s2 ∧
    tasks s1 !! new = Some tkn ∧ pq_top (qtasks A1 Q_ready) (prio_current tkn) new ∧
    absq A2 (Q_mtx m) = pq_insert c p (absq A1 (Q_mtx m)) ∧
    tasks s2 = <[new := set_task_queue None tkn]> (<[c := waiting_task (Q_mtx m) OS_TASKBLOCK_MTX tk]> (tasks s1)) ∧
    ∀ A3 s3 tk3, kernel_ok A3 s3 → task_current s3 = Some c → tasks s3 !! c = Some tk3 →
      ∃ s4, k s3 = Done (block_code tk3) s4 ∧ kernel_ok A3 s4 ∧ dint s4 = dint s ∧
        tasks s4 = <[c := set_state TASKSTATE_RUNNING tk3]> (tasks s3).
Proof.
  intros HK Hok Hid Hn Hw Hm Hoc Hto Hl Hch Hf Hne p. pose proof Hok as [_ Hlr Hc Ht Hq _].
  destruct (lock_prio_boost_spec A (set_dint true s) c tk m o r tko ts fuel (kernel_ok_dint _ _ _ HK) Hc Ht Hm Hto)
    as (A1 & s1 & Hrun1 & HK1 & HB1); [| done |].
  { clear -Hch. induction Hch; [by apply boost_chain_end | by eapply boost_chain_next]. }
  assert (tasks s1 !! c = Some tk) as Ht1.
  { rewrite (bo_tasks _ _ _ _ _ _ HB1). cbn. rewrite Ht. case_decide; [| done]. by destruct tk. }
  assert (sched_ok A1 s1 c tk) as Hok1.
  { destruct (bo_objects _ _ _ _ _ _ HB1) as (_ & _ & Hc1 & _).
    apply sched_ok_kernel; [done | by apply (bo_lists _ _ _ _ _ _ HB1) | by rewrite Hc1 | done | done]. }
  destruct (block_kernel_spec A1 s1 c tk (Q_mtx m) OS_TASKBLOCK_MTX HK1 Hok1)
    as (new & tkn & A2 & s2 & Hblk & HK2 & _ & _ & Htn & Htop & _ & Ht2 & Habs & _);
    [by apply (bo_lists _ _ _ _ _ _ HB1) | done | |].
  { intros He. apply Hne. apply (absq_nil A s); [apply HK |]. apply (fmap_nil_inv fst), Permutation_nil_r.
    rewrite <- (bo_members _ _ _ _ _ _ HB1). by rewrite (proj2 (absq_nil A1 s1 Q_ready (ko_queues _ _ HK1)) He). }
  unfold os_mtx_lock. rewrite not_isr_ok, not_idle_ok, not_prepared_ok by congruence.
  erewrite bind_Done by done. erewrite bind_Done by (by apply get_mtx_Some).
  erewrite bind_Done by (by apply current_Some). cbn [owner]. rewrite decide_False by done.
  erewrite bind_Switch; [| erewrite bind_Done by exact Hrun1; erewrite bind_Switch by exact Hblk; reflexivity].
  exists A1, s1, new, tkn, A2, s2. eexists. split_and!; [done | reflexivity | done.. |].
  intros A3 s3 tk3 HK3 Hc3 Ht3. destruct (resume_running_spec A3 s3 c tk3 HK3 Hc3 Ht3) as [Hr HK4].
  set (s4 := set_tasks _ s3) in *. exists (set_dint (dint s) s4). split_and!; [| by apply kernel_ok_dint | done | done].
  erewrite (bind_Done _ _ s3).
  2:{ erewrite bind_Done by exact Hr. erewrite bind_Done by (by apply current_Some).
      erewrite bind_Done by (apply get_task_Some; cbn; apply lookup_insert_eq). reflexivity. }
  by destruct tk3.
Qed.

(** C38: The boost can lower a priority. When the owner of the mutex has a lower
    priority than the caller, every owner on the chain is set to the caller's
    priority - also one further down that has a higher priority than the caller
    (the maximum is taken of the caller's priority with itself). *)
Theorem mtx_boost_lowers_owner A s c tk m o r tko ts b tkb fuel :
  kernel_ok A s → task_current s = Some c → tasks s !! c = Some tk →
  mtxs s !! m = Some (Mtx (Some o) r) → tasks s !! o = Some tko → boost_chain s o ts → (length ts ≤ fuel)%nat →
  prio_current tko < prio_current tk → b ∈ ts → tasks s !! b = Some tkb → prio_current tk < prio_current tkb →
  ∃ s' tkb', os_mtx_lock_prio_boost fuel m s = Done tt s' ∧ tasks s' !! b = Some tkb' ∧
    prio_current tkb' < prio_current tkb.
Proof.
  intros HK Hc Ht Hm Hto Hch Hf Hlt Hb Htb Hgt.
  destruct (lock_prio_boost_spec A s c tk m o r tko ts fuel HK Hc Ht Hm Hto Hch Hf) as (A1 & s1 & Hrun & _ & HB).
  exists s1, (set_prio_current (prio_current tk) tkb). split_and!; [done | | done].
  rewrite (bo_tasks _ _ _ _ _ _ HB), Htb, decide_True; [done |].
  unfold boosts. by rewrite (proj2 (Z.ltb_lt _ _)).
Qed.

(** C37: The boost does not end in a deadlock. If the owner of the mutex is one of
    a set of tasks that all wait for mutexes owned within the set, and has a
    lower priority than the caller, then no number of iterations is enough:
    [os_mtx_lock] loops for ever with interrupts disabled, even though the
    caller is not part of the deadlock. *)
Theorem mtx_boost_diverges A s c tk m o r tko X :
  kernel_ok A s → task_current s = Some c → c ≠ task_idle → tasks s !! c = Some tk →
  isr_nesting s = 0 → waitqueue_current s = None →
  mtxs s !! m = Some (Mtx (Some o) r) → o ≠ c → tasks s !! o = Some tko →
  prio_current tko < prio_current tk → deadlocked s X → o ∈ X →
  ∀ fuel, os_mtx_lock fuel m s = NoFuel.
Proof.
  intros HK Hc Hid Ht Hn Hw Hm Hoc Hto Hlt HX Hin fuel. unfold os_mtx_lock.
  rewrite not_isr_ok, not_idle_ok, not_prepared_ok by congruence.
  erewrite bind_Done by done. erewrite bind_Done by (by apply get_mtx_Some).
  erewrite bind_Done by (by apply current_Some). cbn [owner]. rewrite decide_False by done.
  unfold mbind at 1, K_bind at 1.
  assert (os_mtx_lock_prio_boost fuel m (set_dint true s) = NoFuel) as Hb.
  { unfold os_mtx_lock_prio_boost.
    erewrite bind_Done by (by apply get_mtx_Some). erewrite bind_Done by done.
    erewrite bind_Done by (by apply current_Some). do 2 erewrite bind_Done by (by apply get_task_Some).
    rewrite (proj2 (Z.ltb_lt _ _) Hlt). cbn [when].
    eapply (prio_boost_loop_diverges _ c X); [apply kernel_ok_dint, HK | done | exact Ht | done | exact HX | done]. }
  unfold mbind, K_bind. by rewrite Hb.
Qed.
End properties.

(** *** The properties at concrete states *)

Section demo.
#[local] Existing Instance avr_port.
#[local] Existing Instance avr_port_ok.

(** Task 1 (priority 2) runs. Mutex 4 is owned by task 2 (priority 1), which
    waits for mutex 5, owned by the ready task 3 of priority [p3]. *)
Definition demo_chain_setup (p3 : Z) : K unit :=
  os_init;;
  os_task_init 1 2;; os_task_init 2 1;; os_task_init 3 p3;;
  os_mtx_create 4;; os_mtx_create 5;;
  os_mtx_set_owner 4 2;; os_mtx_set_owner 5 3;;
  modify (set_task_current (Some 2%nat));;
  os_task_makewait (Q_mtx 5) OS_TASKBLOCK_MTX;;
  os_task_makeready 3%nat;;
  os_task_makeready task_idle;;
  mod_task 1%nat (set_state TASKSTATE_RUNNING);;
  modify (set_task_current (Some 1%nat));;
  modify (set_sched_lock 0);;
  arch_eint.
Definition demo_chain (p3 : Z) : kstate := run_state (demo_chain_setup p3) kstate_reset.
(** Tasks 2 and 3 wait for each other's mutex. *)
Definition demo_deadlock_setup : K unit :=
  os_init;;
  os_task_init 1 2;; os_task_init 2 1;; os_task_init 3 1;;
  os_mtx_create 4;; os_mtx_create 5;;
  os_mtx_set_owner 4 2;; os_mtx_set_owner 5 3;;
  modify (set_task_current (Some 2%nat));;
  os_task_makewait (Q_mtx 5) OS_TASKBLOCK_MTX;;
  modify (set_task_current (Some 3%nat));;
  os_task_makewait (Q_mtx 4) OS_TASKBLOCK_MTX;;
  os_task_makeready task_idle;;
  mod_task 1%nat (set_state TASKSTATE_RUNNING);;
  modify (set_task_current (Some 1%nat));;
  modify (set_sched_lock 0);;
  arch_eint.
Definition demo_deadlock : kstate := run_state demo_deadlock_setup kstate_reset.
Definition demo_task_of (s : kstate) (t : tid) : os_task_t := default task_zero (tasks s !! t).

#[local] Opaque demo_chain demo_deadlock demo_task_of.

Lemma demo_chain_ok : kernel_ok (list_to_map (lists_of (demo_chain 1))) (demo_chain 1) ∧
  kernel_ok (list_to_map (lists_of (demo_chain 4))) (demo_chain 4).
Proof. split; apply kernel_ok_b_ok; vm_compute; reflexivity. Qed.
Lemma demo_deadlock_ok : kernel_ok (list_to_map (lists_of demo_deadlock)) demo_deadlock.
Proof. apply kernel_ok_b_ok; vm_compute; reflexivity. Qed.

Lemma demo_chain_chain : boost_chain (demo_chain 1) 2 [2%nat; 3%nat] ∧ boost_chain (demo_chain 4) 2 [2%nat; 3%nat].
Proof.
  split; (eapply boost_chain_next;
    [eexists _, 5%nat, _; split_and!; vm_compute; reflexivity |
     apply boost_chain_end; eexists; split; [vm_compute; reflexivity | left; discriminate]]).
Qed.

(** Tasks 2 and 3 get priority 2; of the ready tasks 3 now runs next. *)
Lemma os_mtx_lock_inherits_witness : ∃ A1 s1 new tkn s2 k,
  boosted 2 [2%nat; 3%nat] (list_to_map (lists_of (demo_chain 1))) (set_dint true (demo_chain 1)) A1 s1 ∧
  os_mtx_lock 5 4 (demo_chain 1) = Switch 1%nat (set_task_current (Some new) s2) k ∧
  tasks s1 !! new = Some tkn ∧ pq_top (qtasks A1 Q_ready) (prio_current tkn) new.
Proof.
  destruct (os_mtx_lock_inherits (list_to_map (lists_of (demo_chain 1))) (demo_chain 1) 1
    (set_state TASKSTATE_RUNNING (demo_task 2)) 4 2 1 (demo_task_of (demo_chain 1) 2) [2%nat; 3%nat] 5)
    as (A1 & s1 & new & tkn & A2 & s2 & k & HB & Hrun & _ & Hn & Htop & _).
  - exact (proj1 demo_chain_ok).
  - apply sched_ok_kernel; [exact (proj1 demo_chain_ok) | apply live_b_ok; vm_compute; reflexivity | vm_compute; reflexivity..].
  - discriminate.
  - vm_compute; reflexivity.
  - vm_compute; reflexivity.
  - vm_compute; reflexivity.
  - discriminate.
  - vm_compute; reflexivity.
  - apply live_b_ok; vm_compute; reflexivity.
  - exact (proj1 demo_chain_chain).
  - cbn. lia.
  - intros He. specialize (He 0). vm_compute in He. discriminate He.
  - assert (boosts 2 (demo_task_of (demo_chain 1) 2) [2%nat; 3%nat] = [2%nat; 3%nat]) as Hb by (vm_compute; reflexivity).
    exists A1, s1, new, tkn, s2, k. split_and!; [rewrite <- Hb at 1; exact HB | exact Hrun | exact Hn | exact Htop].
Defined.

(** Task 3 falls from priority 4 to 2. *)
Lemma mtx_boost_lowers_owner_witness : ∃ s' tk, os_mtx_lock_prio_boost 5 4 (demo_chain 4) = Done tt s' ∧
  tasks s' !! 3%nat = Some tk ∧ prio_current tk < prio_current (demo_task_of (demo_chain 4) 3).
Proof.
  apply (mtx_boost_lowers_owner (list_to_map (lists_of (demo_chain 4))) (demo_chain 4) 1
    (demo_task_of (demo_chain 4) 1) 4 2 1 (demo_task_of (demo_chain 4) 2) [2%nat; 3%nat] 3 (demo_task_of (demo_chain 4) 3) 5).
  - exact (proj2 demo_chain_ok).
  - vm_compute; reflexivity.
  - vm_compute; reflexivity.
  - vm_compute; reflexivity.
  - vm_compute; reflexivity.
  - exact (proj2 demo_chain_chain).
  - cbn. lia.
  - vm_compute; reflexivity.
  - apply list_elem_of_further, list_elem_of_here.
  - vm_compute; reflexivity.
  - vm_compute; reflexivity.
Defined.

Lemma mtx_boost_diverges_witness : os_mtx_lock 1000 4 demo_deadlock = NoFuel.
Proof.
  apply (mtx_boost_diverges (list_to_map (lists_of demo_deadlock)) demo_deadlock 1 (demo_task_of demo_deadlock 1) 4 2 1
    (demo_task_of demo_deadlock 2) [2%nat; 3%nat]).
  - apply demo_deadlock_ok.
  - vm_compute; reflexivity.
  - discriminate.
  - vm_compute; reflexivity.
  - vm_compute; reflexivity.
  - vm_compute; reflexivity.
  - vm_compute; reflexivity.
  - discriminate.
  - vm_compute; reflexivity.
  - vm_compute; reflexivity.
  - intros t Ht. apply elem_of_cons in Ht as [-> | Ht]; [| apply list_elem_of_singleton in Ht as ->].
    + exists 3%nat. split; [apply list_elem_of_further, list_elem_of_here |].
      eexists _, 5%nat, _. split_and!; vm_compute; reflexivity.
    + exists 2%nat. split; [apply list_elem_of_here |].
      eexists _, 4%nat, _. split_and!; vm_compute; reflexivity.
  - apply list_elem_of_here.
Defined.
End demo.
