(* ===== verification/WaitQueue.v ===== *)
(** * Wait queues (source/os_waitqueue.c)

    A task prepares to wait on a queue ([os_waitqueue_prepare], which locks the
    scheduler), tests its condition, and waits or breaks off. A wake-up from an
    interrupt in between cancels the preparation instead of taking a waiter. The
    file defines the operations and the timeout callback and shows what each does
    to the caller, the waiters and the scheduler lock. *)

From stdpp Require Import base decidable list countable gmap.
From Stdlib Require Import ZArith Lia.
From S2P Require Import Prelude Arch LinkedList Kernel TaskQueue Timer Sched Invariant QueueLife Decide Sem.

Local Open Scope Z_scope.

Section waitqueue.
Context {AP : ArchPort}.

Definition OS_WAITQUEUE_ALL : Z := 255.

Definition os_waitqueue_create (w : wqid) : K unit :=
  assert_not_prepared;;
  taskqueue_memset (Q_wq w);;
  os_taskqueue_init (Q_wq w).

Definition os_waitqueue_destroy (fuel : nat) (w : wqid) : K unit :=
  assert_not_prepared;;
  cristate ← arch_critical_enter;
  wake_destroyed fuel true (Q_wq w);;
  taskqueue_memset (Q_wq w);;
  os_schedule 1;;
  arch_critical_exit cristate.

(** [os_waitqueue_prepare]: taking the lock, and the store of [waitqueue_current];
    interrupts may come in between. *)
Definition os_waitqueue_prepare_lock : K unit :=
  assert_not_isr;;
  assert_not_idle;;
  assert_no_mtx;;
  assert_not_prepared;;
  os_scheduler_lock.
Definition os_waitqueue_prepare (w : wqid) : K unit :=
  os_waitqueue_prepare_lock;;
  modify (set_waitqueue_current (Some w)).

(** [os_waitqueue_break]: the store, and giving the lock back. *)
Definition os_waitqueue_break_clear : K unit :=
  assert_not_isr;;
  modify (set_waitqueue_current None).
Definition os_waitqueue_break : K unit :=
  os_waitqueue_break_clear;;
  os_scheduler_unlock false.

(** [os_waitqueue_wait]; [junk] is what the memory of the local [timer] holds. *)
Definition os_waitqueue_wait (fuel : nat) (timeout_ticks junk : Z) : K Z :=
  assert_not_isr;;
  assert_not_idle;;
  OS_ASSERT (timeout_ticks >? OS_TIMEOUT_TRY);;
  assert_no_mtx;;
  cristate ← arch_critical_enter;
  modify (λ s, set_sched_lock (arch_atomic_wrap (sched_lock s - 1)) s);;
  w ← gets waitqueue_current;
  match w with
  | Some wait_queue =>
      when (negb (OS_TIMEOUT_INFINITE =? timeout_ticks))
        (c ← current;
         local_timer (TmBlock c) junk;;
         os_blocktimer_create fuel (TmBlock c) P_os_waitqueue_timerclbck timeout_ticks);;
      modify (set_waitqueue_current None);;
      os_task_block_switch (Q_wq wait_queue) OS_TASKBLOCK_WAITQUEUE;;
      c ← current;
      os_blocktimer_destroy c
  | None => mret tt
  end;;
  c ← current;
  task ← get_task c;
  arch_critical_exit cristate;;
  mret (block_code task).

(** The wake-up loop; [wakeup_cnt] is an [uint_fast8_t], [awoken] tells whether
    some task was woken. *)
Fixpoint wakeup_loop (fuel : nat) (w : wqid) (wakeup_cnt : Z) (awoken : bool) : K bool :=
  match fuel with
  | O => nofuel
  | S fuel =>
      if (OS_WAITQUEUE_ALL =? wakeup_cnt) || (wakeup_cnt >? 0) then
        let wakeup_cnt := if OS_WAITQUEUE_ALL =? wakeup_cnt then wakeup_cnt
                          else u8 (wakeup_cnt - 1) in
        task ← os_taskqueue_dequeue (Q_wq w);
        match task with
        | None => mret awoken
        | Some t =>
            os_blocktimer_destroy t;;
            mod_task t (set_block_code OS_OK);;
            os_task_makeready t;;
            wakeup_loop fuel w wakeup_cnt true
        end
      else mret awoken
  end.

Definition os_waitqueue_wakeup_sync (fuel : nat) (w : wqid) (wakeup_cnt : Z) (sync : bool) : K unit :=
  nesting ← gets isr_nesting;
  wc ← gets waitqueue_current;
  OS_ASSERT ((nesting >? 0) || bool_decide (wc = None));;
  OS_ASSERT ((nesting =? 0) || negb sync);;
  OS_ASSERT (wakeup_cnt >? 0);;
  cristate ← arch_critical_enter;
  nesting ← gets isr_nesting;
  wc ← gets waitqueue_current;
  wakeup_cnt ←
    (if (nesting >? 0) && bool_decide (wc = Some w) then
       modify (set_waitqueue_current None);;
       mret (if negb (OS_WAITQUEUE_ALL =? wakeup_cnt) then u8 (wakeup_cnt - 1) else wakeup_cnt)
     else mret wakeup_cnt);
  awoken ← wakeup_loop fuel w wakeup_cnt false;
  when (negb sync && awoken) (os_schedule 1);;
  arch_critical_exit cristate.

(** [os_waitqueue_wakeup] of os_waitqueue.h *)
Definition os_waitqueue_wakeup (fuel : nat) (w : wqid) (nbr : Z) : K unit :=
  os_waitqueue_wakeup_sync fuel w nbr false.

(** [os_waitqueue_timerclbck], called from [timer_trigger]. *)
Definition os_waitqueue_timerclbck (pa : timer_param_t) : K unit :=
  match pa with
  | Param_task t =>
      task ← get_task t;
      OS_SELFCHECK_ASSERT (bool_decide (state task = TASKSTATE_WAIT));;
      os_taskqueue_unlink t;;
      mod_task t (set_block_code OS_TIMEOUT);;
      os_task_makeready t
  | _ => undefined
  end.

End waitqueue.

(** ** Steps of wait queue code *)

(** The waiters that a wake-up of [n] tasks wakes, of those that wait. *)
Definition wakes (n : Z) (ws : list (tid * Z)) : list (tid * Z) :=
  if decide (n = OS_WAITQUEUE_ALL) then ws else take (Z.to_nat n) ws.

Section facts.
Context {AP : ArchPort} {APOK : ArchPortOk AP}.
Implicit Types (A : gmap laddr (list laddr)) (s : kstate) (q : qid) (t c : tid) (tk : os_task_t) (w : wqid).

Lemma wakes_cons n t p ws : 0 < n ≤ 255 → ∃ n', 0 ≤ n' ≤ 255 ∧
  n' = (if OS_WAITQUEUE_ALL =? n then n else u8 (n - 1)) ∧ wakes n ((t, p) :: ws) = (t, p) :: wakes n' ws.
Proof.
  intros Hn. unfold wakes. destruct (Z.eqb_spec OS_WAITQUEUE_ALL n) as [<- |].
  - exists OS_WAITQUEUE_ALL. rewrite !decide_True by done. unfold OS_WAITQUEUE_ALL. split; [lia | done].
  - exists (n - 1). rewrite u8_id by lia. split_and!; [lia.. | done |]. unfold OS_WAITQUEUE_ALL in *.
    rewrite !decide_False by lia. by replace (Z.to_nat n) with (S (Z.to_nat (n - 1))) by lia.
Qed.

Lemma wakes_more n : (OS_WAITQUEUE_ALL =? n) || (n >? 0) = true ↔ n = OS_WAITQUEUE_ALL ∨ 0 < n.
Proof. rewrite orb_true_iff, Z.eqb_eq, Z.gtb_lt. naive_solver. Qed.

(** The loop of [os_waitqueue_wakeup_sync]. *)
Lemma wakeup_loop_spec fuel w n b A s :
  kernel_ok A s → live A (Q_wq w) → live A Q_ready → 0 ≤ n ≤ 255 → (length (absq A (Q_wq w)) < fuel)%nat →
  ∃ A' s', wakeup_loop fuel w n b s = Done (b || negb (bool_decide (wakes n (absq A (Q_wq w)) = []))) s' ∧
    woken_seq OS_OK (Q_wq w) (wakes n (absq A (Q_wq w))) A s A' s'.
Proof.
  revert n b A s. induction fuel as [| fuel IH]; intros n b A s HK Hl Hlr Hn Hf; [lia |]. cbn [wakeup_loop].
  destruct (_ || _) eqn:Hmore.
  2:{ assert (wakes n (absq A (Q_wq w)) = []) as ->.
      { unfold wakes, OS_WAITQUEUE_ALL in *. rewrite decide_False by lia. by replace n with 0 by lia. }
      exists A, s. rewrite bool_decide_true, orb_false_r by done. split; [done | by apply woken_nil]. }
  apply wakes_more in Hmore. unfold OS_WAITQUEUE_ALL in Hmore.
  destruct (wake_first_spec A s (Q_wq w) true OS_OK HK Hl Hlr) as
    [[He Hd] | (t & tk & s1 & A1 & s2 & Hd & Hw & Ht & Hqt & Htop & HK2 & Ht2 & HL2 & Ho2 & HG2 & Hwq)]; [done | done | |].
  - erewrite bind_Done by exact Hd. exists A, s.
    assert (absq A (Q_wq w) = []) as -> by (by apply absq_from_empty).
    assert (wakes n [] = []) as -> by (unfold wakes; case_decide; [done | apply take_nil]).
    rewrite bool_decide_true, orb_false_r by done. split; [done | by apply woken_nil].
  - erewrite bind_Done by exact Hd. cbn beta iota zeta.
    rewrite (wake_task_then true OS_OK t s1 s2 (wakeup_loop fuel w (if OS_WAITQUEUE_ALL =? n then n else u8 (n - 1)) true) Hw).
    assert (absq A (Q_wq w) = (t, prio_current tk) :: absq A1 (Q_wq w)) as Habs.
    { eapply wake_queues_absq; [apply HK | done | done | done]. }
    rewrite Habs in Hf |- *. cbn in Hf.
    destruct (wakes_cons n t (prio_current tk) (absq A1 (Q_wq w))) as (n' & Hn' & <- & ->); [lia |].
    destruct (IH n' true A1 s2 HK2) as (A' & s' & Hrun & Hseq); [by apply HL2 | by apply HL2 | done | lia |].
    exists A', s'. rewrite bool_decide_false by done. rewrite Hrun, orb_true_r. split; [done |].
    by eapply (woken_cons _ _ _ _ _ A s A1 s2 _ _ (ko_queues _ _ HK)).
Qed.
End facts.

(** ** Properties of the wait queues *)

Section properties.
Context {AP : ArchPort} {APOK : ArchPortOk AP}.
Implicit Types (A : gmap laddr (list laddr)) (s : kstate) (q : qid) (t c : tid) (tk : os_task_t) (w : wqid).


(** Taking the lock in [os_waitqueue_prepare]. *)
Lemma prepare_lock_run A s c : repr (links s) A → task_current s = Some c → c ≠ task_idle →
  A !! L_mtx_list c = Some [] → isr_nesting s = 0 → waitqueue_current s = None → 0 ≤ sched_lock s < ARCH_ATOMIC_MAX →
  os_waitqueue_prepare_lock s = Done tt (set_sched_lock (sched_lock s + 1) s).
Proof.
  intros HR Hc Hid Hm Hn Hw Hl. unfold os_waitqueue_prepare_lock. rewrite not_isr_ok, not_idle_ok by congruence.
  rewrite (no_mtx_ok A s c), not_prepared_ok by done. by apply scheduler_lock_run.
Qed.

(** Preparing locks the scheduler until the task waits or gives up. From a
    task allowed to block, [os_waitqueue_prepare] raises the scheduler lock and
    marks the queue; while prepared no scheduling request switches tasks, and
    every blocking call halts; [os_waitqueue_break] restores the state, and if
    the lock is free again catches up on scheduling in a critical section. *)
Theorem waitqueue_prepare_break A s c w hp :
  repr (links s) A → task_current s = Some c → c ≠ task_idle → A !! L_mtx_list c = Some [] →
  isr_nesting s = 0 → waitqueue_current s = None → 0 ≤ sched_lock s < ARCH_ATOMIC_MAX →
  ∃ s1, os_waitqueue_prepare w s = Done tt s1 ∧ waitqueue_current s1 = Some w ∧
    os_schedule hp (set_dint true s1) = Done tt (set_dint true s1) ∧
    (∀ x timeout junk fuel, os_sem_down fuel x timeout junk s1 = os_halt s1) ∧ os_waitqueue_prepare w s1 = os_halt s1 ∧
    os_waitqueue_break s1 = when (sched_lock s =? 0)
      (cristate ← arch_critical_enter; os_schedule 1;; arch_critical_exit cristate) s.
Proof.
  intros HR Hc Hid Hm Hn Hw Hl. set (s1 := set_waitqueue_current (Some w) (set_sched_lock (sched_lock s + 1) s)).
  assert (task_current s1 = Some c ∧ isr_nesting s1 = 0 ∧ links s1 = links s) as (Hc1 & Hn1 & Hl1) by done.
  exists s1. split_and!; [| done | | | |].
  - unfold os_waitqueue_prepare. by erewrite bind_Done by (by apply (prepare_lock_run A s c)).
  - unfold os_schedule, mbind, K_bind, arch_is_dint, gets, OS_SELFCHECK_ASSERT, OS_ASSERT. cbn.
    rewrite (proj2 (Z.eqb_neq _ 0)) by lia. by rewrite andb_false_r.
  - intros x timeout junk fuel. unfold os_sem_down. rewrite not_isr_ok, not_idle_ok by congruence.
    by apply not_prepared_bad.
  - apply bind_Halted. unfold os_waitqueue_prepare_lock. rewrite not_isr_ok, not_idle_ok by congruence.
    rewrite (no_mtx_ok A s1 c) by done. by apply not_prepared_bad.
  - unfold os_waitqueue_break.
    erewrite (bind_Done _ _ s1 tt (set_waitqueue_current None s1)) by (unfold os_waitqueue_break_clear; by rewrite not_isr_ok).
    unfold os_scheduler_unlock. rewrite (bind_Done _ _ _ (sched_lock s) s).
    2:{ rewrite (unlock_dec_run _ (sched_lock s + 1 - 1)); [| done | done | apply atomic_dec_ok; cbn; lia].
        rewrite Z.add_simpl_r. f_equal. destruct s; cbn in *. by subst. }
    unfold unlock_schedules. cbn [negb andb]. by rewrite Z.eqb_sym.
Qed.


(** C36: A wake-up from an interrupt between [os_waitqueue_prepare] and
    [os_waitqueue_wait] leaves no trace in the TCB: the wait that follows does
    not block, gives the scheduler lock back without calling the scheduler, and
    returns whatever code the TCB still holds from an earlier wait - OS_TIMEOUT,
    say - instead of OS_OK. *)
Theorem waitqueue_wait_stale_code A s c tk w timeout junk fuel :
  kernel_ok A s → task_current s = Some c → tasks s !! c = Some tk → c ≠ task_idle →
  A !! L_mtx_list c = Some [] → isr_nesting s = 0 → waitqueue_current s = Some w →
  0 < sched_lock s ≤ ARCH_ATOMIC_MAX → OS_TIMEOUT_TRY < timeout → (0 < fuel)%nat →
  (modify (set_isr_nesting 1);; os_waitqueue_wakeup fuel w 1;; modify (set_isr_nesting 0);;
   os_waitqueue_wait fuel timeout junk) s =
  Done (block_code tk) (set_sched_lock (sched_lock s - 1) (set_waitqueue_current None s)).
Proof.
  intros HK Hc Ht Hid Hm Hn Hw Hl Hto Hf. destruct fuel as [| fuel]; [lia |].
  erewrite bind_Done by done.
  erewrite (bind_Done _ _ _ tt (set_waitqueue_current None (set_isr_nesting 1 s))).
  2:{ unfold os_waitqueue_wakeup, os_waitqueue_wakeup_sync. do 2 erewrite bind_Done by done.
      do 3 rewrite OS_ASSERT_true by done. do 3 erewrite bind_Done by done. cbn beta.
      cbn [isr_nesting waitqueue_current set_dint set_isr_nesting Z.gtb Z.compare andb].
      rewrite Hw, bool_decide_true by done. by erewrite bind_Done by done. }
  erewrite bind_Done by done. unfold os_waitqueue_wait.
  rewrite not_isr_ok, not_idle_ok by (cbn; congruence).
  rewrite OS_ASSERT_true by (by apply Z.gtb_lt).
  rewrite (no_mtx_ok A _ c) by (done || apply HK).
  do 3 erewrite bind_Done by done. cbn beta. cbn [waitqueue_current set_sched_lock set_dint set_isr_nesting set_waitqueue_current].
  rewrite atomic_wrap_id by (cbn; lia).
  erewrite bind_Done by done. erewrite bind_Done by (by apply current_Some).
  erewrite bind_Done by (by apply get_task_Some).
  destruct s; cbn in *. by subst.
Qed.

(** C34: Destroying a wait queue wakes every waiter, in service order, with
    OS_DESTROYED and its guard timer disarmed; the queue - its mask and every
    list head - is zeroed memory on no list, no other queue or task changes, and
    the scheduler is called. *)
Theorem waitqueue_destroy_wakes_all A s w fuel :
  kernel_ok A s → live A Q_ready → live A (Q_wq w) → waitqueue_current s = None →
  let ws := absq A (Q_wq w) in (length ws < fuel)%nat →
  ∃ A' s', os_waitqueue_destroy fuel w s = (os_schedule 1;; arch_critical_exit (dint s)) s' ∧
    kernel_ok A' s' ∧ zeroed_queue s' (Q_wq w) ∧
    (∀ p, 0 ≤ p < OS_CONFIG_PRIOCNT → unlinked A' (L_bucket (Q_wq w) p)) ∧
    (∀ t, tasks s' !! t = if decide (t ∈ ws.*1) then woken OS_DESTROYED <$> tasks s !! t else tasks s !! t) ∧
    (∀ y, y ∈ armed A' → y ∈ armed A ∧ ∀ t tk, t ∈ ws.*1 → tasks s !! t = Some tk → timer tk ≠ Some y) ∧
    (∀ i, qtasks A' Q_ready i = qtasks A Q_ready i ++ (filter (λ x, x.2 = i) ws).*1) ∧
    (∀ q i, q ≠ Q_wq w → q ≠ Q_ready → qtasks A' q i = qtasks A q i) ∧ sems s' = sems s ∧ mtxs s' = mtxs s.
Proof.
  intros HK Hlr Hl Hw ws Hf. unfold os_waitqueue_destroy. rewrite not_prepared_ok by done.
  erewrite bind_Done by done. cbn beta.
  destruct (wake_destroyed_spec fuel true (Q_wq w) A (set_dint true s) (kernel_ok_dint _ _ _ HK) Hl Hlr)
    as (A1 & s1 & Hrun & Hseq & Hemp); [done.. |].
  fold ws in Hseq. pose proof (woken_disarmed _ _ _ _ _ _ _ Hseq) as Harm. destruct Hseq as [HK1 HL1 Ho1 _ Ht1 Hq1 _].
  erewrite bind_Done by exact Hrun.
  destruct (memset_spec A1 s1 (Q_wq w) HK1) as (s2 & Hm & HK2 & Hs2 & Hf2 & Hz).
  { eapply idle_live; [apply HK1 | by apply HL1 | done]. }
  erewrite bind_Done by exact Hm. pose proof (lists_step_objects _ _ Hs2) as Ho2.
  exists (drop_queue A1 (Q_wq w)), s2. split_and!; [done | done | exact Hz | by intros; apply Hf2 | | | | | |].
  - intros t. by rewrite (lists_step_tasks _ _ Hs2), Ht1.
  - rewrite drop_armed. exact Harm.
  - intros i. rewrite qtasks_drop, decide_False by done. by rewrite Hq1.
  - intros q i H1 H2. rewrite qtasks_drop, decide_False, Hq1, decide_False by done. apply app_nil_r.
  - destruct Ho2 as (-> & _). by destruct Ho1 as (-> & _).
  - destruct Ho2 as (_ & -> & _). by destruct Ho1 as (_ & -> & _).
Qed.
End properties.

(** *** The properties at a concrete state *)

Section demo.
#[local] Existing Instance avr_port.
#[local] Existing Instance avr_port_ok.

(** Tasks 2 (priority 3) and 3 (priority 2) wait on queue 9; task 1 (priority 2)
    runs, holding the return code of a wait that timed out; the idle task is
    ready. *)
Definition demo_wq_setup : K unit :=
  os_init;;
  os_task_init 1 2;; os_task_init 2 3;; os_task_init 3 2;;
  os_waitqueue_create 9;;
  modify (set_task_current (Some 3%nat));;
  os_task_makewait (Q_wq 9) OS_TASKBLOCK_WAITQUEUE;;
  modify (set_task_current (Some 2%nat));;
  os_task_makewait (Q_wq 9) OS_TASKBLOCK_WAITQUEUE;;
  os_task_makeready task_idle;;
  mod_task 1%nat (set_state TASKSTATE_RUNNING);;
  mod_task 1%nat (set_block_code OS_TIMEOUT);;
  modify (set_task_current (Some 1%nat));;
  modify (set_sched_lock 0);;
  arch_eint.
Definition demo_wq : kstate := run_state demo_wq_setup kstate_reset.
(** The same with task 1 prepared on queue 9. *)
Definition demo_prepared : kstate := set_waitqueue_current (Some 9%nat) (set_sched_lock 1 demo_wq).
Definition demo_wq_lists : gmap laddr (list laddr) := list_to_map (lists_of demo_wq).
Definition demo_caller : os_task_t := set_block_code OS_TIMEOUT (set_state TASKSTATE_RUNNING (demo_task 2)).

#[local] Opaque demo_wq demo_wq_lists demo_prepared.

Lemma demo_wq_ok : kernel_ok demo_wq_lists demo_wq.
Proof. apply (kernel_ok_b_ok (lists_of demo_wq)). vm_compute; reflexivity. Qed.
Lemma demo_prepared_ok : kernel_ok demo_wq_lists demo_prepared.
Proof. apply (kernel_ok_b_ok (lists_of demo_wq)). vm_compute; reflexivity. Qed.
Lemma demo_wq_ready : live demo_wq_lists Q_ready.
Proof. apply (live_b_ok (lists_of demo_wq)). vm_compute; reflexivity. Qed.
Lemma demo_wq_live : live demo_wq_lists (Q_wq 9).
Proof. apply (live_b_ok (lists_of demo_wq)). vm_compute; reflexivity. Qed.
Lemma demo_wq_waiters : absq demo_wq_lists (Q_wq 9) = [(2%nat, 3); (3%nat, 2)].
Proof. vm_compute; reflexivity. Qed.


Lemma waitqueue_prepare_break_witness : ∃ s1, os_waitqueue_prepare 9 demo_wq = Done tt s1 ∧
  os_sem_down 3 (SemUser 1) 5 0 s1 = os_halt s1.
Proof.
  destruct (waitqueue_prepare_break demo_wq_lists demo_wq 1 9 1) as (s1 & Hp & _ & _ & Hh & _).
  - apply demo_wq_ok.
  - vm_compute; reflexivity.
  - discriminate.
  - vm_compute; reflexivity.
  - vm_compute; reflexivity.
  - vm_compute; reflexivity.
  - vm_compute. split; [discriminate | reflexivity].
  - exists s1. split; [exact Hp | apply Hh].
Defined.


(** Task 1 was woken, and is told that it timed out. *)
Lemma waitqueue_wait_stale_code_witness : ∃ s',
  (modify (set_isr_nesting 1);; os_waitqueue_wakeup 3 9 1;; modify (set_isr_nesting 0);;
   os_waitqueue_wait 3 100 0) demo_prepared = Done OS_TIMEOUT s'.
Proof.
  eexists. apply (waitqueue_wait_stale_code demo_wq_lists demo_prepared 1 demo_caller 9 100 0 3 demo_prepared_ok).
  - vm_compute; reflexivity.
  - vm_compute; reflexivity.
  - discriminate.
  - vm_compute; reflexivity.
  - vm_compute; reflexivity.
  - vm_compute; reflexivity.
  - vm_compute. split; [reflexivity | discriminate].
  - reflexivity.
  - lia.
Defined.

Lemma waitqueue_destroy_wakes_all_witness : ∃ A' s',
  os_waitqueue_destroy 5 9 demo_wq = (os_schedule 1;; arch_critical_exit false) s' ∧
  qtasks A' Q_ready 3 = [2%nat] ∧ qtasks A' Q_ready 2 = [3%nat].
Proof.
  pose proof (waitqueue_destroy_wakes_all demo_wq_lists demo_wq 9 5 demo_wq_ok demo_wq_ready demo_wq_live) as H.
  assert (dint demo_wq = false) as Hd by (vm_compute; reflexivity). rewrite Hd, demo_wq_waiters in H. cbv zeta in H.
  destruct H as (A' & s' & Hrun & _ & _ & _ & _ & _ & Hq & _); [vm_compute; reflexivity | cbn; lia |].
  exists A', s'. split_and!; [exact Hrun | rewrite Hq; vm_compute; reflexivity..].
Defined.
End demo.
