(* ===== verification/System.v ===== *)
(** * The whole system: tasks, context switches and interrupts

    A machine runs one task at a time. Task code is not modelled: at any point
    the running task may call any API function. An interrupt may come wherever
    interrupts are enabled: in task code, in an API function outside its critical
    section, and in another interrupt that enables them. Where an API function
    works on shared data with interrupts enabled and then enters a critical
    section, it is cut in two there ([point]); what an API function does before
    its first write, or on an object that only it knows, is one with the step that
    follows. A suspended task is either new, preempted by an interrupt in its own
    code or at such a point, or inside a critical section of a kernel function,
    whose remainder is the continuation saved by the context switch. *)

From stdpp Require Import base decidable list countable gmap.
From Stdlib Require Import ZArith Lia FunctionalExtensionality.
From S2P Require Import Prelude Arch LinkedList Kernel TaskQueue Timer Sched Sem Mtx WaitQueue.

Local Open Scope Z_scope.

(** API calls; [junk] is what the memory of the local guard timer holds. *)
Inductive api :=
| Api_scheduler_lock | Api_scheduler_unlock (sync : bool) | Api_yield
| Api_task_create (t : tid) (prio stack size proc param : Z) | Api_task_join (t : tid) | Api_task_exit (retv : Z)
| Api_sem_create (x : semid) (v : Z) | Api_sem_destroy (x : semid)
| Api_sem_down (x : semid) (timeout junk : Z) | Api_sem_up_sync (x : semid) (sync : bool)
| Api_mtx_create (m : mid) | Api_mtx_destroy (m : mid) | Api_mtx_lock (m : mid) | Api_mtx_unlock (m : mid)
| Api_waitqueue_create (w : wqid) | Api_waitqueue_destroy (w : wqid)
| Api_waitqueue_prepare (w : wqid) | Api_waitqueue_break | Api_waitqueue_wait (timeout junk : Z)
| Api_waitqueue_wakeup_sync (w : wqid) (cnt : Z) (sync : bool)
| Api_timer_create (x : tmid) (cb : timer_proc_t) (pa : timer_param_t) (timeout reload : Z)
| Api_timer_destroy (x : tmid) | Api_tick.

(** Where an API function may be interrupted between two steps of its work:
    before the critical sections of [os_timer_create], [os_task_create],
    [os_scheduler_unlock] and [os_start], before [os_waitqueue_prepare] stores the
    queue, and before [os_waitqueue_break] unlocks the scheduler. *)
Inductive point :=
| At_timer_create (x : tmid)
| At_task_create (t : tid)
| At_schedule
| At_start
| At_prepare (w : wqid)
| At_break.

(** The code of an interrupt service routine between [arch_contextstore_i] and
    [arch_contextrestore_i]: it calls the kernel, masks and unmasks interrupts, and
    may itself be interrupted, also at the [point] of a call. *)
Inductive isr_code :=
| Isr_call (a : api) (served : list isr_code)
| Isr_eint
| Isr_dint
| Isr_nested (body : list isr_code).

Section system.
Context {AP : ArchPort}.
(** Application and port code: timer callbacks, [arch_task_init]. *)
Context (user_clbck : nat → timer_param_t → K unit) (arch_task_init : tid → Z → Z → Z → Z → K unit) (fuel : nat).

(** Calling a timer callback through its function pointer. *)
Definition call_clbck (p : timer_proc_t) (pa : timer_param_t) : K unit :=
  match p with
  | P_null => undefined
  | P_os_sem_timerclbck => os_sem_timerclbck pa
  | P_os_waitqueue_timerclbck => os_waitqueue_timerclbck pa
  | P_user n => user_clbck n pa
  end.

Definition ret0 (m : K unit) : K Z := m;; mret 0.

(** A call that is not interrupted. *)
Definition run_api (a : api) : K Z :=
  match a with
  | Api_scheduler_lock => ret0 os_scheduler_lock
  | Api_scheduler_unlock sync => ret0 (os_scheduler_unlock sync)
  | Api_yield => ret0 os_yield
  | Api_task_create t prio stack size proc param => ret0 (os_task_create arch_task_init t prio stack size proc param)
  | Api_task_join t => os_task_join fuel t
  | Api_task_exit retv => ret0 (os_task_exit retv)
  | Api_sem_create x v => ret0 (os_sem_create x v)
  | Api_sem_destroy x => ret0 (os_sem_destroy fuel x)
  | Api_sem_down x timeout junk => os_sem_down fuel x timeout junk
  | Api_sem_up_sync x sync => ret0 (os_sem_up_sync x sync)
  | Api_mtx_create m => ret0 (os_mtx_create m)
  | Api_mtx_destroy m => ret0 (os_mtx_destroy fuel m)
  | Api_mtx_lock m => os_mtx_lock fuel m
  | Api_mtx_unlock m => ret0 (os_mtx_unlock fuel m)
  | Api_waitqueue_create w => ret0 (os_waitqueue_create w)
  | Api_waitqueue_destroy w => ret0 (os_waitqueue_destroy fuel w)
  | Api_waitqueue_prepare w => ret0 (os_waitqueue_prepare w)
  | Api_waitqueue_break => ret0 os_waitqueue_break
  | Api_waitqueue_wait timeout junk => os_waitqueue_wait fuel timeout junk
  | Api_waitqueue_wakeup_sync w cnt sync => ret0 (os_waitqueue_wakeup_sync fuel w cnt sync)
  | Api_timer_create x cb pa timeout reload => ret0 (os_timer_create fuel x cb pa timeout reload)
  | Api_timer_destroy x => ret0 (os_timer_destroy x)
  | Api_tick => ret0 (os_tick call_clbck fuel)
  end.

(** The call up to its [point], which depends on the value that code returns; [None]
    where it has returned to its caller. *)
Definition api_start (a : api) : K Z * (Z → option point) :=
  match a with
  | Api_timer_create x cb pa timeout reload => (ret0 (os_timer_create_init x cb pa timeout reload), λ _, Some (At_timer_create x))
  | Api_task_create t prio stack size proc param =>
      (ret0 (os_task_create_init arch_task_init t prio stack size proc param), λ _, Some (At_task_create t))
  | Api_scheduler_unlock sync =>
      (os_scheduler_unlock_dec, λ lock_curr, if unlock_schedules sync lock_curr then Some At_schedule else None)
  | Api_waitqueue_prepare w => (ret0 os_waitqueue_prepare_lock, λ _, Some (At_prepare w))
  | Api_waitqueue_break => (ret0 os_waitqueue_break_clear, λ _, Some At_break)
  | _ => (run_api a, λ _, None)
  end.
(** From a [point] on. *)
Definition point_resume (p : point) : K Z * (Z → option point) :=
  match p with
  | At_timer_create x => (ret0 (os_timer_create_add fuel x), λ _, None)
  | At_task_create t => (ret0 (os_task_create_enqueue t), λ _, None)
  | At_schedule => (ret0 (schedule_critical 1), λ _, None)
  | At_start => (ret0 (schedule_critical 0), λ _, None)
  | At_prepare w => (ret0 (modify (set_waitqueue_current (Some w))), λ _, None)
  | At_break => (os_scheduler_unlock_dec, λ lock_curr, if unlock_schedules false lock_curr then Some At_schedule else None)
  end.

(** ** The machine *)

Inductive suspended :=
| Sus_user (p : option point)           (** new, or preempted in task code or at [p] *)
| Sus_kernel (k : kstate → res Z) (next : Z → option point).
    (** inside a critical section, with what follows it *)

(** The CPU executes code of [task_current]: task code, or an API function at the
    point [p] ([Running]), or the code of an API function with the given outcome
    still to be played out ([InKernel]). *)
Inductive machine :=
| Running (s : kstate) (last_ret : Z) (p : option point) (sus : gmap tid suspended)
| InKernel (r : res Z) (next : Z → option point) (sus : gmap tid suspended).

(** One step of playing out kernel code; [None] when the CPU is stuck. A context
    switch parks the old task and restores the new one: interrupts are enabled in
    task code and disabled inside a critical section. *)
Definition kernel_step (r : res Z) (next : Z → option point) (sus : gmap tid suspended) : option machine :=
  match r with
  | Done v s => Some (Running s v (next v) sus)
  | Switch me s k =>
      let sus := <[me := Sus_kernel k next]> sus in
      new ← task_current s;
      match sus !! new with
      | Some (Sus_user p) => Some (Running (set_dint false s) 0 p (delete new sus))
      | Some (Sus_kernel k' next') => Some (InKernel (k' (set_dint true s)) next' (delete new sus))
      | None => None
      end
  | _ => None
  end.

(** The task created by [os_task_create] starts as a new task. *)
Definition register_task (a : api) (sus : gmap tid suspended) : gmap tid suspended :=
  match a with Api_task_create t _ _ _ _ _ => <[t := Sus_user None]> sus | _ => sus end.

(** The running task calls [a], or goes on from [p]. *)
Definition call_step (a : api) (s : kstate) (sus : gmap tid suspended) : machine :=
  InKernel ((api_start a).1 s) (api_start a).2 (register_task a sus).
Definition resume_step (p : point) (s : kstate) (sus : gmap tid suspended) : machine :=
  InKernel ((point_resume p).1 s) (point_resume p).2 sus.

(** The calls of the start-up code, where interrupts are masked. *)
Fixpoint run_calls (l : list api) : K unit :=
  match l with [] => mret tt | a :: l => run_api a;; run_calls l end.

(** An interrupt: interrupts are masked by the CPU, on Linux by [sa_mask]; then
    [arch_contextstore_i], the code of the service routine and
    [arch_contextrestore_i]. A nested interrupt is taken where interrupts are
    enabled; on its return they are enabled again. The calls of an ISR never
    switch context; if they chose another task, the interrupted one is parked and
    the chosen one restored at the end of the outermost ISR. *)
Definition interrupt_entry : K unit := modify (set_dint true).
Definition arch_contextstore_i : K unit :=
  modify (λ s, set_isr_nesting (arch_atomic_wrap (isr_nesting s + 1)) s).
Definition arch_contextrestore_i : K unit :=
  arch_dint;; modify (λ s, set_isr_nesting (arch_atomic_wrap (isr_nesting s - 1)) s).
Definition take_interrupt (body : K unit) : K unit :=
  interrupt_entry;; arch_contextstore_i;; body;; arch_contextrestore_i.
Definition nested_interrupt (body : K unit) : K unit :=
  masked ← gets dint;
  if (masked : bool) then mret tt else take_interrupt body;; arch_eint.
Definition resume_all (p : point) : K unit :=
  v ← (point_resume p).1;
  match (point_resume p).2 v with
  | Some p' => (point_resume p').1;; mret tt
  | None => mret tt
  end.
Fixpoint run_isr_code (x : isr_code) : K unit :=
  match x with
  | Isr_call a served =>
      v ← (api_start a).1;
      match (api_start a).2 v with
      | Some p => nested_interrupt (foldr (λ x (m : K unit), run_isr_code x;; m) (mret tt) served);; resume_all p
      | None => mret tt
      end
  | Isr_eint => arch_eint
  | Isr_dint => arch_dint
  | Isr_nested body => nested_interrupt (foldr (λ x (m : K unit), run_isr_code x;; m) (mret tt) body)
  end.
Definition isr_body (l : list isr_code) : K unit := foldr (λ x (m : K unit), run_isr_code x;; m) (mret tt) l.
Definition isr (l : list isr_code) : K unit := take_interrupt (isr_body l).

(** The end of the outermost interrupt restores the context of [task_current]; a
    task that gave the CPU away inside a critical section finds interrupts masked
    where the port restores the mask of its context. *)
Definition isr_step (l : list isr_code) (s : kstate) (v : Z) (p : option point) (sus : gmap tid suspended) : option machine :=
  match isr l s with
  | Done _ s' =>
      if decide (task_current s' = task_current s) then Some (Running (set_dint false s') v p sus) else
      old ← task_current s;
      new ← task_current s';
      let sus := <[old := Sus_user p]> sus in
      match sus !! new with
      | Some (Sus_user p') => Some (Running (set_dint false s') 0 p' (delete new sus))
      | Some (Sus_kernel k' next') => Some (InKernel (k' (set_dint arch_isr_exit_masked s')) next' (delete new sus))
      | None => None
      end
  | _ => None
  end.

(** Steps of the system. *)
Inductive step : machine → machine → Prop :=
| step_call a s v sus : step (Running s v None sus) (call_step a s sus)
| step_resume p s v sus : step (Running s v (Some p) sus) (resume_step p s sus)
| step_kernel r next sus M : kernel_step r next sus = Some M → step (InKernel r next sus) M
| step_isr l s v p sus M : dint s = false → isr_step l s v p sus = Some M → step (Running s v p sus) M.

Inductive reachable (M0 : machine) : machine → Prop :=
| reachable_refl : reachable M0 M0
| reachable_step M M' : reachable M0 M → step M M' → reachable M0 M'.

(** Driving the machine through a script: a call runs up to its [point], [Go] lets
    the running task go on from there. *)
Inductive event := Call (a : api) | Go | Isr (l : list isr_code).
Fixpoint settle (n : nat) (M : machine) : option machine :=
  match M with
  | Running _ _ _ _ => Some M
  | InKernel r next sus =>
      match n with O => None | S n => M' ← kernel_step r next sus; settle n M' end
  end.
Fixpoint run (evs : list event) (M : machine) : option machine :=
  match evs, M with
  | [], _ => Some M
  | Call a :: evs, Running s _ None sus => M' ← settle fuel (call_step a s sus); run evs M'
  | Go :: evs, Running s _ (Some p) sus => M' ← settle fuel (resume_step p s sus); run evs M'
  | Isr l :: evs, Running s v p sus => M' ← isr_step l s v p sus; M' ← settle fuel M'; run evs M'
  | _, _ => None
  end.

(** The system after [os_init] and a list of initial task and object creations,
    about to execute [os_start]. *)
Definition power_on (init : list api) : option machine :=
  match (os_init;; run_calls init) kstate_reset with
  | Done _ s => Some (InKernel ((ret0 os_start_enable) s) (λ _, Some At_start) (foldr register_task ∅ init))
  | _ => None
  end.
Definition boot (init : list api) : option machine :=
  M ← power_on init; M ← settle fuel M; run [Go] M.

(** ** The two steps of a call are the call *)

Lemma res_bind_assoc {A B C} (r : res A) (f : A → K B) (g : B → K C) :
  res_bind (res_bind r f) g = res_bind r (λ a s, res_bind (f a s) g).
Proof. induction r as [| | | | me s k IH]; cbn; [done.. |]. f_equal. apply functional_extensionality. auto. Qed.

Lemma resumed_ret0 p m m' s : point_resume p = (ret0 m', λ _, None) →
  (ret0 (m;; m');; mret tt) s = (v ← ret0 m; (λ _ : Z, resume_all p) v) s.
Proof.
  intros Hp. unfold resume_all. rewrite Hp. unfold ret0, mbind, K_bind. cbn. rewrite !res_bind_assoc. f_equal.
  apply functional_extensionality. intros []. apply functional_extensionality. intros s2. cbn. by rewrite !res_bind_assoc.
Qed.

(** A call that is not interrupted at its [point] is the C function. *)
Lemma api_uninterrupted a s : (run_api a;; mret tt) s =
  (v ← (api_start a).1; match (api_start a).2 v with Some p => resume_all p | None => mret tt end) s.
Proof.
  assert (∀ sync s, (ret0 (os_scheduler_unlock sync);; mret tt) s =
    (v ← os_scheduler_unlock_dec; if unlock_schedules sync v then resume_all At_schedule else mret tt) s) as Hu.
  { intros sync s'. unfold os_scheduler_unlock, resume_all, ret0, mbind, K_bind. cbn. rewrite !res_bind_assoc. f_equal.
    apply functional_extensionality. intros v. apply functional_extensionality. intros s2.
    destruct (unlock_schedules sync v); [| done]. cbv beta. unfold ret0, mbind, K_bind. by rewrite res_bind_assoc. }
  destruct a; try done; cbn [run_api api_start fst snd].
  - rewrite Hu. unfold mbind, K_bind. f_equal. apply functional_extensionality. intros v. by destruct (unlock_schedules sync v).
  - by apply resumed_ret0.
  - by apply resumed_ret0.
  - transitivity ((os_waitqueue_break_clear;; ret0 (os_scheduler_unlock false);; mret tt) s).
    { unfold os_waitqueue_break, ret0, mbind, K_bind. rewrite !res_bind_assoc. f_equal. apply functional_extensionality. intros [].
      apply functional_extensionality. intros s2. by rewrite res_bind_assoc. }
    transitivity ((os_waitqueue_break_clear;; resume_all At_break) s); [| unfold ret0, mbind, K_bind; by rewrite res_bind_assoc].
    unfold mbind, K_bind. f_equal. apply functional_extensionality. intros [].
    apply functional_extensionality. intros s2. etransitivity; [apply Hu |].
    unfold resume_all at 2. cbn [point_resume fst snd]. unfold mbind, K_bind. f_equal.
    apply functional_extensionality. intros v. by destruct (unlock_schedules false v).
  - by apply resumed_ret0.
Qed.

End system.
