(* ===== verification/Timeouts.v ===== *)
(** * Timeouts

    The callbacks of guard timers ([os_sem_timerclbck],
    [os_waitqueue_timerclbck]) as a client of the timer component: they satisfy
    the interface [TimerClient], and [os_tick] on the whole kernel wakes exactly
    the tasks whose guard timers expire. *)

From stdpp Require Import base decidable list countable gmap.
From Stdlib Require Import ZArith Lia.
From S2P Require Import Prelude Arch LinkedList Kernel TaskQueue Timer Sched Invariant QueueLife Decide Sem WaitQueue System.

Local Open Scope Z_scope.

(** The task that the guard timer [x] times out. *)
Definition guarded (s : kstate) (x : tmid) : option tid :=
  match clbck (timer_at s x), param (timer_at s x) with
  | P_os_sem_timerclbck, Param_task t | P_os_waitqueue_timerclbck, Param_task t => Some t
  | _, _ => None
  end.

(** [x] is a timer of the application, or the guard timer of a task that waits. *)
Definition may_fire (s : kstate) (x : tmid) : Prop :=
  match guarded s x with
  | None => ∃ n, clbck (timer_at s x) = P_user n
  | Some t => ∃ tk q, tasks s !! t = Some tk ∧ state tk = TASKSTATE_WAIT ∧
      task_queue tk = Some q ∧ q ≠ Q_ready ∧ timer tk = Some x
  end.

(** The TCB of a task that was timed out; it forgets its timer when it runs. *)
Definition timed_out (tk : os_task_t) : os_task_t :=
  ready_task (set_block_code OS_TIMEOUT (set_task_queue None tk)).

(** The tasks [ts], first to last, were timed out. *)
Record timed_out_seq (ts : list tid) A s A' s' : Prop := {
  to_tasks : ∀ t, tasks s' !! t = if decide (t ∈ ts) then timed_out <$> tasks s !! t else tasks s !! t;
  to_queues : ∀ q i, qtasks A' q i =
    if decide (q = Q_ready)
    then qtasks A q i ++ filter (λ t, prio_current <$> tasks s !! t = Some i) ts
    else filter (λ t, t ∉ ts) (qtasks A q i)
}.

Section facts.
Context {AP : ArchPort} {APOK : ArchPortOk AP}.
Implicit Types (A : gmap laddr (list laddr)) (s : kstate) (q : qid) (t c : tid) (tk : os_task_t).

(** The task queues under a change of the timer lists. *)
Lemma queues_ok_timer_lists A s A' s' :
  queues_ok A s → masks s' = masks s → tasks s' = tasks s → repr (links s') A' →
  (∀ a, is_Some (links s !! a) → is_Some (links s' !! a)) →
  (∀ hd, hd ≠ L_timer_list → hd ≠ L_autoreload → A' !! hd = A !! hd) →
  (∀ hd xs, hd = L_timer_list ∨ hd = L_autoreload → A' !! hd = Some xs → ∃ ts, xs = L_timer <$> ts) →
  queues_ok A' s'.
Proof.
  intros [HR HB HM HK HT] Hm Ht HR' Hdom Hhd Hts.
  assert (∀ q i, qtasks A' q i = qtasks A q i) as Hq by (intros; unfold qtasks; by rewrite Hhd).
  assert (∀ q, live A' q ↔ live A q) as Hl.
  { intros q. unfold live. split; intros Hl p Hp; specialize (Hl p Hp); by rewrite Hhd in *. }
  split; [done | | | |].
  - intros q p xs. rewrite Hhd, Hl, Hq, Hm by done. apply HB.
  - intros q p t. rewrite Hq, Ht. apply HM.
  - intros q m. rewrite Hl, Hm. intros H1 H2. destruct (HK q m H1 H2) as [? Hb]. split; [done |].
    intros i. rewrite Hq. apply Hb.
  - intros t tk. rewrite Ht. intros Htk. destruct (HT t tk Htk) as [Hs Hin]. split; [by apply Hdom |].
    destruct (task_queue tk); [by rewrite Hq |].
    intros hd xs Hx. destruct (decide (hd = L_timer_list ∨ hd = L_autoreload)) as [Hh |].
    + destruct (Hts hd xs Hh Hx) as [ts ->]. rewrite elem_of_cons, list_elem_of_fmap.
      destruct Hh as [-> | ->]; intros [? | (? & ? & _)]; done.
    + rewrite Hhd in Hx by tauto. by apply Hin.
Qed.

(** The callback of a guard timer. *)
Lemma timerclbck_spec A s t tk q :
  queues_ok A s → live A Q_ready → tasks s !! t = Some tk → task_queue tk = Some q → q ≠ Q_ready →
  state tk = TASKSTATE_WAIT → 0 ≤ prio_current tk < OS_CONFIG_PRIOCNT →
  ∃ A' s', os_sem_timerclbck (Param_task t) s = Done tt s' ∧
    queues_step s (<[t := timed_out tk]> (tasks s)) s' ∧ queues_ok A' s' ∧ (∀ q', live A q' ↔ live A' q') ∧
    (∀ q' i, qtasks A' q' i = filter (.≠ t) (qtasks A q' i) ++
      (if decide (q' = Q_ready ∧ i = prio_current tk) then [t] else [])) ∧
    (∀ hd, (∀ q p, hd ≠ L_bucket q p) → A' !! hd = A !! hd) ∧
    (∀ y, unlinked A (L_timer y) → unlinked A' (L_timer y)).
Proof.
  intros HQ Hlr Ht Hq Hqr Hst Hp. cbn [os_sem_timerclbck].
  erewrite bind_Done by (by apply get_task_Some).
  unfold OS_SELFCHECK_ASSERT. rewrite OS_ASSERT_true by (by apply bool_decide_eq_true).
  destruct (unlink_spec A s q t tk HQ Ht Hq) as (s1 & ts1 & ts2 & Hu & Hts & Hs1 & HQ1).
  erewrite bind_Done by exact Hu. pose proof (queues_step_tasks _ _ _ (queue_step_step _ _ _ _ Hs1)) as Ht1.
  erewrite bind_Done by (apply mod_task_Some; rewrite Ht1; apply lookup_insert_eq).
  rewrite Ht1, insert_insert_eq.
  set (A1 := set_bucket A q (prio_current tk) (ts1 ++ ts2)) in *.
  set (tk2 := set_block_code OS_TIMEOUT (set_task_queue None tk)).
  assert (queues_ok A1 (set_tasks (<[t := tk2]> (tasks s)) s1)) as HQ2.
  { pose proof (queues_ok_mod_task A1 s1 t (set_task_queue None tk) tk2) as Hmod.
    rewrite Ht1, insert_insert_eq in Hmod. apply Hmod; [apply lookup_insert_eq | done | done | done]. }
  destruct (makeready_spec A1 _ t tk2 HQ2) as (s3 & Hm & Hs3 & HQ3);
    [by apply live_set_bucket | cbn; apply lookup_insert_eq | done | done |].
  exists (push A1 Q_ready t (prio_current tk)), s3. split_and!.
  - exact Hm.
  - destruct Hs1 as (h1 & mk1 & -> & Hd1), Hs3 as (h3 & mk3 & -> & Hd3). exists h3, mk3. cbn in *.
    rewrite insert_insert_eq. split; [done | by transitivity h1].
  - done.
  - intros q'. transitivity (live A1 q').
    + apply same_lists_bucket; [| done]. eapply (qtasks_live A s HQ q (prio_current tk) t). rewrite Hts, elem_of_app, elem_of_cons. auto.
    + apply same_lists_bucket; [by apply live_set_bucket | done].
  - intros q' i. rewrite qtasks_push. unfold A1. rewrite qtasks_set_bucket. f_equal.
    destruct (decide (q' = q ∧ i = prio_current tk)) as [[-> ->] | Hne].
    + rewrite Hts. symmetry. apply filter_ne_split. rewrite <- Hts. by eapply qtasks_NoDup.
    + symmetry. apply filter_ne_id. intros Hin. apply (qo_member _ _ HQ) in Hin as (tk' & ? & ? & ?).
      apply Hne. split; congruence.
  - intros hd Hhd. unfold push, A1. rewrite !set_bucket_other by done. done.
  - intros y Hy. by do 2 (apply unlinked_bucket; [done.. |]).
Qed.

Section client.
Context (user_clbck : nat → timer_param_t → K unit) (A0 : gmap laddr (list laddr)) (s0 : kstate).
(** Callbacks of the application that keep to their own data. *)
Hypothesis Huser : ∀ n pa s, user_clbck n pa s = Done tt s.
Hypothesis HQ0 : queues_ok A0 s0.
Hypothesis Hready0 : live A0 Q_ready.
Hypothesis Hprio0 : ∀ t tk, tasks s0 !! t = Some tk → 0 ≤ prio_current tk < OS_CONFIG_PRIOCNT.

(** What the callbacks rely on and establish: from [s0], the tasks guarded by
    [fired] were timed out. *)
Record clbck_inv (fired : list tmid) A s : Prop := {
  ci_queues : queues_ok A s;
  ci_live : ∀ q, live A0 q ↔ live A q;
  ci_fired : ∀ x, x ∈ fired → may_fire s0 x;
  ci_timers : same_but_counts s0 s;
  ci_seq : timed_out_seq (omap (guarded s0) fired) A0 s0 A s;
  ci_lists : ∀ hd, hd ≠ L_timer_list → hd ≠ L_autoreload → (∀ q p, hd ≠ L_bucket q p) → A !! hd = A0 !! hd;
  ci_objects : sems s = sems s0 ∧ mtxs s = mtxs s0 ∧ task_current s = task_current s0 ∧
    isr_nesting s = isr_nesting s0 ∧ sched_lock s = sched_lock s0 ∧ waitqueue_current s = waitqueue_current s0
}.

Lemma same_counts_trans s1 s2 s3 : same_but_counts s1 s2 → same_but_counts s2 s3 → same_but_counts s1 s3.
Proof. intros H12 H23 x. destruct (H12 x) as [c H1], (H23 x) as [c' H2]. exists c'. rewrite H2, H1. done. Qed.

Lemma guarded_fresh (fired : list tmid) x t : (∀ y, y ∈ fired → may_fire s0 y) → may_fire s0 x → x ∉ fired →
  guarded s0 x = Some t → t ∉ omap (guarded s0) fired.
Proof.
  unfold may_fire. intros Hf Hx Hn Hg (y & Hy & Hgy)%list_elem_of_omap.
  specialize (Hf y Hy). rewrite Hg in Hx. rewrite Hgy in Hf. decompose_hyps. congruence.
Qed.

Lemma timed_out_snoc (ts : list tid) t tk A s A' s' :
  timed_out_seq ts A0 s0 A s → queues_ok A s → t ∉ ts → tasks s0 !! t = Some tk → task_queue tk ≠ Some Q_ready →
  tasks s' = <[t := timed_out tk]> (tasks s) →
  (∀ q' i, qtasks A' q' i = filter (.≠ t) (qtasks A q' i) ++
    (if decide (q' = Q_ready ∧ i = prio_current tk) then [t] else [])) →
  timed_out_seq (ts ++ [t]) A0 s0 A' s'.
Proof.
  intros [Ht Hq] HQ Hn Htk Hqt Ht' Hq'. split.
  - intros t'. rewrite Ht', lookup_insert. case_decide as H1.
    + subst t'. rewrite decide_True, Htk; [done |]. rewrite elem_of_app. right. apply list_elem_of_here.
    + rewrite Ht. destruct (decide (t' ∈ ts)).
      * rewrite decide_True; [done |]. rewrite elem_of_app. by left.
      * rewrite decide_False; [done |]. rewrite elem_of_app, list_elem_of_singleton. naive_solver.
  - intros q i. rewrite Hq', Hq. destruct (decide (q = Q_ready)) as [-> |].
    + rewrite filter_ne_id.
      * rewrite <- app_assoc, filter_app. do 2 f_equal. rewrite filter_cons, Htk. cbn.
        destruct (decide (i = prio_current tk)) as [-> |]; [by rewrite !decide_True |].
        rewrite decide_False by (by intros [_ ?]). by rewrite decide_False by congruence.
      * intros [Hin | Hin]%elem_of_app; [| apply Hn; by apply list_elem_of_filter in Hin as [_ ?]].
        apply (qo_member _ _ HQ0) in Hin as (tk' & ? & ? & ?). congruence.
    + rewrite decide_False by (by intros [? _]). rewrite app_nil_r, list_filter_filter.
      apply list_filter_iff. intros t'. rewrite elem_of_app, list_elem_of_singleton. tauto.
Qed.

#[export] Instance kernel_timer_client : TimerClient (call_clbck user_clbck) (may_fire s0) clbck_inv.
Proof.
  split.
  - intros fired A s A' s' [HQ Hl Hf Hc Hs Hh Ho] (Hm & Ht & Hk) Hc' HR' Hdom Hhd Hts. split.
    + by eapply queues_ok_timer_lists.
    + intros q. rewrite Hl. unfold live. split; intros Hlq p Hp; specialize (Hlq p Hp); by rewrite Hhd in * by done.
    + done.
    + by eapply same_counts_trans.
    + destruct Hs as [Hs1 Hs2]. split; [by rewrite Ht |]. intros q i. unfold qtasks at 1. rewrite Hhd by done. apply Hs2.
    + intros hd H1 H2 H3. rewrite Hhd by done. by apply Hh.
    + decompose_hyps. split_and!; congruence.
  - intros fired A s x Hx Hn [HQ Hl Hf Hc Hs Hh Ho] HR Hu.
    destruct (Hc x) as [cnt Hcx].
    assert (∀ y, y ∈ fired ++ [x] → may_fire s0 y) as Hf'.
    { intros y. rewrite elem_of_app, list_elem_of_singleton. intros [? | ->]; auto. }
    destruct (guarded s0 x) as [t |] eqn:Hg.
    + pose proof Hx as Hx'. unfold may_fire in Hx'. rewrite Hg in Hx'.
      destruct Hx' as (tk & q & Ht & Hst & Hq & Hqr & Htm).
      pose proof (guarded_fresh fired x t Hf Hx Hn Hg) as Hnt.
      assert (tasks s !! t = Some tk) as Hts by (by rewrite (to_tasks _ _ _ _ _ Hs), decide_False).
      destruct (timerclbck_spec A s t tk q HQ (proj1 (Hl _) Hready0) Hts Hq Hqr Hst (Hprio0 _ _ Ht))
        as (A' & s' & Hrun & Hstep & HQ' & Hl' & Hqs & Hoth & Hunl).
      exists A', s'. pose proof (queues_step_tasks _ _ _ Hstep) as Ht'.
      destruct Hstep as (h & mk & Hs' & Hd).
      assert (call_clbck user_clbck (clbck (timer_at s x)) (param (timer_at s x)) s = Done tt s') as Hcall.
      { rewrite Hcx. cbn. unfold guarded in Hg.
        destruct (clbck (timer_at s0 x)); try done; destruct (param (timer_at s0 x)); simplify_eq; exact Hrun. }
      split_and!; [exact Hcall | | apply HQ' | by subst s' | by apply Hoth | by apply Hoth | done | intros y; by apply Hoth |
        intros a; subst s'; cbn; by apply Hd].
      split; [done | by intros q'; rewrite Hl | done | | | |].
      * eapply same_counts_trans; [done |]. apply same_counts_refl. by subst s'.
      * rewrite omap_app. cbn. rewrite Hg. eapply timed_out_snoc; [exact Hs | done | done | done | congruence | done | done].
      * intros hd H1 H2 H3. rewrite Hoth by done. by apply Hh.
      * by subst s'.
    + exists A, s. unfold may_fire in Hx. pose proof Hx as Hx'. rewrite Hg in Hx'. destruct Hx' as [n Hn'].
      split_and!; try done; [rewrite Hcx; cbn; rewrite Hn'; apply Huser |].
      split; try done. rewrite omap_app. cbn. rewrite Hg. by rewrite app_nil_r.
Qed.
End client.

(** A tick of the whole kernel, up to its call of the scheduler. *)
Lemma tick_times_out user_clbck A s fuel :
  (∀ n pa s, user_clbck n pa s = Done tt s) →
  kernel_ok A s → live A Q_ready → 0 < isr_nesting s →
  (∀ x, x ∈ armed A → may_fire s x) → (2 * length (armed A) < fuel)%nat →
  ∃ A' s', os_tick (call_clbck user_clbck) fuel s = (os_schedule 0;; arch_critical_exit (dint s)) s' ∧
    kernel_ok A' s' ∧ timed_out_seq (omap (guarded s) (filter (λ x, remaining s x = 1) (armed A))) A s A' s' ∧
    same_lists A A' ∧ same_but_counts s s' ∧
    (∀ x, x ∈ armed A' ↔ x ∈ armed A ∧ (remaining s x ≠ 1 ∨ ticks_reload (timer_at s x) > 0)) ∧ dint s' = true ∧
    sems s' = sems s ∧ mtxs s' = mtxs s ∧ task_current s' = task_current s ∧
    isr_nesting s' = isr_nesting s ∧ waitqueue_current s' = waitqueue_current s ∧ sched_lock s' = sched_lock s ∧
    ∀ x, x ∉ armed A → timer_at s' x = timer_at s x.
Proof.
  intros Hu HK Hl Hn Hmf Hf. pose proof (ko_queues _ _ HK) as HQ.
  pose proof (kernel_timer_client user_clbck A s Hu HQ Hl (ko_prio _ _ HK)) as HC.
  assert (clbck_inv A s [] A s) as HI.
  { split; try done.
    - intros x []%not_elem_of_nil.
    - by apply same_counts_refl.
    - split; [done |]. intros q i. cbn. case_decide; [by rewrite app_nil_r |].
      symmetry. apply filter_all_id. intros x _. apply not_elem_of_nil. }
  destruct (os_tick_run _ _ _ A s fuel HI (qo_repr _ _ HQ) (ko_timers _ _ HK) (ko_auto _ _ HK) Hn Hmf Hf)
    as (A' & s' & Hrun & [HQ' Hl' _ Hc' [Ht' Hq'] HL' Ho'] & _ & HT' & Hau & Hdi & _ & Harm & _ & Hidle & _).
  assert (∀ t tk', tasks s' !! t = Some tk' → ∃ tk, tasks s !! t = Some tk ∧
    prio_current tk' = prio_current tk ∧ timer tk' = timer tk) as Hback.
  { intros t tk'. rewrite Ht'. case_decide; [| eauto]. intros (tk & Htk & ->)%fmap_Some. eauto. }
  exists A', s'. split_and!; try done; [| | apply Ho'..].
  - split; [done | done | | | done].
    + intros t tk' (tk & Htk & -> & _)%Hback. by eapply (ko_prio _ _ HK).
    + intros t tk' x (tk & Htk & _ & ->)%Hback Hx. destruct (Hc' x) as [cnt ->]. by eapply (ko_guard _ _ HK t tk).
  - split; [| done]. intros hd H1 H2. destruct (decide (hd = L_autoreload)) as [-> |]; [| by apply HL'].
    assert (∀ B, unlinked B L_autoreload → B !! L_autoreload = None) as Hnone.
    { intros B HB. destruct (B !! L_autoreload) eqn:E; [| done]. exfalso. by apply (HB _ _ E), list_elem_of_here. }
    by rewrite !Hnone by (done || apply HK).
Qed.
End facts.

(** ** Properties of timeouts *)

Section properties.
Context {AP : ArchPort} {APOK : ArchPortOk AP}.
Implicit Types (A : gmap laddr (list laddr)) (s : kstate) (q : qid) (t c : tid) (tk : os_task_t).

(** C6: A tick times out exactly the tasks whose guard timers run out. When the
    armed timers are guard timers of waiting tasks or timers of the application
    (whose callbacks leave the kernel alone), [os_tick] takes the tasks whose
    guard timer had one tick to go out of the queues they wait in, gives them
    the return code OS_TIMEOUT and puts them, soonest-armed first, at the tail
    of their priority in the ready queue; every other task, the order of the
    remaining waiters and the synchronisation objects stay as they were, the
    kernel invariant holds, and the scheduler is called. *)
Theorem os_tick_times_out user_clbck A s fuel :
  (∀ n pa s, user_clbck n pa s = Done tt s) →
  kernel_ok A s → live A Q_ready → 0 < isr_nesting s →
  (∀ x, x ∈ armed A → may_fire s x) → (2 * length (armed A) < fuel)%nat →
  let due := omap (guarded s) (filter (λ x, remaining s x = 1) (armed A)) in
  ∃ A' s', os_tick (call_clbck user_clbck) fuel s = (os_schedule 0;; arch_critical_exit (dint s)) s' ∧
    kernel_ok A' s' ∧ live A' Q_ready ∧
    (∀ t, tasks s' !! t = if decide (t ∈ due) then timed_out <$> tasks s !! t else tasks s !! t) ∧
    (∀ i, qtasks A' Q_ready i = qtasks A Q_ready i ++ filter (λ t, prio_current <$> tasks s !! t = Some i) due) ∧
    (∀ q i, q ≠ Q_ready → qtasks A' q i = filter (λ t, t ∉ due) (qtasks A q i)) ∧
    sems s' = sems s ∧ mtxs s' = mtxs s ∧ task_current s' = task_current s.
Proof.
  intros Hu HK Hl Hn Hmf Hf due.
  destruct (tick_times_out user_clbck A s fuel Hu HK Hl Hn Hmf Hf)
    as (A' & s' & Hrun & HK' & [Ht' Hq'] & [_ HL] & _ & _ & _ & ? & ? & ? & _).
  fold due in Ht', Hq'. exists A', s'. split_and!; try done; [by apply HL |].
  intros q i Hqr. by rewrite Hq', decide_False.
Qed.
End properties.

(** *** The property at a concrete state *)

Section demo.
#[local] Existing Instance avr_port.
#[local] Existing Instance avr_port_ok.

(** The semaphore example, two ticks later and in an interrupt: one tick before
    the guard timer of task 2 expires. *)
Definition demo_timeout : kstate := set_isr_nesting 1 (set_unsynch 2 demo_sems).
Definition demo_waiter : os_task_t := default task_zero (tasks demo_timeout !! 2%nat).

#[local] Opaque demo_timeout demo_sems_lists demo_waiter.

Lemma demo_timeout_ok : kernel_ok demo_sems_lists demo_timeout.
Proof. apply (kernel_ok_b_ok (lists_of demo_sems)). vm_compute; reflexivity. Qed.

Lemma demo_timeout_armed : armed demo_sems_lists = [TmBlock 2].
Proof. vm_compute; reflexivity. Qed.

Lemma demo_timeout_due : filter (λ x, remaining demo_timeout x = 1) [TmBlock 2] = [TmBlock 2] ∧
  guarded demo_timeout (TmBlock 2) = Some 2%nat.
Proof. vm_compute; by split. Qed.

Lemma os_tick_times_out_witness : ∃ A' s',
  os_tick (call_clbck (λ _ _, mret tt)) 3 demo_timeout = (os_schedule 0;; arch_critical_exit false) s' ∧
  tasks s' !! 2%nat = Some (timed_out demo_waiter) ∧ qtasks A' (Q_sem (SemUser 5)) 3 = [] ∧
  qtasks A' Q_ready 3 = [2%nat].
Proof.
  destruct demo_timeout_due as [Hdue Hg].
  pose proof (demo_sems_live Q_ready (list_elem_of_here _ _)) as Hl.
  assert (∀ (n : nat) (pa : timer_param_t) s, (λ _ _, mret tt : K unit) n pa s = Done tt s) as Hu by reflexivity.
  pose proof (os_tick_times_out (λ _ _, mret tt) demo_sems_lists demo_timeout 3 Hu demo_timeout_ok Hl) as H.
  cbv zeta in H. destruct H as (A' & s' & Hrun & _ & _ & Ht & Hr & Hq & _).
  - vm_compute; reflexivity.
  - rewrite demo_timeout_armed. intros x ->%list_elem_of_singleton. unfold may_fire. rewrite Hg.
    exists demo_waiter, (Q_sem (SemUser 5)). split_and!; [vm_compute; reflexivity.. | discriminate | vm_compute; reflexivity].
  - rewrite demo_timeout_armed. cbn. lia.
  - rewrite demo_timeout_armed, Hdue in *. cbn [omap list_omap] in *. rewrite Hg in *.
    assert (dint demo_timeout = false) as Hd by (vm_compute; reflexivity). rewrite Hd in Hrun.
    exists A', s'. split_and!; [exact Hrun | | |].
    + rewrite Ht. vm_compute; reflexivity.
    + rewrite Hq by discriminate. vm_compute; reflexivity.
    + rewrite Hr. vm_compute; reflexivity.
Defined.
End demo.
