(* ===== verification/SysOk.v ===== *)
(** * The invariant of the running system

    [sys_ok Qs A s c]: the kernel invariant [kernel_ok], and what holds of every
    task while task [c] has the CPU and [Qs] are the objects that exist: the task
    queues of semaphores and wait queues, and the timers and tasks that are being
    created. Every task but [c] is in the ready queue, waits in one of [Qs], has
    ended or is not ready yet; the idle task is ready unless it runs; a guard timer
    is armed only for a task that waits, and the other armed timers are timers of
    the application. [Qs] also has the semaphore of every
    task that joins another one: [joins_ok] ties the [join_sem] of a task that has
    not ended to the one task that waits there. Mutexes are left out of this
    invariant. Each step of the kernel is shown to preserve it. *)

From stdpp Require Import base decidable list countable gmap sets.
From Stdlib Require Import ZArith Lia.
From S2P Require Import Prelude Arch LinkedList Kernel TaskQueue Timer Sched Invariant QueueLife TimerLife Sem Tasks WaitQueue System Timeouts.

Local Open Scope Z_scope.

(** ** The objects of the system *)

(** The task queues of the semaphores and wait queues that exist; the timers that
    [os_timer_create] has initialised but not yet armed, and the tasks that
    [os_task_create] has initialised but not yet made ready, each with the task
    that is creating it. *)
Record objs := Objs { queues : gset qid; setups : gmap tmid tid; births : gmap tid tid }.
Definition no_objs : objs := Objs ∅ ∅ ∅.
Definition with_queue (q : qid) (Qs : objs) : objs := Objs ({[q]} ∪ queues Qs) (setups Qs) (births Qs).
Definition without_queue (q : qid) (Qs : objs) : objs := Objs (queues Qs ∖ {[q]}) (setups Qs) (births Qs).
Definition with_setup (x : tmid) (c : tid) (Qs : objs) : objs := Objs (queues Qs) (<[x := c]> (setups Qs)) (births Qs).
Definition without_setup (x : tmid) (Qs : objs) : objs := Objs (queues Qs) (delete x (setups Qs)) (births Qs).
Definition with_birth (t c : tid) (Qs : objs) : objs := Objs (queues Qs) (setups Qs) (<[t := c]> (births Qs)).
Definition without_birth (t : tid) (Qs : objs) : objs := Objs (queues Qs) (setups Qs) (delete t (births Qs)).

#[export] Instance objs_elem_of : ElemOf qid objs := λ q Qs, q ∈ queues Qs.
#[export] Instance set_unfold_with_queue q q' Qs P : SetUnfoldElemOf q Qs P → SetUnfoldElemOf q (with_queue q' Qs) (q = q' ∨ P).
Proof. intros [H]. split. unfold elem_of in *. unfold objs_elem_of in *. cbn. rewrite elem_of_union, elem_of_singleton. by rewrite <- H. Qed.
#[export] Instance set_unfold_without_queue q q' Qs P : SetUnfoldElemOf q Qs P → SetUnfoldElemOf q (without_queue q' Qs) (P ∧ q ≠ q').
Proof. intros [H]. split. unfold elem_of in *. unfold objs_elem_of in *. cbn. rewrite elem_of_difference, elem_of_singleton. by rewrite <- H. Qed.

#[export] Instance set_unfold_no_objs q : SetUnfoldElemOf q no_objs False.
Proof. split. unfold elem_of, objs_elem_of. cbn. by rewrite elem_of_empty. Qed.

Lemma elem_of_with_queue q q' Qs : q ∈ with_queue q' Qs ↔ q = q' ∨ q ∈ Qs.
Proof. set_solver. Qed.
Lemma elem_of_without_queue q q' Qs : q ∈ without_queue q' Qs ↔ q ∈ Qs ∧ q ≠ q'.
Proof. set_solver. Qed.

(** The timer [y] is being created; so is the task [t]. *)
Definition in_setup (Qs : objs) (y : tmid) : Prop := is_Some (setups Qs !! y).
Definition in_birth (Qs : objs) (t : tid) : Prop := is_Some (births Qs !! t).

(** Where a task that does not run is, and the state its TCB gives. *)
Definition placed (Qs : objs) (t : tid) (tk : os_task_t) : Prop :=
  match task_queue tk with
  | None => state tk = TASKSTATE_DESTROYED ∨ state tk = TASKSTATE_INVALID ∨ in_birth Qs t
  | Some Q_ready => state tk = TASKSTATE_READY
  | Some q => q ∈ Qs ∧ state tk = TASKSTATE_WAIT
  end.

(** The queue in which task [j] waits for the task it joins. *)
Notation joinq j := (Q_sem (SemJoin j)) (only parsing).

(** Task [j] waits for the task it joins; a task that has not ended, [c] being the
    running one, will signal the semaphore [x] when it ends. *)
Definition waits_join (T : gmap tid os_task_t) (j : tid) : Prop :=
  ∃ tk, T !! j = Some tk ∧ task_queue tk = Some (joinq j).
Definition joined_by (T : gmap tid os_task_t) (c t : tid) (x : semid) : Prop :=
  ∃ tk, T !! t = Some tk ∧ join_sem tk = Some x ∧ (t = c ∨ task_queue tk ≠ None).

(** A task that will signal a semaphore is the only one to do so, and the semaphore
    is that of a waiting task; a task waits alone, and without a timeout. *)
Record joins_ok (T : gmap tid os_task_t) (c : tid) : Prop := {
  jo_waits : ∀ t x, joined_by T c t x → ∃ j, x = SemJoin j ∧ waits_join T j;
  jo_one : ∀ t1 t2 x, joined_by T c t1 x → joined_by T c t2 x → t1 = t2;
  jo_alone : ∀ t tk j, T !! t = Some tk → task_queue tk = Some (joinq j) → t = j ∧ timer tk = None
}.

(** Task [t] has no guard timer. *)
Definition rest (t : tid) (s : kstate) : Prop := ∀ tk, tasks s !! t = Some tk → timer tk = None.

(** [y] is the guard timer of a waiting task other than [c]. *)
Definition guards (s : kstate) (c : tid) (y : tmid) : Prop :=
  ∃ t tk q, y = TmBlock t ∧ tasks s !! t = Some tk ∧ t ≠ c ∧ timer tk = Some y ∧
    task_queue tk = Some q ∧ q ≠ Q_ready ∧
    (clbck (timer_at s y) = P_os_sem_timerclbck ∨ clbck (timer_at s y) = P_os_waitqueue_timerclbck) ∧
    param (timer_at s y) = Param_task t ∧ ticks_reload (timer_at s y) = 0.

(** The number of timers the application has, which are [TmUser 0], [TmUser 1], ... *)
Class AppTimers := app_timers : nat.

(** [y] is a timer of the application. *)
Definition app_timer {NT : AppTimers} (s : kstate) (y : tmid) : Prop :=
  ∃ n k, y = TmUser n ∧ (n < app_timers)%nat ∧ clbck (timer_at s y) = P_user k.

(** A task being created. *)
Definition born (tk : os_task_t) : Prop := task_queue tk = None ∧ state tk = TASKSTATE_READY ∧ join_sem tk = None.

(** The lists of the system: ready queue, [Qs], timer list, lists of mutexes, and
    what [list_init] makes of a timer being created. *)
Definition known_list (Qs : objs) (s : kstate) (hd : laddr) : Prop :=
  match hd with
  | L_bucket q _ => q = Q_ready ∨ q ∈ Qs
  | L_timer_list => True
  | L_mtx_list t => is_Some (tasks s !! t)
  | L_timer y => in_setup Qs y
  | _ => False
  end.

Record sys_ok {AP : ArchPort} {NT : AppTimers} (Qs : objs) (A : gmap laddr (list laddr)) (s : kstate) (c : tid) : Prop := {
  sy_kernel : kernel_ok A s;
  sy_ready : live A Q_ready;
  sy_current : task_current s = Some c;
  sy_free : ∃ tk, tasks s !! c = Some tk ∧ task_queue tk = None;
  sy_idle : ∃ tk, tasks s !! task_idle = Some tk ∧ prio_current tk = 0 ∧
    (c = task_idle ∨ task_queue tk = Some Q_ready);
  sy_placed : ∀ t tk, tasks s !! t = Some tk → t ≠ c → placed Qs t tk;
  sy_ended : ∀ t tk, tasks s !! t = Some tk → t ≠ c → task_queue tk = None → timer tk = None ∧ joinq t ∉ Qs;
  sy_joins : joins_ok (tasks s) c;
  sy_armed : ∀ y, y ∈ armed A → guards s c y ∨ app_timer s y;
  sy_setup : ∀ y, in_setup Qs y → pending A s y ∧ app_timer s y;
  sy_birth : ∀ t, in_birth Qs t → t ≠ c ∧ ∃ tk, tasks s !! t = Some tk ∧ born tk;
  sy_queues : ∀ q, q ∈ Qs → live A q ∧ q ≠ Q_ready;
  sy_joiner : ∀ j, joinq j ∈ Qs → is_Some (tasks s !! j);
  sy_sems : ∀ x, Q_sem x ∈ Qs → ∃ v, sem_ok A s x v (absq A (Q_sem x));
  sy_prepared : ∀ w, waitqueue_current s = Some w → Q_wq w ∈ Qs;
  sy_lists : ∀ hd, is_Some (A !! hd) → known_list Qs s hd;
  sy_mtx : ∀ t, is_Some (tasks s !! t) → A !! L_mtx_list t = Some []
}.

(** The TCB of [t] after a step that hands the CPU from [c] to [c']. *)
Record tcb_step {AP : ArchPort} (Qs : objs) (A : gmap laddr (list laddr)) (s : kstate) (c : tid)
    (A' : gmap laddr (list laddr)) (s' : kstate) (c' t : tid) (tk tk' : os_task_t) : Prop := {
  ts_join : ∀ x, join_sem tk' = Some x → t = c' ∨ task_queue tk' ≠ None →
    join_sem tk = Some x ∧ (t = c ∨ task_queue tk ≠ None);
  ts_waits : task_queue tk = Some (joinq t) → task_queue tk' = Some (joinq t) ∨ ∀ t', ¬ joined_by (tasks s) c t' (SemJoin t);
  ts_alone : ∀ j, task_queue tk' = Some (joinq j) → t = j ∧ timer tk' = None;
  ts_prio : prio_current tk' = prio_current tk;
  ts_placed : t ≠ c' → placed Qs t tk';
  ts_ended : t ≠ c' → task_queue tk' = None → timer tk' = None ∧ joinq t ∉ Qs;
  ts_birth : in_birth Qs t → tk' = tk ∧ t ≠ c';
  ts_armed : TmBlock t ∈ armed A' → TmBlock t ∈ armed A →
    t ≠ c' ∧ timer tk' = timer tk ∧ task_queue tk' = task_queue tk
}.

(** No ready task has a higher priority than [c], unless the scheduler is locked. *)
Definition urgent (c : tid) (s : kstate) : Prop :=
  sched_lock s = 0 → ∀ t tk tkc, tasks s !! c = Some tkc → tasks s !! t = Some tk →
  task_queue tk = Some Q_ready → prio_current tk ≤ prio_current tkc.

Section facts.
Context {AP : ArchPort} {APOK : ArchPortOk AP} {NT : AppTimers}.
Implicit Types (A : gmap laddr (list laddr)) (s : kstate) (q : qid) (t c : tid) (tk : os_task_t) (Qs : objs).

Lemma sys_sched Qs A s c : sys_ok Qs A s c → ∃ tk, sched_ok A s c tk.
Proof.
  intros H. destruct (sy_free _ _ _ _ H) as (tk & Ht & Hq). exists tk.
  apply sched_ok_kernel; [apply H | apply H | apply H | done | done].
Qed.

(** *** The most urgent task *)

Lemma urgent_from s s' c : urgent c s → (sched_lock s' = 0 → sched_lock s = 0) →
  (∀ t tk', tasks s' !! t = Some tk' → ∃ tk, tasks s !! t = Some tk ∧ prio_current tk = prio_current tk' ∧ task_queue tk = task_queue tk') →
  urgent c s'.
Proof.
  intros Hu Hl Ht Hl' t tk' tkc' (tkc & Hc & <- & _)%Ht (tk & Htk & <- & <-)%Ht Hq. by apply (Hu (Hl Hl') t).
Qed.

Lemma urgent_same s s' c : urgent c s → (sched_lock s' = 0 → sched_lock s = 0) → tasks s' = tasks s → urgent c s'.
Proof. intros Hu Hl Ht. apply (urgent_from s); [done | done |]. rewrite Ht. eauto. Qed.

Lemma urgent_own s s' c (f : os_task_t → os_task_t) tk : urgent c s → (sched_lock s' = 0 → sched_lock s = 0) →
  tasks s !! c = Some tk → tasks s' = <[c := f tk]> (tasks s) →
  prio_current (f tk) = prio_current tk → task_queue (f tk) = task_queue tk → urgent c s'.
Proof.
  intros Hu Hl Hc Ht Hp Hq. apply (urgent_from s); [done | done |]. intros t tk'. rewrite Ht, lookup_insert.
  case_decide; [subst; intros [= <-] | intros ?]; eauto.
Qed.

(** The head of the ready queue gets the CPU; [c] gives it up with the TCB [tkc]. *)
Lemma urgent_top A s s' c tkc new tkn : queues_ok A s → tasks s !! new = Some tkn → new ≠ c →
  pq_top (qtasks A Q_ready) (prio_current tkn) new →
  (task_queue tkc = Some Q_ready → prio_current tkc ≤ prio_current tkn) →
  tasks s' = <[new := set_task_queue None tkn]> (<[c := tkc]> (tasks s)) → urgent new s'.
Proof.
  intros HQ Hn Hnc [_ Htop] Hc Ht _ t tk tk' Hnew. rewrite Ht, lookup_insert_eq in Hnew. injection Hnew as <-.
  rewrite Ht, !lookup_insert. repeat case_decide; [by intros [= <-] | intros [= <-]; exact Hc |].
  intros Htk Hq. destruct (Z.le_gt_cases (prio_current tk) (prio_current tkn)) as [| Hlt]; [done |].
  destruct (qo_task _ _ HQ t tk Htk) as [_ Hin]. rewrite Hq in Hin.
  rewrite Htop in Hin by done. by apply elem_of_nil in Hin.
Qed.

(** *** Joins *)

Lemma joins_step Qs A s c A' s' c' : joins_ok (tasks s) c → (∀ t, is_Some (tasks s !! t) → is_Some (tasks s' !! t)) →
  (∀ t tk', tasks s' !! t = Some tk' → ∃ tk, tasks s !! t = Some tk ∧ tcb_step Qs A s c A' s' c' t tk tk') →
  joins_ok (tasks s') c'.
Proof.
  intros HJ Hd Hst.
  assert (∀ t x, joined_by (tasks s') c' t x → joined_by (tasks s) c t x) as Hback.
  { intros t x (tk' & (tk & Htk & H1)%Hst & Hx & Hl). destruct (ts_join _ _ _ _ _ _ _ _ _ _ H1 x Hx Hl). by exists tk. }
  split.
  - intros t x Hj%Hback. destruct (jo_waits _ _ HJ t x Hj) as (j & -> & tk & Htk & Hq). exists j. split; [done |].
    destruct (Hd j) as [tk' Htk']; [eauto |]. destruct (Hst j tk' Htk') as (tk0 & Htk0 & H1). simplify_eq.
    exists tk'. split; [done |]. destruct (ts_waits _ _ _ _ _ _ _ _ _ _ H1 Hq) as [| Hno]; [done | by destruct (Hno t)].
  - intros t1 t2 x H1%Hback H2%Hback. by eapply (jo_one _ _ HJ).
  - intros t tk' j (tk & _ & H1)%Hst. apply H1.
Qed.

(** A new task, on a TCB that no task uses. *)
Lemma joins_ok_new T c t tk : joins_ok T c → (∀ tk0, T !! t = Some tk0 → task_queue tk0 = None) → join_sem tk = None →
  (∀ j, task_queue tk ≠ Some (joinq j)) → joins_ok (<[t := tk]> T) c.
Proof.
  intros HJ Hn Hj Hq.
  assert (∀ t' x, joined_by (<[t := tk]> T) c t' x → joined_by T c t' x) as Hback.
  { intros t' x (tk' & Htk' & Hx & Hl). rewrite lookup_insert in Htk'. case_decide; simplify_eq. by exists tk'. }
  split.
  - intros t' x Hj'%Hback. destruct (jo_waits _ _ HJ t' x Hj') as (j & -> & tk' & Htk' & Hq'). exists j. split; [done |].
    exists tk'. rewrite lookup_insert_ne by (intros <-; specialize (Hn tk' Htk'); congruence). done.
  - intros t1 t2 x H1%Hback H2%Hback. by eapply (jo_one _ _ HJ).
  - intros t' tk' j. rewrite lookup_insert. case_decide; [intros [= <-] ?; by destruct (Hq j) | by apply (jo_alone _ _ HJ)].
Qed.

(** A task that waits for another one, as seen in the state after its wait. *)
Lemma joined_queue Qs A s c t x : sys_ok Qs A s c → joined_by (tasks s) c t x → ∃ j, x = SemJoin j ∧ j ≠ c ∧ Q_sem x ∈ Qs ∧
  waits_join (tasks s) j.
Proof.
  intros H Hj. destruct (jo_waits _ _ (sy_joins _ _ _ _ H) t x Hj) as (j & -> & Hw). exists j. split; [done |].
  destruct Hw as (tk & Htk & Hq). assert (j ≠ c) as Hjc.
  { intros ->. destruct (sy_free _ _ _ _ H) as (tkc & ? & ?). congruence. }
  split_and!; [done | | by exists tk]. pose proof (sy_placed _ _ _ _ H j tk Htk Hjc) as Hp. unfold placed in Hp.
  rewrite Hq in Hp. apply Hp.
Qed.

Lemma not_joined Qs A s c j t : sys_ok Qs A s c → joinq j ∉ Qs ∨ j = c → ¬ joined_by (tasks s) c t (SemJoin j).
Proof. intros H Hj (j' & [= <-] & Hjc & Hin & _)%(joined_queue _ _ _ _ _ _ H). by destruct Hj. Qed.

(** *** Lists *)

(** Lists after a step that creates and destroys no queue. *)
Lemma known_lists Qs A s A' s' : (∀ hd, is_Some (A !! hd) → known_list Qs s hd) → kernel_ok A' s' →
  same_lists A A' → (∀ t, is_Some (tasks s !! t) → is_Some (tasks s' !! t)) →
  ∀ hd, is_Some (A' !! hd) → known_list Qs s' hd.
Proof.
  intros HA HK [HL Hl] Ht hd Hhd. destruct hd; cbn; try done.
  - rewrite HL in Hhd by done. by apply HA in Hhd.
  - rewrite HL in Hhd by done. by apply Ht, (HA (L_mtx_list t)).
  - rewrite HL in Hhd by done. by apply HA in Hhd.
  - destruct Hhd as [xs Hxs]. destruct (qo_bucket _ _ (ko_queues _ _ HK) _ _ _ Hxs) as (Hp & Hlv & _).
    apply Hl in Hlv. by apply (HA (L_bucket q p)), Hlv.
  - rewrite HL in Hhd by done. by apply HA in Hhd.
  - rewrite HL in Hhd by done. by apply HA in Hhd.
Qed.

(** Steps that create and destroy no object. *)
Lemma sys_ok_step Qs A s c A' s' c' :
  sys_ok Qs A s c → kernel_ok A' s' → same_lists A A' →
  (∀ t, is_Some (tasks s !! t) ↔ is_Some (tasks s' !! t)) → task_current s' = Some c' →
  (∃ tk, tasks s' !! c' = Some tk ∧ task_queue tk = None) →
  (∀ t tk tk', tasks s !! t = Some tk → tasks s' !! t = Some tk' → tcb_step Qs A s c A' s' c' t tk tk') →
  (∀ y, y ∈ armed A' → y ∈ armed A ∧ (∃ n, timer_at s' y = set_ticks_rem n (timer_at s y)) ∨ guards s' c' y ∨ app_timer s' y) →
  (∀ y, in_setup Qs y → timer_at s' y = timer_at s y) →
  (c' = task_idle ∨ task_queue <$> tasks s' !! task_idle = Some (Some Q_ready)) →
  (∀ x, Q_sem x ∈ Qs → ∃ v, sem_ok A' s' x v (absq A' (Q_sem x))) →
  (∀ w, waitqueue_current s' = Some w → Q_wq w ∈ Qs) → sys_ok Qs A' s' c'.
Proof.
  intros H HK HL Hd Hc Hf Ht Ha Hsu Hi Hs Hw.
  assert (∀ t tk', tasks s' !! t = Some tk' → ∃ tk, tasks s !! t = Some tk ∧ tcb_step Qs A s c A' s' c' t tk tk') as Hst.
  { intros t tk' Htk'. destruct (Hd t) as [_ [tk Htk]]; [eauto |]. eauto. }
  split; try done.
  - by apply HL, H.
  - destruct (sy_idle _ _ _ _ H) as (tk & Htk & Hp & _). destruct (Hd task_idle) as [[tk' Htk'] _]; [eauto |].
    exists tk'. split; [done |]. split; [by rewrite (ts_prio _ _ _ _ _ _ _ _ _ _ (Ht _ _ _ Htk Htk')) |].
    destruct Hi as [-> | Hi]; [by left | right]. rewrite Htk' in Hi. by injection Hi.
  - intros t tk' (tk & _ & H1)%Hst. apply H1.
  - intros t tk' (tk & _ & H1)%Hst. apply H1.
  - by eapply joins_step; [apply H | apply Hd |].
  - intros y Hy. destruct (Ha y Hy) as [[Hy' [n Hn]] |]; [| done].
    destruct (sy_armed _ _ _ _ H y Hy') as [(t & tk & q & -> & Htk & _ & Htm & Hq & Hqr & Hcb & Hpa & Hrl) | (i & k & -> & Hi2 & Hcb)];
      [left | by right; exists i, k; rewrite Hn].
    destruct (Hd t) as [[tk' Htk'] _]; [eauto |].
    destruct (ts_armed _ _ _ _ _ _ _ _ _ _ (Ht _ _ _ Htk Htk') Hy Hy') as (Htc & H1 & H2).
    exists t, tk', q. rewrite Hn. split_and!; try done; congruence.
  - intros y Hy. destruct (sy_setup _ _ _ _ H y Hy) as [(H1 & H2 & H3) (i & k & -> & Hi2 & Hcb)]. split.
    + unfold pending, rem. rewrite Hsu by done. split; [| done]. by rewrite (proj1 HL).
    + exists i, k. by rewrite Hsu.
  - intros t Hb. destruct (sy_birth _ _ _ _ H t Hb) as (Htc & tk & Htk & Hbk). destruct (Hd t) as [[tk' Htk'] _]; [eauto |].
    destruct (ts_birth _ _ _ _ _ _ _ _ _ _ (Ht _ _ _ Htk Htk') Hb) as [-> ?]. eauto.
  - intros q Hq. destruct (sy_queues _ _ _ _ H q Hq). split; [by apply HL | done].
  - intros j Hj. by apply Hd, (sy_joiner _ _ _ _ H).
  - eapply known_lists; [apply H | done..|]. intros t. apply Hd.
  - intros t Htk. destruct HL as [HL _]. rewrite HL by done. by apply (sy_mtx _ _ _ _ H), Hd.
Qed.

(** Global variables that are no part of it. *)
Lemma sys_ok_globals Qs A s c s' : sys_ok Qs A s c → links s' = links s → masks s' = masks s →
  tasks s' = tasks s → timers s' = timers s → timer_tick_unsynch s' = timer_tick_unsynch s →
  sems s' = sems s → task_current s' = task_current s →
  (∀ w, waitqueue_current s' = Some w → Q_wq w ∈ Qs) → sys_ok Qs A s' c.
Proof.
  intros H Hl Hm Ht Htm Hu Hs Hc Hw. pose proof H as [].
  assert (∀ y, timer_at s' y = timer_at s y) as Hat by (intros y; unfold timer_at; by rewrite Htm).
  split; rewrite ?Ht, ?Hc; try done.
  - by eapply kernel_ok_globals.
  - intros y [(t & tk & q & -> & Hr) | (i & k & -> & Hr)]%sy_armed0; [left; exists t, tk, q; by rewrite Hat, Ht | right; exists i, k; by rewrite Hat].
  - intros y Hy. destruct (sy_setup0 y Hy) as [Hpe (i & k & -> & Hr)]. unfold pending, rem, app_timer. rewrite Hat. split; [exact Hpe | eauto].
  - intros x (v & [])%sy_sems0. exists v. split; try done. by rewrite Hs.
  - intros hd Hhd%sy_lists0. destruct hd; cbn in *; rewrite ?Ht; done.
Qed.

Lemma sys_ok_dint Qs A s c b : sys_ok Qs A s c → sys_ok Qs A (set_dint b s) c.
Proof. intros H. eapply sys_ok_globals; [exact H | done..| apply H]. Qed.

Lemma sys_ok_nesting Qs A s c n : sys_ok Qs A s c → sys_ok Qs A (set_isr_nesting n s) c.
Proof. intros H. eapply sys_ok_globals; [exact H | done..| apply H]. Qed.

Lemma sys_ok_lock Qs A s c n : sys_ok Qs A s c → sys_ok Qs A (set_sched_lock n s) c.
Proof. intros H. eapply sys_ok_globals; [exact H | done..| apply H]. Qed.

Lemma sys_ok_prepared Qs A s c o : sys_ok Qs A s c → (∀ w, o = Some w → Q_wq w ∈ Qs) →
  sys_ok Qs A (set_waitqueue_current o s) c.
Proof. intros H Ho. eapply sys_ok_globals; [exact H | done..]. Qed.

(** Updating the value of a semaphore. *)
Lemma sys_ok_sem Qs A s c x v : sys_ok Qs A s c → 0 ≤ v < ARCH_ATOMIC_MAX → absq A (Q_sem x) = [] →
  sys_ok Qs A (set_sems (<[x := v]> (sems s)) s) c.
Proof.
  intros H Hv Hx. pose proof H as []. split; try done; [by eapply kernel_ok_globals |].
  intros y Hy. destruct (sy_sems0 y Hy) as (v' & HS).
  destruct (decide (x = y)) as [<- |].
  - exists v. split; [apply lookup_insert_eq | apply HS | done | done | done].
  - exists v'. destruct HS. split; try done. cbn. by rewrite lookup_insert_ne.
Qed.

Lemma sems_frame Qs A s c A' s' : sys_ok Qs A s c → sems s' = sems s → same_lists A A' →
  (∀ x i, qtasks A' (Q_sem x) i = qtasks A (Q_sem x) i) →
  ∀ x, Q_sem x ∈ Qs → ∃ v, sem_ok A' s' x v (absq A' (Q_sem x)).
Proof.
  intros H Hs HL Hq x (v & HS)%(sy_sems _ _ _ _ H). exists v. rewrite (absq_other A A') by done.
  eapply sem_ok_frame; [exact HS | by rewrite Hs | apply HL | done].
Qed.

(** The timers of a step that arms none. *)
Lemma kept_armed L Qs A s c A' s' c' : sys_ok Qs A s c → timers_kept L A s A' s' → ∀ y, y ∈ armed A' →
  y ∈ armed A ∧ (∃ n, timer_at s' y = set_ticks_rem n (timer_at s y)) ∨ guards s' c' y ∨ app_timer s' y.
Proof. intros _ HG y Hy. left. destruct (tk_armed _ _ _ _ _ HG y Hy) as [Hy' Hn]. split; [done |]. by apply (tk_same _ _ _ _ _ HG). Qed.

(** Nor does one that only destroys guard timers touch a timer being created. *)
Definition guard_list (L : list tmid) : Prop := ∀ y, y ∈ L → ∃ t, y = TmBlock t.
Lemma setup_unarmed Qs A s c y : sys_ok Qs A s c → in_setup Qs y → y ∉ armed A.
Proof.
  intros H Hy Hin. destruct (sy_setup _ _ _ _ H y Hy) as [(Hhd & _) _]. pose proof (sy_kernel _ _ _ _ H) as HK.
  by rewrite (armed_no_head _ _ _ (qo_repr _ _ (ko_queues _ _ HK)) (to_list _ _ (ko_timers _ _ HK)) Hin) in Hhd.
Qed.
Lemma kept_setup L Qs A s c A' s' : sys_ok Qs A s c → timers_kept L A s A' s' → guard_list L →
  ∀ y, in_setup Qs y → timer_at s' y = timer_at s y.
Proof.
  intros H HG HL y Hy. destruct (sy_setup _ _ _ _ H y Hy) as [(_ & [n ->] & _) _].
  apply (tk_idle _ _ _ _ _ HG); [by intros [t ?]%HL |]. by eapply setup_unarmed.
Qed.
Lemma guard_list_nil : guard_list [].
Proof. by intros y ?%elem_of_nil. Qed.
Lemma guard_list_timer A s t tk : kernel_ok A s → tasks s !! t = Some tk → guard_list (option_list (timer tk)).
Proof.
  intros HK Ht y Hy. destruct (timer tk) as [x |] eqn:E; cbn in Hy; [| by apply elem_of_nil in Hy].
  apply list_elem_of_singleton in Hy as ->. exists t. by apply (ko_guard _ _ HK t tk x).
Qed.

(** Only waiting tasks have armed guard timers. *)
Lemma armed_waits Qs A s c t tk : sys_ok Qs A s c → tasks s !! t = Some tk → TmBlock t ∈ armed A →
  t ≠ c ∧ timer tk = Some (TmBlock t) ∧ ∃ q, task_queue tk = Some q ∧ q ≠ Q_ready.
Proof.
  intros H Ht Hy. destruct (sy_armed _ _ _ _ H _ Hy) as [(t' & tk' & q & [= <-] & Ht' & Hc & Htm & Hq & Hr & _) | (? & ? & ? & _)];
    simplify_eq. eauto.
Qed.

(** A TCB that was not waiting and keeps its timer. *)
Lemma tcb_unarmed L Qs A s c A' s' c' t tk tk' : sys_ok Qs A s c → timers_kept L A s A' s' →
  tasks s !! t = Some tk → t = c ∨ task_queue tk = Some Q_ready → timer tk' = timer tk →
  join_sem tk' = join_sem tk ∨ join_sem tk' = None → prio_current tk' = prio_current tk → (t ≠ c' → placed Qs t tk' ∧ task_queue tk' ≠ None) →
  (∀ j, task_queue tk' ≠ Some (joinq j)) → tcb_step Qs A s c A' s' c' t tk tk'.
Proof.
  intros H HG Ht Hr Htm Hj Hp Hpl Hjq.
  split; try done; rewrite ?Htm; [| | | intros Hc1; by apply Hpl | intros Hc1 Hq; by destruct (Hpl Hc1) | |].
  - intros x Hx _. split; [destruct Hj; congruence |]. destruct Hr as [| Hr]; [by left | right; by rewrite Hr].
  - intros Hq. destruct (sy_free _ _ _ _ H) as (tkc & Hc & Hqc). destruct Hr; [| congruence]. subst t. congruence.
  - intros j Hq. by destruct (Hjq j).
  - intros Hb. destruct (sy_birth _ _ _ _ H t Hb) as (Hc & tk0 & Ht0 & Hq0 & _). simplify_eq. destruct Hr; congruence.
  - intros _ Hy. destruct (armed_waits _ _ _ _ _ _ H Ht Hy) as (? & _ & q & Hq & ?). destruct Hr; congruence.
Qed.

(** A TCB that does not change. *)
Lemma tcb_same L Qs A s c A' s' c' t tk : sys_ok Qs A s c → timers_kept L A s A' s' →
  tasks s !! t = Some tk → t ≠ c → t ≠ c' → tcb_step Qs A s c A' s' c' t tk tk.
Proof.
  intros H HG Ht Hc Hc'. split; try done.
  - intros x ? [? | ?]; [done | by split; [| right]].
  - intros Hq. by left.
  - intros j. by apply (jo_alone _ _ (sy_joins _ _ _ _ H)).
  - intros _. by apply (sy_placed _ _ _ _ H t).
  - intros _. by apply (sy_ended _ _ _ _ H).
Qed.

(** The task [c] runs on, with another TCB that is on no queue. *)
Lemma sys_ok_current_tcb Qs A s c tk tk' : sys_ok Qs A s c → tasks s !! c = Some tk → task_queue tk' = None →
  prio_current tk' = prio_current tk → timer tk' = timer tk → join_sem tk' = join_sem tk ∨ join_sem tk' = None →
  sys_ok Qs A (set_tasks (<[c := tk']> (tasks s)) s) c.
Proof.
  intros H Ht Hq Hp Htm Hj. destruct (sy_free _ _ _ _ H) as (tk0 & Ht0 & Hq0). simplify_eq.
  assert (timers_kept [] A s A (set_tasks (<[c := tk']> (tasks s)) s)) as HG by by apply timers_kept_same.
  eapply (sys_ok_step Qs A s c); [exact H | | done | | apply H | | | by eapply kept_armed | by eapply kept_setup, guard_list_nil | | | apply H].
  - eapply kernel_ok_mod_task; [apply H | done | congruence | done | by left].
  - intros t. cbn. rewrite lookup_insert. case_decide; [subst; rewrite Ht; by split; eauto | done].
  - exists tk'. cbn. by rewrite lookup_insert_eq.
  - intros t tk1 tk2 Ht1. cbn. rewrite lookup_insert. case_decide as Hc.
    + subst t. intros [= <-]. simplify_eq. eapply tcb_unarmed; [done | done | done | by left | done | done | done | done | congruence].
    + rewrite Ht1. intros [= <-]. by eapply tcb_same.
  - destruct (sy_idle _ _ _ _ H) as (tki & Hi & _ & [-> | Hr]); [by left |].
    cbn. rewrite lookup_insert. case_decide; [by left | right]. rewrite Hi. cbn. by rewrite Hr.
  - by eapply sems_frame; [exact H | | |].
Qed.

Lemma sys_ok_running Qs A s c : sys_ok Qs A s c → ∃ s', resume_running s = Done tt s' ∧ sys_ok Qs A s' c ∧
  (∃ tk, tasks s !! c = Some tk ∧ tasks s' = <[c := set_state TASKSTATE_RUNNING tk]> (tasks s)) ∧
  dint s' = dint s ∧ isr_nesting s' = isr_nesting s ∧ sched_lock s' = sched_lock s.
Proof.
  intros H. destruct (sy_free _ _ _ _ H) as (tk & Ht & Hq).
  destruct (resume_running_spec A s c tk (sy_kernel _ _ _ _ H) (sy_current _ _ _ _ H) Ht) as [Hrun _].
  eexists. split_and!; [exact Hrun | | by exists tk | done..].
  eapply sys_ok_current_tcb; [done | exact Ht | done..|]. by left.
Qed.

(** The TCB of a task that has ended. *)
Lemma sys_ok_ended Qs A s c t tk tk' : sys_ok Qs A s c → tasks s !! t = Some tk → t ≠ c → task_queue tk = None →
  task_queue tk' = None → prio_current tk' = prio_current tk → timer tk' = timer tk →
  state tk ≠ TASKSTATE_READY → state tk' = TASKSTATE_DESTROYED ∨ state tk' = TASKSTATE_INVALID → sys_ok Qs A (set_tasks (<[t := tk']> (tasks s)) s) c.
Proof.
  intros H Ht Htc Hq Hq' Hp Htm Hnr Hst.
  assert (timers_kept [] A s A (set_tasks (<[t := tk']> (tasks s)) s)) as HG by by apply timers_kept_same.
  assert (t ≠ task_idle) as Hti.
  { intros ->. destruct (sy_idle _ _ _ _ H) as (tki & Hi & _ & [? | Hr]); [done | congruence]. }
  eapply (sys_ok_step Qs A s c); [exact H | | done | | apply H | | | by eapply kept_armed | by eapply kept_setup, guard_list_nil | | | apply H].
  - eapply kernel_ok_mod_task; [apply H | done | congruence | done | by left].
  - intros t'. cbn. rewrite lookup_insert. case_decide; [subst; rewrite Ht; by split; eauto | done].
  - destruct (sy_free _ _ _ _ H) as (tkc & ? & ?). exists tkc. cbn. by rewrite lookup_insert_ne.
  - intros t' tk1 tk2 Ht1. cbn. rewrite lookup_insert. case_decide as Hc.
    + subst t'. intros [= <-]. simplify_eq.
      split; try done; rewrite ?Htm, ?Hq'; try done; [by intros ? _ [] | congruence | unfold placed; rewrite Hq'; tauto | intros _ _; by apply (sy_ended _ _ _ _ H t tk) |].
      intros Hb. destruct (sy_birth _ _ _ _ H t Hb) as (_ & tk0 & Ht0 & _ & Hr0 & _). by simplify_eq.
    + rewrite Ht1. intros [= <-]. destruct (decide (t' = c)) as [-> |]; [| by eapply tcb_same].
      destruct (sy_free _ _ _ _ H) as (tkc & ? & Hqc). simplify_eq.
      eapply tcb_unarmed; [done | done | done | by left | done | by left | done | done | congruence].
  - destruct (sy_idle _ _ _ _ H) as (tki & Hi & _ & [-> | Hr]); [by left | right].
    cbn. rewrite lookup_insert_ne, Hi by done. cbn. by rewrite Hr.
  - by eapply sems_frame; [exact H | | |].
Qed.

(** The scheduler hands the CPU from [c] to [new]. *)
Lemma sys_ok_handover Qs A s c tk new A' s' : sys_ok Qs A s c → sched_ok A s c tk →
  handover A s c tk new A' s' → sys_ok Qs A' (set_task_current (Some new) s') new.
Proof.
  intros H Hok Hh. pose proof (kernel_ok_handover _ _ _ _ _ _ _ (sy_kernel _ _ _ _ H) Hok Hh) as HK'.
  destruct Hh as [(tkn & ts & Htn & Htop & Hts & Hnc & Hqn & Hst & HA') HQ'].
  pose proof (so_task _ _ _ _ Hok) as Ht. pose proof (queues_step_tasks _ _ _ Hst) as Ht'.
  pose proof (queues_step_objects _ _ _ Hst) as (Hsem & _ & _ & _ & _ & Hwq & _).
  assert (timers s' = timers s) as Htm by (by destruct Hst as (h & mk & -> & _)).
  assert (same_lists A A') as HL.
  { subst A'. transitivity (set_bucket A Q_ready (prio_current tkn) ts); apply same_lists_bucket.
    - apply H. - by apply (ko_prio _ _ (sy_kernel _ _ _ _ H) new). - apply live_set_bucket, H. - apply Hok. }
  assert (timers_kept [] A s A' (set_task_current (Some new) s')) as HG.
  { apply timers_kept_same; [| done]. subst A'. unfold push. by rewrite !set_bucket_other. }
  eapply (sys_ok_step Qs A s c); [exact H | by apply kernel_ok_current | done | | done | | | by eapply kept_armed | by eapply kept_setup, guard_list_nil | | |]; cbn.
  - intros t. rewrite Ht', !lookup_insert. repeat case_decide; subst; [by rewrite Ht; split; eauto | by rewrite Htn; split; eauto | done].
  - exists (set_task_queue None tkn). by rewrite Ht', lookup_insert_ne, lookup_insert_eq.
  - intros t tk1 tk2 Ht1. rewrite Ht', !lookup_insert. repeat case_decide; [intros [= <-]; simplify_eq.. |].
    + by eapply tcb_unarmed; eauto.
    + by eapply tcb_unarmed; eauto.
    + rewrite Ht1. intros [= <-]. by eapply tcb_same.
  - destruct (decide (new = task_idle)) as [| Hni]; [by left | right].
    rewrite Ht', !lookup_insert. destruct (sy_idle _ _ _ _ H) as (tki & Hi & _ & Hr).
    repeat case_decide; [done | congruence |]. rewrite Hi. destruct Hr as [| Hr]; [congruence | cbn; by rewrite Hr].
  - eapply sems_frame; [exact H | done | done |]. intros x i. subst A'.
    rewrite qtasks_push, qtasks_set_bucket, !decide_False by (by intros [? _]). apply app_nil_r.
  - rewrite Hwq. apply H.
Qed.

(** Waking tasks. *)
Lemma sys_ok_woken Qs A s c code q ws A' s' : sys_ok Qs A s c → woken_seq code q ws A s A' s' → q ≠ Q_ready →
  (∀ j t, q = joinq j → ¬ joined_by (tasks s) c t (SemJoin j)) → sys_ok Qs A' s' c.
Proof.
  intros H [HK' HL Ho Habs Ht' Hqs HG] Hqr Hnj. destruct Ho as (Hsem & _ & Hc & _ & _ & Hwq & _).
  destruct (sy_free _ _ _ _ H) as (tkc & Htc & Hqc). pose proof (ko_queues _ _ (sy_kernel _ _ _ _ H)) as HQ.
  assert (∀ t tk, t ∈ ws.*1 → tasks s !! t = Some tk → task_queue tk = Some q) as Hw.
  { intros t tk ([t0 p] & -> & Hin)%list_elem_of_fmap Ht. assert ((t0, p) ∈ absq A q) as Ha by (rewrite Habs, elem_of_app; auto).
    rewrite (absq_elem _ _ _ _ _ HQ) in Ha. apply (qo_member _ _ HQ) in Ha as (tk0 & ? & ? & _). by simplify_eq/=. }
  assert (c ∉ ws.*1) as Hcw by (intros Hin; specialize (Hw c tkc Hin Htc); congruence).
  assert (∀ t tk y, t ∈ ws.*1 → tasks s !! t = Some tk → timer tk = Some y →
    y ∈ omap (λ w, tasks s !! w.1 ≫= timer) ws) as HL1.
  { intros t tk y (w & -> & Hin)%list_elem_of_fmap Ht Hy. apply list_elem_of_omap. exists w. by rewrite Ht. }
  eapply (sys_ok_step Qs A s c); [exact H | done | done | | by rewrite Hc; apply H | | | by eapply kept_armed | eapply kept_setup; [exact H | exact HG |] | | | by rewrite Hwq; apply H].
  - intros t. rewrite Ht'. case_decide; [by rewrite fmap_is_Some | done].
  - exists tkc. by rewrite Ht', decide_False.
  - intros t tk tk' Ht. rewrite Ht'. case_decide as Hin.
    + pose proof (Hw t tk Hin Ht) as Hqt. rewrite Ht. intros [= <-]. split; try done.
      * intros x Hx _. split; [done |]. right. by rewrite Hqt.
      * intros Hj. right. intros t'. apply Hnj. congruence.
      * intros Hb. destruct (sy_birth _ _ _ _ H t Hb) as (_ & tk0 & Ht0 & Hq0 & _). congruence.
      * intros Hy _. apply (tk_armed _ _ _ _ _ HG) in Hy as [Hy Hny]. exfalso.
        destruct (armed_waits _ _ _ _ _ _ H Ht Hy) as (_ & ? & _). by eapply Hny, HL1.
    + rewrite Ht. intros [= <-]. destruct (decide (t = c)) as [-> |]; [| by eapply tcb_same].
      simplify_eq. eapply tcb_unarmed; eauto; congruence.
  - intros y (w & Hw1 & Hy)%list_elem_of_omap. destruct (tasks s !! w.1) as [tkw |] eqn:Etw; [| done]. cbn in Hy.
    exists w.1. by apply (ko_guard _ _ (sy_kernel _ _ _ _ H) w.1 tkw y).
  - destruct (sy_idle _ _ _ _ H) as (tki & Hi & _ & Hr). destruct Hr as [Hr | Hr]; [by left | right].
    rewrite Ht'. case_decide as Hin; rewrite Hi; [done | cbn; by rewrite Hr].
  - intros x Hx. destruct (sy_sems _ _ _ _ H x Hx) as (v & HS). exists v.
    destruct (decide (q = Q_sem x)) as [-> |].
    + destruct HS as [Hv Hl _ Hr He]. split; [by rewrite Hsem | by apply HL | done | done |].
      intros Hp%He. rewrite Habs in Hp. by apply app_eq_nil in Hp as [_ ?].
    + rewrite (absq_other A A').
      * eapply sem_ok_frame; [exact HS | by rewrite Hsem | apply HL |]. intros i. rewrite Hqs, decide_False by done. apply app_nil_r.
      * intros i. rewrite Hqs, decide_False by done. apply app_nil_r.
Qed.

(** *** Blocking *)

Lemma idle_ready Qs A s c : sys_ok Qs A s c → c ≠ task_idle → ¬ pq_empty (qtasks A Q_ready).
Proof.
  intros H Hc He. destruct (sy_idle _ _ _ _ H) as (tki & Hi & _ & [? | Hr]); [done |].
  destruct (qo_task _ _ (ko_queues _ _ (sy_kernel _ _ _ _ H)) _ _ Hi) as [_ Hin]. rewrite Hr, He in Hin.
  by apply elem_of_nil in Hin.
Qed.

(** A task that blocks leaves the CPU to the most urgent one. *)
Lemma blocked_urgent A s c tk q bt timed cb timeout new A' s' : kernel_ok A s → q ≠ Q_ready →
  blocked_step A s c tk q bt timed cb timeout new A' s' → urgent new s'.
Proof.
  intros HK Hq B. destruct (bl_tasks _ _ _ _ _ _ _ _ _ _ _ _ B) as (tkn & Htn & Hnc & _ & Htop & Ht).
  eapply (urgent_top A s s'); [apply HK | exact Htn | done | exact Htop | | exact Ht]. by intros [= ?].
Qed.

(** The TCBs after it. *)
Lemma blocked_tcbs Qs A s c tk q bt timed cb timeout new A' s' : sys_ok Qs A s c → tasks s !! c = Some tk → q ∈ Qs → q ≠ Q_ready →
  (∀ j, q = joinq j → j = c ∧ timed = false) →
  blocked_step A s c tk q bt timed cb timeout new A' s' →
  ∀ t tk1 tk2, tasks s !! t = Some tk1 → tasks s' !! t = Some tk2 → tcb_step Qs A s c A' (set_task_current (Some new) s') new t tk1 tk2.
Proof.
  intros H Ht Hq Hqr Hjq B t tk1 tk2 Ht1. destruct (bl_tasks _ _ _ _ _ _ _ _ _ _ _ _ B) as (tkn & Htn & Hnc & Hqn & _ & ->).
  rewrite !lookup_insert. repeat case_decide; [intros [= <-]; simplify_eq.. |].
  - split; try done; cbn.
    + intros x ? _. split; [done |]. right. by rewrite Hqn.
    + intros Hj. congruence.
    + intros Hb. destruct (sy_birth _ _ _ _ H _ Hb) as (_ & tk0 & Ht0 & Hq0 & _). congruence.
    + intros _ Hy. destruct (armed_waits _ _ _ _ _ _ H Ht1 Hy) as (_ & _ & q' & ? & ?). congruence.
  - split; try done; cbn.
    + intros x ? _. by split; [| left].
    + intros Hj. destruct (sy_free _ _ _ _ H) as (? & ? & ?). congruence.
    + intros j [= ->]. by destruct (Hjq j eq_refl) as [-> ->].
    + intros _. unfold placed. cbn. by destruct q.
    + intros Hb. by destruct (sy_birth _ _ _ _ H _ Hb) as (? & _).
    + intros _ Hy. by destruct (armed_waits _ _ _ _ _ _ H Ht Hy) as (? & _).
  - rewrite Ht1. intros [= <-]. split; try done.
    + intros x ? [? | ?]; [done | by split; [| right]].
    + intros Hj. by left.
    + intros j. by apply (jo_alone _ _ (sy_joins _ _ _ _ H)).
    + intros _. by apply (sy_placed _ _ _ _ H t).
    + intros _. by apply (sy_ended _ _ _ _ H t).
Qed.

(** Blocking in a queue of [Qs] keeps the invariant. *)
Lemma blocked_dom A s c tk q bt timed cb timeout new A' s' : tasks s !! c = Some tk → blocked_step A s c tk q bt timed cb timeout new A' s' →
  ∀ t, is_Some (tasks s !! t) ↔ is_Some (tasks s' !! t).
Proof.
  intros Ht B t. destruct (bl_tasks _ _ _ _ _ _ _ _ _ _ _ _ B) as (tkn & Htn & _ & _ & _ & ->).
  rewrite !lookup_insert. repeat case_decide; subst; [by rewrite Htn; split; eauto | by rewrite Ht; split; eauto | done].
Qed.

Lemma sys_ok_blocked Qs A s c tk q bt timed cb timeout new A' s' : sys_ok Qs A s c → tasks s !! c = Some tk → c ≠ task_idle →
  q ∈ Qs → (∀ x, q = Q_sem x → sems s !! x = Some 0) →
  cb = P_os_sem_timerclbck ∨ cb = P_os_waitqueue_timerclbck → (∀ j, q = joinq j → j = c ∧ timed = false) →
  blocked_step A s c tk q bt timed cb timeout new A' s' → sys_ok Qs A' (set_task_current (Some new) s') new.
Proof.
  intros H Ht Hci Hq Hsem Hcb Hjq B. destruct (sy_queues _ _ _ _ H q Hq) as [Hlq Hqr].
  destruct (bl_tasks _ _ _ _ _ _ _ _ _ _ _ _ B) as (tkn & Htn & Hnc & Hqn & _ & Ht3).
  destruct (bl_objects _ _ _ _ _ _ _ _ _ _ _ _ B) as (Hse3 & Hw3 & Hd3 & Hn3 & _).
  assert (∀ y, timer_at (set_task_current (Some new) s') y = timer_at s' y) as Hat by done.
  eapply (sys_ok_step Qs A s c); [exact H | apply kernel_ok_current, (bl_kernel _ _ _ _ _ _ _ _ _ _ _ _ B) | apply B
    | exact (blocked_dom _ _ _ _ _ _ _ _ _ _ _ _ Ht B) | done | | exact (blocked_tcbs Qs A s c tk q bt timed cb timeout new A' s' H Ht Hq Hqr Hjq B) | | | | |]; cbn.
  - exists (set_task_queue None tkn). by rewrite Ht3, lookup_insert_eq.
  - intros y [[-> ->] | Hy]%(bl_armed _ _ _ _ _ _ _ _ _ _ _ _ B).
    + right. left. exists c. eexists _, q. cbn. rewrite Ht3, lookup_insert_ne, lookup_insert_eq by done.
      destruct (bl_guard _ _ _ _ _ _ _ _ _ _ _ _ B eq_refl) as (? & ? & ? & _).
      rewrite Hat. split_and!; try done. by destruct Hcb; [left | right]; congruence.
    + left. split; [done |]. exists (ticks_rem (timer_at s y)).
      rewrite Hat, (bl_timers _ _ _ _ _ _ _ _ _ _ _ _ B); [by destruct (timer_at s y) |].
      intros ->. by destruct (armed_waits _ _ _ _ _ _ H Ht Hy) as (? & _).
  - intros y Hy. destruct (sy_setup _ _ _ _ H y Hy) as [(_ & [n ->] & _) _].
    by rewrite Hat, (bl_timers _ _ _ _ _ _ _ _ _ _ _ _ B).
  - destruct (decide (new = task_idle)) as [| Hni]; [by left | right].
    rewrite Ht3, !lookup_insert. destruct (sy_idle _ _ _ _ H) as (tki & Hi & _ & Hr).
    repeat case_decide; [congruence.. |]. rewrite Hi. destruct Hr as [Hr | Hr]; [congruence | cbn; by rewrite Hr].
  - intros x Hx. destruct (sy_sems _ _ _ _ H x Hx) as (v & HS). exists v.
    destruct (decide (q = Q_sem x)) as [-> | Hne].
    + destruct HS as [Hv Hl _ Hr He]. rewrite (Hsem x eq_refl) in Hv. injection Hv as <-.
      split; [| by apply B | done | done | lia]. cbn. rewrite Hse3. by apply Hsem.
    + assert (∀ i, qtasks A' (Q_sem x) i = qtasks A (Q_sem x) i) as Hqx by (intros; by apply B).
      rewrite (absq_other A A') by done. eapply sem_ok_frame; [exact HS | cbn; by rewrite Hse3 | apply B | done].
  - by rewrite Hw3.
Qed.

(** A task that holds no mutex blocks in a queue of [Qs]. *)
Lemma sys_ok_block Qs A s c q bt timed fuel cb timeout junk :
  sys_ok Qs A s c → rest c s → c ≠ task_idle → q ∈ Qs → (∀ x, q = Q_sem x → sems s !! x = Some 0) →
  cb = P_os_sem_timerclbck ∨ cb = P_os_waitqueue_timerclbck → (∀ j, q ≠ joinq j) →
  (timed = true → junk ≠ OS_TIMER_MAGIC1 ∧ 0 < timeout < OS_TIMER_TICKSREM_MAX ∧ (length (armed A) < fuel)%nat) →
  ∃ s1 new A' s', guard_timer timed fuel cb timeout junk s = Done tt s1 ∧
    task_current s1 = Some c ∧ waitqueue_current s1 = waitqueue_current s ∧
    os_task_block_switch q bt (set_waitqueue_current None s1) =
      Switch c (set_task_current (Some new) s') (λ s2, resume_running s2) ∧ new ≠ c ∧
    sys_ok Qs A' (set_task_current (Some new) s') new ∧ (∀ t, t ≠ c → rest t s → rest t s') ∧
    (∀ t, is_Some (tasks s !! t) ↔ is_Some (tasks s' !! t)) ∧ dint s' = dint s ∧ isr_nesting s' = isr_nesting s ∧
    urgent new s'.
Proof.
  intros H Hrest Hci Hq Hsem Hcb Hjq Hto. destruct (sys_sched _ _ _ _ H) as [tk Hok].
  pose proof (so_task _ _ _ _ Hok) as Ht. pose proof (Hrest tk Ht) as Htm.
  destruct (sy_queues _ _ _ _ H q Hq) as [Hlq Hqr].
  assert (TmBlock c ∉ armed A) as Hna by (intros Hy; by destruct (armed_waits _ _ _ _ _ _ H Ht Hy) as (? & _)).
  destruct (guard_block_spec A s c tk q bt timed fuel cb timeout junk (sy_kernel _ _ _ _ H) Hok Htm Hlq Hqr)
    as (s1 & new & A3 & s3 & Hg & Hc1 & Hw1 & Hblk & B); [by eapply idle_ready | by intros (? & ? & ?)%Hto |].
  destruct (bl_tasks _ _ _ _ _ _ _ _ _ _ _ _ B) as (tkn & Htn & Hnc & Hqn & _ & Ht3).
  destruct (bl_objects _ _ _ _ _ _ _ _ _ _ _ _ B) as (_ & _ & Hd3 & Hn3 & _).
  exists s1, new, A3, s3. split_and!; try done; [| | exact (blocked_dom _ _ _ _ _ _ _ _ _ _ _ _ Ht B) | eapply blocked_urgent; [apply H | done | exact B]].
  - eapply sys_ok_blocked; try done. intros j ->. by destruct (Hjq j).
  - intros t Htc Hr tk2. rewrite Ht3, !lookup_insert. repeat case_decide; subst; [intros [= <-]; by apply (Hr tkn) | done | apply Hr].
Qed.

(** Task [t] will signal the semaphore of [j], which waits for it. *)
Lemma joins_ok_set T c t tk j : joins_ok T c → T !! t = Some tk → waits_join T j →
  (∀ t', ¬ joined_by T c t' (SemJoin j)) → joins_ok (<[t := set_join_sem (Some (SemJoin j)) tk]> T) c.
Proof.
  intros HJ Ht Hw Hno. set (T' := insert t _ T).
  assert (∀ t' x, joined_by T' c t' x → t' = t ∧ x = SemJoin j ∨ joined_by T c t' x) as Hback.
  { intros t' x (tk' & Htk' & Hx & Hl). unfold T' in Htk'. rewrite lookup_insert in Htk'. case_decide; simplify_eq/=; [by left | right].
    by exists tk'. }
  assert (∀ i, waits_join T i → waits_join T' i) as Hwait.
  { intros i (tk' & Htk' & Hq). unfold waits_join, T'. rewrite lookup_insert. case_decide; simplify_eq; eauto. }
  split.
  - intros t' x [[-> ->] | Hj]%Hback; [eauto |]. destruct (jo_waits _ _ HJ t' x Hj) as (i & -> & ?). eauto.
  - intros t1 t2 x [[-> ->] | H1]%Hback [[-> Hx] | H2]%Hback; [done | by destruct (Hno t2) | subst x; by destruct (Hno t1) |].
    by eapply (jo_one _ _ HJ).
  - intros t' tk' i. unfold T'. rewrite lookup_insert. case_decide; [intros [= <-]; subst; exact (jo_alone _ _ HJ _ _ i Ht) | by apply (jo_alone _ _ HJ)].
Qed.

Lemma sys_ok_set_join Qs A s c t tk j : sys_ok Qs A s c → tasks s !! t = Some tk → ¬ in_birth Qs t → waits_join (tasks s) j →
  (∀ t', ¬ joined_by (tasks s) c t' (SemJoin j)) →
  sys_ok Qs A (set_tasks (<[t := set_join_sem (Some (SemJoin j)) tk]> (tasks s)) s) c.
Proof.
  intros H Ht Hnb Hw Hno. set (T' := insert t _ _).
  assert (∀ t' (P : os_task_t → Prop), (∃ tk', tasks s !! t' = Some tk' ∧ P tk') → (∀ x tk', P tk' → P (set_join_sem x tk')) →
    ∃ tk', T' !! t' = Some tk' ∧ P tk') as Hfwd.
  { intros t' P (tk' & Htk' & HP) HPj. unfold T'. rewrite lookup_insert. case_decide; simplify_eq; eauto. }
  assert (∀ t' tk', T' !! t' = Some tk' → ∃ tk0, tasks s !! t' = Some tk0 ∧ (tk' = tk0 ∨ ∃ x, tk' = set_join_sem x tk0)) as Hback.
  { intros t' tk'. unfold T'. rewrite lookup_insert. case_decide; [intros [= <-]; subst; eauto | eauto]. }
  assert (∀ t', is_Some (T' !! t') ↔ is_Some (tasks s !! t')) as Hdom.
  { intros t'. unfold T'. rewrite lookup_insert. case_decide; [subst; rewrite Ht; by split; eauto | done]. }
  pose proof H as []. split; cbn [tasks set_tasks]; try done.
  - eapply kernel_ok_mod_task; [done | exact Ht | done | done | by left].
  - destruct sy_free0 as (tkc & ? & ?). apply (Hfwd c (λ tk, task_queue tk = None)); [eauto | done].
  - apply (Hfwd task_idle (λ tk, prio_current tk = 0 ∧ (c = task_idle ∨ task_queue tk = Some Q_ready))); [done | done].
  - intros t' tk' (tk0 & Htk0 & [-> | (x & ->)])%Hback Htc; by apply (sy_placed0 t' tk0).
  - intros t' tk' (tk0 & Htk0 & [-> | (x & ->)])%Hback Htc; by apply (sy_ended0 t' tk0).
  - by apply joins_ok_set.
  - intros y [(t' & tk' & q & -> & Htk' & Htc & Htm & Hq & Hr) | ?]%sy_armed0; [left | by right].
    destruct (Hfwd t' (λ tk, timer tk = Some (TmBlock t') ∧ task_queue tk = Some q)) as (tk2 & ? & ? & ?); [eauto | done |].
    exists t', tk2, q. split_and!; try done; apply Hr.
  - intros t' Hb. destruct (sy_birth0 t' Hb) as (? & tk0 & Ht0 & ?). split; [done |]. exists tk0. split; [| done].
    unfold T'. by rewrite lookup_insert_ne by (by intros <-).
  - intros i Hi. by apply Hdom, sy_joiner0.
  - intros x (v & HS)%sy_sems0. exists v. by destruct HS.
  - intros hd Hhd%sy_lists0. destruct hd; cbn in *; try done. by apply Hdom.
  - intros t' Ht'%Hdom. by apply sy_mtx0.
Qed.

(** Blocking does not look at [join_sem]. *)
Lemma blocked_unjoin A s c tk t tkt J q bt cb new A' s' : tasks s !! c = Some tk → tasks s !! t = Some tkt →
  blocked_step A (set_tasks (<[t := set_join_sem J tkt]> (tasks s)) s) c (if decide (t = c) then set_join_sem J tk else tk)
    q bt false cb 0 new A' s' →
  ∃ tk3, tasks s' !! t = Some tk3 ∧ join_sem tk3 = J ∧
    blocked_step A s c tk q bt false cb 0 new A' (set_tasks (<[t := set_join_sem (join_sem tkt) tk3]> (tasks s')) s').
Proof.
  intros Htc Ht B. destruct (bl_tasks _ _ _ _ _ _ _ _ _ _ _ _ B) as (tkn & Htn & Hnc & Hqn & Htop & Ht').
  assert (∃ tk3, tasks s' !! t = Some tk3 ∧ join_sem tk3 = J) as (tk3 & Ht3 & Hj3).
  { rewrite Ht'. cbn in Htn |- *. rewrite !lookup_insert in *. repeat case_decide; simplify_eq; eauto. }
  set (s3 := set_tasks (<[t := set_join_sem (join_sem tkt) tk3]> (tasks s')) s'). exists tk3. split_and!; [done | done |]. destruct B as [B1 B2 B3 _ B5 B6 B7 B8 B9 B10].
  cbn in Htn. rewrite lookup_insert in Htn. split; try done.
  - eapply kernel_ok_mod_task; [done | exact Ht3 | done | done | by left].
  - exists (if decide (t = new) then tkt else tkn).
    assert (prio_current (if decide (t = new) then tkt else tkn) = prio_current tkn ∧
      task_queue (if decide (t = new) then tkt else tkn) = task_queue tkn) as [-> ->] by (repeat case_decide; by simplify_eq/=).
    split_and!; [repeat case_decide; by simplify_eq | done.. |].
    clear Hj3. apply map_eq. intros i. unfold s3. cbn [tasks set_tasks]. rewrite Ht' in Ht3 |- *. cbn in Ht3 |- *. rewrite !lookup_insert in *.
    repeat case_decide; simplify_eq/=; try done; f_equal; by destruct tkt || by destruct tk || by destruct tkn.
  - rewrite B5. by case_decide.
Qed.

(** The running task [c] blocks until the end of [t], for which it has created its
    semaphore. *)
Lemma sys_ok_join_block Qs A s c t tkt : sys_ok Qs A s c → rest c s → c ≠ task_idle → joinq c ∈ Qs →
  sems s !! SemJoin c = Some 0 → tasks s !! t = Some tkt → ¬ in_birth Qs t → (∀ t', ¬ joined_by (tasks s) c t' (SemJoin c)) →
  waitqueue_current s = None →
  ∃ new A' s', os_task_block_switch (joinq c) OS_TASKBLOCK_SEM (set_tasks (<[t := set_join_sem (Some (SemJoin c)) tkt]> (tasks s)) s) =
      Switch c (set_task_current (Some new) s') (λ s2, resume_running s2) ∧ new ≠ c ∧
    sys_ok Qs A' (set_task_current (Some new) s') new ∧ (∀ t, t ≠ c → rest t s → rest t s') ∧
    (∀ t, is_Some (tasks s !! t) ↔ is_Some (tasks s' !! t)) ∧ dint s' = dint s ∧ isr_nesting s' = isr_nesting s ∧
    urgent new s'.
Proof.
  intros H Hrest Hci Hin Hv Ht Hnb Hno Hw. destruct (sy_free _ _ _ _ H) as (tk & Htc & Hq). pose proof (Hrest tk Htc) as Htm.
  destruct (sy_queues _ _ _ _ H _ Hin) as [Hlq Hqr].
  set (J := Some (SemJoin c)). set (s2 := set_tasks (<[t := set_join_sem J tkt]> (tasks s)) s).
  set (tk2 := if decide (t = c) then set_join_sem J tk else tk).
  assert (tasks s2 !! c = Some tk2) as Htc2.
  { unfold tk2. cbn. rewrite lookup_insert. repeat case_decide; by simplify_eq. }
  assert (kernel_ok A s2) as HK2 by (eapply kernel_ok_mod_task; [apply H | exact Ht | done | done | by left]).
  assert (sched_ok A s2 c tk2) as Hok2.
  { apply sched_ok_kernel; [done | apply H | apply H | done | unfold tk2; by case_decide]. }
  destruct (guard_block_spec A s2 c tk2 (joinq c) OS_TASKBLOCK_SEM false 0 P_os_sem_timerclbck 0 0 HK2 Hok2)
    as (s1 & new & A' & s' & Hg & _ & _ & Hblk & B); [unfold tk2; by case_decide | done | done | by eapply idle_ready | done |].
  injection Hg as <-. replace (set_waitqueue_current None s2) with s2 in Hblk by (unfold s2; destruct s; cbn in *; by subst).
  destruct (bl_tasks _ _ _ _ _ _ _ _ _ _ _ _ B) as (tkn & Htn & Hnc & _ & _ & Ht').
  destruct (blocked_unjoin A s c tk t tkt J _ _ _ new A' s' Htc Ht B) as (tk3 & Ht3 & Hj3 & B3).
  set (s3 := set_tasks _ s') in *.
  pose proof (sys_ok_blocked Qs A s c tk _ OS_TASKBLOCK_SEM false P_os_sem_timerclbck 0 new A' s3 H Htc Hci Hin) as H3.
  specialize (H3 ltac:(by intros x [= <-]) ltac:(by left) ltac:(by intros j [= <-]) B3).
  assert (tasks s3 !! t = Some (set_join_sem (join_sem tkt) tk3)) as Ht3' by (cbn; apply lookup_insert_eq).
  destruct (bl_tasks _ _ _ _ _ _ _ _ _ _ _ _ B3) as (tkn0 & Htn0 & _ & Hqn0 & _ & Hts3).
  assert (waits_join (tasks s3) c) as Hwc.
  { eexists. rewrite Hts3, lookup_insert_ne, lookup_insert_eq by done. by split. }
  exists new, A', s'. split_and!; try done.
  - replace (set_task_current (Some new) s') with
      (set_tasks (<[t := set_join_sem J (set_join_sem (join_sem tkt) tk3)]> (tasks s3)) (set_task_current (Some new) s3)).
    2:{ unfold s3. cbn. rewrite insert_insert_eq, insert_id; [by destruct s' |]. rewrite Ht3, <- Hj3. f_equal. by destruct tk3. }
    apply (sys_ok_set_join Qs A' (set_task_current (Some new) s3) new t _ c H3 Ht3' Hnb Hwc).
    intros t' (tk' & Htk' & Hx & Hl). cbn in Htk'. destruct (blocked_dom _ _ _ _ _ _ _ _ _ _ _ _ Htc B3 t') as [_ [tk0 Htk0]]; [eauto |].
    pose proof (blocked_tcbs Qs A s c tk _ OS_TASKBLOCK_SEM false P_os_sem_timerclbck 0 new A' s3 H Htc Hin Hqr ltac:(by intros j [= <-]) B3 t' tk0 tk' Htk0 Htk') as TS.
    destruct (ts_join _ _ _ _ _ _ _ _ _ _ TS _ Hx Hl) as [? ?]. apply (Hno t'). by exists tk0.
  - intros t' Htc' Hr' tk'. intros Htk'. assert (∃ tk0, tasks s !! t' = Some tk0 ∧ timer tk' = timer tk0) as (tk0 & Htk0 & ->).
    { rewrite Ht' in Htk'. cbn in Htn, Htk'. rewrite !lookup_insert in *. repeat case_decide; simplify_eq; eauto. }
    by apply (Hr' tk0).
  - intros t'. etransitivity; [apply (blocked_dom _ _ _ _ _ _ _ _ _ _ _ _ Htc B3) |]. unfold s3. cbn. rewrite lookup_insert.
    case_decide; [subst; rewrite Ht3; by split; eauto | done].
  - by destruct (bl_objects _ _ _ _ _ _ _ _ _ _ _ _ B) as (_ & _ & -> & _).
  - by destruct (bl_objects _ _ _ _ _ _ _ _ _ _ _ _ B) as (_ & _ & _ & -> & _).
  - by eapply blocked_urgent; [exact HK2 | | exact B].
Qed.

(** A task that blocked with a guard timer is switched to. *)
Lemma sys_ok_resume Qs A s c : sys_ok Qs A s c → ∃ A' s' tk,
  (resume_running;; c ← current; os_blocktimer_destroy c) s = Done tt s' ∧
  (∀ B (k : tid → K B), (resume_running;; c ← current; os_blocktimer_destroy c;; k c) s = k c s') ∧
  tasks s !! c = Some tk ∧ tasks s' = <[c := set_timer None (set_state TASKSTATE_RUNNING tk)]> (tasks s) ∧
  sys_ok Qs A' s' c ∧ dint s' = dint s ∧ isr_nesting s' = isr_nesting s ∧ sched_lock s' = sched_lock s.
Proof.
  intros H. destruct (sy_free _ _ _ _ H) as (tk & Ht & Hq).
  destruct (resume_guard_spec A s c tk (sy_kernel _ _ _ _ H) (sy_current _ _ _ _ H) Ht)
    as (A' & s' & Hrun0 & Hrun & HK' & Ht' & (Hse & _ & Hc & Hn & ? & Hw & Hd & _) & Hqs & HL & HG).
  exists A', s', tk. split_and!; try done.
  eapply (sys_ok_step Qs A s c); [exact H | done | done | | by rewrite Hc; apply H | | | by eapply kept_armed | eapply kept_setup; [exact H | exact HG |]; by eapply guard_list_timer; [apply H |] | | | by rewrite Hw; apply H].
  - intros t. rewrite Ht', lookup_insert. case_decide; [subst; rewrite Ht; by split; eauto | done].
  - eexists. by rewrite Ht', lookup_insert_eq.
  - intros t tk1 tk2 Ht1. rewrite Ht', lookup_insert. case_decide as Htc; [| rewrite Ht1; intros [= <-]; by eapply tcb_same].
    intros [= <-]. simplify_eq. split; try done.
    + intros Hj. by left.
    + intros j Hj. cbn in Hj. congruence.
    + intros Hb. by destruct (sy_birth _ _ _ _ H _ Hb) as (? & _).
    + intros _ Hy. by destruct (armed_waits _ _ _ _ _ _ H Ht Hy) as (? & _).
  - destruct (sy_idle _ _ _ _ H) as (tki & Hi & _ & [-> | Hr]); [by left |].
    rewrite Ht', lookup_insert. case_decide; [by left | right]. rewrite Hi. cbn. by rewrite Hr.
  - by eapply sems_frame.
Qed.

(** A tick up to its call of the scheduler. *)
Lemma sys_ok_may_fire Qs A s c y : sys_ok Qs A s c → y ∈ armed A → may_fire s y ∧
  match y with
  | TmBlock t => guarded s y = Some t ∧ ticks_reload (timer_at s y) = 0
  | TmUser n => guarded s y = None
  end.
Proof.
  intros H Hy. destruct (sy_armed _ _ _ _ H y Hy) as [(t & tk & q & -> & Ht & Hc & Htm & Hq & Hr & Hcb & Hpa & Hrl) | (n & k & -> & _ & Hcb)].
  2:{ assert (guarded s (TmUser n) = None) as Hg by (unfold guarded; by rewrite Hcb). unfold may_fire. rewrite Hg. by split; [exists k |]. }
  assert (guarded s (TmBlock t) = Some t) as Hg by (unfold guarded; rewrite Hpa; by destruct Hcb as [-> | ->]).
  split; [| done]. unfold may_fire. rewrite Hg. exists tk, q. split_and!; try done.
  pose proof (sy_placed _ _ _ _ H t tk Ht Hc) as Hp. unfold placed in Hp. rewrite Hq in Hp. by destruct q; [| apply Hp..].
Qed.

Lemma sys_ok_tick Qs A s c user_clbck fuel : (∀ n pa s, user_clbck n pa s = Done tt s) →
  sys_ok Qs A s c → 0 < isr_nesting s → (2 * length (armed A) < fuel)%nat →
  ∃ A' s', os_tick (call_clbck user_clbck) fuel s = (os_schedule 0;; arch_critical_exit (dint s)) s' ∧
    sys_ok Qs A' s' c ∧ dint s' = true ∧ isr_nesting s' = isr_nesting s ∧ sched_lock s' = sched_lock s ∧
    (∀ t, rest t s → rest t s') ∧ ∀ t, is_Some (tasks s !! t) ↔ is_Some (tasks s' !! t).
Proof.
  intros Hu H Hn Hf. set (due := omap (guarded s) (filter (λ x, remaining s x = 1) (armed A))).
  destruct (tick_times_out user_clbck A s fuel Hu (sy_kernel _ _ _ _ H) (sy_ready _ _ _ _ H) Hn)
    as (A' & s' & Hrun & HK' & [Ht' Hq'] & HL & Hcn & Harm & Hd & Hse & _ & Hc & Hni & Hw & Hlk & Hidle);
    [intros y Hy; by apply (sys_ok_may_fire _ _ _ _ _ H Hy) | done |]. fold due in Ht', Hq'.
  assert (∀ t, TmBlock t ∈ armed A' → TmBlock t ∈ armed A ∧ remaining s (TmBlock t) ≠ 1) as Harm'.
  { intros t [Hy Hr]%Harm. split; [done |]. destruct (sys_ok_may_fire _ _ _ _ _ H Hy) as (_ & _ & ?). lia. }
  assert (∀ t, t ∈ due → TmBlock t ∈ armed A ∧ remaining s (TmBlock t) = 1) as Hdue.
  { intros t (y & [Hr Hy]%list_elem_of_filter & Hg)%list_elem_of_omap.
    destruct (sys_ok_may_fire _ _ _ _ _ H Hy) as (_ & Hg'). destruct y as [n | t']; [congruence | destruct Hg' as [Hg' _]; by simplify_eq]. }
  exists A', s'. split_and!; try done.
  - eapply (sys_ok_step Qs A s c); [exact H | done | done | | by rewrite Hc; apply H | | | | | | | by rewrite Hw; apply H].
    + intros t. rewrite Ht'. case_decide; [by rewrite fmap_is_Some | done].
    + destruct (sy_free _ _ _ _ H) as (tk & Htk & Hq). exists tk. rewrite Ht', decide_False; [done |].
      intros [Hy _]%Hdue. by destruct (armed_waits _ _ _ _ _ _ H Htk Hy) as (? & _).
    + intros t tk tk' Htk. rewrite Ht', Htk.
      case_decide as Hin; intros [= <-]; split; try done.
      * intros x ? _. split; [done | right]. apply Hdue in Hin as [Hy _].
        destruct (armed_waits _ _ _ _ _ _ H Htk Hy) as (_ & _ & q & Hq & _). by rewrite Hq.
      * intros Hj. destruct (jo_alone _ _ (sy_joins _ _ _ _ H) t tk t Htk Hj) as [_ Hno]. apply Hdue in Hin as [Hy _].
        destruct (armed_waits _ _ _ _ _ _ H Htk Hy) as (_ & ? & _). congruence.
      * intros Hb. destruct (sy_birth _ _ _ _ H t Hb) as (_ & tk0 & Ht0 & Hq0 & _). simplify_eq. apply Hdue in Hin as [Hy _].
        destruct (armed_waits _ _ _ _ _ _ H Htk Hy) as (_ & _ & q & Hq & _). congruence.
      * intros [_ Hr]%Harm'. by apply Hdue in Hin as [_ ?].
      * intros Hj. by left.
      * intros j. by apply (jo_alone _ _ (sy_joins _ _ _ _ H)).
      * intros Htc. by apply (sy_placed _ _ _ _ H t).
      * intros Htc. by apply (sy_ended _ _ _ _ H t).
      * intros Hb. by destruct (sy_birth _ _ _ _ H t Hb).
      * intros _ Hy. by destruct (armed_waits _ _ _ _ _ _ H Htk Hy) as (? & _).
    + intros y [Hy _]%Harm. left. split; [done | apply Hcn].
    + intros y Hy. apply Hidle. by eapply setup_unarmed.
    + destruct (sy_idle _ _ _ _ H) as (tki & Hi & _ & Hr). destruct Hr as [Hr | Hr]; [by left | right].
      rewrite Ht', Hi. case_decide; [done | cbn; by rewrite Hr].
    + intros x Hx. destruct (sy_sems _ _ _ _ H x Hx) as (v & [Hv Hl _ Hr He]). exists v.
      split; [by rewrite Hse | by apply HL | done | done |]. intros Hp%He.
      apply absq_from_empty. intros i. rewrite Hq', decide_False by done.
      rewrite (qtasks_absq A s _ _ (ko_queues _ _ (sy_kernel _ _ _ _ H))), Hp. done.
  - intros t Hr tk. rewrite Ht'. case_decide; [| apply Hr]. intros (tk0 & Htk0 & ->)%fmap_Some. by apply (Hr tk0).
  - intros t. rewrite Ht'. case_decide; [by rewrite fmap_is_Some | done].
Qed.

(** *** Timers of the application *)

Lemma sys_ok_timers Qs S' A s c A' s' : sys_ok Qs A s c → kernel_ok A' s' →
  (∀ hd, hd ≠ L_timer_list → (∀ y, hd ≠ L_timer y) → A' !! hd = A !! hd) →
  (∀ y, is_Some (A' !! L_timer y) → is_Some (S' !! y)) → tasks s' = tasks s → same_objects s s' →
  (∀ t, timer_at s' (TmBlock t) = timer_at s (TmBlock t)) →
  (∀ y, y ∈ armed A' → y ∈ armed A ∧ timer_at s' y = timer_at s y ∨ app_timer s' y) →
  (∀ y, is_Some (S' !! y) → pending A' s' y ∧ app_timer s' y) → sys_ok (Objs (queues Qs) S' (births Qs)) A' s' c.
Proof.
  intros H HK HL HS Ht Ho Hbt Ha Hp. pose proof Ho as (Hse & _ & Hc & _ & _ & Hw & _). pose proof H as [].
  assert (∀ q, live A q → live A' q) as Hlv by (intros q Hq p Hp'; rewrite HL by done; auto).
  split; rewrite ?Ht, ?Hc; try done.
  - by apply Hlv.
  - intros y Hy. destruct (Ha y Hy) as [[Hy' Hat] |]; [| by right].
    destruct (sy_armed0 y Hy') as [(t & tk & q & -> & Hr) | (i & k & -> & Hr)]; [left | right].
    + exists t, tk, q. by rewrite Hbt, Ht.
    + exists i, k. by rewrite Hat.
  - intros q Hq. destruct (sy_queues0 q Hq). split; [by apply Hlv | done].
  - intros x Hx. destruct (sy_sems0 x Hx) as (v & HS'). exists v.
    assert (∀ i, qtasks A' (Q_sem x) i = qtasks A (Q_sem x) i) as Hq by (intros i; by apply qtasks_lookup, HL).
    rewrite (absq_other A A') by done. eapply sem_ok_frame; [exact HS' | by rewrite Hse | apply Hlv | done].
  - intros w. rewrite Hw. apply sy_prepared0.
  - intros hd Hhd. destruct hd; cbn; try (rewrite HL in Hhd by done; apply sy_lists0 in Hhd; cbn in *; by rewrite ?Ht); [| done].
    by apply HS.
  - intros t Htk. rewrite HL by done. auto.
Qed.

Lemma app_of_user s n k : (n < app_timers)%nat → clbck (timer_at s (TmUser n)) = P_user k → app_timer s (TmUser n).
Proof. intros ? ?. by exists n, k. Qed.

(** The first step of [os_timer_create]. *)
Lemma sys_ok_timer_init Qs A s c n k pa timeout reload o : sys_ok Qs A s c → (n < app_timers)%nat → ¬ in_setup Qs (TmUser n) →
  magic (timer_at s (TmUser n)) ≠ OS_TIMER_MAGIC1 → 0 < timeout < OS_TIMER_TICKSREM_MAX → 0 ≤ reload ≤ OS_TICKS_MAX →
  ∃ A' s', os_timer_create_init (TmUser n) (P_user k) pa timeout reload s = Done tt s' ∧
    sys_ok (with_setup (TmUser n) o Qs) A' s' c ∧ tasks s' = tasks s ∧ same_objects s s'.
Proof.
  intros H Hn Hns Hm Hto Hrl.
  destruct (timer_init_kernel A s n (P_user k) pa timeout reload (sy_kernel _ _ _ _ H) Hm Hto Hrl)
    as (s' & Hrun & HK & Hpe & Ht & Ho & _ & Hat & Hoth).
  eexists _, s'. split_and!; try done. eapply sys_ok_timers; [done.. | | | done | done | intros t; by apply Hoth | |].
  - intros hd _ Hhd. by apply lookup_insert_ne.
  - intros y. rewrite lookup_insert_is_Some'. intros [[= <-] | Hy]; [rewrite lookup_insert_eq; eauto |].
    apply lookup_insert_is_Some'. right. by apply (sy_lists _ _ _ _ H (L_timer y)).
  - intros y. rewrite (armed_same A) by (by apply lookup_insert_ne). intros Hy. left. split; [done |]. apply Hoth.
    intros ->. by apply (to_armed _ _ (ko_timers _ _ (sy_kernel _ _ _ _ H))) in Hy as [_ ?].
  - intros y. rewrite lookup_insert_is_Some. intros [<- | [Hne Hy]].
    + split; [done |]. apply (app_of_user _ _ k); [done |]. by rewrite Hat.
    + destruct (sy_setup _ _ _ _ H y Hy) as [(H1 & H2 & H3) (i & k' & -> & Hi & Hcb)]. unfold pending, rem, app_timer.
      rewrite Hoth by congruence. split; [| eauto]. split; [| done]. by rewrite lookup_insert_ne by congruence.
Qed.

(** The second one. *)
Lemma sys_ok_timer_add Qs A s c x fuel : sys_ok Qs A s c → in_setup Qs x → (length (armed A) < fuel)%nat →
  ∃ A' s', os_timer_create_add fuel x s = Done tt s' ∧ sys_ok (without_setup x Qs) A' s' c ∧
    tasks s' = tasks s ∧ same_objects s s'.
Proof.
  intros H Hx Hf. destruct (sy_setup _ _ _ _ H x Hx) as [Hpe (n & k & -> & Hn & Hcb)].
  destruct (timer_add_kernel A s _ fuel (sy_kernel _ _ _ _ H) Hpe Hf) as (A' & s' & Hrun & HK & Hb & [HL _] & Ht & Ho & Harm & _ & Hat & Hoth).
  assert (∀ y, A' !! L_timer y = settled A (TmUser n) !! L_timer y) as Hhd by (intros y; by apply HL).
  assert (∀ y, y ≠ TmUser n → A' !! L_timer y = A !! L_timer y) as Hhd' by (intros y Hy; rewrite Hhd; apply lookup_delete_ne; congruence).
  exists A', s'. split_and!; try done. eapply sys_ok_timers; [done.. | | | done | done | intros t; by apply Hoth | |].
  - intros hd Htl Hty. destruct hd; try (rewrite HL by done; by apply lookup_delete_ne). apply Hb.
  - intros y Hy. destruct (decide (y = TmUser n)) as [-> | Hne].
    + rewrite Hhd in Hy. unfold settled in Hy. rewrite lookup_delete_eq in Hy. by destruct Hy.
    + rewrite lookup_delete_ne by done. rewrite Hhd' in Hy by done. by apply (sy_lists _ _ _ _ H (L_timer y)).
  - intros y [-> | Hy]%Harm; [right; apply (app_of_user _ _ k); [done | by rewrite Hat] |].
    destruct (decide (y = TmUser n)) as [-> |]; [right; apply (app_of_user _ _ k); [done | by rewrite Hat] | left; auto].
  - intros y [Hne Hy]%lookup_delete_is_Some. destruct (sy_setup _ _ _ _ H y Hy) as [(H1 & H2 & H3) (i & k' & -> & Hi & Hcb')].
    unfold pending, rem, app_timer. rewrite Hoth, Hhd' by congruence. split; [split; [exact H1 | by split] | eauto].
Qed.

Lemma sys_ok_timer_destroy Qs A s c n : sys_ok Qs A s c → ¬ in_setup Qs (TmUser n) →
  magic (timer_at s (TmUser n)) = OS_TIMER_MAGIC1 ∨ magic (timer_at s (TmUser n)) = OS_TIMER_MAGIC2 →
  ∃ A' s', os_timer_destroy (TmUser n) s = Done tt s' ∧ sys_ok Qs A' s' c ∧ tasks s' = tasks s ∧ same_objects s s'.
Proof.
  intros H Hns Hm. assert (A !! L_timer (TmUser n) = None) as Hh.
  { destruct (A !! L_timer (TmUser n)) eqn:E; [| done]. destruct Hns. apply (sy_lists _ _ _ _ H (L_timer (TmUser n))). eauto. }
  destruct (timer_destroy_kernel A s (TmUser n) (sy_kernel _ _ _ _ H) Hh Hm)
    as (A' & s' & Hrun & HK & Hb & [HL _] & Ht & _ & Ho & HG & Hoth).
  exists A', s'. split_and!; try done. destruct Qs as [Q S' B].
  refine (sys_ok_timers (Objs Q S' B) S' A s c A' s' H HK _ _ Ht Ho _ _ _).
  - intros hd Htl Hty. destruct hd; try (by apply HL). apply Hb.
  - intros y Hy. rewrite HL in Hy by done. by apply (sy_lists _ _ _ _ H (L_timer y)).
  - intros t. by apply Hoth.
  - intros y [Hy Hny]%(tk_armed _ _ _ _ _ HG). left. split; [done |]. apply Hoth. set_solver.
  - intros y Hy. destruct (sy_setup _ _ _ _ H y Hy) as [(H1 & H2 & H3) (i & k' & -> & Hi & Hcb')].
    assert (TmUser i ≠ TmUser n) by (by intros [= ->]).
    unfold pending, rem, app_timer. rewrite Hoth by done. split; [| eauto]. split; [by rewrite HL | done].
Qed.

(** *** Creating and destroying queues *)

Lemma sys_ok_objects Qs Qs' A s c A' s' : setups Qs' = setups Qs → births Qs' = births Qs →
  sys_ok Qs A s c → kernel_ok A' s' → tasks s' = tasks s → timers s' = timers s → task_current s' = task_current s →
  (∀ hd, (∀ q p, hd ≠ L_bucket q p) → A' !! hd = A !! hd) → live A' Q_ready →
  (∀ q, q ∈ Qs' → live A' q ∧ q ≠ Q_ready) → (∀ j, joinq j ∈ Qs' → is_Some (tasks s !! j)) →
  (∀ t tk q, tasks s !! t = Some tk → task_queue tk = Some q → q ∈ Qs → q ∈ Qs') → (∀ j, joinq j ∈ Qs' → j ≠ c → joinq j ∈ Qs) →
  (∀ x, Q_sem x ∈ Qs' → ∃ v, sem_ok A' s' x v (absq A' (Q_sem x))) →
  (∀ w, waitqueue_current s' = Some w → Q_wq w ∈ Qs') →
  (∀ q p, is_Some (A' !! L_bucket q p) → q = Q_ready ∨ q ∈ Qs') → sys_ok Qs' A' s' c.
Proof.
  intros Hsu Hbi H HK Ht Htm Hc HL Hlr Hq Hjq Hpl Hjn Hs Hw Hb. pose proof H as [].
  assert (∀ y, timer_at s' y = timer_at s y) as Hat by (intros y; unfold timer_at; by rewrite Htm).
  split; rewrite ?Ht, ?Hc; try done.
  - intros t tk Htk Htc. specialize (sy_placed0 t tk Htk Htc). unfold placed in *.
    destruct (task_queue tk) as [q |] eqn:E; [| unfold in_birth; by rewrite Hbi].
    destruct q; try done; destruct sy_placed0 as [Hin ?]; (split; [| done]); eauto.
  - intros t tk Htk Htc Hnq. destruct (sy_ended0 t tk Htk Htc Hnq). split; [done |]. by intros ?%Hjn.
  - intros y. rewrite (armed_same A A') by (by apply HL). intros [(t & tk & q & -> & Hr) | (i & k & -> & Hr)]%sy_armed0;
      [left; exists t, tk, q; by rewrite Hat, Ht | right; exists i, k; by rewrite Hat].
  - unfold in_setup. rewrite Hsu. intros y Hy. destruct (sy_setup0 y Hy) as [Hpe (i & k & -> & Hr)].
    unfold pending, rem, app_timer. rewrite Hat, HL by done. split; [exact Hpe | eauto].
  - unfold in_birth. rewrite Hbi. intros t Hb'. by apply sy_birth0.
  - intros hd Hhd. destruct hd; cbn; try done; try (rewrite HL in Hhd by done; apply sy_lists0 in Hhd; cbn in *; unfold in_setup; by rewrite ?Ht, ?Hsu).
    by eapply Hb.
  - intros t Htk. rewrite HL by done. auto.
Qed.

(** No task waits in a queue that does not exist. *)
Lemma unknown_queue Qs A s c q : sys_ok Qs A s c → q ∉ Qs → q ≠ Q_ready → idle_queue A q ∧ drop_queue A q = A.
Proof.
  intros H Hq Hr. assert (∀ p, A !! L_bucket q p = None) as Hn.
  { intros p. destruct (A !! L_bucket q p) eqn:E; [| done]. exfalso.
    by destruct (sy_lists _ _ _ _ H (L_bucket q p) ltac:(eauto)). }
  split.
  - intros p Hp. right. intros hd xs Hx [<- | Hin]%elem_of_cons; [by rewrite Hn in Hx |].
    pose proof (sy_lists _ _ _ _ H hd ltac:(eauto)) as Hk. destruct hd; cbn in Hk; try done.
    + by rewrite (sy_mtx _ _ _ _ H) in Hx by done; simplify_eq; apply elem_of_nil in Hin.
    + destruct (qo_bucket _ _ (ko_queues _ _ (sy_kernel _ _ _ _ H)) _ _ _ Hx) as (_ & _ & _ & ->).
      by apply list_elem_of_fmap in Hin as (? & ? & _).
    + destruct (sy_setup _ _ _ _ H _ Hk) as [(H1 & _) _]. rewrite H1 in Hx. simplify_eq. by apply elem_of_nil in Hin.
    + rewrite (to_list _ _ (ko_timers _ _ (sy_kernel _ _ _ _ H))) in Hx. simplify_eq.
      by apply list_elem_of_fmap in Hin as (? & ? & _).
  - apply map_eq. intros hd. rewrite lookup_drop_queue. case_decide as Hd; [| done].
    apply list_elem_of_fmap in Hd as (p & -> & _). by rewrite Hn.
Qed.

Lemma lists_step_timers s s' : lists_step s s' → timers s' = timers s.
Proof. by intros (h & mk & ->). Qed.

Lemma sys_ok_add Qs A s c q s' : sys_ok Qs A s c → q ∉ Qs → q ≠ Q_ready → lists_step s s' →
  kernel_ok (add_queue A q) s' → (∀ x, q = Q_sem x → ∃ v, sems s !! x = Some v ∧ 0 ≤ v < ARCH_ATOMIC_MAX) →
  (∀ j, q = joinq j → j = c) → sys_ok (with_queue q Qs) (add_queue A q) s' c ∧ absq (add_queue A q) q = [].
Proof.
  intros H Hq Hr Hst HK Hx Hjq. destruct (unknown_queue _ _ _ _ _ H Hq Hr) as [Hi Hd].
  pose proof (λ q' i, new_queue_qtasks A s q q' i (ko_queues _ _ (sy_kernel _ _ _ _ H)) Hi) as Hqs.
  unfold new_queue in Hqs. rewrite Hd in Hqs.
  pose proof (lists_step_objects _ _ Hst) as (Hse & _ & Hc & _ & _ & Hw & _).
  assert (absq (add_queue A q) q = []) as He.
  { apply absq_from_empty. intros i. rewrite Hqs. by eapply idle_qtasks; [apply H |]. }
  split; [| done].
  eapply (sys_ok_objects Qs); [done | done | exact H | done | by apply lists_step_tasks | by apply lists_step_timers | done | | | | | | | | |].
  - intros hd Hhd. unfold add_queue. rewrite lookup_add_buckets, decide_False; [done |]. by apply not_bucket_elem.
  - apply live_add. right. apply H.
  - intros q' [-> | Hin]%elem_of_with_queue; [split; [| done]; apply live_add; by left |].
    destruct (sy_queues _ _ _ _ H q' Hin). split; [| done]. apply live_add. by right.
  - intros j [<- | Hin]%elem_of_with_queue; [| by apply (sy_joiner _ _ _ _ H)].
    rewrite (Hjq j eq_refl). destruct (sy_free _ _ _ _ H) as (tkc & ? & _). eauto.
  - intros t tk q' _ _ ?. apply elem_of_with_queue. by right.
  - intros j [<- | Hin]%elem_of_with_queue Hjc; [by destruct Hjc; apply Hjq | done].
  - intros x [Hxq | Hin]%elem_of_with_queue.
    + destruct (Hx x (eq_sym Hxq)) as (v & Hv & Hb). exists v. rewrite Hxq, He. split; try done; [by rewrite Hse | apply live_add; by left | by rewrite Hxq].
    + destruct (sy_sems _ _ _ _ H x Hin) as (v & HS). exists v. rewrite (absq_other A) by done.
      eapply sem_ok_frame; [exact HS | by rewrite Hse | intros ?; apply live_add; by right | done].
  - intros w. rewrite Hw. intros Hw'. apply elem_of_with_queue. right. by apply (sy_prepared _ _ _ _ H).
  - intros q' p. unfold add_queue. rewrite lookup_add_buckets. case_decide as Hin.
    + apply elem_of_buckets in Hin as [-> _]. intros _. right. set_solver.
    + intros [|]%(sy_lists _ _ _ _ H (L_bucket q' p)); [by left | right; set_solver].
Qed.

Lemma sys_ok_drop Qs A s c q s' : sys_ok Qs A s c → q ∈ Qs → pq_empty (qtasks A q) → lists_step s s' →
  kernel_ok (drop_queue A q) s' → waitqueue_current s = None → sys_ok (without_queue q Qs) (drop_queue A q) s' c.
Proof.
  intros H Hq He Hst HK Hw0. pose proof (lists_step_objects _ _ Hst) as (Hse & _ & Hc & _ & _ & Hw & _).
  assert (∀ q' i, q' ≠ q → qtasks (drop_queue A q) q' i = qtasks A q' i) as Hqs.
  { intros q' i Hne. by rewrite qtasks_drop, decide_False. }
  eapply (sys_ok_objects Qs); [done | done | exact H | done | by apply lists_step_tasks | by apply lists_step_timers | done | | | | | | | | |].
  - intros hd Hhd. rewrite lookup_drop_queue, decide_False; [done |]. by apply not_bucket_elem.
  - apply live_drop. split; [| apply H]. intros <-. by apply (sy_queues _ _ _ _ H) in Hq as [_ ?].
  - intros q' [Hin Hne]%elem_of_without_queue.
    destruct (sy_queues _ _ _ _ H q' Hin). split; [| done]. by apply live_drop.
  - intros j [Hin _]%elem_of_without_queue. by apply (sy_joiner _ _ _ _ H).
  - intros t tk q' Htk Hq' Hin. apply elem_of_without_queue. split; [done |]. intros ->.
    destruct (qo_task _ _ (ko_queues _ _ (sy_kernel _ _ _ _ H)) _ _ Htk) as [_ Hm]. rewrite Hq', He in Hm. by apply elem_of_nil in Hm.
  - by intros j [Hin _]%elem_of_without_queue _.
  - intros x [Hin Hne]%elem_of_without_queue.
    destruct (sy_sems _ _ _ _ H x Hin) as (v & HS). exists v. rewrite (absq_other A) by (intros; by apply Hqs).
    eapply sem_ok_frame; [exact HS | by rewrite Hse | intros ?; by apply live_drop | intros; by apply Hqs].
  - by rewrite Hw, Hw0.
  - intros q' p. rewrite lookup_drop_queue. case_decide as Hin; [by intros [] |].
    intros Hs. pose proof Hs as [xs Hxs]. destruct (qo_bucket _ _ (ko_queues _ _ (sy_kernel _ _ _ _ H)) _ _ _ Hxs) as (Hp & _).
    destruct (sy_lists _ _ _ _ H _ Hs) as [|]; [by left | right]. apply elem_of_without_queue. split; [done |].
    intros ->. apply Hin, elem_of_buckets. done.
Qed.

Lemma sys_ok_dead_sem Qs A s c x v : sys_ok Qs A s c → Q_sem x ∉ Qs →
  sys_ok Qs A (set_sems (<[x := v]> (sems s)) s) c.
Proof.
  intros H Hx. pose proof H as []. split; try done; [by eapply kernel_ok_globals |].
  intros y Hy. destruct (sy_sems0 y Hy) as (v' & []). exists v'. split; try done. cbn.
  rewrite lookup_insert_ne; [done |]. by intros ->.
Qed.

(** *** Creating and ending tasks *)

(** A TCB for a new task: one that was never used, or that of a task that has ended. *)
Definition spare s c t : Prop := ∀ tk, tasks s !! t = Some tk → t ≠ c ∧ task_queue tk = None.

Lemma spare_task Qs A s c t : sys_ok Qs A s c → spare s c t → fresh_task A t.
Proof.
  intros H Hn. destruct (tasks s !! t) as [tk |] eqn:Ht.
  { destruct (Hn tk Ht) as [_ Hq]. destruct (qo_task _ _ (ko_queues _ _ (sy_kernel _ _ _ _ H)) t tk Ht) as [_ Hu]. rewrite Hq in Hu.
    split; [done | left]. apply (sy_mtx _ _ _ _ H). eauto. }
  clear Hn. rename Ht into Hn. pose proof (ko_queues _ _ (sy_kernel _ _ _ _ H)) as HQ.
  assert (∀ hd xs a, A !! hd = Some xs → a ∈ xs →
    (∃ t', a = L_task t' ∧ is_Some (tasks s !! t')) ∨ ∃ y, a = L_timer y) as Helem.
  { intros hd xs a Hx Hin. pose proof (sy_lists _ _ _ _ H hd ltac:(eauto)) as Hk. destruct hd; cbn in Hk; try done.
    - rewrite (sy_mtx _ _ _ _ H) in Hx by done. simplify_eq. by apply elem_of_nil in Hin.
    - destruct (qo_bucket _ _ HQ _ _ _ Hx) as (_ & _ & _ & ->). apply list_elem_of_fmap in Hin as (t' & -> & Hin).
      destruct (qo_member _ _ HQ _ _ _ Hin) as (tk & ? & _). left. eauto.
    - destruct (sy_setup _ _ _ _ H _ Hk) as [(H1 & _) _]. rewrite H1 in Hx. simplify_eq. by apply elem_of_nil in Hin.
    - rewrite (to_list _ _ (ko_timers _ _ (sy_kernel _ _ _ _ H))) in Hx. simplify_eq.
      apply list_elem_of_fmap in Hin as (y & -> & _). eauto. }
  split; [| right]; intros hd xs Hx [<- | Hin]%elem_of_cons.
  - by destruct (sy_lists _ _ _ _ H (L_task t) ltac:(eauto)).
  - destruct (Helem _ _ _ Hx Hin) as [(t' & [= ->] & Hs) | (y & ?)]; [| done]. rewrite Hn in Hs. by destruct Hs.
  - destruct (sy_lists _ _ _ _ H (L_mtx_list t) ltac:(eauto)) as [tk ?]. congruence.
  - by destruct (Helem _ _ _ Hx Hin) as [(t' & ? & _) | (y & ?)].
Qed.

(** A TCB [t] that no task uses gets the value [tk']; it may become part of the
    ready queue. *)
Lemma sys_ok_tcb Qs Qs' A s c t tk' A' s' : sys_ok Qs A s c → spare s c t → kernel_ok A' s' →
  tasks s' = <[t := tk']> (tasks s) → timers s' = timers s → sems s' = sems s →
  task_current s' = task_current s → waitqueue_current s' = waitqueue_current s →
  queues Qs' = queues Qs → setups Qs' = setups Qs → (∀ t', t' ≠ t → births Qs' !! t' = births Qs !! t') →
  (in_birth Qs' t → born tk') → placed Qs' t tk' → join_sem tk' = None → timer tk' = None → (∀ j, task_queue tk' ≠ Some (joinq j)) →
  (∀ hd, hd ≠ L_mtx_list t → (∀ p, hd ≠ L_bucket Q_ready p) → A' !! hd = A !! hd) →
  A' !! L_mtx_list t = Some [] → live A' Q_ready → sys_ok Qs' A' s' c.
Proof.
  intros H Hn HK Ht Htm Hse Hc Hw Hq Hsu Hbi Hb Hpl Hj Htk' Hjq HL Hmt Hlr. pose proof H as [].
  assert (∀ y, timer_at s' y = timer_at s y) as Hat by (intros y; unfold timer_at; by rewrite Htm).
  assert (∀ t' tk, tasks s !! t' = Some tk → t' = c ∨ task_queue tk ≠ None → t' ≠ t) as Hne.
  { intros t' tk Htk Hl ->. by destruct (Hn tk Htk), Hl. }
  assert (∀ t' tk, tasks s !! t' = Some tk → t' = c ∨ task_queue tk ≠ None → tasks s' !! t' = Some tk) as Hold.
  { intros t' tk Htk Hl. rewrite Ht, lookup_insert_ne; [done |]. intros <-. by destruct (Hne t tk). }
  assert (∀ t', is_Some (tasks s !! t') → is_Some (tasks s' !! t')) as Hdom.
  { intros t' Hs. rewrite Ht. by apply lookup_insert_is_Some'; right. }
  assert (∀ q, q ∈ Qs' ↔ q ∈ Qs) as HQ by (intros q; unfold elem_of, objs_elem_of; by rewrite Hq).
  assert (∀ t', t' ≠ t → in_birth Qs' t' ↔ in_birth Qs t') as Hbs by (intros t' ?; unfold in_birth; by rewrite Hbi).
  assert (∀ q, q ≠ Q_ready → live A q → live A' q) as Hlv.
  { intros q Hqr Hl p Hp. rewrite HL; [by apply Hl | done |]. by intros ? [= ?]. }
  assert (joinq t ∉ Qs) as Hjt.
  { intros Hin. destruct (sy_joiner0 t Hin) as [tk0 Htk0]. destruct (Hn tk0 Htk0). by destruct (sy_ended0 t tk0 Htk0). }
  assert (armed A' = armed A) as Harm by (apply armed_same; by apply HL).
  split; rewrite ?Harm; try done.
  - by rewrite Hc.
  - destruct sy_free0 as (tk & ? & ?). exists tk. auto.
  - destruct sy_idle0 as (tk & Hi & ? & Hr). exists tk. split; [| done]. apply Hold; [done |]. destruct Hr as [-> | ->]; auto.
  - intros t' tk. rewrite Ht, lookup_insert. case_decide as Htt; [subst; by intros [= <-] |]. intros Htk Htc.
    specialize (sy_placed0 t' tk Htk Htc). unfold placed in *. destruct (task_queue tk) as [q |]; [| rewrite Hbs by done; done].
    destruct q; [done | rewrite HQ; done..].
  - intros t' tk. rewrite Ht, lookup_insert, HQ. case_decide; [subst; by intros [= <-] | apply sy_ended0].
  - rewrite Ht. apply joins_ok_new; try done. intros tk0 Htk0. by apply Hn.
  - intros y [(t' & tk & q & -> & Htk & Htc & Htk2 & Hq' & Hr) | (i & k & -> & Hr)]%sy_armed0; [left | by right; exists i, k; rewrite Hat].
    exists t', tk, q. rewrite Hat. split; [done |]. split; [apply Hold; [done | right; congruence] | done].
  - unfold in_setup. rewrite Hsu. intros y Hy. destruct (sy_setup0 y Hy) as [Hpe (i & k & -> & Hr)].
    unfold pending, rem, app_timer. rewrite Hat, HL by done. split; [exact Hpe | eauto].
  - intros t' Hb'. rewrite Ht, lookup_insert. case_decide as Htt.
    + subst t'. split; [| eauto]. destruct sy_free0 as (tkc & Hc1 & Hc2). intros ->. by destruct (Hne c tkc); auto.
    + apply Hbs in Hb'; [| done]. by apply sy_birth0.
  - intros q [? ?]%HQ%sy_queues0. auto.
  - intros j Hj'%HQ%sy_joiner0. auto.
  - intros x (v & HS)%HQ%sy_sems0. exists v.
    assert (∀ i, qtasks A' (Q_sem x) i = qtasks A (Q_sem x) i) as Hqs by (intros i; apply qtasks_lookup, HL; [done | by intros ? [= ?]]).
    rewrite (absq_other A) by done. eapply sem_ok_frame; [exact HS | by rewrite Hse | by apply Hlv | done].
  - intros w. rewrite Hw. intros Hw'. by apply HQ, sy_prepared0.
  - intros hd Hhd. destruct (decide (hd = L_mtx_list t)) as [-> |]; [cbn; rewrite Ht, lookup_insert_eq; eauto |].
    assert ((∃ p, hd = L_bucket Q_ready p) ∨ ∀ p, hd ≠ L_bucket Q_ready p) as [[p ->] | Hnb];
      [destruct hd; try (by right); destruct q; [left; eauto | by right..] | by left |].
    rewrite HL in Hhd by done. apply sy_lists0 in Hhd. destruct hd; cbn in *; try done; [auto | rewrite HQ; done | unfold in_setup; by rewrite Hsu].
  - intros t' Htk. destruct (decide (t' = t)) as [-> |]; [done |]. rewrite HL by congruence.
    apply sy_mtx0. by rewrite Ht, lookup_insert_ne in Htk.
Qed.

(** The first step of [os_task_create], by task [o]. *)
Lemma sys_ok_birth Qs A s c t o prio stack size proc param ati : sys_ok Qs A s c → spare s c t → isr_nesting s = 0 →
  waitqueue_current s = None → 0 < prio < OS_CONFIG_PRIOCNT → stack ≠ 0 → OS_STACK_MINSIZE ≤ size → stack_writer ati →
  (∃ s', os_task_create_init ati t prio stack size proc param s = Halted s') ∨
  ∃ A' s', os_task_create_init ati t prio stack size proc param s = Done tt s' ∧
    sys_ok (with_birth t o Qs) A' s' c ∧ tasks s' = <[t := created_task prio stack size]> (tasks s) ∧ same_objects s s'.
Proof.
  intros H Hn Hi Hw Hp Hst Hsz Hati.
  destruct (task_create_init_run A s t prio stack size proc param ati (sy_kernel _ _ _ _ H) Hi Hw (spare_task _ _ _ _ _ H Hn) Hp Hst Hsz)
    as (s1 & -> & HK & Ht & (Hse & Hm & Hc & Hn' & Hl & Hwc & Hd & Htc) & Htm & _).
  destruct (Hati t stack size proc param s1) as [[m ->] | [s' ->]]; [right | left; eauto].
  exists (<[L_mtx_list t := []]> A), (set_stacks m s1). split_and!; [done | | done | done].
  eapply (sys_ok_tcb Qs _ A s c t (created_task prio stack size)); try done.
  - by apply kernel_ok_stacks.
  - intros t' Ht'. by apply lookup_insert_ne.
  - right; right. unfold in_birth. cbn. rewrite lookup_insert_eq. eauto.
  - intros hd Hh _. by apply lookup_insert_ne.
  - apply lookup_insert_eq.
  - apply live_insert, H.
Qed.

(** The second one. *)
Lemma sys_ok_enqueue Qs A s c t : sys_ok Qs A s c → in_birth Qs t →
  ∃ A' s' tk, os_task_create_enqueue t s = (os_schedule 1;; arch_critical_exit (dint s)) s' ∧
    sys_ok (without_birth t Qs) A' s' c ∧ tasks s !! t = Some tk ∧ t ≠ c ∧
    tasks s' = <[t := set_task_queue (Some Q_ready) tk]> (tasks s) ∧ same_objects (set_dint true s) s'.
Proof.
  intros H Hb. destruct (sy_birth _ _ _ _ H t Hb) as (Htc & tk & Htk & Hq & Hr & Hj).
  destruct (task_create_enqueue_run A s t tk (sy_kernel _ _ _ _ H) (sy_ready _ _ _ _ H) Htk Hq)
    as (s' & Hrun & HK & Ht & Ho & Htm & _). pose proof Ho as (Hse & _ & Hc & _ & _ & Hw & _).
  destruct (sy_ended _ _ _ _ H t tk Htk Htc Hq) as [Htmr _].
  eexists _, s', tk. split_and!; try done.
  eapply (sys_ok_tcb Qs _ A s c t _ _ s' H); try done.
  - intros tk0 ?. by simplify_eq.
  - intros t' Ht'. by apply lookup_delete_ne.
  - intros [? Hx]. cbn in Hx. by rewrite lookup_delete_eq in Hx.
  - intros hd _ Hh. apply lookup_insert_ne. intros Heq. by eapply Hh.
  - rewrite set_bucket_other by done. apply (sy_mtx _ _ _ _ H). eauto.
  - apply live_set_bucket, H.
Qed.

(** The running task gives the CPU away for good; [tkd] is what it leaves. *)
Lemma sys_ok_exit_switch Qs A s c tk tkd : sys_ok Qs A s c → rest c s → joinq c ∉ Qs → c ≠ task_idle → tasks s !! c = Some tk →
  task_queue tkd = None → state tkd = TASKSTATE_DESTROYED → timer tkd = None → prio_current tkd = prio_current tk →
  ∃ new A' s' k, (new ← os_taskqueue_dequeue Q_ready; arch_context_switch new;; OS_ASSERT false)
      (set_tasks (<[c := tkd]> (tasks s)) s) = Switch c (set_task_current (Some new) s') k ∧
    (∀ s2, k s2 = os_halt s2) ∧ new ≠ c ∧ sys_ok Qs A' (set_task_current (Some new) s') new ∧
    (∀ t, t ≠ c → rest t s → rest t s') ∧ (∀ t, is_Some (tasks s !! t) ↔ is_Some (tasks s' !! t)) ∧
    isr_nesting s' = isr_nesting s ∧ urgent new s'.
Proof.
  intros H Hrest Hjc Hci Ht Hq Hst Htm Hp. pose proof (sy_current _ _ _ _ H) as Hc.
  destruct (sy_free _ _ _ _ H) as (tk0 & ? & Hq0). simplify_eq.
  pose proof (Hrest tk Ht) as Htk.
  set (s1 := set_tasks (<[c := tkd]> (tasks s)) s).
  assert (kernel_ok A s1) as HK1 by (eapply (kernel_ok_mod_task A s c tk); [apply H | done | congruence | done | by right]).
  destruct (exit_switch A s1 c tkd HK1) as
    (new & tkn & A3 & s3 & k & Hsw & Hk & HK3 & Htn & Hnc & Htop & Ht3 & Hq3 & _ & Hqn & HL3 & Ho3 & HG3);
    [done | cbn; apply lookup_insert_eq | done | apply H | by eapply idle_ready |].
  destruct Ho3 as (Hse3 & _ & _ & Hn3 & _ & Hw3 & _). cbn in Ht3, Htn. rewrite lookup_insert_ne in Htn by done.
  assert (timers_kept [] A s A3 (set_task_current (Some new) s3)) as HG.
  { eapply (timers_kept_l _ A s A s1); [done | done |]. by eapply (timers_kept_r _ A s1 A3 s3). }
  assert (∀ t, is_Some (tasks s !! t) ↔ is_Some (tasks s3 !! t)) as Hdom.
  { intros t. rewrite Ht3, !lookup_insert. repeat case_decide; subst; [by rewrite Htn; split; eauto | by rewrite Ht; split; eauto | done]. }
  exists new, A3, s3, k. split_and!; try done.
  - eapply (sys_ok_step Qs A s c); [exact H | by apply kernel_ok_current | done | done | done | | | by eapply kept_armed | by eapply kept_setup, guard_list_nil | | |]; cbn.
    + exists (set_task_queue None tkn). by rewrite Ht3, lookup_insert_eq.
    + intros t tk1 tk2 Ht1. rewrite Ht3, !lookup_insert. repeat case_decide; [intros [= <-]; simplify_eq.. | rewrite Ht1; intros [= <-]; by eapply tcb_same].
      * by eapply tcb_unarmed; eauto.
      * split; try done; rewrite ?Hq, ?Htm; try done; [by intros ? _ [? | ?] | congruence | unfold placed; rewrite Hq; by left |].
        intros Hb. by destruct (sy_birth _ _ _ _ H _ Hb).
    + destruct (decide (new = task_idle)) as [| Hni]; [by left | right].
      rewrite Ht3, !lookup_insert. destruct (sy_idle _ _ _ _ H) as (tki & Hi & _ & Hr).
      repeat case_decide; [congruence.. |]. rewrite Hi. destruct Hr as [Hr | Hr]; [congruence | cbn; by rewrite Hr].
    + eapply sems_frame; [exact H | done | done |]. intros x i. by rewrite Hq3, decide_False by (by intros [? _]).
    + rewrite Hw3. apply H.
  - intros t Htc Hr tk2. rewrite Ht3, !lookup_insert. repeat case_decide; subst; [intros [= <-]; by apply (Hr tkn) | done | apply Hr].
  - eapply (urgent_top A s s3 c tkd new tkn); [apply (ko_queues _ _ (sy_kernel _ _ _ _ H)) | done.. | | exact Ht3]. by rewrite Hq.
Qed.

(** Before that it signals the task that joins it. *)
Lemma sys_ok_exit_signal Qs A s c tk tkd x : sys_ok Qs A s c → isr_nesting s = 0 → waitqueue_current s = None →
  tasks s !! c = Some tk → join_sem tk = Some x → task_queue tkd = None → prio_current tkd = prio_current tk → timer tkd = timer tk →
  ∃ A' s', os_sem_up_sync x true (set_tasks (<[c := tkd]> (tasks s)) s) = Done tt (set_dint (dint s) (set_tasks (<[c := tkd]> (tasks s')) s')) ∧
    sys_ok Qs A' s' c ∧ tasks s' !! c = Some (set_join_sem None tk) ∧ (∀ t, rest t s → rest t s') ∧
    (∀ t, is_Some (tasks s !! t) ↔ is_Some (tasks s' !! t)) ∧ isr_nesting s' = isr_nesting s.
Proof.
  intros H Hn Hw Ht Hx Hqd Hpd Htmd. destruct (sy_free _ _ _ _ H) as (tk0 & ? & Hq0). simplify_eq.
  destruct (joined_queue Qs A s c c x H) as (j & -> & Hjc & Hin & tkj & Htj & Hqj); [exists tk; auto |].
  destruct (sy_queues _ _ _ _ H _ Hin) as [Hl _]. destruct (sy_sems _ _ _ _ H _ Hin) as (v & [Hv _ _ Hr He]).
  assert (¬ pq_empty (qtasks A (joinq j))) as Hne.
  { intros Hemp. destruct (qo_task _ _ (ko_queues _ _ (sy_kernel _ _ _ _ H)) _ _ Htj) as [_ Hm]. rewrite Hqj, Hemp in Hm.
    by apply elem_of_nil in Hm. }
  assert (v = 0) as ->.
  { destruct (Z.lt_ge_cases 0 v) as [Hp |]; [| lia]. specialize (He Hp). destruct Hne.
    by apply (absq_nil A s); [apply H |]. }
  set (s1 := set_tasks (<[c := tkd]> (tasks s)) s). set (tk0 := set_join_sem None tk).
  set (s0 := set_tasks (<[c := tk0]> (tasks s)) s).
  assert (sys_ok Qs A s0 c) as H0 by (eapply sys_ok_current_tcb; [done | exact Ht | done.. | by right]).
  assert (kernel_ok A s1) as HK1 by (eapply (kernel_ok_mod_task A s c tk); [apply H | done | congruence | done | by left]).
  pose proof atomic_wide.
  destruct (sem_up_run A s1 (SemJoin j) true 0 HK1 Hl (sy_ready _ _ _ _ H) Hv) as
    [[? _] | (t & tkt & A2 & s2 & Htt & Hqt & Htop & Hrun & HK2 & Ht2 & HL2 & Ho2 & HG2 & Hwq)]; [lia | by left | by right | done |].
  assert (t ≠ c) as Htc by (intros ->; cbn in Htt; rewrite lookup_insert_eq in Htt; congruence).
  cbn in Htt, Ht2. rewrite lookup_insert_ne in Htt by done.
  destruct (jo_alone _ _ (sy_joins _ _ _ _ H) t tkt j Htt Hqt) as [-> _]. simplify_eq.
  set (s2' := set_tasks (<[c := tk0]> (tasks s2)) s2). destruct Ho2 as (Hse2 & Hm2 & Hc2 & Hn2 & Hlk2 & Hw2 & Hd2 & Htc2). cbn in *.
  assert (tasks s2' = <[j := woken OS_OK tkj]> (tasks s0)) as Ht2'.
  { cbn. rewrite Ht2, (insert_insert_ne _ j c) by done. by rewrite insert_insert_eq, insert_insert_ne. }
  assert (kernel_ok A2 s2') as HK2'.
  { eapply (kernel_ok_mod_task A2 s2 c tkd tk0); [done | rewrite Ht2, lookup_insert_ne by done; apply lookup_insert_eq | cbn; congruence | done | by left]. }
  assert (woken_seq OS_OK (joinq j) [(j, prio_current tkj)] A (set_dint true s0) A2 s2') as Hseq.
  { eapply (woken_cons _ _ _ _ [] A _ A2 s2'); try done; [apply kernel_ok_dint, H0 | cbn; by rewrite lookup_insert_ne | | by apply woken_nil].
    eapply (timers_kept_l _ A _ A s1); [done | done |]. by eapply (timers_kept_r _ A s1 A2 s2). }
  assert (sys_ok Qs A2 s2' c) as H2.
  { eapply sys_ok_woken; [apply sys_ok_dint, H0 | exact Hseq | done |]. intros j' t' [= <-] (tk' & Htk' & Hx' & Hlive). cbn in Htk'.
    rewrite lookup_insert in Htk'. case_decide; [simplify_eq; done |].
    assert (t' = c) as ->; [| done].
    apply (jo_one _ _ (sy_joins _ _ _ _ H) _ _ (SemJoin j)); [by exists tk' | exists tk; auto]. }
  exists A2, s2'. split_and!; try done.
  - rewrite Hrun. cbn. unfold arch_critical_exit. do 2 f_equal. rewrite insert_insert_eq, insert_id; [by destruct s2 |].
    rewrite Ht2, lookup_insert_ne by done. apply lookup_insert_eq.
  - cbn. apply lookup_insert_eq.
  - intros t Hrt tk'. rewrite Ht2'. cbn. rewrite !lookup_insert. repeat case_decide; [by intros [= <-] | | apply Hrt].
    intros [= <-]. subst. by apply (Hrt tk).
  - intros t. rewrite Ht2'. cbn. rewrite !lookup_insert. repeat case_decide; subst; [by rewrite Htj; split; eauto | by rewrite Ht; split; eauto | done].
Qed.

Lemma sys_ok_exit Qs A s c retv : sys_ok Qs A s c → rest c s → joinq c ∉ Qs → c ≠ task_idle → isr_nesting s = 0 →
  (∃ s', os_task_exit retv s = Halted s') ∨
  ∃ new A' s' k, os_task_exit retv s = Switch c (set_task_current (Some new) s') k ∧
    (∀ s2, k s2 = os_halt s2) ∧ new ≠ c ∧ sys_ok Qs A' (set_task_current (Some new) s') new ∧
    (∀ t, t ≠ c → rest t s → rest t s') ∧ (∀ t, is_Some (tasks s !! t) ↔ is_Some (tasks s' !! t)) ∧
    isr_nesting s' = isr_nesting s ∧ urgent new s'.
Proof.
  intros H Hrest Hjc Hci Hn. destruct (sy_free _ _ _ _ H) as (tk & Ht & Hq). pose proof (sy_current _ _ _ _ H) as Hc.
  set (s0 := set_dint true s). set (tkd := dead_task retv tk). pose proof (sys_ok_dint _ _ _ _ true H) as H0.
  assert (os_task_exit retv s = (match join_sem tk with Some x => os_sem_up_sync x true | None => mret tt end;;
    new ← os_taskqueue_dequeue Q_ready; arch_context_switch new;; OS_ASSERT false) (set_tasks (<[c := tkd]> (tasks s)) s0)) as Hrun.
  { unfold os_task_exit. erewrite bind_Done by done. cbn beta. fold s0.
    erewrite bind_Done by (by apply current_Some). erewrite bind_Done by (by apply mod_task_Some).
    erewrite bind_Done by (apply mod_task_Some; cbn; apply lookup_insert_eq). cbn [tasks set_tasks]. rewrite insert_insert_eq.
    erewrite bind_Done by (apply get_task_Some; cbn; apply lookup_insert_eq). done. }
  rewrite Hrun. destruct (join_sem tk) as [x |] eqn:Ej.
  - destruct (decide (waitqueue_current s = None)) as [Hw | Hw].
    2:{ left. eexists. apply bind_Halted. unfold os_sem_up_sync. erewrite bind_Done by done. cbn. rewrite Hn.
        erewrite bind_Done by done. erewrite bind_Done by done. cbn. by rewrite bool_decide_false. }
    destruct (sys_ok_exit_signal Qs A s0 c tk tkd x H0 Hn Hw Ht Ej) as (A1 & s1 & Hup & H1 & Ht1 & Hr1 & Hd1 & Hn1); [done.. |].
    destruct (sys_ok_exit_switch Qs A1 (set_dint true s1) c (set_join_sem None tk) tkd (sys_ok_dint _ _ _ _ true H1)) as
      (new & A' & s' & k & Hsw & Hk & Hnc & H' & Hr' & Hdom & Hn' & Hu); try done; [by apply Hr1 | exact (Hrest tk Ht) |].
    right. exists new, A', s', k. split_and!; try done.
    + erewrite bind_Done by exact Hup. exact Hsw.
    + intros t Htc Hrt. apply Hr'; [done |]. by apply Hr1.
    + intros t. etransitivity; [apply Hd1 | apply Hdom].
    + rewrite Hn'. exact Hn1.
  - right. destruct (sys_ok_exit_switch Qs A s0 c tk tkd H0) as (new & A' & s' & k & Hsw & Hrest'); try done; [exact (Hrest tk Ht) |].
    exists new, A', s', k. split; [| done]. by erewrite bind_Done by done.
Qed.
End facts.
