(* ===== verification/Safety.v ===== *)
(** * Calls that never go wrong

    The rules of the API ([legal]): objects are used while they exist, tasks join
    tasks that were created, nobody else uses a timer or joins a task while it is
    being created, TCBs are used again only after their tasks were joined, the
    idle task does not end, no mutexes; interrupts only signal semaphores, wake
    wait queues, create and destroy timers and tick ([legal_isr_code]). Each call,
    each half of a call that is interrupted at its [point], and each interrupt of
    such an application keeps [sys_ok]: no NULL or wild pointer is used and no
    loop runs out of the iterations granted to it; the only way to stop is
    [os_halt]. *)

From stdpp Require Import base decidable list countable gmap sets.
From Stdlib Require Import ZArith Lia.
From S2P Require Import Prelude Arch LinkedList Kernel TaskQueue Timer Sched Invariant QueueLife Decide Sem Tasks Join Mtx WaitQueue System Boost Timeouts SysOk.

Local Open Scope Z_scope.

(** ** The rules *)

(** Timers of the application have its callbacks, and reload values that fit [os_ticks_t]. *)
Definition legal_timer {AP : ArchPort} {NT : AppTimers} (y : tmid) (cb : timer_proc_t) (reload : Z) : Prop :=
  ∃ n k, y = TmUser n ∧ (n < app_timers)%nat ∧ cb = P_user k ∧ 0 ≤ reload ≤ OS_TICKS_MAX.

(** What an application may call in state [s] while the objects [Qs] exist; at most
    [N] TCBs are used, each again only after its task was joined. A timer or a task
    that is being created belongs to its creator until the call has returned. Calls
    that the code itself rejects are allowed. *)
Definition legal {AP : ArchPort} {NT : AppTimers} (N : nat) (Qs : objs) (s : kstate) (a : api) : Prop :=
  match a with
  | Api_task_create t _ _ _ _ _ =>
      match tasks s !! t with
      | None => (size (tasks s) < N)%nat
      | Some tk => task_current s ≠ Some t ∧ state tk = TASKSTATE_INVALID
      end
  | Api_task_exit _ => task_current s ≠ Some task_idle
  | Api_task_join t => is_Some (tasks s !! t) ∧ ¬ in_birth Qs t
  | Api_sem_create x v => (∃ n, x = SemUser n) ∧ Q_sem x ∉ Qs ∧ 0 ≤ v
  | Api_sem_destroy x | Api_sem_down x _ _ | Api_sem_up_sync x _ => Q_sem x ∈ Qs
  | Api_waitqueue_create w => Q_wq w ∉ Qs
  | Api_waitqueue_destroy w => Q_wq w ∈ Qs
  | Api_waitqueue_prepare w => Q_wq w ∈ Qs ∧ 0 ≤ sched_lock s < ARCH_ATOMIC_MAX
  | Api_waitqueue_wakeup_sync w cnt _ => Q_wq w ∈ Qs ∧ cnt ≤ 255
  | Api_timer_create y cb _ _ reload => legal_timer y cb reload ∧ ¬ in_setup Qs y
  | Api_timer_destroy y => (∃ n, y = TmUser n) ∧ ¬ in_setup Qs y
  | Api_mtx_create _ | Api_mtx_destroy _ | Api_mtx_lock _ | Api_mtx_unlock _ => False
  | _ => True
  end.

(** What an interrupt service routine may call. *)
Definition legal_isr {AP : ArchPort} {NT : AppTimers} (Qs : objs) (a : api) : Prop :=
  match a with
  | Api_timer_create y cb _ _ reload => legal_timer y cb reload ∧ ¬ in_setup Qs y
  | Api_timer_destroy y => (∃ n, y = TmUser n) ∧ ¬ in_setup Qs y
  | Api_sem_up_sync x _ => Q_sem x ∈ Qs
  | Api_waitqueue_wakeup_sync w cnt _ => Q_wq w ∈ Qs ∧ cnt ≤ 255
  | Api_tick => True
  | _ => False
  end.

(** The objects that exist after a call. *)
Definition queues_after (a : api) (Qs : objs) : objs :=
  match a with
  | Api_sem_create x _ => with_queue (Q_sem x) Qs
  | Api_sem_destroy x => without_queue (Q_sem x) Qs
  | Api_waitqueue_create w => with_queue (Q_wq w) Qs
  | Api_waitqueue_destroy w => without_queue (Q_wq w) Qs
  | _ => Qs
  end.
(** At the [point] of a call by task [c], and when the call has gone on from there. *)
Definition begun (a : api) (c : tid) (Qs : objs) : objs :=
  match a with
  | Api_timer_create y _ _ _ _ => with_setup y c Qs
  | Api_task_create t _ _ _ _ _ => with_birth t c Qs
  | _ => queues_after a Qs
  end.
Definition resumed (p : point) (Qs : objs) : objs :=
  match p with
  | At_timer_create y => without_setup y Qs
  | At_task_create t => without_birth t Qs
  | _ => Qs
  end.

(** The code of an interrupt service routine at nesting level [n]; a timer that it
    creates is nobody else's until then. Where the application is [prompt] ([pr]),
    nested routines call no kernel function: the scheduler ignores their requests. *)
Fixpoint legal_isr_code {AP : ArchPort} {NT : AppTimers} (pr : bool) (Qs : objs) (n : Z) (x : isr_code) : Prop :=
  match x with
  | Isr_call a served => legal_isr Qs a ∧ (pr = true → n = 1) ∧ n < 255 ∧
      foldr (λ x P, legal_isr_code pr (begun a task_idle Qs) (n + 1) x ∧ P) True served
  | Isr_eint | Isr_dint => True
  | Isr_nested body => n < 255 ∧ foldr (λ x P, legal_isr_code pr Qs (n + 1) x ∧ P) True body
  end.
Definition legal_isr_body {AP : ArchPort} {NT : AppTimers} (pr : bool) (Qs : objs) (n : Z) (l : list isr_code) : Prop :=
  foldr (λ x P, legal_isr_code pr Qs n x ∧ P) True l.

(** Calls of an application that never puts off a request to the scheduler: with
    [sync] a call leaves it to a later one, and [os_waitqueue_wait] forgets it when
    the wake-up has come before. The counter of [os_scheduler_lock] does not wrap. *)
Definition prompt {AP : ArchPort} (pr : bool) (s : kstate) (a : api) : Prop :=
  pr = true → match a with
  | Api_scheduler_unlock sync | Api_sem_up_sync _ sync | Api_waitqueue_wakeup_sync _ _ sync => sync = false
  | Api_waitqueue_wait _ _ => waitqueue_current s ≠ None
  | Api_scheduler_lock => 0 ≤ sched_lock s < ARCH_ATOMIC_MAX
  | _ => True
  end.

(** The objects of the application, [Qs], are those that exist, [Qf], but the
    semaphores on which tasks join others. *)
Definition app_queues (Qs Qf : objs) : Prop :=
  (∀ q, q ∈ Qs ↔ q ∈ Qf ∧ ∀ j, q ≠ joinq j) ∧ setups Qs = setups Qf ∧ births Qs = births Qf.

(** ** Safe outcomes *)

Section safe.
Context {AP : ArchPort} {NT : AppTimers} (N : nat) (pr : bool).

(** Some [sys_ok], with at most [N] tasks. *)
Definition state_ok (Qs : objs) (c : tid) (s : kstate) : Prop :=
  ∃ A, sys_ok Qs A s c ∧ (size (tasks s) ≤ N)%nat.

(** Task [c] has the CPU; where the application is [prompt] and so [pr] is set, it is
    the most urgent task, but for the task [ex] that is about to ask the scheduler. *)
Definition nearly_ok (ex : option tid) (Qs : objs) (c : tid) (s : kstate) : Prop :=
  state_ok Qs c s ∧ (pr = true → ex = Some c ∨ urgent c s).
Definition task_ok (Qs : objs) (c : tid) (s : kstate) : Prop :=
  state_ok Qs c s ∧ (pr = true → urgent c s).

(** What a task [c] leaves of the others: none gets a guard timer, and none is new
    or lost. *)
Definition others_kept (c : tid) (s0 s : kstate) : Prop :=
  (∀ t, t ≠ c → rest t s0 → rest t s) ∧
  (∀ t, is_Some (tasks s0 !! t) ↔ is_Some (tasks s !! t)).

(** What a task [t] that gave the CPU away in [s] with the objects [Qs] finds when it
    goes on in [s2] with the objects [Qs2]. *)
Definition resumable (t : tid) (Qs : objs) (s : kstate) (Qs2 : objs) (s2 : kstate) : Prop :=
  (rest t s → rest t s2) ∧ (joinq t ∈ Qs ↔ joinq t ∈ Qs2) ∧
  (∀ t', is_Some (tasks s !! t') → is_Some (tasks s2 !! t')).
(** Only [t] itself creates and destroys the semaphore it joins other tasks with. *)
Definition same_queues (t : tid) (Qs Qs' : objs) : Prop :=
  (∀ q, q ≠ joinq t → (q ∈ Qs ↔ q ∈ Qs')) ∧ setups Qs' = setups Qs ∧ births Qs' = births Qs.

(** Kernel code of task [c] that started in [s0] with interrupt state [b] and has
    the outcome [r], with the objects [Qs] when it returns or gives the CPU away: it
    keeps the invariant whenever it gives the CPU away, and goes on so from every
    state it can be resumed in. *)
Fixpoint safe {B} (Qs : objs) (b : bool) (c : tid) (s0 : kstate) (r : res B) : Prop :=
  match r with
  | Done _ s => task_ok Qs c s ∧ dint s = b ∧ isr_nesting s = 0 ∧ rest c s ∧ joinq c ∉ Qs ∧ others_kept c s0 s
  | Halted _ => True
  | Undef => False
  | NoFuel => False
  | Switch me s k => me = c ∧ (∃ n, n ≠ c ∧ task_ok Qs n s) ∧ isr_nesting s = 0 ∧ others_kept c s0 s ∧
      ∀ Qs2 s2, task_ok Qs2 c s2 → dint s2 = true → isr_nesting s2 = 0 → resumable c Qs s Qs2 s2 →
        ∃ Qs3, same_queues c Qs2 Qs3 ∧ safe Qs3 b c s2 (k s2)
  end.
End safe.

Section facts.
Context {AP : ArchPort} {APOK : ArchPortOk AP} {NT : AppTimers} (N : nat) (pr : bool).
Implicit Types (A : gmap laddr (list laddr)) (s : kstate) (q : qid) (t c : tid) (tk : os_task_t) (Qs : objs).

Lemma safe_bind_ret {B C} Qs b c s0 (r : res B) (f : B → K C) : (∀ v s, ∃ w, f v s = Done w s) →
  safe N pr Qs b c s0 r → safe N pr Qs b c s0 (res_bind r f).
Proof.
  intros Hf. revert Qs s0. induction r as [v s | | | | me s k IH]; intros Qs s0; cbn; try done.
  - destruct (Hf v s) as [w ->]. done.
  - intros (? & ? & ? & ? & Hk). split_and!; try done. intros Qs2 s2 X1 X2 X3 X4.
    destruct (Hk Qs2 s2 X1 X2 X3 X4) as (Qs3 & ? & ?). exists Qs3. auto.
Qed.

Lemma safe_ret0 Qs b c s0 s (m : K unit) : safe N pr Qs b c s0 (m s) → safe N pr Qs b c s0 (ret0 m s).
Proof. apply safe_bind_ret. eauto. Qed.

Lemma others_refl c s : others_kept c s s.
Proof. by split. Qed.

Lemma others_same c s0 s s' : tasks s' = tasks s → others_kept c s0 s → others_kept c s0 s'.
Proof. intros Ht (H1 & H2). unfold others_kept, rest. rewrite Ht. auto. Qed.

Lemma others_trans c s0 s s' : others_kept c s0 s → (∀ t, t ≠ c → rest t s → rest t s') →
  (∀ t, is_Some (tasks s !! t) ↔ is_Some (tasks s' !! t)) → others_kept c s0 s'.
Proof.
  intros (H1 & H2) Hr Hd. split; [auto |]. intros t. etransitivity; [apply H2 | apply Hd].
Qed.

Lemma size_same s s' : (∀ t, is_Some (tasks s !! t) ↔ is_Some (tasks s' !! t)) → size (tasks s') = size (tasks s).
Proof. intros Hd. rewrite <- !size_dom. f_equal. apply leibniz_equiv. intros t. by rewrite !elem_of_dom, Hd. Qed.

(** The numbers of iterations the loops may need. *)
Lemma tids_bound s (l : list tid) : NoDup l → (∀ t, t ∈ l → is_Some (tasks s !! t)) → (length l ≤ size (tasks s))%nat.
Proof.
  intros Hl Ht. rewrite <- size_dom, <- (size_list_to_set (C := gset nat)) by done. apply subseteq_size.
  intros t Hin%elem_of_list_to_set. by apply elem_of_dom, Ht.
Qed.

Lemma armed_bound Qs A s c : sys_ok Qs A s c → (length (armed A) ≤ size (tasks s) + app_timers)%nat.
Proof.
  intros H. rewrite <- size_dom. change (size (dom (tasks s))) with (length (elements (dom (tasks s)))).
  rewrite <- (length_fmap TmBlock), <- (length_seq app_timers 0), <- (length_fmap TmUser), <- length_app.
  apply submseteq_length, NoDup_submseteq; [eapply armed_NoDup; apply (sy_kernel _ _ _ _ H) |].
  intros y [(t & tk & q & -> & Ht & _) | (n & k & -> & Hn & _)]%(sy_armed _ _ _ _ H); apply elem_of_app; [left | right];
    apply list_elem_of_fmap; eexists; (split; [done |]).
  - apply elem_of_elements, elem_of_dom. by exists tk.
  - apply elem_of_seq. lia.
Qed.

Lemma absq_bound Qs A s c q : sys_ok Qs A s c → (length (absq A q) ≤ size (tasks s))%nat.
Proof.
  intros H. pose proof (ko_queues _ _ (sy_kernel _ _ _ _ H)) as HQ.
  rewrite <- (length_fmap fst). apply tids_bound; [by eapply absq_NoDup |].
  intros t ([t1 p] & -> & Hin)%list_elem_of_fmap. rewrite (absq_elem _ _ _ _ _ HQ) in Hin.
  apply (qo_member _ _ HQ) in Hin as (tk & ? & _). eauto.
Qed.

(** *** The scheduler *)

Lemma rest_current s t tk : tasks s !! t = Some tk → rest t s ↔ timer tk = None.
Proof. intros Ht. split; [auto |]. intros Hm tk'. by intros [= <-]%(eq_trans (eq_sym Ht)). Qed.

(** The scheduler leaves the CPU to the most urgent task. *)
Lemma urgent_stays A s c tk hp : sched_ok A s c tk → hp ≤ 1 →
  (∀ i, prio_current tk + hp ≤ i → qtasks A Q_ready i = []) → urgent c s.
Proof.
  intros Hok Hhp He _ t tk1 tkc Hc Ht Hq. assert (tkc = tk) as -> by (pose proof (so_task _ _ _ _ Hok); congruence).
  destruct (qo_task _ _ (so_queues _ _ _ _ Hok) t tk1 Ht) as [_ Hin]. rewrite Hq in Hin.
  destruct (Z.le_gt_cases (prio_current tk1) (prio_current tk)) as [| Hlt]; [done |].
  rewrite He in Hin by lia. by apply elem_of_nil in Hin.
Qed.

Lemma handover_urgent A s c tk new A' s' hp : sched_ok A s c tk → handover A s c tk new A' s' → 0 ≤ hp →
  (∃ tkn, tasks s !! new = Some tkn ∧ prio_current tk + hp ≤ prio_current tkn) → urgent new (set_task_current (Some new) s').
Proof.
  intros Hok [(tkn & ts & Htn & Htop & _ & Hnc & _ & Hst & _) _] Hhp (tkn' & Htn' & Hle). simplify_eq.
  eapply (urgent_top A s _ c (ready_task tk) new tkn); [apply Hok | done | done | done | cbn; lia |].
  cbn. by rewrite (queues_step_tasks _ _ _ Hst), insert_insert_ne.
Qed.

(** A hand-over of the CPU as the machine sees it. *)
Lemma handover_state Qs A s c tk new A' s' hp : sys_ok Qs A s c → (size (tasks s) ≤ N)%nat → sched_ok A s c tk →
  handover A s c tk new A' s' → 0 ≤ hp →
  (∃ tkn, tasks s !! new = Some tkn ∧ prio_current tk + hp ≤ prio_current tkn) →
  new ≠ c ∧ task_ok N pr Qs new (set_task_current (Some new) s') ∧
  (∀ t, rest t s → rest t s') ∧ (∀ t, is_Some (tasks s !! t) ↔ is_Some (tasks s' !! t)) ∧
  isr_nesting s' = isr_nesting s ∧ sched_lock s' = sched_lock s ∧ dint s' = dint s.
Proof.
  intros H HN Hok Hh Hhp Hge. pose proof (sys_ok_handover _ _ _ _ _ _ _ _ H Hok Hh) as H'.
  pose proof (handover_urgent _ _ _ _ _ _ _ _ Hok Hh Hhp Hge) as Hu.
  destruct Hh as [(tkn & ts & Htn & _ & _ & Hnc & Hqn & Hst & _) _]. pose proof (so_task _ _ _ _ Hok) as Ht.
  pose proof (queues_step_tasks _ _ _ Hst) as Ht'. pose proof (queues_step_objects _ _ _ Hst) as (_ & _ & _ & Hn & Hlk & _ & Hd & _).
  assert (∀ t, is_Some (tasks s !! t) ↔ is_Some (tasks s' !! t)) as Hdom.
  { intros t. rewrite Ht', !lookup_insert. repeat case_decide; subst; [by rewrite Ht; split; eauto | by rewrite Htn; split; eauto | done]. }
  split_and!; try done; [split; [exists A'; split; [done |]; cbn; by rewrite (size_same s s') | done] |].
  intros t Hr tk'. rewrite Ht', !lookup_insert. repeat case_decide; [| | apply Hr]; intros [= <-]; subst; [by apply (Hr tk) | by apply (Hr tkn)].
Qed.

Lemma safe_schedule Qs b c s0 s hp : state_ok N Qs c s → dint s = true → isr_nesting s = 0 → rest c s → joinq c ∉ Qs →
  others_kept c s0 s → 0 ≤ hp ≤ 1 → safe N pr Qs b c s0 ((os_schedule hp;; arch_critical_exit b) s).
Proof.
  intros (A & H & HN) Hd Hn Hr Hj Ho Hhp. destruct (sys_sched _ _ _ _ H) as [tk Hok].
  destruct (os_schedule_spec A s c tk hp Hok Hd Hhp) as
    [[Hlk Hrun] | [(_ & _ & He & Hrun) | (_ & _ & new & A' & s' & Hh & Hge & Hrun)]].
  1,2: erewrite bind_Done by exact Hrun; cbn; split_and!; try done; split; [exists A; split; [by apply sys_ok_dint | done] | intros _].
  { intros Hl. cbn in Hl. lia. }
  { eapply (urgent_same s); [| done..]. by eapply urgent_stays; [| apply Hhp |]. }
  rewrite Hn in Hrun. cbn [Z.eqb] in Hrun. destruct (handover_state _ _ _ _ _ _ _ _ _ H HN Hok Hh (proj1 Hhp) Hge) as (Hnc & Hs' & Hr' & Hdom & Hn' & _).
  erewrite bind_Switch by exact Hrun. cbn. split_and!; [done | by exists new | by rewrite Hn' | by eapply others_trans; eauto |].
  intros Qs2 s2 [(A2 & H2 & HN2) Hu2] Hd2 Hn2 (Hr2 & Hj2 & _). exists Qs2. split; [done |].
  destruct (sys_ok_running _ _ _ _ H2) as (s3 & Hrun3 & H3 & (tk3 & Ht3 & Ht3') & _ & Hn3 & Hl3).
  erewrite bind_Done by exact Hrun3. cbn.
  assert (∀ t, is_Some (tasks s2 !! t) ↔ is_Some (tasks s3 !! t)) as Hdom3.
  { intros t. rewrite Ht3', lookup_insert. case_decide; [subst; rewrite Ht3; by split; eauto | done]. }
  assert (∀ t, rest t s2 → rest t s3) as Hr3.
  { intros t Hrt tk'. rewrite Ht3', lookup_insert. case_decide; [intros [= <-]; subst; by apply (Hrt tk3) | apply Hrt]. }
  split_and!; [split; [exists A2; split; [by apply sys_ok_dint | cbn; by rewrite (size_same s2 s3)] |] | done | by rewrite Hn3 | | |].
  - intros Hpr. eapply (urgent_own s2 _ c (set_state TASKSTATE_RUNNING) tk3); [by apply Hu2 | cbn; by rewrite Hl3 | done..].
  - apply Hr3, Hr2. by apply Hr'.
  - by rewrite <- Hj2.
  - eapply (others_same _ _ s3); [done |]. eapply others_trans; [apply others_refl | auto | done].
Qed.

(** Inside an interrupt the scheduler only changes [task_current], and in a nested
    one it does nothing. *)
Lemma isr_schedule Qs c s hp b : state_ok N Qs c s → dint s = true → 1 ≤ isr_nesting s →
  (pr = true → isr_nesting s = 1) → 0 ≤ hp ≤ 1 →
  ∃ s' c', (os_schedule hp;; arch_critical_exit b) s = Done tt s' ∧ task_ok N pr Qs c' s' ∧ dint s' = b ∧
    isr_nesting s' = isr_nesting s ∧ sched_lock s' = sched_lock s ∧ (sched_lock s ≠ 0 → c' = c) ∧
    (∀ t, rest t s → rest t s') ∧ ∀ t, is_Some (tasks s !! t) ↔ is_Some (tasks s' !! t).
Proof.
  intros (A & H & HN) Hd Hn Hn1 Hhp. destruct (sys_sched _ _ _ _ H) as [tk Hok].
  destruct (os_schedule_spec A s c tk hp Hok Hd Hhp) as
    [[Hlk Hrun] | [(_ & _ & He & Hrun) | (Hle & Hl0 & new & A' & s' & Hh & Hge & Hrun)]].
  1,2: erewrite bind_Done by exact Hrun; exists (set_dint b s), c; split_and!; try done; split; [exists A; split; [by apply sys_ok_dint | done] | intros Hpr].
  { intros Hl. cbn in Hl. specialize (Hn1 Hpr). lia. }
  { eapply (urgent_same s); [| done..]. by eapply urgent_stays; [| apply Hhp |]. }
  rewrite (proj2 (Z.eqb_neq (isr_nesting s) 0)) in Hrun by lia.
  destruct (handover_state _ _ _ _ _ _ _ _ _ H HN Hok Hh (proj1 Hhp) Hge) as (_ & [(A2 & H2 & HN2) Hu2] & Hr' & Hdom & Hn' & Hlk' & _).
  destruct (sys_ok_running _ _ _ _ H2) as (s3 & Hrun3 & H3 & (tk3 & Ht3 & Ht3') & _ & Hn3 & Hl3). cbn in Ht3, Ht3', Hn3, Hl3.
  erewrite bind_Done by (rewrite Hrun; exact Hrun3).
  assert (∀ t, is_Some (tasks s' !! t) ↔ is_Some (tasks s3 !! t)) as Hdom3.
  { intros t. rewrite Ht3', lookup_insert. case_decide; [subst; rewrite Ht3; by split; eauto | done]. }
  exists (set_dint b s3), new. split_and!; [done | | done | cbn; by rewrite Hn3, <- Hn' | cbn; by rewrite Hl3 | done | |].
  - split; [exists A2; split; [by apply sys_ok_dint |]; cbn; by rewrite (size_same s' s3) |]. intros Hpr.
    eapply (urgent_own (set_task_current (Some new) s') _ new (set_state TASKSTATE_RUNNING) tk3); [by apply Hu2 | cbn; by rewrite Hl3 | done..].
  - intros t Hrt tk'. cbn. rewrite Ht3', lookup_insert.
    case_decide; [intros [= <-]; subst; by apply (Hr' _ Hrt tk3) | by apply Hr'].
  - intros t. cbn. by rewrite Hdom.
Qed.

(** *** Calls that end with a request to the scheduler *)

Definition kept s s' : Prop :=
  (∀ t, rest t s → rest t s') ∧ (∀ t, is_Some (tasks s !! t) ↔ is_Some (tasks s' !! t)).

Definition tail (request : option Z) (b : bool) : K unit :=
  match request with
  | None => arch_critical_exit b
  | Some hp => os_schedule hp;; arch_critical_exit b
  end.

(** The code halts, or comes to its [tail] in a state that satisfies the invariant. *)
Definition to_tail (Qs : objs) (c : tid) s (r : res unit) : Prop :=
  (∃ s', r = Halted s') ∨
  ∃ s' request, r = tail request (dint s) s' ∧ (∀ hp, request = Some hp → 0 ≤ hp ≤ 1) ∧
    state_ok N Qs c s' ∧ dint s' = true ∧ isr_nesting s' = isr_nesting s ∧ sched_lock s' = sched_lock s ∧ kept s s' ∧
    (request = None → pr = true → urgent c s → urgent c s').

Lemma kept_others c s s' : kept s s' → others_kept c s s'.
Proof. intros [Hr Hd]. split; [auto | done]. Qed.

Lemma tail_safe Qs c s r : to_tail Qs c s r → isr_nesting s = 0 → rest c s → joinq c ∉ Qs → (pr = true → urgent c s) →
  safe N pr Qs (dint s) c s r.
Proof.
  intros [[s' ->] | (s' & request & -> & Hhp & (A & H & HN) & Hd & Hn & _ & Hk & Hu)] Hn0 Hrc Hj Hur; [done |].
  pose proof (kept_others c _ _ Hk) as Ho. destruct Hk as [Hr _].
  destruct request as [hp |]; cbn [tail].
  - apply safe_schedule; try done; [by exists A | by rewrite Hn | auto | auto].
  - cbn. split_and!; [split; [exists A; split; [by apply sys_ok_dint | done] | intros Hpr; apply (urgent_same s'); auto] | done | by rewrite Hn | exact (Hr c Hrc) | done | exact Ho].
Qed.

(** What code of an interrupt does: it keeps the invariant, perhaps with other
    objects [Qs], and changes [task_current] only where the scheduler is not
    locked. *)
Definition isr_ok (ex : option tid) (Qs : objs) (c : tid) s (r : res unit) : Prop :=
  (∃ s', r = Halted s') ∨ ∃ s' c', r = Done tt s' ∧ nearly_ok N pr ex Qs c' s' ∧ isr_nesting s' = isr_nesting s ∧
    sched_lock s' = sched_lock s ∧ (sched_lock s ≠ 0 → c' = c) ∧ kept s s'.

Lemma task_nearly ex Qs c s : task_ok N pr Qs c s → nearly_ok N pr ex Qs c s.
Proof. intros [? ?]. split; auto. Qed.

Lemma tail_isr ex Qs c s r : to_tail Qs c s r → 1 ≤ isr_nesting s → (pr = true → isr_nesting s = 1) →
  (pr = true → ex = Some c ∨ urgent c s) → isr_ok ex Qs c s r.
Proof.
  intros [? | (s' & request & -> & Hhp & (A & H & HN) & Hd & Hn & Hl & (Hr & Hk) & Hu)] Hn1 Hn2 Hur; [by left | right].
  destruct request as [hp |]; cbn [tail].
  - destruct (isr_schedule Qs c s' hp (dint s)) as (s2 & c' & Hrun & Hs2 & _ & Hn3 & Hl3 & Hcc & Hr2 & Hdom);
      [by exists A | done | by rewrite Hn | by rewrite Hn | auto |].
    exists s2, c'. rewrite Hl in Hl3, Hcc.
    split_and!; [done | by apply task_nearly | congruence | done | done |]. split; [auto |].
    intros t. etransitivity; [apply Hk | apply Hdom].
  - exists (set_dint (dint s) s'), c. split_and!; try done. split; [exists A; split; [by apply sys_ok_dint | done] |].
    intros Hpr. destruct (Hur Hpr) as [? | ?]; [by left | right]. apply (urgent_same s'); auto.
Qed.

Lemma halt_tail Qs c s s' : to_tail Qs c s (os_halt s').
Proof. left. eauto. Qed.

Lemma kept_same s s' : tasks s' = tasks s → kept s s'.
Proof. intros Ht. unfold kept, rest. by rewrite Ht. Qed.

(** A request to the scheduler in a state whose tasks have not changed. *)
Lemma same_tail Qs c A s s' hp : sys_ok Qs A s' c → (size (tasks s') ≤ N)%nat → tasks s' = tasks s →
  isr_nesting s' = isr_nesting s → sched_lock s' = sched_lock s → dint s' = true → 0 ≤ hp ≤ 1 →
  to_tail Qs c s (tail (Some hp) (dint s) s').
Proof.
  intros H HN Ht Hn Hl Hd Hhp. right. exists s', (Some hp). split_and!; try done; [by intros ? [= <-] | by exists A | by apply kept_same].
Qed.

(** After some waiters were woken. *)
Lemma woken_tail Qs c A s s1 code q ws A' s' : sys_ok Qs A s1 c → tasks s1 = tasks s →
  (size (tasks s) ≤ N)%nat → woken_seq code q ws A s1 A' s' → q ≠ Q_ready →
  (∀ j, q = joinq j → j = c) → state_ok N Qs c s' ∧ kept s s'.
Proof.
  intros H Ht HN Hw Hq Hj. pose proof (sys_ok_woken _ _ _ _ _ _ _ _ _ H Hw Hq) as H'.
  specialize (H' (λ j t Hqj, not_joined _ _ _ _ j t H (or_intror (Hj j Hqj)))).
  pose proof (ws_tasks _ _ _ _ _ _ _ Hw) as Ht'. rewrite <- Ht in HN.
  assert (∀ t, is_Some (tasks s1 !! t) ↔ is_Some (tasks s' !! t)) as Hdom.
  { intros t. rewrite Ht'. case_decide; [by rewrite fmap_is_Some | done]. }
  split; [exists A'; split; [done |]; by rewrite (size_same s1 s') |]. unfold kept, rest. rewrite <- Ht. split; [| done].
  intros t Hr tk. rewrite Ht'. case_decide; [| apply Hr]. by intros (? & _ & ->)%fmap_Some.
Qed.

(** Passing the guards of an API function: where a guard fails the code halts. *)
Ltac halts := first [done | apply halt_tail | by left; eexists | by eexists].
Tactic Notation "guard" ident(H) :=
  match goal with
  | |- context [(assert_not_isr ≫= _) ?s] =>
      destruct (decide (isr_nesting s = 0)) as [H | H]; [rewrite not_isr_ok by done | rewrite not_isr_bad by done; halts]
  | |- context [(assert_not_prepared ≫= _) ?s] =>
      destruct (decide (waitqueue_current s = None)) as [H | H]; [rewrite not_prepared_ok by done | rewrite not_prepared_bad by done; halts]
  | |- context [(assert_not_idle ≫= _) ?s] =>
      destruct (decide (task_current s = Some task_idle)) as [H | H]; [rewrite not_idle_bad by done; halts | rewrite not_idle_ok by done]
  | |- context [(OS_ASSERT ?b ≫= _) ?s] =>
      destruct b eqn:H; [rewrite OS_ASSERT_true by done | rewrite OS_ASSERT_false by done; halts]
  end.
Tactic Notation "guard" := let H := fresh "Hguard" in guard H.

(** *** The calls, one by one *)

Section calls.
Context (Qs : objs) A s c (H : sys_ok Qs A s c) (HN : (size (tasks s) ≤ N)%nat).

Lemma yield_tail : to_tail Qs c s (os_yield s).
Proof using H HN.
  unfold os_yield. guard Hn.
  guard.
  guard Hw. erewrite bind_Done by done. cbn beta.
  apply (same_tail Qs c A s (set_dint true s) 0); try done; by apply sys_ok_dint.
Qed.

Lemma sem_up_guards x sync v : sems s !! x = Some v →
  (∃ s', os_sem_up_sync x sync s = Halted s') ∨
  v < ARCH_ATOMIC_MAX - 1 ∧ (isr_nesting s = 0 ∨ sync = false) ∧ (0 < isr_nesting s ∨ waitqueue_current s = None).
Proof.
  intros Hv. unfold os_sem_up_sync. erewrite bind_Done by done. guard E1. erewrite bind_Done by done. guard E2.
  erewrite bind_Done by done. erewrite bind_Done by (by apply get_sem_Some). guard E3. right.
  apply Z.ltb_lt in E3. rewrite orb_true_iff, Z.eqb_eq, negb_true_iff in E1.
  by rewrite orb_true_iff, Z.gtb_lt, bool_decide_eq_true in E2.
Qed.

Lemma sem_up_tail x sync : Q_sem x ∈ Qs → (∀ j, Q_sem x = joinq j → j = c) → (pr = true → isr_nesting s = 0 → sync = false) → to_tail Qs c s (os_sem_up_sync x sync s).
Proof using H HN APOK.
  intros Hx Hxj Hsync. destruct (sy_sems _ _ _ _ H x Hx) as (v & [Hv Hl _ Hr He]).
  destruct (sem_up_guards x sync v Hv) as [? | (Hm & Hi & Hw)]; [by left |].
  assert (pr = true → sync = false) as Hnow by (intros Hpr; destruct Hi; auto).
  destruct (sem_up_run A s x sync v (sy_kernel _ _ _ _ H) Hl (sy_ready _ _ _ _ H) Hv ltac:(lia) Hi Hw) as
    [[Hemp Hrun] | (t & tk & A' & s' & Ht & Hqt & Htop & Hrun & HK' & Ht' & HL' & Ho' & HG' & Hwq)].
  - right. exists (set_dint true (set_sems (<[x := v + 1]> (sems s)) s)), None. split_and!; [by rewrite Hrun | done | | done.. | by apply kept_same | intros _ _ Hu; by apply (urgent_same s)].
    exists A. split; [| done]. apply sys_ok_dint, sys_ok_sem; [done | lia |]. by apply (absq_nil A s); [apply H |].
  - assert (woken_seq OS_OK (Q_sem x) [(t, prio_current tk)] A (set_dint true s) A' s') as Hseq.
    { eapply (woken_cons _ _ _ _ [] A _ A' s'); try done; [apply kernel_ok_dint, H | by eapply (timers_kept_l _ A _ A s) | by apply woken_nil]. }
    destruct (woken_tail Qs c A s (set_dint true s) _ _ _ _ _ (sys_ok_dint _ _ _ _ true H) eq_refl HN Hseq) as [Hs' Hk']; [done | done |].
    destruct Ho' as (_ & _ & _ & Hn & Hlk & _ & Hd & _). cbn in Hn, Hlk, Hd.
    right. exists s', (if sync then None else Some 1). split_and!; [by rewrite Hrun; destruct sync | by destruct sync; intros ? [= <-] | done.. |].
    intros Hno Hpr. by rewrite (Hnow Hpr) in Hno.
Qed.

Lemma wakeup_tail fuel w cnt sync : Q_wq w ∈ Qs → cnt ≤ 255 → (pr = true → isr_nesting s = 0 → sync = false) → (size (tasks s) < fuel)%nat →
  to_tail Qs c s (os_waitqueue_wakeup_sync fuel w cnt sync s).
Proof using H HN APOK.
  intros Hw Hcnt Hsync Hf. unfold os_waitqueue_wakeup_sync. do 2 erewrite bind_Done by done. cbn beta.
  guard E1. guard E2. guard E3. apply Z.gtb_lt in E3.
  rewrite orb_true_iff, Z.eqb_eq, negb_true_iff in E2.
  assert (pr = true → sync = false) as Hnow by (intros Hpr; destruct E2; auto). do 3 erewrite bind_Done by done. cbn beta.
  set (prepared := (isr_nesting (set_dint true s) >? 0) && bool_decide (waitqueue_current (set_dint true s) = Some w)).
  set (s1 := if prepared then set_waitqueue_current None (set_dint true s) else set_dint true s).
  assert (∃ n, 0 ≤ n ≤ 255 ∧ (if prepared then modify (set_waitqueue_current None);; mret (if negb (OS_WAITQUEUE_ALL =? cnt) then u8 (cnt - 1) else cnt)
    else mret cnt : K Z) (set_dint true s) = Done n s1) as (n & Hn & Hrun).
  { unfold s1. destruct prepared; eexists; (split; [| reflexivity]); [| lia].
    destruct (negb (_ =? _)); [| lia]. rewrite u8_id; lia. }
  erewrite bind_Done by exact Hrun.
  assert (sys_ok Qs A s1 c) as H1.
  { unfold s1. destruct prepared; [apply sys_ok_prepared; [| done] |]; by apply sys_ok_dint. }
  assert (tasks s1 = tasks s ∧ isr_nesting s1 = isr_nesting s ∧ dint s1 = true) as (Ht1 & Hn1 & Hd1) by (unfold s1; by destruct prepared).
  destruct (wakeup_loop_spec fuel w n false A s1 (sy_kernel _ _ _ _ H1)) as (A' & s' & Hloop & Hseq);
    [by apply H | apply H | done | pose proof (absq_bound _ _ _ _ (Q_wq w) H); lia |].
  erewrite bind_Done by exact Hloop.
  destruct (woken_tail Qs c A s s1 _ _ _ _ _ H1 Ht1 HN Hseq) as [Hs' Hk']; [done | done |].
  pose proof (ws_objects _ _ _ _ _ _ _ Hseq) as (_ & _ & _ & Hn' & Hlk' & _ & Hd' & _).
  right. exists s', (if negb sync && negb (bool_decide (wakes n (absq A (Q_wq w)) = [])) then Some 1 else None).
  split_and!; [cbn [orb]; by destruct (negb sync && _) | by destruct (negb sync && _); intros ? [= <-] | done | by rewrite Hd' | by rewrite Hn' | by rewrite Hlk'; unfold s1; destruct prepared | done |].
  intros Hno Hpr Hu. rewrite (Hnow Hpr) in Hno. cbn [negb andb] in Hno.
  destruct (wakes n (absq A (Q_wq w))) as [| e l] eqn:Ewk; [| done].
  apply (urgent_from s); [done | by rewrite Hlk'; unfold s1; destruct prepared |].
  intros t tk. rewrite (ws_tasks _ _ _ _ _ _ _ Hseq), Ht1, decide_False by (by intros ?%elem_of_nil). eauto.
Qed.

(** The two destroy functions, after their guards. *)
Lemma destroy_tail fuel q (upd : kstate → kstate) : q ∈ Qs → (∀ j, q = joinq j → j = c) → waitqueue_current s = None → (size (tasks s) < fuel)%nat →
  (∀ A' s', sys_ok (without_queue q Qs) A' s' c → sys_ok (without_queue q Qs) A' (upd s') c ∧ tasks (upd s') = tasks s' ∧
     dint (upd s') = dint s' ∧ isr_nesting (upd s') = isr_nesting s' ∧ sched_lock (upd s') = sched_lock s') →
  to_tail (without_queue q Qs) c s
    ((wake_destroyed fuel true q;; taskqueue_memset q;; modify upd;; os_schedule 1;; arch_critical_exit (dint s)) (set_dint true s)).
Proof using H HN APOK.
  intros Hq Hqj Hw Hf Hupd. destruct (sy_queues _ _ _ _ H q Hq) as [Hl Hr].
  pose proof (sys_ok_dint _ _ _ _ true H) as H0.
  destruct (wake_destroyed_spec fuel true q A (set_dint true s) (sy_kernel _ _ _ _ H0) Hl (sy_ready _ _ _ _ H) Hr)
    as (A1 & s1 & Hrun & Hseq & Hemp); [done | pose proof (absq_bound _ _ _ _ q H); lia |].
  erewrite bind_Done by exact Hrun.
  pose proof (sys_ok_woken _ _ _ _ _ _ _ _ _ H0 Hseq Hr (λ j t Hj, not_joined _ _ _ _ j t H0 (or_intror (Hqj j Hj)))) as H1.
  destruct (woken_tail Qs c A s _ _ _ _ _ _ H0 eq_refl HN Hseq Hr Hqj) as [(A1' & H1' & HN1) (Hk1 & Hk1')].
  pose proof (ws_objects _ _ _ _ _ _ _ Hseq) as (_ & _ & _ & Hn1 & Hlk1 & Hw1 & Hd1 & _).
  destruct (memset_spec A1 s1 q (sy_kernel _ _ _ _ H1)) as (s2 & Hm & HK2 & Hst & _).
  { eapply idle_live; [apply H1 | by apply H1 | done]. }
  erewrite bind_Done by exact Hm. erewrite bind_Done by done.
  assert (sys_ok (without_queue q Qs) (drop_queue A1 q) s2 c) as H2 by (apply (sys_ok_drop _ _ s1); try done; by rewrite Hw1).
  destruct (Hupd _ _ H2) as (H3 & Ht3 & Hd3 & Hn3 & Hlk3).
  pose proof (lists_step_objects _ _ Hst) as (_ & _ & _ & Hn2 & Hlk2 & _ & Hd2 & _).
  rewrite (lists_step_tasks _ _ Hst) in Ht3.
  right. exists (upd s2), (Some 1). split_and!; [done | intros ? [= <-]; lia | | | | | | done].
  - exists (drop_queue A1 q). split; [done |]. by rewrite Ht3.
  - by rewrite Hd3, Hd2, Hd1.
  - by rewrite Hn3, Hn2, Hn1.
  - by rewrite Hlk3, Hlk2, Hlk1.
  - unfold kept, rest in *. by rewrite Ht3.
Qed.

Lemma sem_destroy_tail fuel x : Q_sem x ∈ Qs → (∀ j, Q_sem x = joinq j → j = c) → (size (tasks s) < fuel)%nat →
  to_tail (without_queue (Q_sem x) Qs) c s (os_sem_destroy fuel x s).
Proof using H HN APOK.
  intros Hx Hxj Hf. unfold os_sem_destroy.
  guard.
  guard.
  erewrite bind_Done by done. cbn beta.
  apply (destroy_tail fuel (Q_sem x) (λ s, set_sems (<[x := 0]> (sems s)) s)); try done.
  intros A' s' H'. split_and!; [| done..]. apply sys_ok_dead_sem; [done |]. set_solver.
Qed.

Lemma waitqueue_destroy_tail fuel w : Q_wq w ∈ Qs → (size (tasks s) < fuel)%nat →
  to_tail (without_queue (Q_wq w) Qs) c s (os_waitqueue_destroy fuel w s).
Proof using H HN APOK.
  intros Hx Hf. unfold os_waitqueue_destroy.
  guard.
  erewrite bind_Done by done. cbn beta.
  by apply (destroy_tail fuel (Q_wq w) id).
Qed.

Lemma tick_tail user_clbck fuel : (∀ n pa s, user_clbck n pa s = Done tt s) → (2 * (size (tasks s) + app_timers) < fuel)%nat →
  to_tail Qs c s (os_tick (call_clbck user_clbck) fuel s).
Proof using H HN APOK.
  intros Hu Hf. destruct (decide (0 < isr_nesting s)) as [Hn |].
  - pose proof (armed_bound _ _ _ _ H).
    destruct (sys_ok_tick _ _ _ _ user_clbck fuel Hu H Hn) as (A' & s' & Hrun & H' & Hd & Hn' & Hlk & Hr & Hdom); [lia |].
    right. exists s', (Some 0). split_and!; [done | intros ? [= <-]; lia | | done.. | by split | done].
    exists A'. split; [done |]. by rewrite (size_same s s').
  - left. eexists. unfold os_tick. erewrite bind_Done by done. rewrite OS_ASSERT_false; [done |].
    destruct (isr_nesting s >? 0) eqn:E; [| done]. by apply Z.gtb_lt in E.
Qed.

(** The critical section of [os_task_create]. *)
Lemma task_enqueue_tail t : in_birth Qs t → to_tail (without_birth t Qs) c s (os_task_create_enqueue t s).
Proof using H HN APOK.
  intros Hb. destruct (sys_ok_enqueue Qs A s c t H Hb) as (A' & s' & tk & Hrun & H' & Ht & Htc & Ht' & _ & _ & _ & Hn' & Hl' & _ & Hd' & _).
  right. exists s', (Some 1). split_and!; [done | intros ? [= <-]; lia | | by rewrite Hd' | by rewrite Hn' | by rewrite Hl' | | done].
  - exists A'. split; [done |]. by rewrite Ht', map_size_insert, Ht.
  - unfold kept, rest. rewrite Ht'. split.
    + intros t' Hr tk'. rewrite lookup_insert. case_decide; [intros [= <-]; subst; by apply (Hr tk) | apply Hr].
    + intros t'. rewrite lookup_insert. case_decide; [subst; rewrite Ht; by split; eauto | done].
Qed.

(** Calls that neither block nor call the scheduler. *)
Definition returns (Qs' : objs) (r : res unit) : Prop :=
  (∃ s', r = Halted s') ∨
  ∃ A' s', r = Done tt s' ∧ sys_ok Qs' A' s' c ∧ tasks s' = tasks s ∧ dint s' = dint s ∧
    isr_nesting s' = isr_nesting s ∧ sched_lock s' = sched_lock s.

Lemma returns_tail Qs' r : returns Qs' r → to_tail Qs' c s r.
Proof using HN.
  intros [? | (A' & s' & -> & H' & Ht & Hd & Hn & Hl)]; [by left | right].
  exists (set_dint true s'), None. split_and!; try done.
  - cbn. rewrite <- Hd. by destruct s'.
  - exists A'. split; [by apply sys_ok_dint |]. cbn. by rewrite Ht.
  - by apply kept_same.
  - intros _ Hpr Hu. apply (urgent_same s); [done | cbn; congruence | done].
Qed.

Lemma sys_ok_lists_step s' : lists_step s s' → kernel_ok A s' → sys_ok Qs A s' c.
Proof using H APOK.
  intros Hst HK. pose proof (lists_step_objects _ _ Hst) as (Hse & _ & Hc & _ & _ & Hw & _).
  eapply (sys_ok_objects Qs); [done | done | exact H | done | by apply lists_step_tasks | by apply lists_step_timers | done | done | apply H | apply H | apply H | done | done | | rewrite Hw; apply H |].
  - intros x (v & HS)%(sy_sems _ _ _ _ H). exists v. eapply sem_ok_frame; [exact HS | by rewrite Hse | done..].
  - intros q p Hq. by apply (sy_lists _ _ _ _ H (L_bucket q p)).
Qed.

(** Timers of the application: the two steps of [os_timer_create], and [os_timer_destroy]. *)
Lemma timer_init_returns y cb pa timeout reload o : legal_timer y cb reload → ¬ in_setup Qs y →
  returns (with_setup y o Qs) (os_timer_create_init y cb pa timeout reload s).
Proof using H APOK.
  intros (n & k & -> & Hn & -> & Hrl) Hns.
  destruct (decide (0 < timeout < OS_TIMER_TICKSREM_MAX ∧ magic (timer_at s (TmUser n)) ≠ OS_TIMER_MAGIC1)) as [[Hto Hm] | Hbad].
  - destruct (sys_ok_timer_init Qs A s c n k pa timeout reload o H Hn Hns Hm Hto Hrl) as (A' & s' & Hrun & H' & Ht & Ho).
    right. exists A', s'. destruct Ho as (_ & _ & _ & ? & ? & _ & ? & _). by split_and!.
  - left. unfold os_timer_create_init. guard E1. guard E2. erewrite bind_Done by done. cbn beta.
    change (default timer_zero _) with (timer_at s (TmUser n)). guard E3.
    apply Z.gtb_lt in E1. apply Z.ltb_lt in E2. apply negb_true_iff, Z.eqb_neq in E3. by destruct Hbad.
Qed.

Lemma timer_add_returns y fuel : in_setup Qs y → (size (tasks s) + app_timers < fuel)%nat →
  returns (without_setup y Qs) (os_timer_create_add fuel y s).
Proof using H HN APOK.
  intros Hy Hf. pose proof (armed_bound _ _ _ _ H).
  destruct (sys_ok_timer_add Qs A s c y fuel H Hy) as (A' & s' & Hrun & H' & Ht & Ho); [lia |].
  right. exists A', s'. destruct Ho as (_ & _ & _ & ? & ? & _ & ? & _). by split_and!.
Qed.

Lemma timer_destroy_returns n : ¬ in_setup Qs (TmUser n) → returns Qs (os_timer_destroy (TmUser n) s).
Proof using H APOK.
  intros Hns. destruct (decide (magic (timer_at s (TmUser n)) = OS_TIMER_MAGIC1 ∨ magic (timer_at s (TmUser n)) = OS_TIMER_MAGIC2)) as [Hm | Hm].
  - destruct (sys_ok_timer_destroy Qs A s c n H Hns Hm) as (A' & s' & Hrun & H' & Ht & Ho).
    right. exists A', s'. destruct Ho as (_ & _ & _ & ? & ? & _ & ? & _). by split_and!.
  - unfold os_timer_destroy. erewrite bind_Done by done. cbn beta. change (default timer_zero _) with (timer_at s (TmUser n)).
    guard E. exfalso. by rewrite orb_true_iff, !Z.eqb_eq in E.
Qed.
End calls.

Section creation.
Context (Qs : objs) A s c (H : sys_ok Qs A s c) (HN : (size (tasks s) ≤ N)%nat).

Lemma sem_create_cases x v : Q_sem x ∉ Qs → (∀ j, Q_sem x = joinq j → j = c) → 0 ≤ v →
  (∃ s', os_sem_create x v s = Halted s') ∨
  ∃ A' s', os_sem_create x v s = Done tt s' ∧ sys_ok (with_queue (Q_sem x) Qs) A' s' c ∧ sems s' !! x = Some v ∧
    tasks s' = tasks s ∧ dint s' = dint s ∧ isr_nesting s' = isr_nesting s ∧ sched_lock s' = sched_lock s ∧
    waitqueue_current s' = waitqueue_current s.
Proof using H HN APOK.
  intros Hx Hxj Hv. unfold os_sem_create.
  guard E. apply Z.ltb_lt in E.
  guard.
  destruct (unknown_queue _ _ _ _ _ H Hx) as [Hi Hd]; [done |].
  destruct (memset_spec A s (Q_sem x) (sy_kernel _ _ _ _ H) Hi) as (s1 & Hm & HK1 & Hst1 & Hf & _). rewrite Hd in HK1, Hf.
  erewrite bind_Done by exact Hm. erewrite bind_Done by done.
  pose proof (sys_ok_lists_step _ _ _ _ H s1 Hst1 HK1) as H1.
  pose proof (sys_ok_dead_sem _ _ _ _ _ 0 H1 Hx) as H2. set (s2 := set_sems _ s1) in *.
  destruct (init_spec A s2 (Q_sem x) (sy_kernel _ _ _ _ H2) Hf) as (s3 & Hin & HK3 & Hst3).
  erewrite bind_Done by exact Hin. pose proof atomic_wide.
  destruct (sys_ok_add _ _ _ _ _ s3 H2 Hx) as [H4 He]; [done | exact Hst3 | exact HK3 | | exact Hxj |].
  { intros y [= <-]. exists 0. split; [cbn; apply lookup_insert_eq | lia]. }
  destruct Hst1 as (h1 & mk1 & ->), Hst3 as (h3 & mk3 & ->).
  right. exists (add_queue A (Q_sem x)). eexists. split_and!; [reflexivity | by apply sys_ok_sem | cbn; apply lookup_insert_eq | done..].
Qed.

Lemma sem_create_returns x v : Q_sem x ∉ Qs → (∀ j, Q_sem x ≠ joinq j) → 0 ≤ v →
  returns s c (with_queue (Q_sem x) Qs) (os_sem_create x v s).
Proof using H HN APOK.
  intros Hx Hxj Hv. destruct (sem_create_cases x v Hx) as [? | (A' & s' & Hrun & H' & _ & Ht & Hd & Hn & Hl & _)];
    [by intros j ?%Hxj | done | by left | right; by exists A', s'].
Qed.

Lemma waitqueue_create_returns w : Q_wq w ∉ Qs → returns s c (with_queue (Q_wq w) Qs) (os_waitqueue_create w s).
Proof using H APOK.
  intros Hx. unfold os_waitqueue_create.
  guard.
  destruct (unknown_queue _ _ _ _ _ H Hx) as [Hi Hd]; [done |].
  destruct (memset_spec A s (Q_wq w) (sy_kernel _ _ _ _ H) Hi) as (s1 & Hm & HK1 & Hst1 & Hf & _). rewrite Hd in HK1, Hf.
  erewrite bind_Done by exact Hm.
  pose proof (sys_ok_lists_step _ _ _ _ H s1 Hst1 HK1) as H1.
  destruct (init_spec A s1 (Q_wq w) (sy_kernel _ _ _ _ H1) Hf) as (s3 & -> & HK3 & Hst3).
  destruct (sys_ok_add _ _ _ _ _ s3 H1 Hx) as [H3 _]; [done | exact Hst3 | exact HK3 | done | done |].
  destruct Hst1 as (h1 & mk1 & ->), Hst3 as (h3 & mk3 & ->).
  right. exists (add_queue A (Q_wq w)). eexists. split_and!; [reflexivity | done..].
Qed.

End creation.

(** *** Calls that may block *)

Lemma safe_halt {B} Qs b c s0 s : safe N pr Qs b c s0 (os_halt s : res B).
Proof. done. Qed.

(** Code that only leaves the critical section after [r]. *)
Lemma safe_finish {B C} Qs b c s0 (r : res B) (fin : B → K C) :
  (∀ v s Qs, state_ok N Qs c s → ∃ w, fin v s = Done w (set_dint b s)) →
  safe N pr Qs true c s0 r → safe N pr Qs b c s0 (res_bind r fin).
Proof.
  intros Hf. revert Qs s0. induction r as [v s | | | | me s k IH]; intros Qs s0; cbn; try done.
  - intros ([Hs Hu] & _ & Hr). destruct (Hf v s Qs Hs) as [w ->]. cbn. destruct Hs as (A & H & HN).
    split; [| done]. split; [exists A; split; [by apply sys_ok_dint | done] |]. intros Hpr. apply (urgent_same s); auto.
  - intros (? & ? & ? & ? & Hk). split_and!; try done. intros Qs2 s2 X1 X2 X3 X4.
    destruct (Hk Qs2 s2 X1 X2 X3 X4) as (Qs3 & ? & ?). exists Qs3. auto.
Qed.

Lemma guard_timer_bad Qs A s c fuel cb timeout junk : sys_ok Qs A s c → rest c s →
  ¬ (0 < timeout < OS_TIMER_TICKSREM_MAX ∧ junk ≠ OS_TIMER_MAGIC1) →
  ∃ s', guard_timer true fuel cb timeout junk s = Halted s'.
Proof.
  intros H Hr Hb. destruct (sy_free _ _ _ _ H) as (tk & Ht & Hq). pose proof (sy_current _ _ _ _ H) as Hc.
  destruct (local_timer_spec A s c tk junk (sy_kernel _ _ _ _ H) Ht (Hr tk Ht)) as (s1 & Hl & _ & E1 & Hm & _).
  { intros Hy. by destruct (armed_waits _ _ _ _ _ _ H Ht Hy). }
  unfold guard_timer. cbn [when]. erewrite bind_Done by (by apply current_Some). erewrite bind_Done by exact Hl.
  unfold os_blocktimer_create. erewrite bind_Done by (apply current_Some; by rewrite E1).
  erewrite bind_Done by (apply get_task_Some; by rewrite E1). rewrite (Hr tk Ht). erewrite bind_Done by done.
  eexists. apply bind_Halted, os_timer_create_rejects. rewrite Hm. destruct (decide (junk = OS_TIMER_MAGIC1)); [by right; right | lia].
Qed.

(** A task that blocked is switched to: it forgets its guard timer. *)
Lemma resume_task_ok Qs s c : task_ok N pr Qs c s → ∃ s' tk,
  (resume_running;; c ← current; os_blocktimer_destroy c) s = Done tt s' ∧
  (∀ B (k : tid → K B), (resume_running;; c ← current; os_blocktimer_destroy c;; k c) s = k c s') ∧
  tasks s' !! c = Some tk ∧ task_ok N pr Qs c s' ∧ dint s' = dint s ∧ isr_nesting s' = isr_nesting s ∧ rest c s' ∧
  others_kept c s s'.
Proof.
  intros [(A2 & H2 & HN2) Hu2].
  destruct (sys_ok_resume _ _ _ _ H2) as (A3 & s3 & tk & Hrun0 & Hrun & Ht & Ht3 & H3 & Hd3 & Hn3 & Hl3).
  assert (∀ t, is_Some (tasks s !! t) ↔ is_Some (tasks s3 !! t)) as Hdom3.
  { intros t. rewrite Ht3, lookup_insert. case_decide; [subst; rewrite Ht; by split; eauto | done]. }
  eexists s3, _. split_and!; [exact Hrun0 | exact Hrun | by rewrite Ht3, lookup_insert_eq | | done | done | |].
  - split; [exists A3; split; [done |]; by rewrite (size_same s s3) |]. intros Hpr.
    eapply (urgent_own s _ c (λ tk, set_timer None (set_state TASKSTATE_RUNNING tk)) tk); [by apply Hu2 | by rewrite Hl3 | done..].
  - intros tk'. rewrite Ht3, lookup_insert_eq. by intros [= <-].
  - eapply others_trans; [apply others_refl | | done].
    intros t Htc Hrt tk'. rewrite Ht3, lookup_insert_ne by done. apply Hrt.
Qed.

(** Blocking the running task in [q]; [pre] takes back its preparation. *)
Lemma block_safe {B} Qs A s0 s c q bt timed fuel cb timeout junk (pre : K unit) (kont : K B) :
  sys_ok Qs A s c → (size (tasks s) ≤ N)%nat → (size (tasks s) + app_timers < fuel)%nat → rest c s → c ≠ task_idle →
  q ∈ Qs → (∀ x, q = Q_sem x → sems s !! x = Some 0) →
  cb = P_os_sem_timerclbck ∨ cb = P_os_waitqueue_timerclbck → (∀ j, q ≠ joinq j) → joinq c ∉ Qs →
  isr_nesting s = 0 → others_kept c s0 s →
  (∀ s1, waitqueue_current s1 = waitqueue_current s → pre s1 = Done tt (set_waitqueue_current None s1)) →
  (∀ s2 s3 tk, (resume_running;; c ← current; os_blocktimer_destroy c) s2 = Done tt s3 →
     (∀ C (k : tid → K C), (resume_running;; c ← current; os_blocktimer_destroy c;; k c) s2 = k c s3) →
     tasks s3 !! c = Some tk → ∃ v, (resume_running;; kont) s2 = Done v s3) →
  safe N pr Qs true c s0 ((guard_timer timed fuel cb timeout junk;; pre;; os_task_block_switch q bt;; kont) s).
Proof.
  intros H HN Hf Hr Hci Hq Hsem Hcb Hqj Hjc Hn Ho Hpre Hk.
  destruct (decide (timed = true ∧ ¬ (0 < timeout < OS_TIMER_TICKSREM_MAX ∧ junk ≠ OS_TIMER_MAGIC1))) as [[-> Hbad] | Hto].
  { destruct (guard_timer_bad _ _ _ _ fuel cb timeout junk H Hr Hbad) as [s' Hs']. by rewrite (bind_Halted _ _ _ _ Hs'). }
  destruct (sys_ok_block Qs A s c q bt timed fuel cb timeout junk H Hr Hci Hq Hsem Hcb Hqj) as
    (s1 & new & A' & s' & Hg & Hc1 & Hw1 & Hblk & Hnc & H' & Hr' & Hdom & _ & Hn' & Hu').
  { intros ->. destruct (decide (0 < timeout < OS_TIMER_TICKSREM_MAX ∧ junk ≠ OS_TIMER_MAGIC1)) as [[? ?] |]; [| tauto].
    split_and!; [done | lia.. |]. pose proof (armed_bound _ _ _ _ H). lia. }
  erewrite bind_Done by exact Hg. erewrite bind_Done by (by apply Hpre). erewrite bind_Switch by exact Hblk.
  cbn. split_and!; [done | exists new; split; [done |] | by rewrite Hn' | |].
  - split; [exists A'; split; [done |]; cbn; by rewrite (size_same s s') |]. intros _. by apply (urgent_same s').
  - eapply (others_same _ _ s'); [done |]. by eapply others_trans.
  - intros Qs2 s2 Hok2 Hd2 Hn2 (_ & Hj2 & _). exists Qs2. split; [by split |].
    destruct (resume_task_ok Qs2 s2 c Hok2) as (s3 & tk & Hrun0 & Hrun & Ht & Hok3 & Hd3 & Hn3 & Hr3 & Ho3).
    destruct (Hk s2 s3 tk Hrun0 Hrun Ht) as [v Hv].
    change (safe N pr Qs2 true c s2 ((resume_running;; kont) s2)). rewrite Hv. cbn.
    split_and!; [done | by rewrite Hd3 | by rewrite Hn3 | done | by rewrite <- Hj2 | done].
Qed.

Section blocking.
Context (Qs : objs) A s c (H : sys_ok Qs A s c) (HN : (size (tasks s) ≤ N)%nat).
Context (Hn : isr_nesting s = 0) (Hr : rest c s) (Hjc : joinq c ∉ Qs) (Hu : pr = true → urgent c s).
Context (fuel : nat) (Hf : (size (tasks s) + app_timers < fuel)%nat).

(** The CPU state of a task at rest in a kernel function that returns at once. *)
Lemma done_safe {B} A' s' (v : B) : sys_ok Qs A' s' c → tasks s' = tasks s → isr_nesting s' = isr_nesting s →
  (pr = true → sched_lock s' = 0 → sched_lock s = 0) → safe N pr Qs (dint s') c s (Done v s').
Proof using HN Hn Hr Hjc Hu.
  intros H' Ht Hn' Hl. cbn. split_and!; [split; [by exists A'; rewrite Ht | intros Hpr; apply (urgent_same s); auto] | done | by rewrite Hn' | unfold rest; by rewrite Ht | done |].
  eapply others_same; [exact Ht | apply others_refl].
Qed.

Lemma no_mtx : A !! L_mtx_list c = Some [].
Proof using H. destruct (sy_free _ _ _ _ H) as (tk & Ht & _). apply (sy_mtx _ _ _ _ H). eauto. Qed.

(** [os_scheduler_lock], but for the wrapping of its counter. *)
Lemma scheduler_lock_safe : (pr = true → 0 ≤ sched_lock s < ARCH_ATOMIC_MAX) → safe N pr Qs (dint s) c s (os_scheduler_lock s).
Proof using All.
  intros Hb. unfold os_scheduler_lock. guard. guard.
  unfold sched_lock_inc, mbind, K_bind, gets. cbn. destruct (os_atomic_inc _) as [v |] eqn:Ev; [| done].
  apply (done_safe A (set_sched_lock v s)); [by apply sys_ok_lock | done.. |]. cbn.
  intros Hpr. specialize (Hb Hpr). rewrite atomic_inc_ok in Ev by lia. injection Ev as <-. lia.
Qed.

Lemma sem_down_safe x timeout junk : Q_sem x ∈ Qs → (∀ j, Q_sem x ≠ joinq j) → safe N pr Qs (dint s) c s (os_sem_down fuel x timeout junk s).
Proof using H HN Hn Hr Hjc Hu Hf APOK.
  intros Hx Hxj. pose proof (sy_current _ _ _ _ H) as Hc. unfold os_sem_down. rewrite not_isr_ok by done.
  guard Hi.
  guard Hw.
  rewrite (no_mtx_ok A s c) by (apply no_mtx || apply H || done).
  destruct (sy_sems _ _ _ _ H x Hx) as (v & [Hv Hl _ Hrg He]).
  erewrite bind_Done by done. erewrite bind_Done by (by apply get_sem_Some). pose proof (sys_ok_dint _ _ _ _ true H) as H0.
  apply safe_finish; [intros ret s' Qs' _; by exists ret |].
  rewrite Z.gtb_ltb. destruct (Z.ltb_spec 0 v) as [Hp |].
  { erewrite bind_Done by done. rewrite atomic_wrap_id by lia.
    apply (done_safe A (set_sems (<[x := v - 1]> (sems s)) (set_dint true s))); [| done..].
    apply (sys_ok_sem Qs A (set_dint true s) c x (v - 1) H0); [lia | by apply He]. }
  assert (v = 0) as -> by lia. destruct (OS_TIMEOUT_TRY =? timeout); [by apply (done_safe A (set_dint true s)) |].
  change (safe N pr Qs true c s ((guard_timer (negb (OS_TIMEOUT_INFINITE =? timeout)) fuel P_os_sem_timerclbck timeout junk;; mret tt;;
    os_task_block_switch (Q_sem x) OS_TASKBLOCK_SEM;; c ← current; os_blocktimer_destroy c;; task ← get_task c; mret (block_code task)) (set_dint true s))).
  apply (block_safe Qs A); try done; [congruence | by intros y [= <-] | by left | |].
  - intros s1 Hw1. cbn in Hw1. rewrite Hw in Hw1. cbn. by destruct s1; cbn in *; subst.
  - intros s2 s3 tk _ Hrun Ht. exists (block_code tk). rewrite Hrun. by erewrite bind_Done by (by apply get_task_Some).
Qed.

Lemma wait_safe timeout junk : (pr = true → waitqueue_current s ≠ None) → safe N pr Qs (dint s) c s (os_waitqueue_wait fuel timeout junk s).
Proof using H HN Hn Hr Hjc Hu Hf APOK.
  intros Hprep. pose proof (sy_current _ _ _ _ H) as Hc. unfold os_waitqueue_wait. rewrite not_isr_ok by done.
  guard Hi.
  guard.
  rewrite (no_mtx_ok A s c) by (apply no_mtx || apply H || done).
  erewrite bind_Done by done. erewrite bind_Done by done. erewrite bind_Done by done. cbn beta.
  set (s1 := set_sched_lock (arch_atomic_wrap (sched_lock (set_dint true s) - 1)) (set_dint true s)).
  assert (sys_ok Qs A s1 c) as H1 by (by apply sys_ok_lock, sys_ok_dint).
  apply safe_finish.
  { intros [] s' Qs' (A' & H' & _). destruct (sy_free _ _ _ _ H') as (tk & Ht & _). exists (block_code tk).
    erewrite bind_Done by (by apply current_Some, (sy_current _ _ _ _ H')). by erewrite bind_Done by (by apply get_task_Some). }
  destruct (waitqueue_current s1) as [w |] eqn:Hw; [| by apply (done_safe A s1); try done; intros Hpr; by destruct (Hprep Hpr)].
  change (safe N pr Qs true c s ((guard_timer (negb (OS_TIMEOUT_INFINITE =? timeout)) fuel P_os_waitqueue_timerclbck timeout junk;;
    modify (set_waitqueue_current None);; os_task_block_switch (Q_wq w) OS_TASKBLOCK_WAITQUEUE;; c ← current; os_blocktimer_destroy c) s1)).
  apply (block_safe Qs A); try done; [congruence | by apply (sy_prepared _ _ _ _ H1) | by right |].
  intros s2 s3 tk Hrun _ _. by exists tt.
Qed.

Lemma exit_safe retv : task_current s ≠ Some task_idle → safe N pr Qs (dint s) c s (os_task_exit retv s).
Proof using H HN Hn Hr Hjc APOK.
  intros Hi. pose proof (sy_current _ _ _ _ H) as Hc.
  destruct (sys_ok_exit Qs A s c retv H Hr Hjc ltac:(congruence) Hn) as [[s' ->] | (new & A' & s' & k & -> & Hk & Hnc & H' & Hr' & Hdom & Hn' & Hu')]; [done |].
  cbn. split_and!; [done | exists new; split; [done |] | by rewrite Hn' | | intros Qs2 s2 _ _ _ _; exists Qs2; by rewrite Hk].
  - split; [exists A'; split; [done |]; cbn; by rewrite (size_same s s') |]. intros _. by apply (urgent_same s').
  - eapply (others_same _ _ s'); [done |]. eapply others_trans; [apply others_refl | done | done].
Qed.
End blocking.

(** *** Joining a task *)

Lemma others_join c s1 s2 s3 : others_kept c s1 s2 → others_kept c s2 s3 → others_kept c s1 s3.
Proof. intros (H1 & H2) (H3 & H4). split; [auto |]. intros t. etransitivity; [apply H2 | apply H4]. Qed.

(** Code that starts later. *)
Lemma safe_since {B} Qs b c s0 s (r : res B) : others_kept c s0 s → safe N pr Qs b c s r → safe N pr Qs b c s0 r.
Proof.
  intros Ho Hr. destruct r; cbn in *; try done.
  - destruct Hr as (? & ? & ? & ? & ? & Ho'). split_and!; try done. exact (others_join _ _ _ _ Ho Ho').
  - destruct Hr as (? & ? & ? & Ho' & ?). split_and!; try done. exact (others_join _ _ _ _ Ho Ho').
Qed.

(** One piece of code after another; [P] only depends on which tasks exist. *)
Lemma safe_bind {B C} (P : kstate → Prop) Qs b b' c s0 (r : res B) (f : B → K C) :
  (∀ s s', P s → (∀ t, is_Some (tasks s !! t) → is_Some (tasks s' !! t)) → P s') → P s0 →
  (∀ Qs v s, task_ok N pr Qs c s → dint s = b → isr_nesting s = 0 → rest c s → joinq c ∉ Qs → P s →
     safe N pr Qs b' c s (f v s)) →
  safe N pr Qs b c s0 r → safe N pr Qs b' c s0 (res_bind r f).
Proof.
  intros HP HP0 Hf. revert Qs s0 HP0. induction r as [v s | | | | me s k IH]; intros Qs s0 HP0; cbn; try done.
  - intros (Hs & Hd & Hn & Hr & Hj & Ho). apply (safe_since _ b' c s0 s); [exact Ho |].
    apply Hf; try done. apply (HP s0); [done |]. intros t. by apply (proj2 Ho).
  - intros (? & ? & ? & Ho & Hk). split_and!; try done. intros Qs2 s2 X1 X2 X3 X4.
    destruct (Hk Qs2 s2 X1 X2 X3 X4) as (Qs3 & ? & ?). exists Qs3. split; [done |]. apply IH; [| done].
    apply (HP s); [| apply X4]. apply (HP s0); [done |]. intros t. by apply (proj2 Ho).
Qed.

(** The end of [os_task_join]: the TCB of the task is given back. *)
Definition join_finish (t : tid) (b : bool) : K Z :=
  task ← get_task t;
  OS_SELFCHECK_ASSERT (bool_decide (state task = TASKSTATE_DESTROYED));;
  mod_task t (set_state TASKSTATE_INVALID);;
  mod_task t (set_join_sem None);;
  task ← get_task t;
  arch_critical_exit b;;
  mret (ret_value task).

Lemma join_finish_safe t b Qs s c : task_ok N pr Qs c s → isr_nesting s = 0 → rest c s → joinq c ∉ Qs → is_Some (tasks s !! t) →
  safe N pr Qs b c s (join_finish t b s).
Proof.
  intros [(A & H & HN) Hu] Hn Hr Hj [tk Ht]. unfold join_finish.
  erewrite bind_Done by (by apply get_task_Some). unfold OS_SELFCHECK_ASSERT.
  guard E. apply bool_decide_eq_true in E.
  erewrite bind_Done by (by apply mod_task_Some).
  erewrite bind_Done by (apply mod_task_Some; cbn; apply lookup_insert_eq). cbn [tasks set_tasks]. rewrite insert_insert_eq.
  erewrite bind_Done by (apply get_task_Some; cbn; apply lookup_insert_eq).
  erewrite bind_Done by done. set (tk' := set_join_sem None _). set (s1 := set_tasks _ (set_tasks _ s)).
  assert (task_queue tk = None) as Hq.
  { destruct (decide (t = c)) as [-> | Htc]; [destruct (sy_free _ _ _ _ H) as (? & ? & ?); congruence |].
    pose proof (sy_placed _ _ _ _ H t tk Ht Htc) as Hp. unfold placed in Hp. destruct (task_queue tk) as [[] |]; [congruence | destruct Hp; congruence.. | done]. }
  assert (sys_ok Qs A s1 c) as H1.
  { replace s1 with (set_tasks (<[t := tk']> (tasks s)) s) by (by destruct s). destruct (decide (t = c)) as [-> | Htc].
    - eapply sys_ok_current_tcb; [done | exact Ht | done.. | by right].
    - eapply sys_ok_ended; [done | exact Ht | done.. | by rewrite E | by right]. }
  assert (∀ t', is_Some (tasks s !! t') ↔ is_Some (tasks s1 !! t')) as Hdom.
  { intros t'. cbn. rewrite lookup_insert. case_decide; [subst; rewrite Ht; by split; eauto | done]. }
  assert (∀ t', rest t' s → rest t' s1) as Hrest.
  { intros t' Hrt tk2. cbn. rewrite lookup_insert. case_decide; [intros [= <-]; subst; by apply (Hrt tk) | apply Hrt]. }
  cbn. split_and!; try done; [split | by apply Hrest |].
  - exists A. split; [by apply sys_ok_dint |]. change (size (tasks s1) ≤ N)%nat. by rewrite (size_same s s1).
  - intros Hpr. apply (urgent_from s); [by apply Hu | done |]. intros t' tk2. cbn. rewrite lookup_insert.
    case_decide; [intros [= <-]; subst; by exists tk | intros ?; by exists tk2].
  - apply (others_same _ _ s1); [done |]. eapply others_trans; [apply others_refl | auto | done].
Qed.

(** The wait of [os_task_join]: the caller [c] creates its semaphore, leaves it in
    the TCB of [t], waits there and destroys it. *)
Definition join_wait (fuel : nat) (t : tid) : K unit :=
  c ← current;
  os_sem_create (SemJoin c) 0;;
  mod_task t (set_join_sem (Some (SemJoin c)));;
  ret ← os_sem_down fuel (SemJoin c) OS_TIMEOUT_INFINITE 0;
  OS_ASSERT (OS_OK =? ret);;
  os_sem_destroy fuel (SemJoin c).

(** What follows the wait. *)
Lemma join_resumed_safe Qs s c fuel v : task_ok N pr Qs c s → isr_nesting s = 0 → rest c s → joinq c ∈ Qs → (N < fuel)%nat →
  safe N pr (without_queue (joinq c) Qs) (dint s) c s ((OS_ASSERT v;; os_sem_destroy fuel (SemJoin c)) s).
Proof.
  intros [(A & H & HN) Hu] Hn Hr Hj Hf. guard E. apply tail_safe; try done; [| set_solver].
  eapply sem_destroy_tail; [done.. | by intros j [= <-] | lia].
Qed.

Lemma join_wait_safe Qs A s c t fuel : sys_ok Qs A s c → (size (tasks s) ≤ N)%nat → rest c s → joinq c ∉ Qs → c ≠ task_idle →
  isr_nesting s = 0 → waitqueue_current s = None → dint s = true → is_Some (tasks s !! t) → ¬ in_birth Qs t → (N < fuel)%nat →
  safe N pr (with_queue (joinq c) Qs) true c s (join_wait fuel t s).
Proof.
  intros H HN Hr Hj Hci Hn Hw Hd [tkt Ht] Hnb Hf. pose proof (sy_current _ _ _ _ H) as Hc.
  destruct (sy_free _ _ _ _ H) as (tkc & Htc & _).
  unfold join_wait. erewrite bind_Done by (by apply current_Some).
  destruct (sem_create_cases Qs A s c H HN (SemJoin c) 0 Hj) as [[s' Hrun] | (A1 & s1 & Hrun & H1 & Hv & Ht1 & Hd1 & Hn1 & Hl1 & Hw1)];
    [by intros j [= <-] | done | by rewrite (bind_Halted _ _ _ _ Hrun) |].
  erewrite bind_Done by exact Hrun. rewrite <- Ht1 in Ht. erewrite bind_Done by (by apply mod_task_Some).
  assert (rest c s1) as Hr1 by (unfold rest; by rewrite Ht1).
  destruct (sys_ok_join_block _ A1 (set_dint true s1) c t tkt (sys_ok_dint _ _ _ _ true H1) Hr1 Hci) as
    (new & A' & s' & Hblk & Hnc & H' & Hr' & Hdom & Hd' & Hn' & Hu'); [set_solver | done | done | done | | cbn; congruence |].
  { intros t'. eapply not_joined; [apply sys_ok_dint, H1 | by right]. }
  set (s2 := set_tasks _ s1). assert (dint s2 = true) as Hd2 by (cbn; congruence).
  destruct (sem_down_blocks A1 s2 c (SemJoin c) fuel 0 (set_task_current (Some new) s')) as (k & Hdown & Hk); try (cbn; congruence).
  { apply (qo_repr _ _ (ko_queues _ _ (sy_kernel _ _ _ _ H1))). }
  { apply H1. }
  { apply (sy_mtx _ _ _ _ H1). rewrite Ht1. eauto. }
  { exact Hblk. }
  erewrite bind_Switch by exact Hdown. cbn. split_and!; [done | exists new; split; [done |] | cbn in Hn'; congruence | |].
  - cbn in Hdom. rewrite Ht1 in Hdom. split; [exists A'; split; [done |]; cbn; by rewrite (size_same s s') |]. intros _. by apply (urgent_same s').
  - cbn in Hdom. unfold rest in Hr'. cbn in Hr'. rewrite Ht1 in Hdom, Hr'. apply (others_same _ _ s'); [done |]. eapply others_trans; [apply others_refl | done | done].
  - intros Qs2 s3 Hok3 Hd3 Hn3 (_ & Hj3 & _).
    destruct (resume_task_ok Qs2 s3 c Hok3) as (s4 & tk & _ & Hres & Ht4 & Hok4 & Hd4 & Hn4 & Hr4 & Ho4).
    exists (without_queue (joinq c) Qs2). split; [split; [intros q Hq; set_solver | done] |].
    erewrite bind_Done by (by apply (Hk s3 s4 tk)). rewrite Hd2.
    apply (safe_since _ _ _ _ (set_dint true s4)); [by apply (others_same _ _ s4) |].
    apply (join_resumed_safe Qs2 (set_dint true s4)); try done; [| cbn; congruence | apply Hj3; set_solver].
    destruct Hok4 as [(A4 & H4 & HN4) Hu4]. split; [exists A4; split; [by apply sys_ok_dint | done] |].
    intros Hpr. apply (urgent_same s4); auto.
Qed.

(** [os_task_join] of a task that exists. *)
Lemma join_safe Qs s c t fuel : task_ok N pr Qs c s → rest c s → joinq c ∉ Qs → isr_nesting s = 0 →
  is_Some (tasks s !! t) → ¬ in_birth Qs t → (N < fuel)%nat →
  ∃ Qs', same_queues c Qs Qs' ∧ safe N pr Qs' (dint s) c s (os_task_join fuel t s).
Proof.
  intros [(A & H & HN) Hu] Hr Hj Hn [tk Ht] Hnb Hf. pose proof (sy_current _ _ _ _ H) as Hc.
  destruct (taskstate_val (state tk) <? taskstate_val TASKSTATE_DESTROYED) eqn:E; [exists (with_queue (joinq c) Qs) | exists Qs];
    (split; [split; [intros q ?; set_solver | done] |]); unfold os_task_join; rewrite not_isr_ok by done;
    (guard Hi); (guard Hw); (erewrite bind_Done by done); (erewrite (bind_Done (get_task t)) by (by apply get_task_Some));
    (guard); (guard); rewrite E; cbn [when].
  - change (safe N pr (with_queue (joinq c) Qs) (dint s) c s (res_bind (join_wait fuel t (set_dint true s)) (λ _, join_finish t (dint s)))).
    apply (safe_bind (λ s, is_Some (tasks s !! t)) _ true); [auto | eauto | intros; by apply join_finish_safe |].
    apply (safe_since _ _ _ _ (set_dint true s)); [by apply (others_same _ _ s); [| apply others_refl] |].
    eapply (join_wait_safe Qs A (set_dint true s)); try done; [by apply sys_ok_dint | congruence].
  - erewrite bind_Done by done. change (safe N pr Qs (dint s) c s (join_finish t (dint s) (set_dint true s))).
    apply (safe_since _ _ _ _ (set_dint true s)); [by apply (others_same _ _ s); [| apply others_refl] |].
    apply join_finish_safe; try done. split; [exists A; split; [by apply sys_ok_dint | done] |].
    intros Hpr. apply (urgent_same s); auto.
Qed.

End facts.

(** ** The calls of the machine *)

Section machine.
Context {AP : ArchPort} {APOK : ArchPortOk AP} {NT : AppTimers} (N : nat) (pr : bool).
Context (user_clbck : nat → timer_param_t → K unit) (arch_task_init : tid → Z → Z → Z → Z → K unit) (fuel : nat).
Context (Huc : ∀ n pa s, user_clbck n pa s = Done tt s) (Hati : stack_writer arch_task_init).
Context (Hfuel : (2 * (N + app_timers) < fuel)%nat).
Implicit Types (A : gmap laddr (list laddr)) (s : kstate) (t c : tid) (Qs : objs).
#[local] Notation run_api := (run_api user_clbck arch_task_init fuel).
#[local] Notation api_start := (api_start user_clbck arch_task_init fuel).
#[local] Notation point_resume := (point_resume fuel).

(** The task that is about to ask the scheduler, and what must hold of the objects
    of task [c] at a [point]. *)
Definition exempt (p : option point) (c : tid) : option tid :=
  match p with Some At_schedule | Some At_start => Some c | _ => None end.
Definition at_ok (Qf : objs) (lock : Z) (c : tid) (p : option point) : Prop :=
  match p with
  | Some (At_timer_create y) => setups Qf !! y = Some c
  | Some (At_task_create t) => births Qf !! t = Some c
  | Some (At_prepare w) => Q_wq w ∈ Qf ∧ lock ≠ 0
  | _ => True
  end.

(** Task [c] has the CPU in its own code or at the point [p] of a call. *)
Definition user_ok (Qf : objs) (c : tid) (s : kstate) (p : option point) : Prop :=
  nearly_ok N pr (exempt p c) Qf c s ∧ isr_nesting s = 0 ∧ rest c s ∧ joinq c ∉ Qf ∧ at_ok Qf (sched_lock s) c p.

(** A call returns or stops at a [point] without having asked the scheduler; it may
    have created the tasks [Nw]. *)
Definition pauses (Qf : objs) (Nw : tid → Prop) (c : tid) (s : kstate) (r : res Z) (next : Z → option point) : Prop :=
  (∃ s', r = Halted s') ∨ ∃ v s', r = Done v s' ∧ user_ok Qf c s' (next v) ∧ dint s' = dint s ∧
    (∀ t, rest t s → rest t s') ∧ ∀ t, is_Some (tasks s' !! t) ↔ is_Some (tasks s !! t) ∨ Nw t.

(** The objects of a task [t] that does not run. *)
Definition kept_for (t : tid) (Qf Qf' : objs) : Prop :=
  (joinq t ∈ Qf ↔ joinq t ∈ Qf') ∧ (∀ y, setups Qf !! y = Some t → setups Qf' !! y = Some t) ∧
  (∀ x, births Qf !! x = Some t → births Qf' !! x = Some t).

Definition creates (a : api) (t : tid) : Prop :=
  match a with Api_task_create t' _ _ _ _ _ => t = t' | _ => False end.

Lemma kept_for_refl t Qf : kept_for t Qf Qf.
Proof. by split. Qed.

Lemma kept_for_same c t Qf Qf' : same_queues c Qf Qf' → t ≠ c → kept_for t Qf Qf'.
Proof. intros (Hq & Hs & Hb) Htc. split; [apply Hq; by intros [= ?] | by rewrite Hs, Hb]. Qed.

Lemma app_queues_same Qs Qf Qf' c : app_queues Qs Qf → same_queues c Qf Qf' → app_queues Qs Qf'.
Proof.
  intros (Ha & Hs1 & Hb1) (Hs & Hs2 & Hb2). split; [| by split; congruence]. intros q. split.
  - intros [? Hj]%Ha. split; [by apply (Hs q (Hj c)) | done].
  - intros [? Hj]. apply Ha. split; [by apply (Hs q (Hj c)) | done].
Qed.

Lemma app_queues_after a s Qs Qf : legal N Qs s a → app_queues Qs Qf → app_queues (queues_after a Qs) (queues_after a Qf).
Proof.
  intros Hl (Ha & Hs & Hb). destruct a; cbn in *; try done; (split; [| done]); intros q; pose proof (Ha q) as Hq;
    rewrite ?elem_of_with_queue, ?elem_of_without_queue, Hq.
  - destruct Hl as ([n ->] & _). split; [intros [-> | [? ?]]; split; [by left | done | by right | done] | intros [[-> | ?] ?]; [by left | by right]].
  - tauto.
  - split; [intros [-> | [? ?]]; split; [by left | done | by right | done] | intros [[-> | ?] ?]; [by left | by right]].
  - tauto.
Qed.

Lemma app_setup Qs Qf y : app_queues Qs Qf → in_setup Qs y ↔ in_setup Qf y.
Proof. intros (_ & Hs & _). unfold in_setup. by rewrite Hs. Qed.

Lemma app_birth Qs Qf t : app_queues Qs Qf → in_birth Qs t ↔ in_birth Qf t.
Proof. intros (_ & _ & Hb). unfold in_birth. by rewrite Hb. Qed.

Lemma legal_spare Qs Qf A s c t prio stack sz proc param : sys_ok Qf A s c →
  legal N Qs s (Api_task_create t prio stack sz proc param) → spare s c t ∧ births Qf !! t = None.
Proof.
  intros H Hl. split.
  - intros tk Ht. cbn in Hl. rewrite Ht in Hl. destruct Hl as [Htc Hst]. rewrite (sy_current _ _ _ _ H) in Htc.
    assert (t ≠ c) as Hne by congruence. split; [done |].
    pose proof (sy_placed _ _ _ _ H t tk Ht Hne) as Hp. unfold placed in Hp. destruct (task_queue tk) as [[] |]; [congruence | destruct Hp; congruence.. | done].
  - destruct (births Qf !! t) as [o |] eqn:E; [| done]. destruct (sy_birth _ _ _ _ H t) as (_ & tk & Ht & _ & Hr & _); [by exists o |].
    cbn in Hl. rewrite Ht in Hl. destruct Hl. congruence.
Qed.

(** The first step of [os_task_create] halts or creates the task. *)
Lemma create_init_cases Qf A s c t prio stack sz proc param o : sys_ok Qf A s c → spare s c t → isr_nesting s = 0 →
  (∃ s', os_task_create_init arch_task_init t prio stack sz proc param s = Halted s') ∨
  ∃ A' s', os_task_create_init arch_task_init t prio stack sz proc param s = Done tt s' ∧
    sys_ok (with_birth t o Qf) A' s' c ∧ tasks s' = <[t := created_task prio stack sz]> (tasks s) ∧ same_objects s s'.
Proof using Hati APOK.
  intros H Hsp Hn.
  destruct (decide (0 < prio < OS_CONFIG_PRIOCNT ∧ stack ≠ 0 ∧ OS_STACK_MINSIZE ≤ sz ∧ waitqueue_current s = None)) as [(? & ? & ? & ?) | Hbad].
  - by apply (sys_ok_birth Qf A s c t o).
  - left. unfold os_task_create_init. rewrite not_isr_ok by done.
    destruct (decide (waitqueue_current s = None)); [rewrite not_prepared_ok by done | eexists; by apply not_prepared_bad].
    destruct (Z.ltb_spec prio OS_CONFIG_PRIOCNT); [rewrite OS_ASSERT_true by done | eexists; by rewrite OS_ASSERT_false].
    destruct (Z.gtb_spec prio 0); [rewrite OS_ASSERT_true by done | eexists; by rewrite OS_ASSERT_false].
    destruct (Z.eqb_spec stack 0); [eexists; by rewrite OS_ASSERT_false | rewrite OS_ASSERT_true by done].
    destruct (Z.geb_spec sz OS_STACK_MINSIZE); [by destruct Hbad | eexists; by rewrite OS_ASSERT_false].
Qed.

(** *** A legal call of a task *)

Section start.
Context (Qf : objs) A s c (H : sys_ok Qf A s c) (HN : (size (tasks s) ≤ N)%nat).
Context (Hn : isr_nesting s = 0) (Hr : rest c s) (Hj : joinq c ∉ Qf).

Lemma returns_pause Qf' (m : K unit) (next : Z → option point) p : returns s c Qf' (m s) → joinq c ∉ Qf' → (pr = true → urgent c s) →
  (∀ v, next v = p) → at_ok Qf' (sched_lock s) c p → pauses Qf' (λ _, False) c s (ret0 m s) next.
Proof using All.
  intros [[s' E] | (A' & s' & E & H' & Ht & Hd & Hn' & Hl)] Hj' Hu Hnext Hp; [left; exists s'; by apply bind_Halted | right].
  exists 0, s'. split_and!; [unfold ret0; by erewrite bind_Done by exact E | | done | unfold rest; by rewrite Ht | rewrite Ht; tauto].
  rewrite Hnext. split_and!; [| congruence | unfold rest; by rewrite Ht | done | by rewrite Hl].
  split; [exists A'; by rewrite Ht |]. intros Hpr. right. apply (urgent_same s); [auto | congruence | done].
Qed.

Lemma unlock_pause sync : (pr = true → sync = false) →
  pauses Qf (λ _, False) c s (os_scheduler_unlock_dec s) (λ v, if unlock_schedules sync v then Some At_schedule else None).
Proof using All.
  intros Hsync. destruct (decide (waitqueue_current s = None)) as [Hw | Hw].
  2:{ left. eexists. unfold os_scheduler_unlock_dec. rewrite not_isr_ok by done. by apply not_prepared_bad. }
  destruct (os_atomic_dec_load (sched_lock s)) as [v |] eqn:Ev.
  2:{ left. eexists. unfold os_scheduler_unlock_dec. rewrite not_isr_ok, not_prepared_ok by done.
      unfold sched_lock_dec_load, mbind, K_bind, gets. cbn. by rewrite Ev. }
  right. exists v, (set_sched_lock v s). split_and!; [by apply unlock_dec_run | | done | done | tauto].
  split_and!; [| done | done | done | by destruct (unlock_schedules sync v)].
  split; [exists A; split; [by apply sys_ok_lock | done] |]. intros Hpr. unfold unlock_schedules.
  rewrite (Hsync Hpr). cbn [negb andb]. destruct (Z.eqb_spec 0 v) as [| Hv]; [by left | right]. intros Hl. cbn in Hl. congruence.
Qed.

Lemma prepare_pause w : Q_wq w ∈ Qf → 0 ≤ sched_lock s < ARCH_ATOMIC_MAX → (pr = true → urgent c s) →
  pauses Qf (λ _, False) c s (ret0 os_waitqueue_prepare_lock s) (λ _, Some (At_prepare w)).
Proof using All.
  intros Hw Hl Hu. pose proof (sy_current _ _ _ _ H) as Hc. destruct (sy_free _ _ _ _ H) as (tk & Ht & _).
  assert (A !! L_mtx_list c = Some []) as Hm by (apply (sy_mtx _ _ _ _ H); eauto).
  destruct (decide (c = task_idle)) as [-> | Hi].
  { left. eexists. apply bind_Halted. unfold os_waitqueue_prepare_lock. rewrite not_isr_ok by done. by apply not_idle_bad. }
  pose proof (qo_repr _ _ (ko_queues _ _ (sy_kernel _ _ _ _ H))) as HR.
  destruct (decide (waitqueue_current s = None)) as [Hwq | Hwq].
  2:{ left. eexists. apply bind_Halted. unfold os_waitqueue_prepare_lock. rewrite not_isr_ok, not_idle_ok by congruence.
      rewrite (no_mtx_ok A s c) by done. by apply not_prepared_bad. }
  right. eexists 0, _. split_and!; [unfold ret0; by erewrite bind_Done by (by apply (prepare_lock_run A s c)) | | done.. | tauto].
  split_and!; [| done | done | done | split; [done | cbn; lia]]. split; [exists A; split; [by apply sys_ok_lock | done] |].
  intros Hpr. right. intros Hl0. cbn in Hl0. lia.
Qed.

Lemma birth_pause t prio stack sz proc param : spare s c t → births Qf !! t = None → (tasks s !! t = None → (size (tasks s) < N)%nat) →
  (pr = true → urgent c s) →
  pauses (with_birth t c Qf) (λ t', t' = t) c s (ret0 (os_task_create_init arch_task_init t prio stack sz proc param) s)
    (λ _, Some (At_task_create t)).
Proof using All.
  intros Hsp Hnb Hlt Hu.
  destruct (create_init_cases Qf A s c t prio stack sz proc param c H Hsp Hn) as [[s' E] | (A' & s' & E & H' & Ht & Ho)];
    [left; exists s'; by apply bind_Halted |].
  right. destruct Ho as (_ & _ & _ & Hn' & Hl' & _ & Hd' & _).
  assert (∀ t', rest t' s → rest t' s') as Hrest.
  { intros t' Hrt tk. rewrite Ht, lookup_insert. case_decide; [by intros [= <-] | apply Hrt]. }
  exists 0, s'. split_and!; [unfold ret0; by erewrite bind_Done by exact E | | done | done |].
  - split_and!; [| congruence | auto | done | cbn; apply lookup_insert_eq]. split.
    + exists A'. split; [done |]. rewrite Ht, map_size_insert. destruct (tasks s !! t); [cbn; lia |]. specialize (Hlt eq_refl). lia.
    + intros Hpr. right. intros Hl t' tk tkc. rewrite Ht, !lookup_insert. repeat case_decide; try (intros ?? Hq; by simplify_eq).
      * intros [= <-] Htk Hq. subst. destruct (sy_free _ _ _ _ H) as (tk0 & Ht0 & _). by destruct (Hsp tk0 Ht0).
      * apply (Hu Hpr). congruence.
  - intros t'. rewrite Ht, lookup_insert_is_Some'. split; [intros [-> |]; auto | intros [|]; auto].
Qed.
End start.

(** Calls without a [point]. *)
Definition plain (a : api) : Prop :=
  match a with
  | Api_timer_create _ _ _ _ _ | Api_task_create _ _ _ _ _ _ | Api_scheduler_unlock _ | Api_waitqueue_prepare _
  | Api_waitqueue_break | Api_task_join _ => False
  | _ => True
  end.

Lemma plain_safe Qs Qf a s c : app_queues Qs Qf → legal N Qs s a → plain a → prompt pr s a →
  task_ok N pr Qf c s → isr_nesting s = 0 → rest c s → joinq c ∉ Qf →
  joinq c ∉ queues_after a Qf ∧ safe N pr (queues_after a Qf) (dint s) c s (run_api a s).
Proof using All.
  intros Happ Hl Hpl Hpr [(A & H & HN) Hu] Hn Hr Hj. pose proof (proj1 Happ) as Ha.
  assert (joinq c ∉ queues_after a Qf) as Hja.
  { destruct a; cbn in *; try done; [destruct Hl as ([n ->] & _) | ..]; set_solver. }
  split; [done |].
  assert (∀ q, q ∈ Qs → q ∈ Qf) as Hin by (intros q [? _]%Ha; done).
  assert (∀ q j, q ∈ Qs → q ≠ joinq j) as Hjn by (intros q j [_ Hq]%Ha; apply Hq).
  assert (∀ q j, q ∈ Qs → q = joinq j → j = c) as Hjc by (intros q j Hq Heq; by destruct (Hjn q j Hq)).
  assert (∀ Qs' r, joinq c ∉ Qs' → to_tail N pr Qs' c s r → safe N pr Qs' (dint s) c s r) as Htail by (intros; by apply tail_safe).
  destruct a; cbn [System.run_api queues_after]; cbn in Hl, Hja, Hpl; try done; try apply safe_ret0.
  - apply (scheduler_lock_safe N pr Qf A s c H HN Hn Hr Hj Hu fuel); [lia | done].
  - apply Htail; [done |]. by eapply yield_tail.
  - by eapply exit_safe.
  - destruct Hl as ([n ->] & Hq & Hv). apply Htail; [done |]. apply returns_tail; [done |]. eapply sem_create_returns; [done.. | | done | done].
    intros Hf. apply Hq, Ha. by split.
  - apply Htail; [done |]. eapply sem_destroy_tail; [done.. | by apply Hin | by intros j; apply Hjc | lia].
  - eapply sem_down_safe; [done..| lia | by apply Hin | by intros j; apply Hjn].
  - apply Htail; [done |]. eapply sem_up_tail; [done.. | by apply Hin | by intros j; apply Hjc |]. auto.
  - apply Htail; [done |]. apply returns_tail; [done |]. eapply waitqueue_create_returns; [done.. |]. intros Hf. apply Hl, Ha. by split.
  - apply Htail; [done |]. eapply waitqueue_destroy_tail; [done.. | by apply Hin | lia].
  - eapply wait_safe; try done; lia.
  - destruct Hl. apply Htail; [done |]. eapply wakeup_tail; [done.. | by apply Hin | done | auto | lia].
  - destruct Hl as [[n ->] Hns]. apply Htail; [done |]. apply returns_tail; [done |]. eapply timer_destroy_returns; [done |].
    by rewrite <- (app_setup _ _ _ Happ).
  - apply Htail; [done |]. eapply tick_tail; [done..| lia].
Qed.

(** A call up to its [point], or to its end. *)
Lemma start_ok Qs Qf a s c : app_queues Qs Qf → legal N Qs s a → prompt pr s a →
  task_ok N pr Qf c s → isr_nesting s = 0 → rest c s → joinq c ∉ Qf →
  ∃ Qf', app_queues (begun a c Qs) Qf' ∧ (∀ t, t ≠ c → kept_for t Qf Qf') ∧
    (pauses Qf' (creates a) c s ((api_start a).1 s) (api_start a).2 ∨
     (∀ t, ¬ creates a t) ∧ (∀ v, (api_start a).2 v = None) ∧ safe N pr Qf' (dint s) c s ((api_start a).1 s)).
Proof using All.
  intros Ha Hl Hpr Hs Hn Hr Hj.
  assert (plain a ∨ ¬ plain a) as [Hp | Hp] by (destruct a; cbn; tauto).
  { destruct (plain_safe Qs Qf a s c) as [Hja Hsafe]; try done. exists (queues_after a Qf). split_and!.
    - replace (begun a c Qs) with (queues_after a Qs) by (by destruct a). by eapply app_queues_after.
    - intros t Htc. split; [| by destruct a]. pose proof (proj1 Ha) as Ha'.
      destruct a; cbn in Hl |- *; try done; [destruct Hl as ([n ->] & _); set_solver | | set_solver..].
      rewrite elem_of_without_queue. apply Ha' in Hl as [_ Hjn].
      split; [intros ?; split; [done |] | by intros []]. intros Heq. by apply (Hjn t).
    - right. clear -Hp Hsafe. split_and!; [intros t; destruct a; cbn in *; tauto | intros v; by destruct a | by destruct a]. }
  pose proof Hs as [(A & H & HN) Hu].
  destruct a; cbn in Hp; try tauto; clear Hp; cbn [System.api_start fst snd begun queues_after] in *.
  - exists Qf. split_and!; [done | intros; apply kept_for_refl |]. left. eapply unlock_pause; eauto.
  - destruct (legal_spare _ _ _ _ _ _ _ _ _ _ _ H Hl) as [Hsp Hnb]. cbn in Hl. exists (with_birth t c Qf). split_and!.
    + destruct Ha as (? & ? & Hb). split_and!; [done.. |]. cbn. by rewrite Hb.
    + intros t' Ht'. split_and!; [done.. |]. intros x Hx. cbn. rewrite lookup_insert_ne; [done |]. by intros <-; rewrite Hx in Hnb.
    + left. eapply birth_pause; [done.. | intros E; by rewrite E in Hl | done].
  - destruct Hl as [Ht Hnb]. rewrite (app_birth _ _ _ Ha) in Hnb.
    destruct (join_safe N pr Qf s c t fuel Hs Hr Hj Hn Ht Hnb) as (Qf' & Hq & Hsafe); [lia |]. exists Qf'. split_and!.
    + by eapply app_queues_same.
    + intros t' Htc. by eapply kept_for_same.
    + right. by split_and!; [intros t' [] | |].
  - destruct Hl as [[Hw _]%(proj1 Ha) Hlk]. exists Qf. split_and!; [done | intros; apply kept_for_refl |]. left. by eapply prepare_pause.
  - exists Qf. split_and!; [done | intros; apply kept_for_refl |]. left. eapply returns_pause; [done.. | | done | done | done | done].
    unfold os_waitqueue_break_clear. rewrite not_isr_ok by done. right. exists A, (set_waitqueue_current None s).
    split_and!; [done | | done..]. by apply sys_ok_prepared.
  - destruct Hl as [Hlt Hns]. rewrite (app_setup _ _ _ Ha) in Hns. exists (with_setup x c Qf). split_and!.
    + destruct Ha as (? & Hb & ?). split_and!; [done | | done]. cbn. by rewrite Hb.
    + intros t' Ht'. split_and!; [done | | done]. intros y Hy. cbn. rewrite lookup_insert_ne; [done |]. intros <-. destruct Hns. by exists t'.
    + left. eapply returns_pause; [done.. | by eapply timer_init_returns | done | done | done | cbn; apply lookup_insert_eq].
Qed.

(** From a [point] on. *)
Lemma go_ok Qs Qf p s c : app_queues Qs Qf → user_ok Qf c s (Some p) →
  ∃ Qf', app_queues (resumed p Qs) Qf' ∧ (∀ t, t ≠ c → kept_for t Qf Qf') ∧
    (pauses Qf' (λ _, False) c s ((point_resume p).1 s) (point_resume p).2 ∨
     (∀ v, (point_resume p).2 v = None) ∧ safe N pr Qf' (dint s) c s ((point_resume p).1 s)).
Proof using All.
  intros Ha ([(A & H & HN) Hu] & Hn & Hr & Hj & Hat).
  assert (∀ Qf' r, joinq c ∉ Qf' → to_tail N pr Qf' c s r → exempt (Some p) c = None → safe N pr Qf' (dint s) c s r) as Htail.
  { intros Qf' r Hj' Ht He. apply tail_safe; try done. intros Hpr. rewrite He in Hu. by destruct (Hu Hpr). }
  assert (∀ hp, 0 ≤ hp ≤ 1 → safe N pr Qf (dint s) c s (ret0 (schedule_critical hp) s)) as Hsch.
  { intros hp Hhp. apply safe_ret0. unfold schedule_critical. erewrite bind_Done by done. cbn beta.
    apply safe_schedule; try done; exists A; (split; [by apply sys_ok_dint | done]). }
  destruct p; cbn [System.point_resume resumed fst snd]; cbn in Hat.
  - exists (without_setup x Qf). split_and!.
    + destruct Ha as (? & Hb & ?). split_and!; [done | | done]. cbn. by rewrite Hb.
    + intros t Htc. split_and!; [done | | done]. intros y Hy. cbn. rewrite lookup_delete_ne; [done |]. by intros <-; simplify_eq.
    + right. split; [done |]. apply safe_ret0, Htail; [done | | done]. apply returns_tail; [done |].
      eapply timer_add_returns; [done.. | by exists c | lia].
  - exists (without_birth t Qf). split_and!.
    + destruct Ha as (? & ? & Hb). split_and!; [done.. |]. cbn. by rewrite Hb.
    + intros t' Htc. split_and!; [done.. |]. intros x Hx. cbn. rewrite lookup_delete_ne; [done |]. by intros <-; simplify_eq.
    + right. split; [done |]. apply safe_ret0, Htail; [done | | done]. eapply task_enqueue_tail; [done.. |]. by exists c.
  - exists Qf. split_and!; [done | intros; apply kept_for_refl |]. right. split; [done |]. by apply Hsch.
  - exists Qf. split_and!; [done | intros; apply kept_for_refl |]. right. split; [done |]. by apply Hsch.
  - destruct Hat as [Hw Hlk]. exists Qf. split_and!; [done | intros; apply kept_for_refl |]. right. split; [done |].
    apply safe_ret0, Htail; [done | | done]. apply returns_tail; [done |]. right. exists A, (set_waitqueue_current (Some w) s).
    split_and!; [done | | done..]. apply sys_ok_prepared; [done |]. by intros w' [= <-].
  - exists Qf. split_and!; [done | intros; apply kept_for_refl |]. left. by eapply unlock_pause.
Qed.

(** *** Legal code of an interrupt *)

Section interrupts.
Context (ex : option tid).
#[local] Notation isr_ok := (isr_ok N pr ex).

Lemma isr_ret0 Qf c s (m : K unit) : isr_ok Qf c s (m s) → isr_ok Qf c s ((ret0 m;; mret tt) s).
Proof.
  intros [[s' E] | (s' & c' & E & Hs')]; [left; exists s' | right; exists s', c'; split; [| done]].
  - by do 2 apply bind_Halted.
  - rewrite (bind_Done _ _ s 0 s') by (unfold ret0; by erewrite (bind_Done m) by exact E). done.
Qed.

Lemma isr_ok_bind Qf1 Qf2 c s (m m' : K unit) : isr_ok Qf1 c s (m s) →
  (∀ s' c', nearly_ok N pr ex Qf1 c' s' → isr_nesting s' = isr_nesting s → isr_ok Qf2 c' s' (m' s')) → isr_ok Qf2 c s ((m;; m') s).
Proof.
  intros [[s' E] | (s' & c' & E & Hs' & Hn & Hl & Hc & Hr & Hd)] Hm'; [left; exists s'; by apply bind_Halted |].
  rewrite (bind_Done _ _ _ _ _ E). destruct (Hm' s' c' Hs' Hn) as [? | (s2 & c2 & ? & ? & ? & Hl2 & Hc2 & Hr2 & Hd2)]; [by left | right].
  exists s2, c2. split_and!; [done | done | congruence | congruence | |].
  - intros Hlk. rewrite <- Hl in Hlk. rewrite (Hc2 Hlk). apply Hc. congruence.
  - split; [auto |]. intros t. etransitivity; [apply Hd | apply Hd2].
Qed.

Lemma isr_ret0_bind Qf1 Qf2 c s (m : K unit) (f : Z → K unit) : isr_ok Qf1 c s (m s) →
  (∀ s' c', nearly_ok N pr ex Qf1 c' s' → isr_nesting s' = isr_nesting s → isr_ok Qf2 c' s' (f 0 s')) →
  isr_ok Qf2 c s ((v ← ret0 m; f v) s).
Proof.
  intros Hm Hf. assert ((v ← ret0 m; f v) s = (m;; f 0) s) as ->; [| by eapply isr_ok_bind].
  unfold ret0, mbind, K_bind. by destruct Hm as [[s' ->] | (s' & c' & -> & _)].
Qed.

(** A step that changes the interrupt state or the nesting level only. *)
Lemma nearly_same Qf c s n b : nearly_ok N pr ex Qf c s → nearly_ok N pr ex Qf c (set_isr_nesting n (set_dint b s)).
Proof.
  intros [(A & H & HN) Hu]. split; [exists A; split; [by apply sys_ok_nesting, sys_ok_dint | done] |].
  intros Hpr. destruct (Hu Hpr); [by left | right]. apply (urgent_same s); auto.
Qed.

Lemma isr_done Qf s c b : nearly_ok N pr ex Qf c s → isr_ok Qf c s (Done tt (set_dint b s)).
Proof.
  intros Hs. right. exists (set_dint b s), c. split_and!; [done | | done.. | by apply kept_same].
  replace (set_dint b s) with (set_isr_nesting (isr_nesting s) (set_dint b s)) by (by destruct s). by apply nearly_same.
Qed.

Lemma isr_noop Qf s c : nearly_ok N pr ex Qf c s → isr_ok Qf c s (Done tt s).
Proof. intros Hs. right. exists s, c. by split_and!; [| | | | | apply kept_same]. Qed.

(** [arch_contextstore_i], code that is [isr_ok], [arch_contextrestore_i]. *)
Lemma isr_frame Qf c s (m : K unit) : nearly_ok N pr ex Qf c s → 0 ≤ isr_nesting s < 255 →
  isr_ok Qf c (set_isr_nesting (isr_nesting s + 1) (set_dint true s)) (m (set_isr_nesting (isr_nesting s + 1) (set_dint true s))) →
  isr_ok Qf c s (take_interrupt m s).
Proof using All.
  intros Hs Hn Hm. pose proof atomic_wide. set (s1 := set_isr_nesting _ _) in *. unfold take_interrupt.
  erewrite bind_Done by done. rewrite (bind_Done _ _ _ tt s1).
  2:{ unfold arch_contextstore_i, modify. cbn. by rewrite atomic_wrap_id by lia. }
  destruct Hm as [[s' E] | (s' & c' & E & Hs' & Hn' & Hk)]; [left; exists s'; by apply bind_Halted | right].
  erewrite bind_Done by exact E. exists (set_isr_nesting (isr_nesting s) (set_dint true s')), c'.
  split_and!; [| by apply nearly_same | done | apply Hk..].
  unfold arch_contextrestore_i. erewrite bind_Done by done. unfold modify. cbn. rewrite Hn'. cbn.
  by rewrite Z.add_simpl_r, atomic_wrap_id by lia.
Qed.

Lemma nested_ok Qf c s (m : K unit) : nearly_ok N pr ex Qf c s → 1 ≤ isr_nesting s < 255 →
  (∀ s', nearly_ok N pr ex Qf c s' → isr_nesting s' = isr_nesting s + 1 → isr_ok Qf c s' (m s')) →
  isr_ok Qf c s (nested_interrupt m s).
Proof using All.
  intros Hs Hn Hm. unfold nested_interrupt. erewrite bind_Done by done. destruct (dint s); [by apply isr_noop |].
  apply (isr_ok_bind Qf Qf c s (take_interrupt m) arch_eint).
  - apply isr_frame; [done | lia |]. apply Hm; [by apply nearly_same | done].
  - intros s' c' Hs' _. by apply isr_done.
Qed.

(** A call of an ISR that has no [point]. *)
Lemma isr_call_ok Qs Qf a s c : app_queues Qs Qf → legal_isr Qs a → plain a → (pr = true → isr_nesting s = 1) →
  nearly_ok N pr ex Qf c s → 1 ≤ isr_nesting s → isr_ok Qf c s ((run_api a;; mret tt) s).
Proof using All.
  intros Ha Hl Hpl Hpr [(A & H & HN) Hu] Hn. pose proof (proj1 Ha) as Hq.
  destruct a; cbn in Hl, Hpl; try done; cbn [System.run_api]; apply isr_ret0, (tail_isr N pr ex Qf c); try done.
  - apply Hq in Hl as [Hx Hj]. eapply sem_up_tail; [done.. | by intros j Heq%Hj |]. lia.
  - destruct Hl as [[Hw _]%Hq ?]. eapply wakeup_tail; [done.. | lia | lia].
  - destruct Hl as [[n ->] Hns]. apply returns_tail; [done |]. eapply timer_destroy_returns; [done |]. by rewrite <- (app_setup _ _ _ Ha).
  - eapply tick_tail; [done..| lia].
Qed.

(** The two steps of [os_timer_create]. *)
Lemma isr_timer_init Qs Qf y cb pa timeout reload s c : app_queues Qs Qf → legal_timer y cb reload → ¬ in_setup Qs y →
  nearly_ok N pr ex Qf c s → 1 ≤ isr_nesting s → (pr = true → isr_nesting s = 1) →
  isr_ok (with_setup y task_idle Qf) c s (os_timer_create_init y cb pa timeout reload s).
Proof using All.
  intros Ha Hl Hns [(A & H & HN) Hu] Hn Hpr. apply tail_isr; try done. apply returns_tail; [done |].
  eapply timer_init_returns; [done.. |]. by rewrite <- (app_setup _ _ _ Ha).
Qed.

Lemma isr_timer_add Qf y s c : ¬ in_setup Qf y → nearly_ok N pr ex (with_setup y task_idle Qf) c s → 1 ≤ isr_nesting s →
  (pr = true → isr_nesting s = 1) → isr_ok Qf c s (resume_all fuel (At_timer_create y) s).
Proof using All.
  intros Hns [(A & H & HN) Hu] Hn Hpr. apply (isr_ret0 Qf c s (os_timer_create_add fuel y)), tail_isr; try done.
  apply returns_tail; [done |].
  replace Qf with (without_setup y (with_setup y task_idle Qf)).
  2:{ destruct Qf as [Q S' B]. unfold without_setup, with_setup. cbn. f_equal. apply delete_insert_id.
      destruct (S' !! y) as [o |] eqn:E; [| done]. destruct Hns. by exists o. }
  eapply timer_add_returns; [done.. | | lia]. exists task_idle. apply lookup_insert_eq.
Qed.
(** The code of interrupts is a tree. *)
Section isr_code_ind.
Variables (P : isr_code → Prop) (Q : list isr_code → Prop).
Hypotheses (Hc : ∀ a l, Q l → P (Isr_call a l)) (He : P Isr_eint) (Hd : P Isr_dint) (Hn : ∀ l, Q l → P (Isr_nested l))
  (H0 : Q []) (H1 : ∀ x l, P x → Q l → Q (x :: l)).
Fixpoint isr_code_ind2 (x : isr_code) : P x :=
  let body := fix body (l : list isr_code) : Q l :=
    match l with [] => H0 | x :: l => H1 x l (isr_code_ind2 x) (body l) end in
  match x with
  | Isr_call a l => Hc a l (body l)
  | Isr_eint => He
  | Isr_dint => Hd
  | Isr_nested l => Hn l (body l)
  end.
End isr_code_ind.

#[local] Notation run_isr_code := (run_isr_code user_clbck arch_task_init fuel).
#[local] Notation isr_body := (isr_body user_clbck arch_task_init fuel).

Definition code_ok (x : isr_code) : Prop := ∀ Qs Qf s c, app_queues Qs Qf → nearly_ok N pr ex Qf c s → 1 ≤ isr_nesting s →
  legal_isr_code pr Qs (isr_nesting s) x → isr_ok Qf c s (run_isr_code x s).
Definition body_ok (l : list isr_code) : Prop := ∀ Qs Qf s c, app_queues Qs Qf → nearly_ok N pr ex Qf c s → 1 ≤ isr_nesting s →
  legal_isr_body pr Qs (isr_nesting s) l → isr_ok Qf c s (isr_body l s).

Lemma isr_call_served a served : body_ok served → code_ok (Isr_call a served).
Proof using All.
  intros IH Qs Qf s c Ha Hs Hn (Hl & Hpr & Hlt & Hserved).
  assert (plain a ∨ ¬ plain a) as [Hp | Hp] by (destruct a; cbn; tauto).
  { destruct a; cbn in Hl, Hp; try done; by eapply isr_call_ok. }
  destruct a; cbn in Hl, Hp; try done. destruct Hl as [Hl Hns]. clear Hp. cbn [System.run_isr_code System.api_start fst snd].
  assert (isr_ok (with_setup x task_idle Qf) c s (os_timer_create_init x cb pa timeout reload s)) as Hinit by (by eapply isr_timer_init).
  eapply isr_ret0_bind; [exact Hinit |].
  intros s1 c1 Hs1 Hn1.
  apply (isr_ok_bind (with_setup x task_idle Qf) Qf c1 s1 (nested_interrupt (isr_body served)) (resume_all fuel (At_timer_create x))).
  - apply nested_ok; [done | lia |]. intros s2 Hs2 Hn2. eapply IH; [| done | lia | by rewrite Hn2, Hn1].
    destruct Ha as (? & Hb & ?). split_and!; [done | | done]. cbn. by rewrite Hb.
  - intros s2 c2 Hs2 Hn2. apply isr_timer_add; [by rewrite <- (app_setup _ _ _ Ha) | done | lia | by rewrite Hn2, Hn1].
Qed.

Lemma isr_code_ok x : code_ok x.
Proof using All.
  induction x as [a l IH | | | l IH | | x l IHx IHl] using isr_code_ind2 with (Q := body_ok).
  - by apply isr_call_served.
  - intros Qs Qf s c Ha Hs Hn Hl. by eapply isr_done.
  - intros Qs Qf s c Ha Hs Hn Hl. by eapply isr_done.
  - intros Qs Qf s c Ha Hs Hn [Hlt Hl]. apply (nested_ok Qf c s (isr_body l)); [done | lia |].
    intros s' Hs' Hn'. eapply IH; [done | done | lia | by rewrite Hn'].
  - intros Qs Qf s c Ha Hs Hn Hl. by eapply isr_noop.
  - intros Qs Qf s c Ha Hs Hn [Hx Hl]. apply (isr_ok_bind Qf Qf c s (run_isr_code x) (isr_body l)); [by eapply IHx |].
    intros s' c' Hs' Hn'. eapply IHl; [done | done | by rewrite Hn' | by rewrite Hn'].
Qed.

Lemma isr_body_ok l : body_ok l.
Proof using All.
  induction l as [| x l IH]; intros Qs Qf s c Ha Hs Hn Hl.
  - by eapply isr_noop.
  - destruct Hl as [Hx Hl]. apply (isr_ok_bind Qf Qf c s (run_isr_code x) (isr_body l)); [by eapply isr_code_ok |].
    intros s' c' Hs' Hn'. eapply IH; [done | done | by rewrite Hn' | by rewrite Hn'].
Qed.

(** A whole interrupt taken outside the kernel. *)
Lemma isr_spec Qs Qf l s c : app_queues Qs Qf → legal_isr_body pr Qs 1 l → nearly_ok N pr ex Qf c s → isr_nesting s = 0 →
  isr_ok Qf c s (isr user_clbck arch_task_init fuel l s).
Proof using All.
  intros Ha Hl Hs Hn. apply isr_frame; [done | lia |].
  eapply isr_body_ok; [done | by apply nearly_same | cbn; lia | by cbn; rewrite Hn].
Qed.
End interrupts.
End machine.
