(* ===== verification/Machine.v ===== *)
(** * Every reachable state of the machine

    The machine of System.v driven by a legal application (Safety.v), from
    start-up on. [good] is the invariant of the machine: the running task and
    the kernel satisfy [sys_ok], and every other task is parked with a context it
    can safely be resumed from. The objects of the application, with the timers
    and tasks that are being created, are recorded next to the machine; those
    that exist also have the semaphores of joining tasks. The invariant holds
    after [os_init] and the creation of the first tasks, and every call, context
    switch and interrupt preserves it. *)

From stdpp Require Import base decidable list countable gmap sets relations.
From Stdlib Require Import ZArith Lia.
From S2P Require Import Prelude Arch LinkedList Kernel TaskQueue Timer Sched Invariant QueueLife Decide Sem Tasks WaitQueue System SysOk Safety.

Local Open Scope Z_scope.

Section machine.
Context {AP : ArchPort} {NT : AppTimers} (N : nat) (pr : bool).
Context (user_clbck : nat → timer_param_t → K unit) (arch_task_init : tid → Z → Z → Z → Z → K unit) (fuel : nat).
#[local] Notation isr := (isr user_clbck arch_task_init fuel).
#[local] Notation isr_step := (isr_step user_clbck arch_task_init fuel).
#[local] Notation call_step := (call_step user_clbck arch_task_init fuel).
#[local] Notation resume_step := (resume_step fuel).
#[local] Notation run_calls := (run_calls user_clbck arch_task_init fuel).
#[local] Notation power_on := (power_on user_clbck arch_task_init fuel).

(** ** The legal application *)

(** One step of the machine under a legal application; the objects that exist are
    recorded next to the machine. *)
Inductive client : objs * machine → objs * machine → Prop :=
| client_call Qs a s v sus c : legal N Qs s a → prompt pr s a → task_current s = Some c →
    client (Qs, Running s v None sus) (begun a c Qs, call_step a s sus)
| client_resume Qs p s v sus : client (Qs, Running s v (Some p) sus) (resumed p Qs, resume_step p s sus)
| client_kernel Qs r next sus M : kernel_step r next sus = Some M → client (Qs, InKernel r next sus) (Qs, M)
| client_isr Qs l s v p sus M : legal_isr_body pr Qs 1 l → dint s = false → isr_step l s v p sus = Some M →
    client (Qs, Running s v p sus) (Qs, M).

(** A start-up script: it creates tasks and objects, each once. *)
Fixpoint startup (Qs : objs) (made : list tid) (init : list api) : Prop :=
  match init with
  | [] => True
  | Api_task_create t _ _ _ _ _ :: init => t ≠ task_idle ∧ t ∉ made ∧ (S (length made) < N)%nat ∧ startup Qs (t :: made) init
  | Api_sem_create x v :: init => (∃ n, x = SemUser n) ∧ Q_sem x ∉ Qs ∧ 0 ≤ v ∧ startup (with_queue (Q_sem x) Qs) made init
  | Api_waitqueue_create w :: init => Q_wq w ∉ Qs ∧ startup (with_queue (Q_wq w) Qs) made init
  | _ => False
  end.
Definition queues_made (init : list api) : objs := foldl (λ Qs a, queues_after a Qs) no_objs init.

(** ** The machine does not go wrong *)

(** In task code, and wherever a call may be interrupted, the kernel is consistent
    and interrupts can be served; in kernel code the machine can go on unless an
    assertion of the kernel has halted it. *)
Definition sound (Qs : objs) (M : machine) : Prop :=
  match M with
  | Running s v p sus => (∃ Qf A c, app_queues Qs Qf ∧ sys_ok Qf A s c) ∧ dint s = false ∧ isr_nesting s = 0 ∧
      ∀ l, legal_isr_body pr Qs 1 l → (∃ s', isr l s = Halted s') ∨ is_Some (isr_step l s v p sus)
  | InKernel r next sus => (∃ s, r = Halted s) ∨ is_Some (kernel_step r next sus)
  end.

(** ** The invariant *)

(** Task [t] can be resumed from its saved context [x], while [Qf] are the objects
    that exist: those of the application and the semaphores of joining tasks. A
    task between the two steps of [os_waitqueue_prepare] is never suspended. *)
Definition parked (Qf : objs) (s : kstate) (t : tid) (x : suspended) : Prop :=
  match x with
  | Sus_user p => rest t s ∧ joinq t ∉ Qf ∧ at_ok Qf 0 t p
  | Sus_kernel k next => (∀ v, next v = None) ∧ ∃ sw Qw, resumable t Qw sw Qf s ∧
      ∀ Qs2 s2, task_ok N pr Qs2 t s2 → dint s2 = true → isr_nesting s2 = 0 → resumable t Qw sw Qs2 s2 →
        ∃ Qs3, same_queues t Qs2 Qs3 ∧ safe N pr Qs3 false t s2 (k s2)
  end.
Definition all_parked (Qf : objs) (s : kstate) (c : tid) (sus : gmap tid suspended) : Prop :=
  ∀ t, t ≠ c → is_Some (tasks s !! t) → ∃ x, sus !! t = Some x ∧ parked Qf s t x.

(** Task or API code has the CPU; kernel code has it. *)
Definition good_user (Qs : objs) (s : kstate) (p : option point) (sus : gmap tid suspended) : Prop :=
  ∃ Qf c, app_queues Qs Qf ∧ user_ok N pr Qf c s p ∧ dint s = false ∧ all_parked Qf s c sus.
Definition good (Qs : objs) (M : machine) : Prop :=
  match M with
  | Running s _ p sus => good_user Qs s p sus
  | InKernel r next sus => (∃ s, r = Halted s) ∨ (∃ v s, r = Done v s ∧ good_user Qs s (next v) sus) ∨
      (∀ v, next v = None) ∧ ∃ Qf c s0, app_queues Qs Qf ∧ safe N pr Qf false c s0 r ∧ all_parked Qf s0 c sus
  end.
End machine.

Section facts.
Context {AP : ArchPort} {APOK : ArchPortOk AP} {NT : AppTimers} (N : nat) (pr : bool).
Context (user_clbck : nat → timer_param_t → K unit) (arch_task_init : tid → Z → Z → Z → Z → K unit) (fuel : nat).
Context (Huc : ∀ n pa s, user_clbck n pa s = Done tt s) (Hati : stack_writer arch_task_init).
Context (Hmask : arch_isr_exit_masked = true) (Hfuel : (2 * (N + app_timers) < fuel)%nat).
Implicit Types (A : gmap laddr (list laddr)) (s : kstate) (t c : tid) (Qs : objs).
#[local] Notation isr := (isr user_clbck arch_task_init fuel).
#[local] Notation isr_step := (isr_step user_clbck arch_task_init fuel).
#[local] Notation call_step := (call_step user_clbck arch_task_init fuel).
#[local] Notation resume_step := (resume_step fuel).
#[local] Notation run_calls := (run_calls user_clbck arch_task_init fuel).
#[local] Notation power_on := (power_on user_clbck arch_task_init fuel).
#[local] Notation client := (client N pr user_clbck arch_task_init fuel).
#[local] Notation sound := (sound pr user_clbck arch_task_init fuel).
#[local] Notation good := (good N pr).

Lemma parked_kept Qf Qf' s s' t x : parked N pr Qf s t x → (rest t s → rest t s') → kept_for t Qf Qf' →
  (∀ t', is_Some (tasks s !! t') → is_Some (tasks s' !! t')) → parked N pr Qf' s' t x.
Proof.
  destruct x as [p | k next]; cbn.
  - intros (? & Hj & Hat) ? (Hq & Hs & Hb) _. split_and!; [auto | by rewrite <- Hq |].
    destruct p as [[] |]; cbn in *; auto. by destruct Hat.
  - intros (Hnx & sw & Qw & (Hr & Hj & Hd) & Hk) Hr' (Hj' & _) Hd'. split; [done |]. exists sw, Qw. split; [| done].
    split_and!; [auto | by rewrite Hj, Hj' | auto].
Qed.

(** The other tasks when [c] has done something. *)
Lemma all_parked_step Qf Qf' s s' c sus : all_parked N pr Qf s c sus → (∀ t, t ≠ c → rest t s → rest t s') →
  (∀ t, is_Some (tasks s !! t) ↔ is_Some (tasks s' !! t)) → (∀ t, t ≠ c → kept_for t Qf Qf') → all_parked N pr Qf' s' c sus.
Proof.
  intros Hp Hr Hd Hq t Htc Ht%Hd. destruct (Hp t Htc Ht) as (x & ? & Hx). exists x. split; [done |].
  eapply parked_kept; [done | auto | auto |]. intros t'. apply Hd.
Qed.

Lemma all_parked_others Qf s0 s c sus : all_parked N pr Qf s0 c sus → others_kept c s0 s → all_parked N pr Qf s c sus.
Proof. intros Hp (Hr & Hd). eapply all_parked_step; [done.. |]. intros. apply kept_for_refl. Qed.

Lemma state_current Qs c s : state_ok N Qs c s → task_current s = Some c ∧ is_Some (tasks s !! c).
Proof. intros (A & H & _). split; [apply H |]. destruct (sy_free _ _ _ _ H) as (tk & ? & _). eauto. Qed.

Lemma task_ok_dint Qs c s b : task_ok N pr Qs c s → task_ok N pr Qs c (set_dint b s).
Proof.
  intros [(A & H & HN) Hu]. split; [exists A; split; [by apply sys_ok_dint | done] |].
  intros Hpr. apply (urgent_same s); auto.
Qed.

Lemma user_ok_dint Qf c s p b : user_ok N pr Qf c s p → user_ok N pr Qf c (set_dint b s) p.
Proof.
  intros ([(A & H & HN) Hu] & Hn & Hr & Hj & Hat). split_and!; try done.
  split; [exists A; split; [by apply sys_ok_dint | done] |].
  intros Hpr. destruct (Hu Hpr); [by left | right]. apply (urgent_same s); auto.
Qed.

(** Restoring a saved context. *)
Lemma restore_good Qs Qf s n sus x v : app_queues Qs Qf → task_ok N pr Qf n s → isr_nesting s = 0 →
  all_parked N pr Qf s n sus → parked N pr Qf s n x →
  good Qs (match x with
    | Sus_user p => Running (set_dint false s) v p (delete n sus)
    | Sus_kernel k next => InKernel (k (set_dint true s)) next (delete n sus)
    end).
Proof.
  intros Ha Hs Hn Hp Hx.
  assert (all_parked N pr Qf s n (delete n sus)) as Hp' by (intros t Htn Ht; rewrite lookup_delete_ne by done; auto).
  destruct x as [p | k next]; cbn.
  - destruct Hx as (? & ? & Hat). exists Qf, n. split_and!; try done. apply user_ok_dint.
    split_and!; [by apply task_nearly | done.. |]. destruct p as [[] |]; cbn in *; try done. by destruct Hat.
  - destruct Hx as (Hnx & sw & Qw & Hr & Hk).
    destruct (Hk Qf (set_dint true s)) as (Qf' & Hq & Hsafe); [by apply task_ok_dint | done..|].
    right; right. split; [done |]. exists Qf', n, (set_dint true s). split_and!; [by eapply app_queues_same | done |].
    apply (all_parked_step Qf _ s); [done | auto | done |]. intros t Htn. by eapply kept_for_same.
Qed.

(** Another task [n] is chosen and the context [x] of [c] is saved. *)
Lemma switch_good Qf s c n sus x : task_ok N pr Qf n s → n ≠ c → all_parked N pr Qf s c sus →
  parked N pr Qf s c x → ∃ y, <[c := x]> sus !! n = Some y ∧ all_parked N pr Qf s n (<[c := x]> sus) ∧ parked N pr Qf s n y.
Proof.
  intros [Hs _] Hnc Hp Hx. destruct (state_current _ _ _ Hs) as [_ Hk].
  destruct (Hp n Hnc Hk) as (y & Hy & Hpy). exists y. split_and!; [by rewrite lookup_insert_ne | | done].
  intros t Htn Ht. rewrite lookup_insert. case_decide; [subst; by exists x | by apply Hp].
Qed.

Lemma kernel_step_good Qs r next sus : good Qs (InKernel r next sus) →
  (∃ s, r = Halted s) ∨ ∃ M, kernel_step r next sus = Some M ∧ good Qs M.
Proof.
  intros [? | [(v & s & -> & Hg) | (Hnx & Qf & c & s0 & Ha & Hr & Hp)]]; [by left | right; by eexists |].
  destruct r as [v s | s | | | me s k]; cbn in Hr; try done; [| left; eauto |].
  - right. eexists. split; [reflexivity |]. destruct Hr as (Hs & Hd & Hn & Hrest & Hj & Ho). cbn. rewrite Hnx.
    exists Qf, c. split_and!; [done | | done |]; [| by eapply all_parked_others]. by split_and!; [apply task_nearly | | | |].
  - right. destruct Hr as (-> & (n & Hnc & Hs) & Hn & Ho & Hk).
    destruct (switch_good Qf s c n sus (Sus_kernel k next) Hs Hnc) as (y & Hy & Hp' & Hpy).
    { by eapply all_parked_others. } { split; [done |]. exists s, Qf. split; [by split_and! | done]. }
    destruct (state_current _ _ _ (proj1 Hs)) as [Hc _].
    unfold kernel_step. rewrite Hc. cbn. rewrite Hy. pose proof (restore_good Qs Qf s n _ y 0 Ha Hs Hn Hp' Hpy) as Hg.
    destruct y; by eexists.
Qed.

Lemma isr_step_good Qs l s v p sus : legal_isr_body pr Qs 1 l → good Qs (Running s v p sus) →
  (∃ s', isr l s = Halted s') ∨ ∃ M, isr_step l s v p sus = Some M ∧ good Qs M.
Proof using All.
  intros Hl (Qf & c & Ha & (Hs & Hn & Hr & Hj & Hat) & Hd & Hp).
  destruct (isr_spec N pr user_clbck arch_task_init fuel Huc Hati Hfuel (exempt p c) Qs Qf l s c Ha Hl Hs Hn)
    as [? | (s' & c' & Hrun & Hs' & Hn' & Hlk & Hcc & Hkr & Hkd)]; [by left | right].
  rewrite Hn in Hn'.
  assert (all_parked N pr Qf s' c sus) as Hp' by (apply (all_parked_others _ s); [done | by split; [auto |]]).
  destruct (state_current _ _ _ (proj1 Hs)) as [Hc _], (state_current _ _ _ (proj1 Hs')) as [Hc' _].
  unfold isr_step. rewrite Hrun. case_decide as Heq.
  - assert (c' = c) as -> by congruence. eexists. split; [reflexivity |]. exists Qf, c.
    split_and!; [done | | done | done]. apply user_ok_dint. split_and!; [done | done | by apply Hkr | done | by rewrite Hlk].
  - assert (c' ≠ c) as Hne by congruence. assert (task_ok N pr Qf c' s') as Hok.
    { destruct Hs' as [? Hu]. split; [done |]. intros Hpr. destruct (Hu Hpr) as [He |]; [| done]. by destruct p as [[] |]; simplify_eq/=. }
    assert (sched_lock s = 0) as H0 by (destruct (Z.eq_dec (sched_lock s) 0); [done | by destruct Hne; apply Hcc]).
    rewrite H0 in Hat.
    destruct (switch_good Qf s' c c' sus (Sus_user p) Hok Hne Hp') as (y & Hy & Hp2 & Hpy); [by split_and!; [apply Hkr | |] |].
    rewrite Hc, Hc'. cbn. rewrite Hy, Hmask. pose proof (restore_good Qs Qf s' c' _ y 0 Ha Hok Hn' Hp2 Hpy) as Hg.
    destruct y; by eexists.
Qed.

(** A task that is created starts as a new one, whatever its TCB was used for. *)
Lemma created_parked Qs Qf Qf' a s s' c t : legal N Qs s a → state_ok N Qf c s → creates a t →
  (∀ t, rest t s → rest t s') → kept_for t Qf Qf' →
  (∀ sus, register_task a sus !! t = Some (Sus_user None)) ∧ parked N pr Qf' s' t (Sus_user None).
Proof.
  intros Hl (A & H & _) Hcr Hr (Hq & _). destruct a; try done. cbn in Hcr. subst. split; [intros sus; apply lookup_insert_eq |].
  destruct (legal_spare _ _ _ _ _ _ _ _ _ _ _ _ H Hl) as [Hsp _]. split_and!; [| | done].
  - apply Hr. intros tk Ht. destruct (Hsp tk Ht) as [Htc Hqt]. by destruct (sy_ended _ _ _ _ H t0 tk Ht Htc Hqt).
  - rewrite <- Hq. intros Hin. destruct (sy_joiner _ _ _ _ H _ Hin) as [tk Ht]. destruct (Hsp tk Ht) as [Htc Hqt].
    by destruct (sy_ended _ _ _ _ H t0 tk Ht Htc Hqt).
Qed.

(** A call or its continuation that returns or stops at a [point]. *)
Lemma pauses_good Qs Qf' Nw c s r next sus : app_queues Qs Qf' → dint s = false → pauses N pr Qf' Nw c s r next →
  (∀ s', (∀ t, rest t s → rest t s') → (∀ t, is_Some (tasks s' !! t) ↔ is_Some (tasks s !! t) ∨ Nw t) → all_parked N pr Qf' s' c sus) →
  good Qs (InKernel r next sus).
Proof.
  intros Ha Hd [? | (v & s' & -> & Hus & Hd' & Hr & Hdom)] Hp; [by left | right; left].
  exists v, s'. split; [done |]. exists Qf', c. split_and!; [done | done | congruence | auto].
Qed.

Lemma call_good Qs a s v sus c : legal N Qs s a → prompt pr s a → task_current s = Some c → good Qs (Running s v None sus) →
  good (begun a c Qs) (call_step a s sus).
Proof using All.
  intros Hl Hpr Hc (Qf & c0 & Ha & (Hs & Hn & Hr & Hj & _) & Hd & Hp).
  assert (c0 = c) as -> by (destruct (state_current _ _ _ (proj1 Hs)); congruence).
  assert (task_ok N pr Qf c s) as Hok by (destruct Hs as [? Hu]; split; [done |]; intros Hpr'; by destruct (Hu Hpr')).
  destruct (start_ok N pr user_clbck arch_task_init fuel Huc Hati Hfuel Qs Qf a s c Ha Hl Hpr Hok Hn Hr Hj)
    as (Qf' & Ha' & Hq & [Hpause | (Hno & Hnx & Hsafe)]).
  - eapply pauses_good; [done.. |]. intros s' Hr' Hdom t Htc Ht.
    assert (creates a t ∨ ¬ creates a t) as [Hcr | Hcr] by (destruct a; cbn; auto; destruct (decide (t = t0)); auto).
    + destruct (created_parked _ _ _ _ _ _ _ _ Hl (proj1 Hs) Hcr Hr' (Hq t Htc)) as [Hx Hpx]. by exists (Sus_user None).
    + apply Hdom in Ht as [Ht |]; [| done]. destruct (Hp t Htc Ht) as (x & Hx & Hpx). exists x. split.
      * destruct a; try done. cbn. rewrite lookup_insert_ne; [done |]. by intros <-.
      * eapply parked_kept; [done | apply Hr' | by apply Hq |]. intros t' Hs'. apply Hdom. by left.
  - assert (register_task a sus = sus) as Hreg by (destruct a; try done; by destruct (Hno t)).
    right; right. split; [done |]. exists Qf', c, s. rewrite Hreg, <- Hd. split_and!; [done | done |].
    by apply (all_parked_step Qf _ s).
Qed.

Lemma resume_good Qs p s v sus : good Qs (Running s v (Some p) sus) → good (resumed p Qs) (resume_step p s sus).
Proof using All.
  intros (Qf & c & Ha & Hus & Hd & Hp).
  destruct (go_ok N pr user_clbck arch_task_init fuel Huc Hati Hfuel Qs Qf p s c Ha Hus) as (Qf' & Ha' & Hq & [Hpause | (Hnx & Hsafe)]).
  - eapply pauses_good; [done.. |]. intros s' Hr' Hdom. apply (all_parked_step Qf _ s); [done | auto | | done].
    intros t. rewrite Hdom. tauto.
  - right; right. split; [done |]. exists Qf', c, s. rewrite <- Hd. split_and!; [done | done |].
    by apply (all_parked_step Qf _ s).
Qed.

Lemma client_good Qs M Qs' M' : client (Qs, M) (Qs', M') → good Qs M → good Qs' M'.
Proof using All.
  inversion 1 as [? a s v sus c Hl Hpr Hc | ? p s v sus | ? r next sus ? Hk | ? l s v p sus ? Hl Hd Hi]; subst; intros Hg.
  - by eapply call_good.
  - by eapply resume_good.
  - destruct (kernel_step_good _ _ _ _ Hg) as [[s ->] | (M1 & ? & ?)]; [done | congruence].
  - destruct (isr_step_good _ _ _ _ _ _ Hl Hg) as [[s1 Hs] | (M1 & ? & ?)]; [| congruence].
    unfold System.isr_step in Hi. by rewrite Hs in Hi.
Qed.

Lemma good_sound Qs M : good Qs M → sound Qs M.
Proof using All.
  intros Hg. destruct M as [s v p sus | r next sus].
  - pose proof Hg as (Qf & c & Ha & ([(A & H & _) _] & Hn & _) & Hd & _). split; [by exists Qf, A, c |]. split_and!; try done.
    intros l Hl. destruct (isr_step_good _ _ _ _ _ _ Hl Hg) as [? | (M & -> & _)]; eauto.
  - destruct (kernel_step_good _ _ _ _ Hg) as [? | (M & HM & _)]; [by left | right; eauto].
Qed.

Lemma clients_good X Y : rtc client X Y → good X.1 X.2 → good Y.1 Y.2.
Proof using All. induction 1 as [| [] [] ? Hc _ IH]; [done |]. intros Hg. by eapply IH, client_good. Qed.

(** ** Start-up *)

(** What [os_init] leaves on any port, found by running it. *)
Definition state0 : kstate := run_state os_init kstate_reset.
Definition lists0 : list (laddr * list laddr) := lists_of state0.
Definition task0 : os_task_t := set_state TASKSTATE_RUNNING (new_task 0).

Definition returned {B} (r : res B) : bool := match r with Done _ _ => true | _ => false end.
Lemma init_returned : returned (os_init kstate_reset) = true.
Proof. vm_compute. reflexivity. Qed.
Lemma init_run : os_init kstate_reset = Done tt state0.
Proof. pose proof init_returned as H. unfold state0, run_state. by destruct (os_init kstate_reset) as [[] s | | | |]. Qed.
Lemma init_kernel_b : kernel_ok_b lists0 state0 && live_b lists0 Q_ready = true.
Proof. vm_compute. reflexivity. Qed.
Lemma init_tasks : tasks state0 = {[task_idle := task0]}.
Proof. vm_compute. reflexivity. Qed.
Lemma init_timers : timers state0 = ∅.
Proof. vm_compute. reflexivity. Qed.
Lemma init_lists : lists0 = (λ hd, (hd, [])) <$> L_timer_list :: (L_bucket Q_ready <$> seqZ 0 OS_CONFIG_PRIOCNT) ++ [L_mtx_list task_idle].
Proof. vm_compute. reflexivity. Qed.
Lemma init_globals : task_current state0 = Some task_idle ∧ waitqueue_current state0 = None ∧ dint state0 = true ∧
  isr_nesting state0 = 0 ∧ sched_lock state0 = 1.
Proof. split_and!; vm_compute; reflexivity. Qed.

(** A system of the idle task alone. *)
Lemma idle_sys_ok A s : kernel_ok A s → live A Q_ready → tasks s = {[task_idle := task0]} → timers s = ∅ →
  task_current s = Some task_idle → waitqueue_current s = None →
  (∀ hd xs, A !! hd = Some xs → xs = [] ∧
    hd ∈ L_timer_list :: (L_bucket Q_ready <$> seqZ 0 OS_CONFIG_PRIOCNT) ++ [L_mtx_list task_idle]) →
  A !! L_mtx_list task_idle = Some [] → sys_ok no_objs A s task_idle.
Proof.
  intros HK Hl Ht Htm Hc Hw Hlists Hm.
  assert (∀ x, timer_at s x = timer_zero) as Hat by (intros x; unfold timer_at; by rewrite Htm).
  split; try done.
  - exists task0. by rewrite Ht, lookup_singleton_eq.
  - exists task0. rewrite Ht, lookup_singleton_eq. split_and!; [done.. | by left].
  - intros t tk. rewrite Ht. by intros [<- _]%lookup_singleton_Some.
  - intros t tk. rewrite Ht. by intros [<- _]%lookup_singleton_Some.
  - rewrite Ht. split.
    + by intros t x (tk & [<- <-]%lookup_singleton_Some & ? & _).
    + by intros t1 t2 x (tk & [<- <-]%lookup_singleton_Some & ? & _).
    + by intros t tk j [<- <-]%lookup_singleton_Some.
  - intros y. unfold armed. destruct (_ !! L_timer_list) as [xs |] eqn:Hx; cbn; [apply Hlists in Hx as [-> _] |]; by intros ?%elem_of_nil.
  - intros y Hy. unfold in_setup in Hy. cbn in Hy. rewrite lookup_empty in Hy. by destruct Hy.
  - intros t Hb. unfold in_birth in Hb. cbn in Hb. rewrite lookup_empty in Hb. by destruct Hb.
  - intros w. by rewrite Hw.
  - intros hd [xs [_ Hin]%Hlists].
    apply elem_of_cons in Hin as [-> | [(p & -> & _)%list_elem_of_fmap | ->%list_elem_of_singleton]%elem_of_app]; cbn; [done | by left |].
    rewrite Ht, lookup_singleton_eq. eauto.
  - intros t Hs. rewrite Ht in Hs. by destruct Hs as [tk [<- _]%lookup_singleton_Some].
Qed.

Lemma init_ok : sys_ok no_objs (list_to_map lists0) state0 task_idle.
Proof.
  pose proof init_kernel_b as [HK%kernel_ok_b_ok Hl%live_b_ok]%andb_true_iff. destruct init_globals as (Hc & Hw & _).
  apply idle_sys_ok; [exact HK | exact Hl | exact init_tasks | exact init_timers | exact Hc | exact Hw | | by rewrite init_lists].
  intros hd xs Hx%elem_of_list_to_map_2. rewrite init_lists in Hx. by apply list_elem_of_fmap in Hx as (hd' & [= -> ->] & ?).
Qed.

(** The state of a start-up script: [made] are the tasks it has created. *)
Record starting (Qs : objs) (made : list tid) (s : kstate) : Prop := {
  st_sys : ∃ A, sys_ok Qs A s task_idle;
  st_app : app_queues Qs Qs;
  st_dint : dint s = true;
  st_nesting : isr_nesting s = 0;
  st_lock : sched_lock s ≠ 0;
  st_tasks : ∀ t, is_Some (tasks s !! t) → rest t s ∧ t ∈ task_idle :: made
}.

Lemma init_starting : ∃ s, os_init kstate_reset = Done tt s ∧ starting no_objs [] s.
Proof.
  exists state0. split; [exact init_run |]. destruct init_globals as (_ & _ & Hd & Hn & Hl).
  split; [eexists; exact init_ok | by split; [intros q; split; [change (q ∈ no_objs) with (q ∈ (∅ : gset qid)); by intros ?%elem_of_empty | intros [? _]] |] | exact Hd | exact Hn | by rewrite Hl |].
  intros t [tk Ht]. rewrite init_tasks in Ht. apply lookup_singleton_Some in Ht as [<- <-].
  split; [| apply list_elem_of_here]. intros tk'. rewrite init_tasks, lookup_singleton_eq. by intros [= <-].
Qed.

Lemma starting_size Qs made s : starting Qs made s → (size (tasks s) ≤ S (length made))%nat.
Proof.
  intros H. rewrite <- size_dom. change (length (elements (dom (tasks s))) ≤ length (task_idle :: made))%nat.
  apply submseteq_length, NoDup_submseteq; [apply NoDup_elements |].
  intros t Ht%elem_of_elements%elem_of_dom. by apply (st_tasks _ _ _ H).
Qed.

Lemma starting_returns Qs Qs' made s r : starting Qs made s → app_queues Qs' Qs' → returns s task_idle Qs' r →
  (∃ s', r = Halted s') ∨ ∃ s', r = Done tt s' ∧ starting Qs' made s'.
Proof.
  intros [_ _ Hd Hn Hl Ht] Ha [? | (A' & s' & -> & H' & Ht' & Hd' & Hn' & Hl')]; [by left | right].
  exists s'. split; [done |]. split; [by exists A' | done | congruence.. |]. unfold rest. by rewrite Ht'.
Qed.

Lemma starting_create Qs made s t prio stack sz proc param : starting Qs made s → t ∉ task_idle :: made →
  (∃ s', os_task_create arch_task_init t prio stack sz proc param s = Halted s') ∨
  ∃ s', os_task_create arch_task_init t prio stack sz proc param s = Done tt s' ∧ starting Qs (t :: made) s'.
Proof using All.
  intros [[A H] Ha Hd Hn Hl Ht] Hnew.
  assert (tasks s !! t = None) as Hno.
  { destruct (tasks s !! t) eqn:E; [| done]. destruct (Ht t) as [_ ?]; [eauto | done]. }
  assert (births Qs !! t = None) as Hnb.
  { destruct (births Qs !! t) as [o |] eqn:E; [| done]. destruct (sy_birth _ _ _ _ H t) as (_ & tk & ? & _); [by exists o | congruence]. }
  destruct (create_init_cases arch_task_init Hati Qs A s task_idle t prio stack sz proc param task_idle H) as
    [[s' E] | (A1 & s1 & E & H1 & Ht1 & (_ & _ & _ & Hn1 & Hl1 & _ & Hd1 & _))];
    [by intros tk; rewrite Hno | done | left; exists s'; by apply bind_Halted | right].
  destruct (sys_ok_enqueue _ A1 s1 task_idle t H1) as (A' & s' & tk & E' & H' & Htk & _ & Ht' & _ & _ & _ & Hn' & Hl' & _ & Hd' & _).
  { unfold in_birth. cbn. rewrite lookup_insert_eq. eauto. }
  replace (without_birth t (with_birth t task_idle Qs)) with Qs in H'
    by (destruct Qs as [Q S' B]; unfold without_birth, with_birth; cbn in *; f_equal; by rewrite delete_insert_id).
  rewrite Ht1, lookup_insert_eq in Htk. injection Htk as <-. rewrite Ht1, insert_insert_eq in Ht'.
  cbn in Hn', Hl', Hd'. destruct (sys_sched _ _ _ _ H') as [tkc Hok].
  destruct (os_schedule_spec A' s' task_idle tkc 1 Hok) as [[_ Hrun] | [(_ & ? & _) | (_ & ? & _)]]; [done | lia | | congruence..].
  exists (set_dint (dint s) s'). split.
  { unfold os_task_create. erewrite bind_Done by exact E. rewrite E', <- Hd1. by erewrite bind_Done by exact Hrun. }
  split; [exists A'; by apply sys_ok_dint | done | done | cbn; congruence.. |].
  intros t' Hs. cbn in Hs. rewrite Ht' in Hs. apply lookup_insert_is_Some in Hs as [-> | [Htt Hs]].
  - split; [| apply list_elem_of_further, list_elem_of_here]. intros tk'. cbn. rewrite Ht', lookup_insert_eq. by intros [= <-].
  - destruct (Ht t' Hs) as [Hr ?]. split; [| set_solver]. intros tk'. cbn. rewrite Ht', lookup_insert_ne by done. apply Hr.
Qed.

Lemma startup_run init : ∀ Qs made s, startup N Qs made init → starting Qs made s → (S (length made) ≤ N)%nat →
  (∃ s', run_calls init s = Halted s') ∨
  ∃ s' made', run_calls init s = Done tt s' ∧ starting (foldl (λ Qs a, queues_after a Qs) Qs init) made' s' ∧
    (S (length made') ≤ N)%nat ∧ ∀ t, t ∈ made' → t ∈ made ∨ foldr register_task ∅ init !! t = Some (Sus_user None).
Proof using All.
  induction init as [| a init IH]; intros Qs made s Hst Hs HN; cbn [System.run_calls foldl].
  { right. exists s, made. split_and!; auto. }
  assert (∃ m made1, run_api user_clbck arch_task_init fuel a s = ret0 m s ∧ startup N (queues_after a Qs) made1 init ∧
    (S (length made1) ≤ N)%nat ∧ (∀ t, t ∈ made1 → t ∈ made ∨ creates a t) ∧
    ((∃ s', m s = Halted s') ∨ ∃ s', m s = Done tt s' ∧ starting (queues_after a Qs) made1 s'))
    as (m & made1 & Hm & Hst1 & HN1 & Hmade & [[s1 Hrun] | (s1 & Hrun & Hs1)]).
  { pose proof (starting_size _ _ _ Hs) as Hsz. destruct (st_sys _ _ _ Hs) as [A H].
    destruct a; try done; cbn in Hst; eexists.
    - destruct Hst as (Hi & Hno & Hlt & Hst). exists (t :: made). split_and!; [done.. | |].
      + intros t' [-> |]%elem_of_cons; [by right | by left].
      + apply starting_create; [done |]. by intros [|]%elem_of_cons.
    - destruct Hst as ([n ->] & Hno & Hv & Hst). exists made. split_and!; [done.. | auto |].
      eapply starting_returns; [done | |]; [| eapply (sem_create_returns N); [done | lia | done..]].
      apply (app_queues_after N (Api_sem_create (SemUser n) v) s); [cbn; eauto | apply Hs].
    - destruct Hst as (Hno & Hst). exists made. split_and!; [done.. | auto |].
      eapply starting_returns; [done | |]; [| by eapply waitqueue_create_returns].
      by apply (app_queues_after N (Api_waitqueue_create w) s); [| apply Hs]. }
  - left. exists s1. apply bind_Halted. rewrite Hm. by apply bind_Halted.
  - rewrite (bind_Done _ _ _ 0 s1) by (rewrite Hm; unfold ret0; by erewrite (bind_Done m) by exact Hrun).
    destruct (IH _ _ _ Hst1 Hs1 HN1) as [? | (s' & made' & Hrun' & Hs' & HN' & Hsus)]; [by left | right].
    exists s', made'. split_and!; try done. intros t [[? | Hc]%Hmade | Hf]%Hsus; [by left | |]; right; cbn;
      destruct a; try done; cbn in *; subst; rewrite ?lookup_insert_eq, ?lookup_insert; try case_decide; done.
Qed.

(** [os_start] up to its critical section. *)
Lemma os_start_user Qs made s : starting Qs made s → (S (length made) ≤ N)%nat →
  ∃ s', os_start_enable s = Done tt s' ∧ user_ok N pr Qs task_idle s' (Some At_start) ∧ dint s' = false ∧ tasks s' = tasks s.
Proof.
  intros Hs HN. pose proof (starting_size _ _ _ Hs) as Hsz. destruct Hs as [[A H] Ha Hd Hn Hl Ht].
  exists (set_dint false (set_sched_lock 0 s)). split_and!; [| | done | done].
  - unfold os_start_enable. erewrite bind_Done by done. rewrite (sy_current _ _ _ _ H), OS_ASSERT_true by (by apply bool_decide_true).
    erewrite bind_Done by done. rewrite Hd, OS_ASSERT_true by done. by erewrite bind_Done by done.
  - split_and!; [| done | | | done].
    + split; [exists A; split; [by apply sys_ok_dint, sys_ok_lock | cbn; lia] | by left].
    + apply Ht. destruct (sy_free _ _ _ _ H) as (tk & ? & _). eauto.
    + by intros [_ Hj]%(proj1 Ha); apply (Hj task_idle).
Qed.

Lemma power_on_good init : startup N no_objs [] init → (1 ≤ N)%nat →
  (∃ s, (os_init;; run_calls init) kstate_reset = Halted s) ∨
  ∃ M, power_on init = Some M ∧ good (queues_made init) M.
Proof using All.
  intros Hst HN. destruct init_starting as (s0 & Hrun & Hs). unfold System.power_on.
  assert ((os_init;; run_calls init) kstate_reset = run_calls init s0) as -> by (by erewrite bind_Done by exact Hrun).
  destruct (startup_run init no_objs [] s0 Hst Hs HN) as [? | (s & made & -> & Hs' & HN' & Hsus)]; [by left | right].
  destruct (os_start_user _ _ _ Hs' HN') as (s1 & E & Hus & Hd & Ht1). pose proof (st_app _ _ _ Hs') as Ha.
  eexists. split; [reflexivity |]. right; left. exists 0, s1. split; [unfold ret0; by erewrite bind_Done by exact E |].
  exists (queues_made init), task_idle. split_and!; [done.. |].
  intros t Hti Ht. rewrite Ht1 in Ht. destruct (st_tasks _ _ _ Hs' t Ht) as [Hr Hin]. exists (Sus_user None). split.
  - apply elem_of_cons in Hin as [? | [Hin | ?]%Hsus]; [done | by apply elem_of_nil in Hin | done].
  - split_and!; [unfold rest; by rewrite Ht1 | by intros [_ Hj]%(proj1 Ha); apply (Hj t) | done].
Qed.

Lemma client_step Qs M Qs' M' : client (Qs, M) (Qs', M') → step user_clbck arch_task_init fuel M M'.
Proof. inversion 1; subst; econstructor; eassumption. Qed.

Lemma clients_reachable X Y : rtc client X Y → reachable user_clbck arch_task_init fuel X.2 Y.2.
Proof.
  revert Y. apply (rtc_ind_r (λ Y, reachable user_clbck arch_task_init fuel X.2 Y.2)); [constructor |].
  intros [] [] _ HYZ IH. econstructor; [exact IH |]. by eapply client_step.
Qed.

(** C2: The kernel never goes wrong. For every application of at most [N] tasks that
    keeps the rules below, on the ports that resume a task inside a critical section
    with interrupts masked (AVR and Linux; not the MSP430, whose end of interrupt
    enables them), and for every interleaving of its calls, of context switches and
    of interrupts, which may also come inside the calls wherever these have
    interrupts enabled before a critical section: in task code and at such a point
    the kernel's data satisfy the system invariant, interrupts are enabled and can
    be served to their end; in kernel code the machine can always go on, since no
    NULL or wild pointer is used, every loop finishes within the iterations granted
    to it (a number linear in those of tasks and timers), and every task the
    scheduler chooses has a saved context. Only a failed assertion, of the kernel or
    of [arch_task_init], stops the system. The rules: start-up creates each object
    once; tasks use semaphores and wait queues while they exist, and no mutexes;
    nobody else uses a timer or joins a task while it is being created; tasks end
    and join tasks that were created, and TCBs are used again after their tasks
    were joined; the idle task does not end; a task prepares for a wait queue only
    while the counter of scheduler locks cannot wrap; timers have callbacks that
    leave the kernel alone, and reload values that fit; interrupts, nested less than
    255 deep, signal semaphores, wake wait queues (at most 255 tasks or all), create
    and destroy timers, and tick; [arch_task_init] writes only the stack and context
    of its task. *)
Theorem kernel_never_goes_wrong init : startup N no_objs [] init → (1 ≤ N)%nat →
  (∃ s, (os_init;; run_calls init) kstate_reset = Halted s) ∨
  ∃ M0, power_on init = Some M0 ∧ ∀ Qs M, rtc client (queues_made init, M0) (Qs, M) →
    reachable user_clbck arch_task_init fuel M0 M ∧ sound Qs M.
Proof using All.
  intros Hst HN. destruct (power_on_good init Hst HN) as [? | (M0 & -> & Hg)]; [by left | right].
  exists M0. split; [done |]. intros Qs M Hrun. split; [by apply clients_reachable in Hrun |].
  apply good_sound. by apply (clients_good _ _ Hrun).
Qed.
End facts.

Section reachable.
Context {AP : ArchPort} {APOK : ArchPortOk AP} {NT : AppTimers} (N : nat).
Context (user_clbck : nat → timer_param_t → K unit) (arch_task_init : tid → Z → Z → Z → Z → K unit) (fuel : nat).
Context (Huc : ∀ n pa s, user_clbck n pa s = Done tt s) (Hati : stack_writer arch_task_init).
Context (Hmask : arch_isr_exit_masked = true) (Hfuel : (2 * (N + app_timers) < fuel)%nat).

(** C3: The task with the highest priority runs. For applications without mutexes
    that keep the rules of C2, with timer callbacks that leave the kernel alone, on
    the AVR and Linux ports, after start-up and any interleaving of calls, context
    switches and interrupts, also inside the calls: whenever task code is executed,
    or a call is between two steps of its work, and the scheduler is not locked, no
    ready task has a higher priority than the running one. This excepts the moment
    between [os_scheduler_unlock], or [os_start], giving the lock back and its own
    request to the scheduler; and it holds provided that the application never puts
    off such a request: no call is made with [sync], no [os_waitqueue_wait] after
    its wake-up has already come (the code then returns without asking the
    scheduler), nested interrupts call no kernel function (their requests are
    ignored), and the scheduler is not locked more often than its counter can
    count. *)
Theorem highest_priority_runs init : startup N no_objs [] init → (1 ≤ N)%nat →
  (∃ s, (os_init;; run_calls user_clbck arch_task_init fuel init) kstate_reset = Halted s) ∨
  ∃ M0, power_on user_clbck arch_task_init fuel init = Some M0 ∧
    ∀ Qs s v p sus, rtc (client N true user_clbck arch_task_init fuel) (queues_made init, M0) (Qs, Running s v p sus) →
      p ≠ Some At_schedule → p ≠ Some At_start →
      ∃ c tkc, task_current s = Some c ∧ tasks s !! c = Some tkc ∧
        (sched_lock s = 0 → ∀ t tk, tasks s !! t = Some tk → task_queue tk = Some Q_ready →
          prio_current tk ≤ prio_current tkc).
Proof using All.
  intros Hst HN.
  destruct (power_on_good N true user_clbck arch_task_init fuel Huc Hati Hmask Hfuel init Hst HN) as [? | (M0 & -> & Hg)]; [by left | right].
  exists M0. split; [done |]. intros Qs s v p sus Hrun Hp1 Hp2.
  destruct (clients_good N true user_clbck arch_task_init fuel Huc Hati Hmask Hfuel _ _ Hrun Hg) as (Qf & c & _ & ([(A & H & _) Hu] & _) & _).
  destruct (sy_free _ _ _ _ H) as (tkc & Hc & _). exists c, tkc.
  split_and!; [apply H | done |]. intros Hl t tk Ht.
  destruct (Hu eq_refl) as [He | Hur]; [by destruct p as [[] |] | by apply (Hur Hl t tk tkc)].
Qed.

(** C4: Values fit their C types. For applications without mutexes that keep the
    rules of C2 (objects are used while they exist, nobody else uses a timer or a
    task that is being created, the timer callbacks leave the kernel alone), on
    the AVR and Linux ports: in task code and at every point where a call may be
    interrupted, after start-up and any interleaving of calls, context switches
    and interrupts, the priority of every task is a bucket of a task queue, the bit
    mask of the ready queue and of every queue that exists has eight bits, the
    value of every semaphore is below the largest [arch_atomic_t], and the counts
    of every timer are within [os_ticks_t]: those of the timers in the timer list
    are above the ticks not yet taken off, so that no subtraction of a tick wraps
    around, those of a timer that [os_timer_create] has initialised but not yet
    armed leave room for adding these ticks, and those of all others are zero. *)
Theorem values_fit_their_types init : startup N no_objs [] init → (1 ≤ N)%nat →
  (∃ s, (os_init;; run_calls user_clbck arch_task_init fuel init) kstate_reset = Halted s) ∨
  ∃ M0, power_on user_clbck arch_task_init fuel init = Some M0 ∧
    ∀ Qs s v p sus, rtc (client N false user_clbck arch_task_init fuel) (queues_made init, M0) (Qs, Running s v p sus) →
      (∀ t tk, tasks s !! t = Some tk → 0 ≤ prio_current tk < OS_CONFIG_PRIOCNT) ∧
      (∀ q, q = Q_ready ∨ q ∈ Qs → ∃ m, masks s !! q = Some m ∧ 0 ≤ m < 256) ∧
      (∀ x, Q_sem x ∈ Qs → ∃ n, sems s !! x = Some n ∧ 0 ≤ n < ARCH_ATOMIC_MAX) ∧
      0 ≤ timer_tick_unsynch s ≤ OS_TIMER_UNSYNCH_MAX ∧
      ∃ A, repr (links s) A ∧ A !! L_timer_list = Some (L_timer <$> armed A) ∧
        ∀ y, 0 ≤ ticks_reload (timer_at s y) ≤ OS_TICKS_MAX ∧
          let ticks := ticks_rem (timer_at s y) in
          if decide (y ∈ armed A) then timer_tick_unsynch s < ticks ≤ OS_TICKS_MAX
          else ticks = 0 ∨ is_Some (setups Qs !! y) ∧ 0 < ticks ∧ ticks + OS_TIMER_UNSYNCH_MAX ≤ OS_TICKS_MAX.
Proof using All.
  intros Hst HN.
  destruct (power_on_good N false user_clbck arch_task_init fuel Huc Hati Hmask Hfuel init Hst HN) as [? | (M0 & -> & Hg)]; [by left | right].
  exists M0. split; [done |]. intros Qs s v p sus Hrun.
  destruct (clients_good N false user_clbck arch_task_init fuel Huc Hati Hmask Hfuel _ _ Hrun Hg) as (Qf & c & (Ha & Hsu & _) & ([(A & H & _) _] & _) & _).
  pose proof (sy_kernel _ _ _ _ H) as HK. pose proof (ko_queues _ _ HK) as HQ. pose proof (ko_timers _ _ HK) as HT.
  split_and!.
  - apply (ko_prio _ _ HK).
  - intros q Hq. assert (live A q) as Hl by (destruct Hq as [-> | [? _]%Ha]; [apply H | by apply (sy_queues _ _ _ _ H)]).
    destruct (live_mask _ _ HQ q Hl) as (m & ? & ? & _). by exists m.
  - intros x [(n & HS)%(sy_sems _ _ _ _ H) _]%Ha. exists n. by destruct HS.
  - by apply (to_unsynch _ _ HT).
  - pose proof (to_unsynch _ _ HT). unfold OS_TIMER_UNSYNCH_MAX in *. lia.
  - exists A. split_and!; [apply HQ | apply HT |]. intros y. split; [apply (to_reload _ _ HT) |].
    cbn zeta. change (ticks_rem (timer_at s y)) with (rem s y). case_decide as Hy.
    + destruct (to_armed _ _ HT y Hy) as [? _]. lia.
    + destruct (to_idle _ _ HT y Hy) as [[? _] | (Hhd & _ & _ & Hr)]; [by left | right].
      cbn in Hsu. rewrite Hsu. split; [apply (sy_lists _ _ _ _ H (L_timer y)); eauto |]. pose proof ticks_max_val. unfold OS_TIMER_TICKSREM_MAX in Hr. lia.
Qed.
End reachable.

(** ** The properties at a concrete application *)

Section demo.
#[local] Existing Instance avr_port.
#[local] Existing Instance avr_port_ok.

(** Two tasks, a semaphore, a wait queue and a timer on the AVR. *)
Definition demo_app : list api :=
  [Api_task_create 1 2 1000 200 300 0; Api_sem_create (SemUser 0) 0; Api_task_create 2 1 2000 200 400 0; Api_waitqueue_create 0].
#[local] Instance demo_app_timers : AppTimers := 1%nat.
Definition inert_clbck (n : nat) (pa : timer_param_t) (s : kstate) : res unit := Done tt s.
(** The start context of a task is its entry address at the top of its stack. *)
Definition entry_task_init (t : tid) (stack size proc param : Z) : K unit :=
  modify (λ s, set_stacks (<[stack + size - 1 := proc]> (stacks s)) s).
Lemma entry_task_init_writes : stack_writer entry_task_init.
Proof. intros t stack size proc param s. left. by eexists. Qed.

Lemma demo_app_startup : startup 3 no_objs [] demo_app.
Proof. cbn. split_and!; set_solver by lia. Qed.
Lemma demo_app_masked : arch_isr_exit_masked = true.
Proof. reflexivity. Qed.
Lemma demo_app_fuel : (2 * (3 + app_timers) < 10)%nat.
Proof. vm_compute. lia. Qed.
Lemma demo_app_returns s : (os_init;; run_calls inert_clbck entry_task_init 10 demo_app) kstate_reset ≠ Halted s.
Proof.
  intros Hs. match type of Hs with ?r = _ => assert (returned r = true) as Hr by (vm_compute; reflexivity) end.
  rewrite Hs in Hr. discriminate Hr.
Qed.

Lemma kernel_never_goes_wrong_witness :
  ∃ M0, power_on inert_clbck entry_task_init 10 demo_app = Some M0 ∧
    ∀ Qs M, rtc (client 3 false inert_clbck entry_task_init 10) (queues_made demo_app, M0) (Qs, M) →
      reachable inert_clbck entry_task_init 10 M0 M ∧ sound false inert_clbck entry_task_init 10 Qs M.
Proof.
  destruct (kernel_never_goes_wrong 3 false inert_clbck entry_task_init 10 (λ _ _ _, eq_refl) entry_task_init_writes demo_app_masked
    demo_app_fuel demo_app demo_app_startup) as [[s Hs] | HM]; [lia | by apply demo_app_returns in Hs | exact HM].
Defined.

Lemma highest_priority_runs_witness :
  ∃ M0, power_on inert_clbck entry_task_init 10 demo_app = Some M0 ∧
    ∀ Qs s v sus, rtc (client 3 true inert_clbck entry_task_init 10) (queues_made demo_app, M0) (Qs, Running s v None sus) →
      sched_lock s = 0 → ∃ c, task_current s = Some c ∧ ∀ t tk tkc, tasks s !! c = Some tkc → tasks s !! t = Some tk →
        task_queue tk = Some Q_ready → prio_current tk ≤ prio_current tkc.
Proof.
  destruct (highest_priority_runs 3 inert_clbck entry_task_init 10 (λ _ _ _, eq_refl) entry_task_init_writes demo_app_masked
    demo_app_fuel demo_app demo_app_startup) as [[s Hs] | (M0 & HM & Hall)]; [lia | by apply demo_app_returns in Hs |].
  exists M0. split; [exact HM |]. intros Qs s v sus Hrun Hl.
  destruct (Hall Qs s v None sus Hrun) as (c & tkc & Hc & Htc & Hp); [discriminate.. |].
  exists c. split; [done |]. intros t tk tkc' Htc'. rewrite Htc in Htc'. injection Htc' as <-. by apply Hp.
Defined.

Lemma values_fit_their_types_witness :
  ∃ M0, power_on inert_clbck entry_task_init 10 demo_app = Some M0 ∧
    ∀ Qs s v p sus, rtc (client 3 false inert_clbck entry_task_init 10) (queues_made demo_app, M0) (Qs, Running s v p sus) →
      ∀ x, Q_sem x ∈ Qs → ∃ n, sems s !! x = Some n ∧ 0 ≤ n < 255.
Proof.
  destruct (values_fit_their_types 3 inert_clbck entry_task_init 10 (λ _ _ _, eq_refl) entry_task_init_writes demo_app_masked
    demo_app_fuel demo_app demo_app_startup) as [[s Hs] | (M0 & HM & Hall)]; [lia | by apply demo_app_returns in Hs |].
  exists M0. split; [exact HM |]. intros Qs s v p sus Hrun. by apply (Hall Qs s v p sus).
Defined.
End demo.
