(* ===== verification/Hazards.v ===== *)
(** * Executions that contradict the comments of the code

    Concrete runs of the model on the AVR port: a timer that is destroyed in its
    own callback is armed again, a callback that destroys the next timer makes
    the tick loop for ever inside the interrupt, a task that runs for the first
    time is READY, not RUNNING, a task that leaves [os_waitqueue_wait] without
    having waited keeps the CPU from a more urgent one, and so does one that was
    interrupted when a nested interrupt wakes the more urgent one. An interrupt
    that comes before the critical section of [os_timer_create] and destroys the
    timer, or creates it too, leaves it armed without ticks, or the call in an
    endless loop: what the rules of Safety.v exclude. *)

From stdpp Require Import base decidable list countable gmap.
From Stdlib Require Import ZArith Lia.
From S2P Require Import Prelude Arch LinkedList Kernel TaskQueue Timer Sched Decide Sem Mtx WaitQueue System.

Local Open Scope Z_scope.

#[local] Existing Instance avr_port.

(** States can be compared, so that runs on concrete states can be tested. *)
#[local] Instance list_t_eq : EqDecision (list_t laddr).
Proof. solve_decision. Defined.
#[local] Instance task_eq : EqDecision os_task_t.
Proof. solve_decision. Defined.
#[local] Instance mtx_eq : EqDecision os_mtx_t.
Proof. solve_decision. Defined.
#[local] Instance timer_proc_eq : EqDecision timer_proc_t.
Proof. solve_decision. Defined.
#[local] Instance timer_param_eq : EqDecision timer_param_t.
Proof. solve_decision. Defined.
#[local] Instance timer_eq : EqDecision os_timer_t.
Proof. solve_decision. Defined.
#[local] Instance kstate_eq : EqDecision kstate.
Proof. solve_decision. Defined.

Definition runs_to {A} `{!EqDecision A} (m : K A) (s : kstate) (a : A) (s' : kstate) : bool :=
  match m s with Done a' s2 => bool_decide (a' = a) && bool_decide (s2 = s') | _ => false end.
Lemma by_run {A} `{!EqDecision A} (m : K A) s a s' : runs_to m s a s' = true → m s = Done a s'.
Proof.
  unfold runs_to. destruct (m s) as [a2 s2 | | | |]; [| done..].
  by intros [-> %bool_decide_eq_true -> %bool_decide_eq_true]%andb_prop.
Qed.
Ltac by_running := apply by_run; vm_compute; reflexivity.

(** A tick interrupt with the timers set up by [m]; [cb] is the code behind
    [P_user n]. *)
Definition tick_setup (m : K unit) : kstate :=
  run_state (os_init;; m;; modify (set_isr_nesting 1)) kstate_reset.
Definition tick (cb : nat → K unit) (fuel : nat) : K unit := os_tick (call_clbck (λ n _, cb n)) fuel.

(** Timer 1 fires in one tick and reloads 4; its callback destroys it. *)
Definition reload_setup : kstate := tick_setup (os_timer_create 3 (TmUser 1) (P_user 0) Param_null 1 4).
Definition destroy_itself (n : nat) : K unit := os_timer_destroy (TmUser 1).

(** After the tick the timer is marked as destroyed, and armed: it will fire again
    in 4 ticks. *)
Example destroyed_timer_rearmed : ∃ s, tick destroy_itself 5 reload_setup = Done tt s ∧
  magic (timer_at s (TmUser 1)) = OS_TIMER_MAGIC2 ∧ armed (list_to_map (lists_of s)) = [TmUser 1] ∧
  remaining s (TmUser 1) = 4.
Proof.
  assert (match tick destroy_itself 5 reload_setup with
    | Done _ s => bool_decide (magic (timer_at s (TmUser 1)) = OS_TIMER_MAGIC2 ∧
        armed (list_to_map (lists_of s)) = [TmUser 1] ∧ remaining s (TmUser 1) = 4)
    | _ => false end = true) as H by (vm_compute; reflexivity).
  destruct (tick _ _ _) as [[] s | | | |]; [| done..]. exists s. split; [done |]. by apply bool_decide_eq_true in H.
Qed.

(** Timers 1 and 2 fire in one tick; the callback of timer 1 destroys timer 2. *)
Definition next_setup : kstate := tick_setup
  (os_timer_create 3 (TmUser 1) (P_user 0) Param_null 1 0;; os_timer_create 3 (TmUser 2) (P_user 1) Param_null 1 0).
Definition destroy_next (n : nat) : K unit := match n with O => os_timer_destroy (TmUser 2) | _ => mret tt end.

(** The state the loop of [timer_trigger] is stuck in, at the destroyed timer. *)
Definition stuck : kstate :=
  run_state
    (provide_link L_autoreload;; on_links (list_init (Some L_autoreload));;
     modify (λ s, set_ticks_cnt (ticks_wrap (ticks_cnt s + 1)) (set_dint true (set_unsynch 1 s)));;
     put_timer (TmUser 1) (Timer 0 0 (P_user 0) Param_null OS_TIMER_MAGIC1);;
     on_links (list_unlink (Some (L_timer (TmUser 1))));;
     os_timer_destroy (TmUser 2)) next_setup.

(** One round of the loop, at timer [x]. *)
Definition trigger_once (call : timer_proc_t → timer_param_t → K unit) (x : tmid) : K (option laddr) :=
  itr ← read_links (get_next (Some (L_timer x)));
  unsynch ← gets timer_tick_unsynch;
  tm ← get_timer x;
  put_timer x (set_ticks_rem (ticks_wrap (ticks_rem tm - unsynch)) tm);;
  if ticks_wrap (ticks_rem tm - unsynch) >? 0 then mret itr else
  on_links (list_unlink (Some (L_timer x)));;
  tm ← get_timer x;
  call (clbck tm) (param tm);;
  tm ← get_timer x;
  when (ticks_reload tm >? 0) (on_links (list_append (Some L_autoreload) (Some (L_timer x))));;
  mret itr.

Lemma trigger_round call n x s itr s' : trigger_once call x s = Done itr s' →
  timer_trigger_loop call (S n) (Some (L_timer x)) s = timer_trigger_loop call n itr s'.
Proof.
  unfold trigger_once.
  intros (i & s1 & H1 & (u & s2 & H2 & (tm & s3 & H3 & ([] & s4 & H4 & H5)%bind_Done_inv)%bind_Done_inv)%bind_Done_inv)%bind_Done_inv.
  cbn [timer_trigger_loop]. change (list_itr_end (Some L_timer_list) (Some (L_timer x))) with false. cbn iota.
  erewrite (bind_Done _ _ s x s) by done. erewrite bind_Done by exact H1. erewrite bind_Done by exact H2.
  erewrite bind_Done by exact H3. erewrite bind_Done by exact H4.
  destruct (ticks_wrap (ticks_rem tm - u) >? 0); [by injection H5 as -> -> |].
  apply bind_Done_inv in H5 as ([] & s5 & H5 & (tm2 & s6 & H6 & ([] & s7 & H7 & (tm3 & s8 & H8 & ([] & s9 & H9 & H10)%bind_Done_inv)%bind_Done_inv)%bind_Done_inv)%bind_Done_inv).
  erewrite bind_Done by exact H5. erewrite bind_Done by exact H6. erewrite bind_Done by exact H7.
  erewrite bind_Done by exact H8. erewrite bind_Done by exact H9. by injection H10 as -> ->.
Qed.

Lemma trigger_stuck call x s : trigger_once call x s = Done (Some (L_timer x)) s →
  ∀ n, timer_trigger_loop call n (Some (L_timer x)) s = NoFuel.
Proof. intros H n. induction n as [| n IH]; [done |]. by rewrite (trigger_round _ _ _ _ _ _ H). Qed.

Lemma stuck_again : trigger_once (call_clbck (λ n _, destroy_next n)) (TmUser 2) stuck = Done (Some (L_timer (TmUser 2))) stuck.
Proof. by_running. Qed.

(** The state in which the tick enters the loop of [timer_trigger]. *)
Definition triggered : kstate :=
  run_state
    (modify (λ s, set_ticks_cnt (ticks_wrap (ticks_cnt s + 1)) (set_dint true (set_unsynch 1 s)));;
     provide_link L_autoreload;; on_links (list_init (Some L_autoreload))) next_setup.

Lemma bind_NoFuel {A B} (m : K A) (f : A → K B) s : m s = NoFuel → (m ≫= f) s = NoFuel.
Proof. unfold mbind, K_bind. by intros ->. Qed.

Lemma loop_hangs n : timer_trigger_loop (call_clbck (λ n _, destroy_next n)) n (Some (L_timer (TmUser 1))) triggered = NoFuel.
Proof.
  destruct n as [| n]; [done |].
  rewrite (trigger_round _ _ _ _ (Some (L_timer (TmUser 2))) stuck) by by_running.
  apply trigger_stuck, stuck_again.
Qed.

(** The loop never ends: no amount of fuel is enough for the tick, which runs with
    interrupts masked. *)
Example destroying_the_next_timer_hangs : ∀ fuel, tick destroy_next fuel next_setup = NoFuel.
Proof.
  intros fuel. unfold tick, os_tick.
  erewrite bind_Done by reflexivity. rewrite OS_ASSERT_true by reflexivity.
  erewrite bind_Done by reflexivity. erewrite bind_Done by reflexivity.
  set (s1 := set_ticks_cnt _ _).
  rewrite (bind_Done _ _ s1 false s1) by by_running. cbn [negb when].
  apply bind_NoFuel. erewrite bind_Done by reflexivity. set (s2 := set_unsynch _ s1).
  rewrite (bind_Done _ _ s2 (Some (L_timer (TmUser 1))) s2) by by_running.
  rewrite (bind_Done _ _ s2 (TmUser 1) s2) by reflexivity.
  rewrite (bind_Done _ _ s2 (timer_at s2 (TmUser 1)) s2) by reflexivity.
  rewrite (bind_Done _ _ s2 1 s2) by reflexivity.
  replace ((1 >=? ticks_rem (timer_at s2 (TmUser 1))) || (1 >? OS_TIMER_UNSYNCH_MAX)) with true by (vm_compute; reflexivity).
  cbn [when]. unfold timer_trigger.
  rewrite (bind_Done _ _ s2 tt (run_state (provide_link L_autoreload) s2)) by reflexivity.
  rewrite (bind_Done _ _ _ tt triggered) by by_running.
  rewrite (bind_Done _ _ triggered (Some (L_timer (TmUser 1))) triggered) by by_running.
  apply bind_NoFuel, loop_hangs.
Qed.

(** Task [t] of priority [prio], with a stack of its own; its start context is left out. *)
Definition new (t : tid) (prio : Z) : api := Api_task_create t prio (1000 * Z.of_nat t) 200 300 0.
Definition no_context (t : tid) (stack size proc param : Z) : K unit := mret tt.

(** A system with one task of priority 2: once started, it runs that task, whose
    TCB says READY. *)
Definition first_run : option machine :=
  boot (λ _ _, mret tt) no_context 10 [new 1 2].
Example first_run_is_ready : ∃ s v p sus, first_run = Some (Running s v p sus) ∧ task_current s = Some 1%nat ∧
  state <$> tasks s !! 1%nat = Some TASKSTATE_READY.
Proof.
  assert (match first_run with
    | Some (Running s _ _ _) => bool_decide (task_current s = Some 1%nat ∧
        state <$> tasks s !! 1%nat = Some TASKSTATE_READY)
    | _ => false end = true) as H by (vm_compute; reflexivity).
  destruct first_run as [[s v p sus |] |]; [| done..]. exists s, v, p, sus. split; [done |].
  by apply bool_decide_eq_true in H.
Qed.

(** Task 2 (priority 3) waits for a semaphore. Task 1 (priority 1) prepares to wait,
    which locks the scheduler; an interrupt wakes its wait queue and signals the
    semaphore. [os_waitqueue_wait] then returns at once: it has unlocked the
    scheduler and asked it for nothing, and task 1 goes on although task 2 is ready. *)
Definition late_script : list event :=
  [Call (Api_sem_down (SemUser 0) OS_TIMEOUT_INFINITE 0); Call (Api_waitqueue_prepare 0); Go;
   Isr [Isr_call (Api_waitqueue_wakeup_sync 0 1 false) []; Isr_call (Api_sem_up_sync (SemUser 0) false) []];
   Call (Api_waitqueue_wait OS_TIMEOUT_INFINITE 0)].
Definition late : option machine :=
  boot (λ _ _ s, Done tt s) no_context 20
    [new 1 1; new 2 3; Api_sem_create (SemUser 0) 0; Api_waitqueue_create 0] ≫=
  run (λ _ _ s, Done tt s) no_context 20 late_script.

Example wait_forgets_the_scheduler : ∃ s v p sus, late = Some (Running s v p sus) ∧
  task_current s = Some 1%nat ∧ prio_current <$> tasks s !! 1%nat = Some 1 ∧ sched_lock s = 0 ∧
  task_queue <$> tasks s !! 2%nat = Some (Some Q_ready) ∧ prio_current <$> tasks s !! 2%nat = Some 3.
Proof.
  assert (match late with
    | Some (Running s _ _ _) => bool_decide (task_current s = Some 1%nat ∧ prio_current <$> tasks s !! 1%nat = Some 1 ∧
        sched_lock s = 0 ∧ task_queue <$> tasks s !! 2%nat = Some (Some Q_ready) ∧ prio_current <$> tasks s !! 2%nat = Some 3)
    | _ => false end = true) as H by (vm_compute; reflexivity).
  destruct late as [[s v p sus |] |]; [| done..]. exists s, v, p, sus. split; [done |]. by apply bool_decide_eq_true in H.
Qed.

(** Task 2 (priority 3) waits for a semaphore, task 1 (priority 1) runs. An interrupt
    enables interrupts, and a nested one signals the semaphore: at nesting level 2
    the request to the scheduler is ignored, and the outer interrupt ends without
    repeating it. Task 1 goes on although task 2 is ready. *)
Definition nested_script : list event :=
  [Call (Api_sem_down (SemUser 0) OS_TIMEOUT_INFINITE 0);
   Isr [Isr_eint; Isr_nested [Isr_call (Api_sem_up_sync (SemUser 0) false) []]]].
Definition nested_wake : option machine :=
  boot (λ _ _ s, Done tt s) no_context 20
    [new 1 1; new 2 3; Api_sem_create (SemUser 0) 0] ≫=
  run (λ _ _ s, Done tt s) no_context 20 nested_script.

Example nested_wake_forgotten : ∃ s v p sus, nested_wake = Some (Running s v p sus) ∧
  task_current s = Some 1%nat ∧ prio_current <$> tasks s !! 1%nat = Some 1 ∧ sched_lock s = 0 ∧ isr_nesting s = 0 ∧
  task_queue <$> tasks s !! 2%nat = Some (Some Q_ready) ∧ prio_current <$> tasks s !! 2%nat = Some 3.
Proof.
  assert (match nested_wake with
    | Some (Running s _ _ _) => bool_decide (task_current s = Some 1%nat ∧ prio_current <$> tasks s !! 1%nat = Some 1 ∧
        sched_lock s = 0 ∧ isr_nesting s = 0 ∧
        task_queue <$> tasks s !! 2%nat = Some (Some Q_ready) ∧ prio_current <$> tasks s !! 2%nat = Some 3)
    | _ => false end = true) as H by (vm_compute; reflexivity).
  destruct nested_wake as [[s v p sus |] |]; [| done..]. exists s, v, p, sus. split; [done |]. by apply bool_decide_eq_true in H.
Qed.

(** ** Interrupting [os_timer_create] *)

(** A task creates a timer of 5 ticks; before the critical section of
    [os_timer_create] an interrupt destroys it. The call then arms it all the same,
    with no ticks left and marked as destroyed; the next tick takes one off: the
    subtraction wraps around and the timer has 65535 ticks to go. *)
Definition destroyed_early : option machine :=
  boot (λ _ _ s, Done tt s) no_context 20 [new 1 1] ≫=
  run (λ _ _ s, Done tt s) no_context 20
    [Call (Api_timer_create (TmUser 0) (P_user 0) Param_null 5 0); Isr [Isr_call (Api_timer_destroy (TmUser 0)) []]; Go].
Definition timer_left (M : option machine) (magic_ rem_ : Z) : bool :=
  match M with
  | Some (Running s _ None _) => bool_decide (armed (list_to_map (lists_of s)) = [TmUser 0] ∧
      magic (timer_at s (TmUser 0)) = magic_ ∧ ticks_rem (timer_at s (TmUser 0)) = rem_)
  | _ => false
  end.

Example destroyed_before_armed : timer_left destroyed_early OS_TIMER_MAGIC2 0 = true ∧
  timer_left (destroyed_early ≫= run (λ _ _ s, Done tt s) no_context 20 [Isr [Isr_call Api_tick []]]) OS_TIMER_MAGIC2 65535 = true.
Proof. split; vm_compute; reflexivity. Qed.

(** The first step of [os_timer_create]: its assertions, and what it writes. *)
Definition create_checks (x : tmid) (timeout : Z) : K unit :=
  OS_ASSERT (timeout >? 0);; OS_ASSERT (timeout <? OS_TIMER_TICKSREM_MAX);;
  tm ← get_timer x; OS_ASSERT (negb (magic tm =? OS_TIMER_MAGIC1)).
Definition create_stores (x : tmid) (cb : timer_proc_t) (pa : timer_param_t) (timeout reload : Z) : K unit :=
  provide_link (L_timer x);; on_links (list_init (Some (L_timer x)));; put_timer x (Timer timeout reload cb pa OS_TIMER_MAGIC1).
Lemma create_init_parts x cb pa timeout reload s :
  os_timer_create_init x cb pa timeout reload s = (create_checks x timeout;; create_stores x cb pa timeout reload) s.
Proof.
  unfold os_timer_create_init, create_checks, create_stores, OS_ASSERT, mbind, K_bind.
  destruct (timeout >? 0); [| done]. cbn. destruct (timeout <? OS_TIMER_TICKSREM_MAX); [| done]. cbn.
  by destruct (negb _).
Qed.

(** An interrupt creates the same timer between the two. *)
Definition create_clash : K unit :=
  create_checks (TmUser 0) 5;;
  isr (λ _ _ s, Done tt s) no_context 3 [Isr_call (Api_timer_create (TmUser 0) (P_user 0) Param_null 5 0) []];;
  create_stores (TmUser 0) (P_user 0) Param_null 5 0.
Definition clashed : kstate := run_state (os_init;; create_clash) kstate_reset.

Lemma seek_stuck x s : read_links (get_next (Some (L_timer x))) s = Done (Some (L_timer x)) s →
  ∀ n, timer_seek n x (Some (L_timer x)) s = NoFuel.
Proof.
  intros H n. induction n as [| n IH]; [done |]. cbn [timer_seek].
  change (list_itr_end (Some L_timer_list) (Some (L_timer x))) with false. cbn iota.
  do 3 erewrite bind_Done by done. cbn beta. rewrite Z.gtb_ltb, Z.ltb_irrefl. by erewrite bind_Done by exact H.
Qed.

(** [list_init] has cut the timer loose from the list, which still leads to it: the
    search for its place in [timer_add] never ends, with interrupts masked. *)
Example create_interrupted_by_create_hangs : (∃ s, (os_init;; create_clash) kstate_reset = Done tt s ∧ s = clashed) ∧
  ∀ fuel, os_timer_create_add fuel (TmUser 0) clashed = NoFuel.
Proof.
  split; [exists clashed; split; [by_running | done] |]. intros fuel. unfold os_timer_create_add.
  erewrite bind_Done by reflexivity. set (s1 := set_dint true clashed).
  rewrite (bind_Done _ _ s1 0 s1) by by_running.
  erewrite bind_Done by reflexivity. erewrite bind_Done by reflexivity. set (s2 := set_timers _ s1).
  apply bind_NoFuel. unfold timer_add.
  rewrite (bind_Done _ _ s2 (Some (L_timer (TmUser 0))) s2) by by_running.
  apply bind_NoFuel, seek_stuck. by_running.
Qed.
